(* ===== verification/_CoqProject ===== *)
-Q . S2P
Prelude.v
Memory.v
A64.v
Frames.v
PageTable.v
PageFree.v
PagingSpec.v
UserMem.v
PageDup.v
PageRange.v
Isolation.v
LoadElf.v
LoadSpec.v
Args.v
KernelMap.v
Start.v
StartSpec.v
KernelStack.v
Interrupts.v
Devices.v
Processes.v
Scheduler.v
ProcOps.v
Demo.v
Sleep.v
Mutex.v
Io.v
Syscalls.v
SyscallSpec.v
SpawnSpec.v
Exceptions.v
ConsoleSpec.v
Unchecked.v
Banner.v
Boot.v
Calm.v
ExecSpec.v
TrapSpec.v
System.v
Vectors.v
Fairness.v
UserLib.v
Shell.v
ShellSpec.v
Tetris.v
TetrisSpec.v
Programs.v
Tests.v
