(* ===== verification/Prelude.v ===== *)
(** * AtOS: a verification development

    AtOS is a small kernel for the Raspberry Pi 3 (AArch64, one core) with its
    user programs.  This library models its Rust code under src/src, and the
    assembly it starts from and is entered through, and proves what makes each
    part correct.

    ** The program and the files that model it

    Memory and address spaces (src/src/kernel/paging.rs).
    - Memory: physical memory as bytes, with the reads and writes of words.
    - Frames: the free list threaded through the free frames themselves
      (init_frames, get_free_frame_pa, add_free_frame).
    - PageTable: the three-level user tables and their operations (ttbr0_to_pa,
      alloc_page, free_page, free_page_table, duplicate_va_space,
      copy_to_pages).
    - PageFree, PagingSpec, UserMem, PageDup, PageRange: what they do, one
      group of operations a file; Isolation: any sequence of them on any number
      of address spaces.
    - KernelMap: the compile-time kernel tables and the register constants.
    - LoadElf (with elf.rs and filesystem.rs): header parsing and load_elf;
      LoadSpec: what it loads, with the BSS.
    - Args (processes.rs and src/src/user/src/lib.rs): the image of the program
      arguments, pushed by the kernel and parsed by the program.
    - KernelStack (kernelstack.rs): the stack slots.

    Assembly.
    - A64: the instructions src/entry.S and src/src/kernel/exceptions.s use, over
      the registers, the system registers and memory; a taken exception.
    - Start, StartSpec (entry.S): every instruction from _start to _rust_main,
      fetched from the address linker.ld gives it through the translation in
      force, which is a walk of the tables in memory.
    - Vectors (exceptions.s): the vector table, SAVE_REG and LOAD_REG with eret,
      against the repr(C) layout of ExceptionContext, and what they are in
      System.

    Processes.
    - Interrupts, Devices: spinlocks and the interrupt mask (interrupts.rs,
      spinlock.rs); UART, GPIO, timer and interrupt routing (peripherals.rs,
      timer.rs, arch/registers.rs) over streams of register reads.
    - Processes: the record [kernel], which is the whole state of the kernel:
      the process table, the frames and memory with the kernel stacks, the
      devices, the core, the console lock and the context of the exception.
    - Scheduler (scheduler.rs), ProcOps (spawn, fork, exec, terminate of
      processes.rs), Sleep, Mutex (mutex.rs), Io (io.rs), Syscalls
      (syscalls.rs), Exceptions (exceptions.rs).
    - ProcOps also has [kernel_ok], the invariant: the table's live address
      spaces, the kernel's own table and the free list own disjoint frames that
      are together exactly those of a [Pool] (Isolation: the list of all frames
      there are, a context of the theorems), so none is lost; and the kernel
      stacks belong to the table.  Boot's [boot_pool] is the pool of the
      machine: the frames of the kernel's table and all above the image.
      SyscallSpec and ConsoleSpec prove the system calls against it, SpawnSpec
      and ExecSpec the start of programs ([world] is its memory part, on which
      each step is one lemma).  Demo has a concrete kernel that satisfies it,
      for the witnesses.
    - Banner (build.rs): the build script, which makes the greeting of the kernel;
      Boot (main.rs): _rust_main, from the statics of the image to init.

    The machine.
    - Calm: the invariant [calm] of a kernel that holds at most the console
      lock, and rules ([triple] below, a Hoare triple over the monad) with which
      the console, the mutex and the sleep of a thread keep it.
    - TrapSpec: every exception a program can raise, down to the choice of the
      next process, keeps [calm] and the address spaces of the other processes.
    - System: the programs of all processes at once.  [turn] is what a process
      does between two returns to user mode (exceptions.s around
      handle_exception_el1), [turns] any sequence of them.
    - Fairness: what the timer and the scheduler's order promise a process that
      is ready.  Its measure, the number of slots the scheduler looks at first,
      is part of what every handler keeps for the others ([place_kept]).
    - Unchecked: what print, read and sleep do with arguments the kernel does
      not check.

    User programs (src/src/user/src).
    - UserLib: the wrappers of stdlib/syscalls.rs and stdlib/syswraps.rs over
      any kernel, a parameter [svc].
    - Shell and ShellSpec: bin/shell.rs.  Tetris and TetrisSpec: bin/tetris.rs.
      Programs: bin/init.rs, bin/wc.rs, bin/echo.rs.  Tests: the programs that
      print (help, info, clear) or try out the system (ptest, waittest,
      exectest), and the start and end of a program (lib.rs).

    ** How the code is translated

    Code that changes state is a function of the monad [M S A] below: it
    returns, panics (an unwrap, an index out of bounds, a panic!), halts (the
    end, an unhandled exception) or is still running when its fuel is spent.
    A component works on its own state; [zoom] with a [Lens] runs it inside
    [kernel].  The kernel's u64 and usize arithmetic wraps as in its release
    build ([add64], ...); the user programs are built in debug (the Makefile
    in src/src/user), where an overflow panics: where it can happen, in
    parse_args! and the game's score, it is [checked_add64].  A panicking
    index is a [panic].  A volatile register is the
    stream of the values it will give.  Memory that the kernel reaches through
    its linear map is the byte array of Memory.  A user access goes through
    [ttbr0_to_pa].

    Parameters stand for what is not code under src/: the bytes of the program
    images, the banner, the geometry of the caches, and, in the parts that put a
    kernel thread to sleep, [resume], what the other threads do until the
    thread runs again; its hypotheses say that they leave the thread's own
    state alone.  Theorems about programs take any kernel that [kernel_serves].

    ** What the theorems show

    - Machine: [system_invariant] (from power-on, through the boot and any served
      turns of any programs, the kernel is consistent each time it returns to
      user mode, and no frame is lost), [system_isolation] (whoever takes no
      turn keeps its memory byte for byte through the served turns of others)
      and, for single calls in any such state, [p_info_turn] and
      [print_turn].  The induction is over [turns]; a step is [trap_ok] of
      TrapSpec.  [timer_turn] and [bounded_bypass]: the timer ends every turn, and
      a ready process is passed over by less than MAX_PROCESSES served turns.
      A turn is served when its system call satisfies [call_fits].
      [read_overwrites] shows why that is asked of the buffer of a read,
      [exec_error_too_late] why of exec; a print from the kernel's half is
      served, with the effect [print_discloses] gives.
    - Assembly: [start_reaches_rust_main] (from either exception level, for any
      cache geometry, the boot code ends in Rust in the upper half, with the
      walk of the tables it linked up equal to [kernel_translate] of KernelMap:
      the linear map all kernel accesses above rely on); [exception_transparent]
      (entry and return give every register back, also when the frame was
      filled from a saved process) and [vectors_refine] ([arrives] and
      [LOAD_REG] of System are what the vectors do).
    - Memory: [process_isolation] (any sequence of operations keeps the frames
      of the address spaces disjoint and accounted for, and untouched spaces
      keep their translations and bytes), and the exact effect of each
      operation, on every branch: allocation and release, deep copy with its
      rollback, loading, the argument image and its round trip.
    - Programs: [load_elf_spec], [run_executable_spec], [sys_exec_spec] (what
      the caller's memory holds is what the new program parses),
      [exec_error_too_late], [bss_overruns], and [rust_main_spec]: the boot
      establishes the invariant and ends in init.
    - Processes: [sys_exit_spec], [sys_wait_spec], and at the
      level of the trap [fork_trap], [user_fault_halts];
      scheduling is round robin with a bounded wait; the mutex excludes
      ([mutex_excludes], by induction on the turns of the processes), locks and
      masks nest; [svc_is_exception] closes the gap between the sleep of a
      kernel thread and the exception it raises.
    - Console: [sys_print_spec] and [sys_read_spec], from the program's buffer
      to the bytes on the UART, with line editing.
    - Shell: every well-formed line runs exactly its words ([shell_runs_line]);
      executing while parsing is the same as parsing first; no input makes the
      shell panic or its parser run for ever.
    - Game: the rules keep the piece and the board legal until the game is over,
      every piece lands, the only panic is the overflow of the score after
      2^64 / 4000 frames of play, and full lines are cleared when no two touch; when two touch one stays
      ([clear_lines_misses]).

    Bounds.  Loops over tables and pages are structural.  A fuel is a bound on
    waiting (for the UART, for a key, for the timer, for a ready process): the
    theorems either hold for every fuel or ask for as many rounds as the
    register streams need.  The shell's parser has the length of the line as
    its fuel, which [shell_line_ends] shows to be enough.

    The boot assembly has no fuel: its theorem has the number of steps under an existential.  In
    [turn] neither the fuel nor the stream of inputs is bounded: a turn is
    there for every number of rounds the handler needs.

    ** Not modelled

    Caches, TLB maintenance and barriers (instructions without effect here);
    access permissions of stores; a second core (the others are parked); the
    debug prints, which are off; the commented-out loaders at the end of
    processes.rs; the text core::fmt makes of a panic message or
    of {:?}; what the_end prints when the scheduler halts (the scheduler's
    [halt] stands for it, and Boot has the function).

    Turns that are not served: a read into the kernel's half, whose effect
    Unchecked gives for a single call; an exec of a file that is not
    loadable, for which there is no room, or whose arguments do not fit, of
    which ExecSpec has the last; a fork of a process whose saved kernel stack
    pointer is not in its stack, or after 2^64 - 1 processes.

    In System, threads that sleep in the kernel come back in the reverse order
    of going to sleep, because the sleep of a thread is a call that returns in
    the model, as it is an svc that returns in the code; the order in which the
    scheduler wakes any number of sleepers is Scheduler's and Mutex's subject.
    A program's stores may go anywhere its tables map, whatever the attributes
    of the page.  A turn ends with the handler's return: a fault, which halts
    the machine ([user_fault_halts]), is none.  A fork for which there is no
    slot, stack or frame does not return ([sys_fork_returns]).

    The theorems on single reads ([sys_read_spec], [read_overwrites]) take
    [resume] to leave the UART's data register alone while the reader sleeps
    ([resumes]: asked where the sleeper is in the table; its instance is the
    scheduler loading the sleeper again).  System has no such condition.

    PAGE_TABLE_KERNEL_L1 (KernelMap) is the table after entry.S linked it; the
    static is zero before.  Vectors leaves out the padding after the last
    vector. *)

From Stdlib Require Import ZArith Lia Ascii String.
From stdpp Require Import base list numbers option strings.

Declare Scope atos_scope.
Delimit Scope atos_scope with atos.

(** ** Machine integers

    [usize] and [u64] are both 64 bits wide on the target.  The kernel image
    is the release build, in which [+], [-], [*] wrap silently; every source
    operation whose operands are not compile-time constants is written with
    the wrapping operations below. *)

Local Open Scope Z_scope.

Definition U64 : Z := 2 ^ 64.
Definition U32 : Z := 2 ^ 32.
Definition U64_MAX : Z := 2 ^ 64 - 1.

Definition wrap64 (z : Z) : Z := z mod U64.
Definition wrap32 (z : Z) : Z := z mod U32.

Definition add64 (a b : Z) : Z := wrap64 (a + b).
Definition sub64 (a b : Z) : Z := wrap64 (a - b).
Definition mul64 (a b : Z) : Z := wrap64 (a * b).
Definition not64 (a : Z) : Z := U64_MAX - a.

(** [checked_mul] and [checked_add] of [u64]. *)
Definition checked_mul64 (a b : Z) : option Z :=
  if a * b <? U64 then Some (a * b) else None.
Definition checked_add64 (a b : Z) : option Z :=
  if a + b <? U64 then Some (a + b) else None.

(** [x as i64] for a [u64] [x], and [x as u64] for an [i64] [x]. *)
Definition as_i64 (x : Z) : Z := if x <? 2 ^ 63 then x else x - U64.
Definition i64_as_u64 (x : Z) : Z := wrap64 x.
Definition as_u8 (x : Z) : Z := x mod 256.
Definition as_u16 (x : Z) : Z := x mod 65536.

Definition is_u64 (z : Z) : Prop := 0 <= z < U64.
Definition is_u8 (z : Z) : Prop := 0 <= z < 256.

#[global] Instance is_u64_dec z : Decision (is_u64 z).
Proof. unfold is_u64. apply _. Defined.
#[global] Instance is_u8_dec z : Decision (is_u8 z).
Proof. unfold is_u8. apply _. Defined.

Create HintDb atos.
Create HintDb word.

#[global] Arguments wrap64 : simpl never.
#[global] Arguments add64 : simpl never.
#[global] Arguments sub64 : simpl never.
#[global] Arguments mul64 : simpl never.
#[global] Arguments not64 : simpl never.

Lemma add64_small a b : 0 <= a + b < U64 -> add64 a b = a + b.
Proof. intros. apply Z.mod_small. assumption. Qed.

Lemma sub64_small a b : 0 <= a - b < U64 -> sub64 a b = a - b.
Proof. intros. apply Z.mod_small. assumption. Qed.

Lemma mul64_small a b : 0 <= a * b < U64 -> mul64 a b = a * b.
Proof. intros. apply Z.mod_small. assumption. Qed.

Lemma wrap64_range z : 0 <= wrap64 z < U64.
Proof. apply Z.mod_pos_bound. reflexivity. Qed.

Lemma as_i64_u64 x : - 2 ^ 63 <= x < 2 ^ 63 -> as_i64 (i64_as_u64 x) = x.
Proof.
  unfold as_i64, i64_as_u64, wrap64, U64. intros H.
  destruct (Z_lt_ge_dec x 0) as [Hn|Hp].
  - replace (x mod 2 ^ 64) with (x + 2 ^ 64)
      by (rewrite <- (Z.mod_add x 1), Z.mod_small; lia).
    destruct (Z.ltb_spec (x + 2 ^ 64) (2 ^ 63)); lia.
  - rewrite Z.mod_small by lia. destruct (Z.ltb_spec x (2 ^ 63)); lia.
Qed.

(** Closes goals about the wrap-around operations whose operands are small. *)
Ltac word_lia := unfold is_u64, is_u8, U64, U32, U64_MAX in *; lia.
Ltac no_wrap :=
  repeat first
    [ rewrite add64_small by word_lia
    | rewrite sub64_small by word_lia
    | rewrite mul64_small by word_lia ].

(** ** Bit masks used by the address arithmetic *)

Lemma land_mask_low n x : 0 <= n -> Z.land x (2 ^ n - 1) = x mod 2 ^ n.
Proof.
  intros. replace (2 ^ n - 1) with (Z.ones n) by (rewrite Z.ones_equiv; lia).
  now apply Z.land_ones.
Qed.

(** [x & !(2^n - 1)] on a word of [w] bits clears the low [n] bits. *)
Lemma land_mask_high w n x :
  0 <= n <= w -> 0 <= x < 2 ^ w ->
  Z.land x (2 ^ w - 2 ^ n) = x - x mod 2 ^ n.
Proof.
  intros Hn Hx.
  assert (x - x mod 2 ^ n = Z.ldiff x (Z.ones n)) as ->.
  { rewrite Z.ldiff_ones_r, Z.shiftl_mul_pow2, Z.shiftr_div_pow2 by lia.
    pose proof (Z.div_mod x (2 ^ n) (Z.pow_nonzero 2 n ltac:(lia) ltac:(lia))). lia. }
  replace (2 ^ w - 2 ^ n) with (Z.shiftl (Z.ones (w - n)) n)
    by (rewrite Z.shiftl_mul_pow2, Z.ones_equiv by lia;
        replace (2 ^ w) with (2 ^ (w - n) * 2 ^ n)
          by (rewrite <- Z.pow_add_r by lia; f_equal; lia); lia).
  apply Z.bits_inj'. intros i Hi.
  rewrite Z.land_spec, Z.ldiff_spec, Z.shiftl_spec, (Z.testbit_ones_nonneg n) by lia.
  destruct (Z.ltb_spec i n).
  - rewrite (Z.testbit_neg_r _ (i - n)) by lia. now rewrite !andb_false_r.
  - rewrite (Z.testbit_ones_nonneg (w - n)) by lia. simpl. rewrite andb_true_r.
    destruct (Z.ltb_spec (i - n) (w - n)); [apply andb_true_r|].
    replace x with (x mod 2 ^ w) by (apply Z.mod_small; lia).
    rewrite Z.mod_pow2_bits_high by lia. reflexivity.
Qed.

(** Or-ing a value below [2^n] into a multiple of [2^n] is an addition. *)
Lemma land_disjoint n a b :
  0 <= n -> a mod 2 ^ n = 0 -> 0 <= b < 2 ^ n -> Z.land a b = 0.
Proof.
  intros Hn Ha Hb. apply Z.bits_inj'. intros i Hi.
  rewrite Z.land_spec, Z.bits_0. destruct (Z.ltb_spec i n).
  - rewrite <- (Z.mod_pow2_bits_low a n i), Ha, Z.bits_0 by lia. reflexivity.
  - rewrite <- (Z.mod_small b (2 ^ n)) by lia.
    rewrite (Z.mod_pow2_bits_high b n i) by lia. apply andb_false_r.
Qed.

Lemma lor_add n a b :
  0 <= n -> a mod 2 ^ n = 0 -> 0 <= b < 2 ^ n -> Z.lor a b = a + b.
Proof.
  intros Hn Ha Hb. pose proof (land_disjoint n a b Hn Ha Hb) as H0.
  rewrite <- Z.lxor_lor by assumption. symmetry. now apply Z.add_nocarry_lxor.
Qed.

(** ** Bytes and little-endian words *)

Abbreviation bytes := (list Z).

Fixpoint le_combine (bs : bytes) : Z :=
  match bs with
  | [] => 0
  | b :: bs' => b + 256 * le_combine bs'
  end.

Fixpoint le_split (n : nat) (v : Z) : bytes :=
  match n with
  | O => []
  | S n' => v mod 256 :: le_split n' (v / 256)
  end.

Lemma length_le_split n v : length (le_split n v) = n.
Proof. revert v. induction n; simpl; auto. Qed.

Lemma le_split_u8 n v : Forall is_u8 (le_split n v).
Proof.
  revert v. induction n as [|n IH]; intros v; simpl; constructor; auto.
  apply Z.mod_pos_bound. reflexivity.
Qed.

Lemma le_combine_split n v :
  le_combine (le_split n v) = v mod 2 ^ (8 * Z.of_nat n).
Proof.
  revert v. induction n as [|n IH]; intros v; simpl le_split; simpl le_combine.
  - now rewrite Z.mod_1_r.
  - rewrite IH. replace (8 * Z.of_nat (S n)) with (8 + 8 * Z.of_nat n) by lia.
    rewrite Z.pow_add_r by lia. change (2 ^ 8) with 256.
    rewrite Z.rem_mul_r by lia. reflexivity.
Qed.

Lemma le_combine_bound bs :
  Forall is_u8 bs -> 0 <= le_combine bs < 2 ^ (8 * Z.of_nat (length bs)).
Proof.
  induction 1 as [|b bs Hb _ IH]; simpl le_combine; simpl length; [cbn; lia|].
  replace (8 * Z.of_nat (S (length bs))) with (8 + 8 * Z.of_nat (length bs)) by lia.
  rewrite Z.pow_add_r by lia. change (2 ^ 8) with 256. unfold is_u8 in Hb. lia.
Qed.

Lemma le_split_combine bs :
  Forall is_u8 bs -> le_split (length bs) (le_combine bs) = bs.
Proof.
  induction 1 as [|b bs Hb _ IH]; [reflexivity|]. unfold is_u8 in Hb.
  cbn [le_split le_combine length].
  rewrite (Z.mul_comm 256), Z.mod_add, Z.mod_small by lia.
  rewrite Z.div_add, Z.div_small, Z.add_0_l by lia. now rewrite IH.
Qed.

Lemma le_split_8_u64 v : is_u64 v -> le_combine (le_split 8 v) = v.
Proof. intros. rewrite le_combine_split. now apply Z.mod_small. Qed.

(** A string literal of the source as the bytes it is encoded with. *)
Definition str (s : string) : bytes :=
  List.map (fun c => Z.of_nat (Ascii.nat_of_ascii c)) (String.list_ascii_of_string s).

(** [u8::is_ascii_whitespace]: tab, line feed, form feed, carriage return, space. *)
Definition is_ascii_whitespace (b : Z) : bool :=
  (b =? 9) || (b =? 10) || (b =? 12) || (b =? 13) || (b =? 32).

(** [core::str::from_utf8(bytes).is_ok()]: the byte sequences of well-formed
    UTF-8, without overlong forms, surrogates or code points above U+10FFFF. *)
Definition in_range (a b x : Z) : bool := (a <=? x) && (x <=? b).
Definition utf8_cont (b : Z) : bool := in_range 0x80 0xBF b.

Fixpoint utf8_valid (l : bytes) : bool :=
  match l with
  | [] => true
  | b0 :: l0 =>
      if b0 <? 0x80 then utf8_valid l0 else
      match l0 with
      | [] => false
      | b1 :: l1 =>
          if in_range 0xC2 0xDF b0 then utf8_cont b1 && utf8_valid l1 else
          match l1 with
          | [] => false
          | b2 :: l2 =>
              if in_range 0xE0 0xEF b0 then
                in_range (if b0 =? 0xE0 then 0xA0 else 0x80)
                         (if b0 =? 0xED then 0x9F else 0xBF) b1
                && utf8_cont b2 && utf8_valid l2
              else
              match l2 with
              | [] => false
              | b3 :: l3 =>
                  in_range 0xF0 0xF4 b0
                  && in_range (if b0 =? 0xF0 then 0x90 else 0x80)
                              (if b0 =? 0xF4 then 0x8F else 0xBF) b1
                  && utf8_cont b2 && utf8_cont b3 && utf8_valid l3
              end
          end
      end
  end.

(** [image[dst..dst + bs.len()].copy_from_slice(bs)] on a list of bytes. *)
Definition splice (l : bytes) (dst : nat) (bs : bytes) : bytes :=
  take dst l ++ bs ++ drop (dst + length bs) l.

(** ** Results and outcomes *)

(** Rust's [Result<A, &'static str>]. *)
Inductive result (A : Type) : Type :=
| ROk (a : A)
| RErr (e : string).
Arguments ROk {A} a.
Arguments RErr {A} e.

(** What a piece of kernel code does when it runs: it returns, it panics
    (the panic handler prints and spins for ever), it halts in
    [unhandled_exception!] or [the_end], or it is still looping when the fuel
    of a model of an unbounded loop is spent. *)
Inductive outcome (S A : Type) : Type :=
| Done (a : A) (s : S)
| Panic (msg : string)
| Halt (why : string)
| Diverge.
Arguments Done {S A} a s.
Arguments Panic {S A} msg.
Arguments Halt {S A} why.
Arguments Diverge {S A}.

Definition M (S A : Type) : Type := S -> outcome S A.

Definition ret {S A} (a : A) : M S A := fun s => Done a s.
Definition bind {S A B} (m : M S A) (f : A -> M S B) : M S B :=
  fun s => match m s with
           | Done a s' => f a s'
           | Panic e => Panic e
           | Halt w => Halt w
           | Diverge => Diverge
           end.
Definition panic {S A} (msg : string) : M S A := fun _ => Panic msg.
Definition halt {S A} (why : string) : M S A := fun _ => Halt why.
Definition diverge {S A} : M S A := fun _ => Diverge.
Definition gets {S A} (f : S -> A) : M S A := fun s => Done (f s) s.
Definition modify {S} (f : S -> S) : M S unit := fun s => Done tt (f s).
Definition skip {S} : M S unit := ret tt.

(** [Option::expect] and [Result::unwrap]. *)
Definition expect {S A} (o : option A) (msg : string) : M S A :=
  match o with Some a => ret a | None => panic msg end.
Definition unwrap {S A} (r : result A) : M S A :=
  match r with ROk a => ret a | RErr e => panic e end.

Notation "'let*' x ':=' m 'in' k" := (bind m (fun x => k))
  (at level 10, x pattern, m at level 100, k at level 200) : atos_scope.
Notation "m ;; k" := (bind m (fun _ => k))
  (at level 100, k at level 200, right associativity) : atos_scope.

(** [let x = m?; k] for an [m] that returns a [Result]. *)
Definition bind_try {S A B} (m : M S (result A)) (f : A -> M S (result B))
  : M S (result B) :=
  bind m (fun r => match r with ROk a => f a | RErr e => ret (RErr e) end).
Notation "'let?' x ':=' m 'in' k" := (bind_try m (fun x => k))
  (at level 10, x pattern, m at level 100, k at level 200) : atos_scope.

Open Scope atos_scope.

(** [for x in l { body }], with an early [return Some(r)] in [for_ret] and a
    [?] in the body in [for_try]. *)
Fixpoint for_in {S A} (l : list A) (body : A -> M S unit) : M S unit :=
  match l with
  | [] => skip
  | x :: l' => body x ;; for_in l' body
  end.

Fixpoint for_ret {S A R} (l : list A) (body : A -> M S (option R))
  : M S (option R) :=
  match l with
  | [] => ret None
  | x :: l' => let* r := body x in
               match r with Some v => ret (Some v) | None => for_ret l' body end
  end.

Fixpoint for_try {S A} (l : list A) (body : A -> M S (result unit))
  : M S (result unit) :=
  match l with
  | [] => ret (ROk tt)
  | x :: l' => let? _ := body x in for_try l' body
  end.

(** [while cond { body }]: [fuel] bounds the number of iterations. *)
Fixpoint while_fuel {S} (fuel : nat) (cond : S -> bool) (body : M S unit)
  : M S unit :=
  fun s => if cond s
           then match fuel with
                | O => Diverge
                | S f => bind body (fun _ => while_fuel f cond body) s
                end
           else Done tt s.

(** ** Reasoning about outcomes *)

(** [wp m Q s]: from [s], [m] returns, and with a value and a state in [Q]. *)
Definition wp {S A} (m : M S A) (Q : A -> S -> Prop) (s : S) : Prop :=
  match m s with Done a s' => Q a s' | _ => False end.

Section wp_rules.
  Context {St : Type}.

Lemma wp_ret {A} (a : A) (Q : A -> St -> Prop) s : Q a s -> wp (ret a) Q s.
  Proof. auto. Qed.

Lemma wp_bind {A B} (m : M St A) (f : A -> M St B) Q s :
    wp m (fun a s' => wp (f a) Q s') s -> wp (bind m f) Q s.
  Proof. unfold wp, bind. destruct (m s); auto. Qed.

Lemma wp_mono {A} (m : M St A) (P Q : A -> St -> Prop) s :
    wp m P s -> (forall a s', P a s' -> Q a s') -> wp m Q s.
  Proof. unfold wp. destruct (m s); auto. Qed.

Lemma wp_gets {A} (f : St -> A) Q s : Q (f s) s -> wp (gets f) Q s.
  Proof. auto. Qed.

Lemma wp_modify (f : St -> St) (Q : unit -> St -> Prop) s :
    Q tt (f s) -> wp (modify f) Q s.
  Proof. auto. Qed.

Lemma wp_done {A} (m : M St A) (Q : A -> St -> Prop) s :
    wp m Q s <-> exists a s', m s = Done a s' /\ Q a s'.
  Proof.
    unfold wp. destruct (m s) as [a s'|e|w|]; split; try tauto.
    - eauto.
    - intros (a1 & s1 & [= <- <-] & HQ). exact HQ.
    - intros (? & ? & [=] & _).
    - intros (? & ? & [=] & _).
    - intros (? & ? & [=] & _).
  Qed.

Lemma bind_done {A B} (m : M St A) (f : A -> M St B) s b s' :
    bind m f s = Done b s' <->
    exists a s1, m s = Done a s1 /\ f a s1 = Done b s'.
  Proof.
    unfold bind. destruct (m s) as [a s1|e|w|]; split; try discriminate.
    - eauto.
    - intros (? & ? & [= <- <-] & H). exact H.
    - intros (? & ? & [=] & _).
    - intros (? & ? & [=] & _).
    - intros (? & ? & [=] & _).
  Qed.

Lemma bind_run {A B} (m : M St A) (f : A -> M St B) s a s1 :
    m s = Done a s1 -> bind m f s = f a s1.
  Proof. unfold bind. now intros ->. Qed.

Lemma bind_panic {A B} (m : M St A) (f : A -> M St B) s e :
    m s = Panic e -> bind m f s = Panic e.
  Proof. unfold bind. now intros ->. Qed.

Lemma bind_diverge {A B} (m : M St A) (f : A -> M St B) s :
    m s = Diverge -> bind m f s = Diverge.
  Proof. unfold bind. now intros ->. Qed.

  (** A loop over a list keeps an invariant indexed by what is left of it. *)
Lemma wp_for_in {A} (I : list A -> St -> Prop) (l : list A)
      (body : A -> M St unit) s :
    I l s ->
    (forall x l' s, I (x :: l') s -> wp (body x) (fun _ => I l') s) ->
    wp (for_in l body) (fun _ => I []) s.
  Proof.
    intros HI Hstep. revert s HI. induction l as [|x l IH]; intros s HI.
    - exact HI.
    - simpl. apply wp_bind. eapply wp_mono; [eapply Hstep; exact HI|]. auto.
  Qed.
End wp_rules.

#[global] Instance wp_proper {S A} (m : M S A) :
  Proper (pointwise_relation A (pointwise_relation S impl) ==>
          pointwise_relation S impl) (wp m).
Proof. intros P Q HPQ s H. eapply wp_mono; [exact H|]. exact HPQ. Qed.

#[export] Hint Resolve wp_ret wp_bind wp_gets wp_modify : atos.

(** Steps through the leading straight-line code of a [wp] goal. *)
Ltac wp_step :=
  lazymatch goal with
  | |- wp (bind _ _) _ _ => apply wp_bind
  | |- wp (bind_try _ _) _ _ => unfold bind_try; apply wp_bind
  | |- wp (ret _) _ _ => apply wp_ret
  | |- wp skip _ _ => apply wp_ret
  | |- wp (gets _) _ _ => apply wp_gets
  | |- wp (modify _) _ _ => apply wp_modify
  | |- wp (fun _ => _) _ _ => unfold wp at 1
  end; cbv beta.
Ltac wp_steps := repeat wp_step.

(** [triple P m Q]: when [m] returns, started in [P], it does so in [Q].  The
    invariants of programs that may also panic, halt or go on for ever. *)
Definition triple {S A} (P : S -> Prop) (m : M S A) (Q : A -> S -> Prop) : Prop :=
  forall s a s', P s -> m s = Done a s' -> Q a s'.

Section triple_rules.
  Context {St : Type}.
  Implicit Types P : St -> Prop.

Lemma triple_ret {A} (a : A) P : triple P (ret a) (fun b s => b = a /\ P s).
  Proof. intros s b s' H [= <- <-]. auto. Qed.

Lemma triple_skip P : triple P skip (fun _ => P).
  Proof. intros s b s' H [= _ <-]. exact H. Qed.

Lemma triple_bind {A B} P (m : M St A) (f : A -> M St B) Q (R : B -> St -> Prop) :
    triple P m Q -> (forall a, triple (Q a) (f a) R) -> triple P (bind m f) R.
  Proof. intros Hm Hf s b s' H (a & s1 & H1 & H2)%bind_done. exact (Hf a s1 b s' (Hm s a s1 H H1) H2). Qed.

Lemma triple_weaken {A} (P P' : St -> Prop) (m : M St A) (Q Q' : A -> St -> Prop) :
    triple P m Q -> (forall s, P' s -> P s) -> (forall a s, Q a s -> Q' a s) -> triple P' m Q'.
  Proof. intros H HP HQ s a s' Hs Hr. eauto. Qed.

Lemma triple_gets {A} (f : St -> A) P : triple P (gets f) (fun a s => a = f s /\ P s).
  Proof. intros s a s' H [= <- <-]. auto. Qed.

Lemma triple_modify (f : St -> St) P (Q : unit -> St -> Prop) :
    (forall s, P s -> Q tt (f s)) -> triple P (modify f) Q.
  Proof. intros H s a s' Hs Hr. injection Hr as <- <-. auto. Qed.

Lemma triple_panic {A} P (Q : A -> St -> Prop) e : triple P (panic e) Q.
  Proof. intros s a s' _ [=]. Qed.

Lemma triple_halt {A} P (Q : A -> St -> Prop) e : triple P (halt e) Q.
  Proof. intros s a s' _ [=]. Qed.

Lemma triple_diverge {A} P (Q : A -> St -> Prop) : triple P diverge Q.
  Proof. intros s a s' _ [=]. Qed.

Lemma triple_for_in {A} P (l : list A) (body : A -> M St unit) :
    (forall x, x ∈ l -> triple P (body x) (fun _ => P)) -> triple P (for_in l body) (fun _ => P).
  Proof.
    induction l as [|x l IH]; intros H; [apply triple_skip|].
    eapply triple_bind; [apply H; left|]. intros a. apply IH. intros y Hy. apply H. now right.
  Qed.

  (** From a known premise on the initial state. *)
Lemma triple_pure {A} (F : Prop) P (m : M St A) Q :
    (F -> triple P m Q) -> triple (fun s => F /\ P s) m Q.
  Proof. intros H s a s' Hs Hr. destruct Hs as [HF Hs]. exact (H HF s a s' Hs Hr). Qed.
End triple_rules.

#[export] Hint Resolve triple_skip triple_panic triple_halt triple_diverge : atos.

(** Runs the first command of a sequence, whose result is known. *)
Tactic Notation "run_step" uconstr(H) := erewrite bind_run; [cbv beta|apply H].

(** Unfolds the monad's operations, to run straight-line code. *)
Ltac run_m := cbv beta iota delta [bind bind_try ret gets modify skip].
Tactic Notation "run_m" "in" hyp(H) :=
  cbv beta iota delta [bind bind_try ret gets modify skip] in H.

(** Inverts equations [m s = Done a s'] built from the monad's operations. *)
Ltac inv_done :=
  repeat match goal with
  | H : bind _ _ _ = Done _ _ |- _ =>
      apply bind_done in H; destruct H as (? & ? & ? & H); cbv beta in H
  | H : bind_try _ _ _ = Done _ _ |- _ => unfold bind_try in H
  | H : ret _ _ = Done _ _ |- _ => unfold ret in H
  | H : gets _ _ = Done _ _ |- _ => unfold gets in H
  | H : modify _ _ = Done _ _ |- _ => unfold modify in H
  | H : skip _ = Done _ _ |- _ => unfold skip, ret in H
  | H : panic _ _ = Done _ _ |- _ => discriminate H
  | H : halt _ _ = Done _ _ |- _ => discriminate H
  | H : diverge _ = Done _ _ |- _ => discriminate H
  | H : Done _ _ = Done _ _ |- _ => injection H; clear H; intros; subst
  | H : ROk _ = ROk _ |- _ => injection H; clear H; intros; subst
  | H : ROk _ = RErr _ |- _ => discriminate H
  | H : RErr _ = ROk _ |- _ => discriminate H
  end.

(** ** Lenses: running a component's code inside a larger state *)

Record Lens (S T : Type) := mkLens {
  view : S -> T;
  set : T -> S -> S;
  view_set : forall t s, view (set t s) = t;
  set_view : forall s, set (view s) s = s;
  set_set : forall t t' s, set t (set t' s) = set t s;
}.
Arguments view {S T} l s.
Arguments set {S T} l t s.

Definition zoom {S T A} (l : Lens S T) (m : M T A) : M S A :=
  fun s => match m (view l s) with
           | Done a t => Done a (set l t s)
           | Panic e => Panic e
           | Halt w => Halt w
           | Diverge => Diverge
           end.

Lemma wp_zoom {S T A} (l : Lens S T) (m : M T A) (Q : A -> S -> Prop) s :
  wp m (fun a t => Q a (set l t s)) (view l s) -> wp (zoom l m) Q s.
Proof. unfold wp, zoom. destruct (m (view l s)); auto. Qed.

Lemma zoom_done {S T A} (l : Lens S T) (m : M T A) s a s' :
  zoom l m s = Done a s' <->
  exists t, m (view l s) = Done a t /\ s' = set l t s.
Proof.
  unfold zoom. destruct (m (view l s)); split; try discriminate.
  - intros [= <- <-]. eauto.
  - intros (? & [= <- <-] & ->). reflexivity.
  - intros (? & [=] & _).
  - intros (? & [=] & _).
  - intros (? & [=] & _).
Qed.

Lemma zoom_panic {S T A} (l : Lens S T) (m : M T A) s e : m (view l s) = Panic e -> zoom l m s = Panic e.
Proof. unfold zoom. now intros ->. Qed.

Lemma triple_zoom {S T A} (l : Lens S T) P (m : M T A) Q :
  triple P m Q -> triple (fun s => P (view l s)) (zoom l m) (fun a s => Q a (view l s)).
Proof. intros H s a s' Hs (t & Hm & ->)%zoom_done. rewrite view_set. exact (H _ _ _ Hs Hm). Qed.

(** ** Lists of table slots and of address ranges *)

(** [(first..limit).step_by(step)]. *)
Definition step_range (first limit step : Z) : list Z :=
  (fun i => first + i * step) <$> seqZ 0 (Z.max 0 ((limit - first + step - 1) / step)).

(** The first slot of a table that satisfies [P], with its index. *)
Fixpoint find_slot {A} (P : A -> bool) (l : list A) : option (nat * A) :=
  match l with
  | [] => None
  | x :: l' => if P x then Some (O, x)
               else prod_map S id <$> find_slot P l'
  end.

Lemma find_slot_Some {A} (P : A -> bool) l i x :
  find_slot P l = Some (i, x) <->
  l !! i = Some x /\ P x = true /\
  forall j y, (j < i)%nat -> l !! j = Some y -> P y = false.
Proof.
  revert i. induction l as [|y l IH]; intros i; simpl.
  - split; [discriminate|]. intros (H & _). discriminate.
  - destruct (P y) eqn:HP.
    + split.
      * intros [= <- <-]. split; [reflexivity|]. split; [assumption|]. intros; lia.
      * intros (Hl & HPx & Hmin). destruct i as [|i]; [simpl in Hl; congruence|].
        specialize (Hmin O y ltac:(lia) eq_refl). congruence.
    + destruct (find_slot P l) as [[k z]|] eqn:Hf; simpl.
      * split.
        -- intros [= <- <-]. destruct (proj1 (IH k) eq_refl) as (Hl & HPx & Hmin).
           repeat split; auto. intros [|j] w Hj Hw; simpl in Hw; [congruence|].
           apply (Hmin j w); [lia|assumption].
        -- intros (Hl & HPx & Hmin). destruct i as [|i]; simpl in Hl; [congruence|].
           assert (Some (k, z) = Some (i, x)) as [= -> ->]; [|reflexivity].
           apply IH. repeat split; auto. intros j w Hj Hw. apply (Hmin (S j) w); [lia|auto].
      * split; [discriminate|]. intros (Hl & HPx & Hmin).
        destruct i as [|i]; simpl in Hl; [congruence|].
        assert (@None (nat * A) = Some (i, x)) by
          (apply IH; repeat split; auto; intros j w Hj Hw; apply (Hmin (S j) w); [lia|auto]).
        discriminate.
Qed.

Lemma find_slot_None {A} (P : A -> bool) l :
  find_slot P l = None <-> forall x, x ∈ l -> P x = false.
Proof.
  induction l as [|y l IH]; simpl; split.
  - intros _ x Hx. inversion Hx.
  - reflexivity.
  - destruct (P y) eqn:HP; [discriminate|]. destruct (find_slot P l); [discriminate|].
    intros _ x Hx. apply elem_of_cons in Hx as [->|Hx]; [assumption|].
    now apply (proj1 IH eq_refl).
  - intros H. rewrite (H y) by left. rewrite (proj2 IH); [reflexivity|].
    intros x Hx. apply H. now right.
Qed.
