(* ===== verification/Memory.v ===== *)
(** Physical memory as the kernel's pointer operations see it: bytes indexed
    by physical address, with the reads and writes of the widths the source
    uses ([u8], [u64]), [core::ptr::write_bytes] with value 0 and
    [core::ptr::copy_nonoverlapping].  The kernel reaches physical memory
    through the linear map of its TTBR1 space; [ttbr1_to_va] and [ttbr1_to_pa]
    are the two conversion macros at the end of src/src/kernel/paging.rs. *)

From Stdlib Require Import ZArith Lia.
From stdpp Require Import base numbers list.
From S2P Require Import Prelude.

Local Open Scope Z_scope.

Definition mem := Z -> Z.

Definition empty_mem : mem := fun _ => 0.

Definition read_bytes (m : mem) (a : Z) (n : nat) : bytes :=
  (fun i => m (a + i)) <$> seqZ 0 (Z.of_nat n).

Definition read64 (m : mem) (a : Z) : Z :=
  le_combine [m a; m (a + 1); m (a + 2); m (a + 3);
              m (a + 4); m (a + 5); m (a + 6); m (a + 7)].

Definition write_list (m : mem) (a : Z) (bs : bytes) : mem :=
  fun x => if (a <=? x) && (x <? a + Z.of_nat (length bs))
           then nth (Z.to_nat (x - a)) bs 0 else m x.

Definition write64 (m : mem) (a v : Z) : mem := write_list m a (le_split 8 v).

(** [core::ptr::write_bytes(a, 0, n)] *)
Definition write_zero (m : mem) (a n : Z) : mem :=
  fun x => if (a <=? x) && (x <? a + n) then 0 else m x.

(** [core::ptr::copy_nonoverlapping(src, dst, n)] *)
Definition copy_mem (m : mem) (src dst n : Z) : mem :=
  fun x => if (dst <=? x) && (x <? dst + n) then m (x - dst + src) else m x.

(** *** The kernel's linear map *)

Definition KERNEL_BASE : Z := 0xffffff8000000000.
Definition TTBR1_PA_MASK : Z := 0x0000007FFFFFFFFF.

Definition ttbr1_to_va (addr : Z) : Z := Z.lor addr KERNEL_BASE.
Definition ttbr1_to_pa (addr : Z) : Z := Z.land addr TTBR1_PA_MASK.

#[global] Arguments ttbr1_to_va : simpl never.
#[global] Arguments ttbr1_to_pa : simpl never.
#[global] Arguments read64 : simpl never.
#[global] Arguments write_list : simpl never.
#[global] Arguments write64 : simpl never.
#[global] Arguments write_zero : simpl never.
#[global] Arguments copy_mem : simpl never.

Lemma ttbr1_to_va_add a : 0 <= a < 2 ^ 39 -> ttbr1_to_va a = KERNEL_BASE + a.
Proof.
  intros H. unfold ttbr1_to_va. rewrite Z.lor_comm.
  apply (lor_add 39); [lia|reflexivity|assumption].
Qed.

Lemma ttbr1_to_pa_mod a : ttbr1_to_pa a = a mod 2 ^ 39.
Proof. apply (land_mask_low 39). lia. Qed.

Lemma ttbr1_pa_va a : 0 <= a < 2 ^ 39 -> ttbr1_to_pa (ttbr1_to_va a) = a.
Proof.
  intros H. rewrite ttbr1_to_pa_mod, ttbr1_to_va_add by assumption.
  unfold KERNEL_BASE. change 0xffffff8000000000 with (33554431 * 2 ^ 39).
  rewrite Z.add_comm, Z.mod_add by lia. now apply Z.mod_small.
Qed.

Lemma ttbr1_va_pa a :
  KERNEL_BASE <= a < U64 -> ttbr1_to_va (ttbr1_to_pa a) = a.
Proof.
  intros H. rewrite ttbr1_to_pa_mod. unfold KERNEL_BASE, U64 in H.
  rewrite ttbr1_to_va_add by (apply Z.mod_pos_bound; lia). unfold KERNEL_BASE.
  replace (a mod 2 ^ 39) with (a - 0xffffff8000000000); [lia|].
  apply Z.mod_unique with 33554431; lia.
Qed.

(** Applying the macro to an address that is already in the kernel's half
    leaves it alone: [free_stack] passes such an address as a table root. *)
Lemma ttbr1_to_va_idemp a : ttbr1_to_va (ttbr1_to_va a) = ttbr1_to_va a.
Proof. unfold ttbr1_to_va. now rewrite <- Z.lor_assoc, Z.lor_diag. Qed.

(** *** Well-formed memory and reads over writes *)

Definition mem_ok (m : mem) : Prop := forall a, is_u8 (m a).

(** Two memories that hold the same bytes; the coarser equality under which
    the read operations are proper. *)
Definition mem_eq (m m' : mem) : Prop := forall a, m a = m' a.

#[global] Instance mem_eq_equiv : Equivalence mem_eq.
Proof.
  split; [now intros ? ?|now intros ? ? H ?|].
  intros m1 m2 m3 H1 H2 a. now rewrite (H1 a).
Qed.

#[global] Instance read64_proper : Proper (mem_eq ==> eq ==> eq) read64.
Proof. intros m m' H a ? <-. unfold read64. now rewrite !H. Qed.

#[global] Instance write_list_proper :
  Proper (mem_eq ==> eq ==> eq ==> mem_eq) write_list.
Proof.
  intros m m' H a ? <- bs ? <- x. unfold write_list.
  destruct (_ && _); [reflexivity|apply H].
Qed.

Lemma read64_u64 m a : mem_ok m -> is_u64 (read64 m a).
Proof.
  intros H. unfold read64, is_u64, U64.
  apply (le_combine_bound [_; _; _; _; _; _; _; _]).
  repeat constructor; apply H.
Qed.

Lemma mem_ok_write_list m a bs :
  mem_ok m -> Forall is_u8 bs -> mem_ok (write_list m a bs).
Proof.
  intros Hm Hbs x. unfold write_list.
  destruct (_ && _) eqn:E; [|apply Hm].
  apply andb_prop in E as [E1 E2]. apply Z.leb_le in E1. apply Z.ltb_lt in E2.
  rewrite nth_lookup. destruct (bs !! Z.to_nat (x - a)) eqn:Hl; simpl.
  - eapply Forall_lookup_1; eauto.
  - unfold is_u8. lia.
Qed.

Lemma mem_ok_write64 m a v : mem_ok m -> mem_ok (write64 m a v).
Proof. intros. apply mem_ok_write_list; [assumption|apply le_split_u8]. Qed.

Lemma mem_ok_write_zero m a n : mem_ok m -> mem_ok (write_zero m a n).
Proof.
  intros H x. unfold write_zero. destruct (_ && _); [unfold is_u8; lia|apply H].
Qed.

Lemma mem_ok_copy m s d n : mem_ok m -> mem_ok (copy_mem m s d n).
Proof. intros H x. unfold copy_mem. destruct (_ && _); apply H. Qed.

#[export] Hint Resolve read64_u64 mem_ok_write64 mem_ok_write_zero
  mem_ok_copy mem_ok_write_list : atos.

Lemma write_list_in m a bs x :
  a <= x < a + Z.of_nat (length bs) ->
  write_list m a bs x = nth (Z.to_nat (x - a)) bs 0.
Proof.
  intros H. unfold write_list.
  destruct (Z.leb_spec a x); [|lia].
  destruct (Z.ltb_spec x (a + Z.of_nat (length bs))); [reflexivity|lia].
Qed.

Lemma write_list_out m a bs x :
  ~ (a <= x < a + Z.of_nat (length bs)) -> write_list m a bs x = m x.
Proof.
  intros H. unfold write_list.
  destruct (Z.leb_spec a x); [|reflexivity].
  destruct (Z.ltb_spec x (a + Z.of_nat (length bs))); [lia|reflexivity].
Qed.

Lemma write64_out m a v x : ~ (a <= x < a + 8) -> write64 m a v x = m x.
Proof.
  intros. apply write_list_out. rewrite length_le_split. assumption.
Qed.

Lemma write_zero_in m a n x : a <= x < a + n -> write_zero m a n x = 0.
Proof.
  intros H. unfold write_zero. destruct (Z.leb_spec a x); [|lia].
  destruct (Z.ltb_spec x (a + n)); [reflexivity|lia].
Qed.

Lemma write_zero_out m a n x : ~ (a <= x < a + n) -> write_zero m a n x = m x.
Proof.
  intros H. unfold write_zero. destruct (Z.leb_spec a x); [|reflexivity].
  destruct (Z.ltb_spec x (a + n)); [lia|reflexivity].
Qed.

Lemma copy_mem_in m s d n x : d <= x < d + n -> copy_mem m s d n x = m (x - d + s).
Proof.
  intros H. unfold copy_mem. destruct (Z.leb_spec d x); [|lia].
  destruct (Z.ltb_spec x (d + n)); [reflexivity|lia].
Qed.

Lemma copy_mem_out m s d n x : ~ (d <= x < d + n) -> copy_mem m s d n x = m x.
Proof.
  intros H. unfold copy_mem. destruct (Z.leb_spec d x); [|reflexivity].
  destruct (Z.ltb_spec x (d + n)); [lia|reflexivity].
Qed.

Lemma read64_ext m m' a :
  (forall x, a <= x < a + 8 -> m' x = m x) -> read64 m' a = read64 m a.
Proof.
  intros H. unfold read64. rewrite !H by lia. reflexivity.
Qed.

Lemma read64_write64_same m a v : is_u64 v -> read64 (write64 m a v) a = v.
Proof.
  intros Hv. unfold read64, write64.
  rewrite !write_list_in by (rewrite length_le_split; lia).
  replace (a - a) with 0 by lia.
  replace (a + 1 - a) with 1 by lia. replace (a + 2 - a) with 2 by lia.
  replace (a + 3 - a) with 3 by lia. replace (a + 4 - a) with 4 by lia.
  replace (a + 5 - a) with 5 by lia. replace (a + 6 - a) with 6 by lia.
  replace (a + 7 - a) with 7 by lia.
  exact (le_split_8_u64 v Hv).
Qed.

Lemma read64_write64_ne m a b v :
  b + 8 <= a \/ a + 8 <= b -> read64 (write64 m a v) b = read64 m b.
Proof. intros H. apply read64_ext. intros x Hx. apply write64_out. lia. Qed.

Lemma read64_write_zero_in m a n b :
  a <= b -> b + 8 <= a + n -> read64 (write_zero m a n) b = 0.
Proof.
  intros H1 H2. unfold read64. rewrite !write_zero_in by lia. reflexivity.
Qed.

Lemma read64_write_zero_out m a n b :
  b + 8 <= a \/ a + n <= b -> read64 (write_zero m a n) b = read64 m b.
Proof. intros H. apply read64_ext. intros x Hx. apply write_zero_out. lia. Qed.

Lemma length_read_bytes m a n : length (read_bytes m a n) = n.
Proof. unfold read_bytes. rewrite length_fmap, length_seqZ. lia. Qed.

Lemma lookup_read_bytes m a n i :
  (i < n)%nat -> read_bytes m a n !! i = Some (m (a + Z.of_nat i)).
Proof.
  intros H. unfold read_bytes. rewrite list_lookup_fmap, lookup_seqZ_lt by lia.
  reflexivity.
Qed.

(** *** Frames *)

Definition PAGE_SIZE : Z := 4096.
Definition PAGE_ENTRIES : Z := PAGE_SIZE / 8.

(** A frame of the physical memory that the kernel's linear map covers. *)
Definition frame_pa (p : Z) : Prop := 0 <= p < 2 ^ 31 /\ p mod 4096 = 0.
Definition in_frame (p x : Z) : Prop := p <= x < p + 4096.

#[global] Instance frame_pa_dec p : Decision (frame_pa p).
Proof. unfold frame_pa. apply _. Defined.

Lemma in_frame_inj p q x :
  frame_pa p -> frame_pa q -> in_frame p x -> in_frame q x -> p = q.
Proof.
  unfold frame_pa, in_frame. intros [_ Hp] [_ Hq] H1 H2.
  apply Z.div_exact in Hp; [|lia]. apply Z.div_exact in Hq; [|lia]. lia.
Qed.

(** [changed m m' D]: going from [m] to [m'] touches no byte outside the
    frames of [D]. *)
Definition changed (m m' : mem) (D : list Z) : Prop :=
  forall x, (forall d, d ∈ D -> ~ in_frame d x) -> m' x = m x.

Lemma changed_refl m D : changed m m D.
Proof. now intros x _. Qed.

Lemma changed_trans m1 m2 m3 D :
  changed m1 m2 D -> changed m2 m3 D -> changed m1 m3 D.
Proof. intros H1 H2 x Hx. rewrite (H2 x Hx). apply H1, Hx. Qed.

Lemma changed_weaken m m' D D' :
  changed m m' D -> (forall d, d ∈ D -> d ∈ D') -> changed m m' D'.
Proof. intros H HD x Hx. apply H. intros d Hd. apply Hx, HD, Hd. Qed.

Lemma changed_frame m m' D p x :
  changed m m' D -> frame_pa p -> Forall frame_pa D -> p ∉ D ->
  in_frame p x -> m' x = m x.
Proof.
  intros H Hp HD Hnot Hx. apply H. intros d Hd Hdx. apply Hnot.
  rewrite Forall_forall in HD. now rewrite (in_frame_inj p d x Hp (HD d Hd) Hx Hdx).
Qed.

Lemma changed_write64 m p a v D :
  p ∈ D -> p <= a -> a + 8 <= p + 4096 -> changed m (write64 m a v) D.
Proof.
  intros Hp H1 H2 x Hx. apply write64_out. intros H.
  apply (Hx p Hp). unfold in_frame. lia.
Qed.

Lemma changed_write_zero m p D :
  p ∈ D -> changed m (write_zero m p 4096) D.
Proof.
  intros Hp x Hx. apply write_zero_out. intros H.
  apply (Hx p Hp). unfold in_frame. lia.
Qed.

Lemma changed_copy m s p D :
  p ∈ D -> changed m (copy_mem m s p 4096) D.
Proof.
  intros Hp x Hx. apply copy_mem_out. intros H.
  apply (Hx p Hp). unfold in_frame. lia.
Qed.

#[export] Hint Resolve changed_refl changed_write_zero changed_copy : atos.
