(* ===== verification/A64.v ===== *)
(** The instructions of src/src/kernel/exceptions.s and src/entry.S, on a
    processor of which the model has what they touch: the general registers,
    the banked stack pointers, PSTATE with the condition flags, the system
    registers and memory.

    A label is an address below 2 GiB; a PC-relative address keeps the 2 GiB
    region the PC is in.  [tr] is the translation of the address a load or store
    names, [ccsidr] what CCSIDR_EL1 reads for each value of CSSELR_EL1. *)

From Stdlib Require Import ZArith Lia.
From stdpp Require Import base numbers list.
From S2P Require Import Prelude Memory.

Local Open Scope Z_scope.

(** ** Registers *)

Inductive reg := X (n : nat) | SP | XZR.

Module Sys.
Inductive sysreg :=
| CPUACTLR_EL1 | TCR_EL1 | MAIR_EL1 | TTBR0_EL1 | TTBR1_EL1 | SCTLR_EL1 | VBAR_EL1 | CPACR_EL1 | CSSELR_EL1
| HCR_EL2 | CNTHCTL_EL2 | CNTVOFF_EL2 | SPSR_EL2 | ELR_EL2
| ELR_EL1 | SPSR_EL1 | ESR_EL1 | FAR_EL1 | TPIDR_EL1
| SP_EL0 | SP_EL1 | SP_EL2.
End Sys.

#[global] Instance sysreg_eq_dec : EqDecision Sys.sysreg.
Proof. solve_decision. Defined.

Record cpu := mk_cpu {
  gpr : nat -> Z;
  sys : Sys.sysreg -> Z;
  pstate : Z;           (** laid out as in SPSR_ELx: M[3:0], DAIF in bits 9..6, NZCV in 31..28 *)
  pc : Z;
  cmem : mem;
}.

Definition set_gpr (n : nat) (v : Z) (c : cpu) : cpu :=
  mk_cpu (fun i => if Nat.eqb i n then v else gpr c i) (sys c) (pstate c) (pc c) (cmem c).
Definition set_sys (s : Sys.sysreg) (v : Z) (c : cpu) : cpu :=
  mk_cpu (gpr c) (fun r => if decide (r = s) then v else sys c r) (pstate c) (pc c) (cmem c).
Definition set_pstate (v : Z) (c : cpu) : cpu := mk_cpu (gpr c) (sys c) v (pc c) (cmem c).
Definition set_pc (v : Z) (c : cpu) : cpu := mk_cpu (gpr c) (sys c) (pstate c) v (cmem c).
Definition set_cmem (m : mem) (c : cpu) : cpu := mk_cpu (gpr c) (sys c) (pstate c) (pc c) m.

(** The exception level, and the stack pointer it has selected. *)
Definition el_of (p : Z) : Z := Z.land (Z.shiftr p 2) 3.
Definition sp_of (p : Z) : Sys.sysreg :=
  if Z.testbit p 0 then if el_of p =? 2 then Sys.SP_EL2 else Sys.SP_EL1 else Sys.SP_EL0.
Definition el (c : cpu) : Z := el_of (pstate c).
Definition sp_reg (c : cpu) : Sys.sysreg := sp_of (pstate c).

Definition get (r : reg) (c : cpu) : Z :=
  match r with X n => gpr c n | SP => sys c (sp_reg c) | XZR => 0 end.
Definition put (r : reg) (v : Z) (c : cpu) : cpu :=
  match r with X n => set_gpr n v c | SP => set_sys (sp_reg c) v c | XZR => c end.

(** ** Conditions *)

(** NZCV after the comparison of two 64-bit values. *)
Definition nzcv (a b : Z) : Z :=
  let d := sub64 a b in
  Z.lor (Z.lor (if Z.testbit d 63 then 2 ^ 31 else 0) (if d =? 0 then 2 ^ 30 else 0))
    (Z.lor (if b <=? a then 2 ^ 29 else 0)
       (if negb (eqb (Z.testbit a 63) (Z.testbit b 63)) && negb (eqb (Z.testbit a 63) (Z.testbit d 63))
        then 2 ^ 28 else 0)).
Definition set_nzcv (f : Z) (p : Z) : Z := Z.lor (Z.land p (2 ^ 28 - 1)) f.

Inductive cond := EQ | NE | LE.
Definition holds (k : cond) (p : Z) : bool :=
  match k with
  | EQ => Z.testbit p 30
  | NE => negb (Z.testbit p 30)
  | LE => Z.testbit p 30 || negb (eqb (Z.testbit p 31) (Z.testbit p 28))
  end.

(** [clz] of 32 bits *)
Definition clz32 (v : Z) : Z := let w := v mod 2 ^ 32 in if w =? 0 then 32 else 31 - Z.log2 w.

(** ** Instructions *)

Inductive instr (L : Type) :=
| Mov (d n : reg) | MovI (d : reg) (v : Z)
| AddI (d n : reg) (v : Z) | SubI (d n : reg) (v : Z) | Sub (d n m : reg)
| And (d n m : reg) | AndI (d n : reg) (v : Z) | AndLsr (d n m : reg) (k : Z)
| Orr (d n m : reg) | OrrI (d n : reg) (v : Z)
| Lsl (d n m : reg) | ClzW (d n : reg)
| LdrLit (d : reg) (v : Z) | Adr (d : reg) (l : L)
| Ldr (d n : reg) (off : Z) | Str (t n : reg) (off : Z)
| Ldp (d1 d2 n : reg) (off : Z) | Stp (t1 t2 n : reg) (off : Z)
| Strb (t n : reg) (off : Z) | StrbPost (t n : reg) (off : Z)
| Mrs (d : reg) (s : Sys.sysreg) | MrsCurrentEL (d : reg) | MrsCCSIDR (d : reg) | Msr (s : Sys.sysreg) (n : reg)
| CmpI (n : reg) (v : Z) | Cmp (n m : reg)
| B (l : L) | Bcond (k : cond) (l : L) | Bl (l : L) | Br (n : reg) | Ret | Eret
| Barrier  (** [dsb], [isb], [tlbi], and the cache maintenance [ic] and [dc] *).
#[global] Arguments Mov {L}. #[global] Arguments MovI {L}. #[global] Arguments AddI {L}. #[global] Arguments SubI {L}.
#[global] Arguments Sub {L}. #[global] Arguments And {L}. #[global] Arguments AndI {L}. #[global] Arguments AndLsr {L}.
#[global] Arguments Orr {L}. #[global] Arguments OrrI {L}. #[global] Arguments Lsl {L}. #[global] Arguments ClzW {L}.
#[global] Arguments LdrLit {L}. #[global] Arguments Adr {L}. #[global] Arguments Ldr {L}. #[global] Arguments Str {L}.
#[global] Arguments Ldp {L}. #[global] Arguments Stp {L}. #[global] Arguments Strb {L}. #[global] Arguments StrbPost {L}.
#[global] Arguments Mrs {L}. #[global] Arguments MrsCurrentEL {L}. #[global] Arguments MrsCCSIDR {L}.
#[global] Arguments Msr {L}. #[global] Arguments CmpI {L}. #[global] Arguments Cmp {L}. #[global] Arguments B {L}.
#[global] Arguments Bcond {L}. #[global] Arguments Bl {L}. #[global] Arguments Br {L}. #[global] Arguments Ret {L}.
#[global] Arguments Eret {L}. #[global] Arguments Barrier {L}.

(** [eret]: the saved state of the level the processor is at. *)
Definition eret (c : cpu) : cpu :=
  if el c =? 2 then set_pc (sys c Sys.ELR_EL2) (set_pstate (sys c Sys.SPSR_EL2) c)
  else set_pc (sys c Sys.ELR_EL1) (set_pstate (sys c Sys.SPSR_EL1) c).

Section Execution.
  Context {L : Type} (addr : L -> Z) (tr : cpu -> Z -> option Z) (ccsidr : Z -> Z).

Definition load64 (a : Z) (c : cpu) : option Z := pa ← tr c a; Some (read64 (cmem c) pa).
Definition store (a : Z) (bs : bytes) (c : cpu) : option cpu :=
  pa ← tr c a; Some (set_cmem (write_list (cmem c) pa bs) c).
Definition store64 (a v : Z) (c : cpu) : option cpu := store a (le_split 8 v) c.

Definition next (c : cpu) : cpu := set_pc (add64 (pc c) 4) c.
Definition relative (l : L) (c : cpu) : Z := pc c - pc c mod 2 ^ 31 + addr l.

Definition exec (i : instr L) (c : cpu) : option cpu :=
  match i with
  | Mov d n => Some (next (put d (get n c) c))
  | MovI d v | LdrLit d v => Some (next (put d v c))
  | AddI d n v => Some (next (put d (add64 (get n c) v) c))
  | SubI d n v => Some (next (put d (sub64 (get n c) v) c))
  | Sub d n m => Some (next (put d (sub64 (get n c) (get m c)) c))
  | And d n m => Some (next (put d (Z.land (get n c) (get m c)) c))
  | AndI d n v => Some (next (put d (Z.land (get n c) v) c))
  | AndLsr d n m k => Some (next (put d (Z.land (get n c) (Z.shiftr (get m c) k)) c))
  | Orr d n m => Some (next (put d (Z.lor (get n c) (get m c)) c))
  | OrrI d n v => Some (next (put d (Z.lor (get n c) v) c))
  | Lsl d n m => Some (next (put d (wrap64 (Z.shiftl (get n c) (get m c mod 64))) c))
  | ClzW d n => Some (next (put d (clz32 (get n c)) c))
  | Adr d l => Some (next (put d (relative l c) c))
  | Ldr d n off => v ← load64 (add64 (get n c) off) c; Some (next (put d v c))
  | Str t n off => c' ← store64 (add64 (get n c) off) (get t c) c; Some (next c')
  | Ldp d1 d2 n off =>
      v1 ← load64 (add64 (get n c) off) c; v2 ← load64 (add64 (get n c) (off + 8)) c;
      Some (next (put d2 v2 (put d1 v1 c)))
  | Stp t1 t2 n off =>
      c1 ← store64 (add64 (get n c) off) (get t1 c) c; c2 ← store64 (add64 (get n c) (off + 8)) (get t2 c) c1;
      Some (next c2)
  | Strb t n off => c' ← store (add64 (get n c) off) [get t c mod 256] c; Some (next c')
  | StrbPost t n off =>
      c' ← store (get n c) [get t c mod 256] c; Some (next (put n (add64 (get n c) off) c'))
  | Mrs d s => Some (next (put d (sys c s) c))
  | MrsCurrentEL d => Some (next (put d (Z.shiftl (el c) 2) c))
  | MrsCCSIDR d => Some (next (put d (ccsidr (sys c Sys.CSSELR_EL1)) c))
  | Msr s n => Some (next (set_sys s (get n c) c))
  | CmpI n v => Some (next (set_pstate (set_nzcv (nzcv (get n c) v) (pstate c)) c))
  | Cmp n m => Some (next (set_pstate (set_nzcv (nzcv (get n c) (get m c)) (pstate c)) c))
  | B l => Some (set_pc (relative l c) c)
  | Bcond k l => Some (if holds k (pstate c) then set_pc (relative l c) c else next c)
  | Bl l => Some (set_pc (relative l c) (set_gpr 30 (add64 (pc c) 4) c))
  | Br n => Some (set_pc (get n c) c)
  | Ret => Some (set_pc (gpr c 30) c)
  | Eret => Some (eret c)
  | Barrier => Some (next c)
  end.

(** Instructions one after the other. *)
Fixpoint exec_all (code : list (instr L)) (c : cpu) : option cpu :=
  match code with [] => Some c | i :: code' => c' ← exec i c; exec_all code' c' end.

Lemma exec_all_app code1 code2 c : exec_all (code1 ++ code2) c = c' ← exec_all code1 c; exec_all code2 c'.
Proof.
  revert c. induction code1 as [|i code1 IH]; intros c; [reflexivity|]. cbn.
  destruct (exec i c) as [c1|]; [apply IH|reflexivity].
Qed.
End Execution.

(** [get_current_el] of src/src/kernel/utils.rs: [mrs] and [lsr #2] *)
Definition get_current_el (c : cpu) : Z := let el := Z.shiftl (el c) 2 in Z.shiftr el 2.

Lemma get_current_el_spec c : get_current_el c = el c /\ 0 <= get_current_el c < 4.
Proof.
  unfold get_current_el. rewrite Z.shiftr_shiftl_l, Z.sub_diag by lia. rewrite Z.shiftl_0_r.
  split; [reflexivity|]. unfold el, el_of. change 3 with (2 ^ 2 - 1). rewrite land_mask_low by lia. apply Z.mod_pos_bound. lia.
Qed.

(** ** A taken exception *)

(** What the processor does on an exception to EL1: the interrupted state is
    saved, exceptions are masked, and the handler runs on SP_EL1. *)
Definition take_exception (offset syndrome fault : Z) (c : cpu) : cpu :=
  set_pc (add64 (sys c Sys.VBAR_EL1) offset)
    (set_pstate (Z.lor (Z.land (pstate c) (15 * 2 ^ 28)) 0x3C5)
      (set_sys Sys.FAR_EL1 fault (set_sys Sys.ESR_EL1 syndrome
        (set_sys Sys.SPSR_EL1 (pstate c) (set_sys Sys.ELR_EL1 (pc c) c))))).
