(* ===== verification/Frames.v ===== *)
(** The physical frame allocator of src/src/kernel/paging.rs
    ([FREE_FRAME_LIST], [FREE_FRAME_COUNT], [TOTAL_FRAME_COUNT],
    [get_free_frame_pa], [zero_frame], [add_free_frame], [init_frames],
    [available_memory], [total_memory]): an intrusive list threaded through
    the first words of the free frames.  It refines a stack of frame
    addresses ([free_frames]). *)

From Stdlib Require Import ZArith Lia.
From stdpp Require Import base numbers list.
From S2P Require Import Prelude Memory.

Local Open Scope Z_scope.

(** The [static mut]s of paging.rs, the physical memory they live in, and the
    TTBR0_EL1 register, which the functions read when they get no table. *)
Record pstate := mk_pstate {
  ram : mem;
  FREE_FRAME_LIST : option Z;
  FREE_FRAME_COUNT : Z;
  TOTAL_FRAME_COUNT : Z;
  TTBR0_EL1 : Z;
}.

Definition set_ram (m : mem) (st : pstate) : pstate :=
  mk_pstate m (FREE_FRAME_LIST st) (FREE_FRAME_COUNT st) (TOTAL_FRAME_COUNT st)
    (TTBR0_EL1 st).
Definition set_free (l : option Z) (n : Z) (st : pstate) : pstate :=
  mk_pstate (ram st) l n (TOTAL_FRAME_COUNT st) (TTBR0_EL1 st).
Definition set_total (n : Z) (st : pstate) : pstate :=
  mk_pstate (ram st) (FREE_FRAME_LIST st) (FREE_FRAME_COUNT st) n (TTBR0_EL1 st).

(** Every frame free list pointer is an address of the kernel's linear map. *)
Definition kread64 (m : mem) (va : Z) : Z := read64 m (ttbr1_to_pa va).
Definition kwrite64 (m : mem) (va v : Z) : mem := write64 m (ttbr1_to_pa va) v.

(** [struct FreeFrame { next: Option<*mut FreeFrame> }], as it is laid out:
    a discriminant word (0 for [None]) and then the pointer. *)
Definition read_next (m : mem) (frame_va : Z) : option Z :=
  if kread64 m frame_va =? 0 then None else Some (kread64 m (frame_va + 8)).
Definition write_next (m : mem) (frame_va : Z) (next : option Z) : mem :=
  match next with
  | None => kwrite64 m frame_va 0
  | Some p => kwrite64 (kwrite64 m frame_va 1) (frame_va + 8) p
  end.

Definition get_free_frame_pa : M pstate (option Z) := fun st =>
  match FREE_FRAME_LIST st with
  | Some free_frame_va =>
      let next := read_next (ram st) free_frame_va in
      Done (Some (ttbr1_to_pa free_frame_va))
           (set_free next (sub64 (FREE_FRAME_COUNT st) 1) st)
  | None => Done None st
  end.

Definition zero_frame (frame_va : Z) : M pstate unit :=
  modify (fun st => set_ram (write_zero (ram st) (ttbr1_to_pa frame_va) PAGE_SIZE) st).

Definition add_free_frame (va_in_frame : Z) : M pstate unit :=
  let free_frame_va := Z.land va_in_frame (not64 (PAGE_SIZE - 1)) in
  zero_frame free_frame_va ;;
  modify (fun st => set_ram (write_next (ram st) free_frame_va (FREE_FRAME_LIST st)) st) ;;
  modify (fun st => set_free (Some free_frame_va) (add64 (FREE_FRAME_COUNT st) 1) st).

(** Run at boot. *)
Definition init_frames (first_free_frame_va last_frame_va_limit : Z) : M pstate unit :=
  for_in (step_range first_free_frame_va last_frame_va_limit PAGE_SIZE) add_free_frame ;;
  modify (fun st => set_total (FREE_FRAME_COUNT st) st).

Definition available_memory (st : pstate) : Z := mul64 (FREE_FRAME_COUNT st) PAGE_SIZE.
Definition total_memory (st : pstate) : Z := mul64 (TOTAL_FRAME_COUNT st) PAGE_SIZE.

(** ** The abstract stack of free frames *)

(** [chain m head l]: following [next] from [head] visits the frames of [l]. *)
Fixpoint chain (m : mem) (head : option Z) (l : list Z) : Prop :=
  match l with
  | [] => head = None
  | p :: l' => head = Some (ttbr1_to_va p) /\ chain m (read_next m (ttbr1_to_va p)) l'
  end.

(** What a free frame holds: the list node in its first two words, neither of
    which reads as a table descriptor, and zeroes. *)
Record node_clean (m : mem) (p : Z) : Prop := {
  nc_zero : forall x, p + 16 <= x < p + 4096 -> m x = 0;
  nc_tag : Z.land (read64 m p) 3 <> 3;
  nc_link : Z.land (read64 m (p + 8)) 3 <> 3;
}.

Record free_frames (st : pstate) (l : list Z) : Prop := {
  ff_chain : chain (ram st) (FREE_FRAME_LIST st) l;
  ff_frames : Forall frame_pa l;
  ff_nodup : NoDup l;
  ff_count : FREE_FRAME_COUNT st = Z.of_nat (length l);
  ff_mem : mem_ok (ram st);
  ff_clean : Forall (node_clean (ram st)) l;
}.

Lemma kread64_frame m p off :
  frame_pa p -> 0 <= off < 4096 ->
  kread64 m (ttbr1_to_va p + off) = read64 m (p + off).
Proof.
  intros [Hp _] Hoff. unfold kread64. f_equal.
  rewrite (ttbr1_to_va_add p) by lia.
  replace (KERNEL_BASE + p + off) with (ttbr1_to_va (p + off)) by
    (rewrite ttbr1_to_va_add by lia; lia).
  apply ttbr1_pa_va. lia.
Qed.

Lemma kread64_frame0 m p : frame_pa p -> kread64 m (ttbr1_to_va p) = read64 m p.
Proof.
  intros H. rewrite <- (Z.add_0_r (ttbr1_to_va p)), kread64_frame by (auto; lia).
  now rewrite Z.add_0_r.
Qed.

Lemma kwrite64_frame m p off v :
  frame_pa p -> 0 <= off < 4096 ->
  kwrite64 m (ttbr1_to_va p + off) v = write64 m (p + off) v.
Proof.
  intros [Hp _] Hoff. unfold kwrite64. f_equal.
  rewrite (ttbr1_to_va_add p) by lia.
  replace (KERNEL_BASE + p + off) with (ttbr1_to_va (p + off)) by
    (rewrite ttbr1_to_va_add by lia; lia).
  apply ttbr1_pa_va. lia.
Qed.

Lemma kwrite64_frame0 m p v : frame_pa p -> kwrite64 m (ttbr1_to_va p) v = write64 m p v.
Proof.
  intros H. rewrite <- (Z.add_0_r (ttbr1_to_va p)), kwrite64_frame by (auto; lia).
  now rewrite Z.add_0_r.
Qed.

Lemma read_next_ext m m' p :
  frame_pa p -> (forall x, in_frame p x -> m' x = m x) ->
  read_next m' (ttbr1_to_va p) = read_next m (ttbr1_to_va p).
Proof.
  intros Hp Heq. unfold read_next.
  rewrite !kread64_frame0, !(kread64_frame _ p 8) by (auto; lia).
  unfold in_frame in Heq.
  rewrite (read64_ext m m' p), (read64_ext m m' (p + 8)) by (intros; apply Heq; lia).
  reflexivity.
Qed.

Lemma chain_ext m m' h l :
  Forall frame_pa l -> (forall p x, p ∈ l -> in_frame p x -> m' x = m x) ->
  chain m h l -> chain m' h l.
Proof.
  revert h. induction l as [|p l IH]; intros h Hl Heq; [auto|].
  apply Forall_cons in Hl as [Hp Hl]. intros [-> Hc]. split; [reflexivity|].
  rewrite (read_next_ext m m' p Hp (fun x => Heq p x ltac:(left))).
  apply IH; [assumption| |assumption]. intros q x Hq. apply Heq. now right.
Qed.

Lemma read_write_next m p next :
  frame_pa p -> (forall q, next = Some q -> is_u64 q) ->
  read_next (write_next m (ttbr1_to_va p) next) (ttbr1_to_va p) = next.
Proof.
  intros Hp Hn. unfold read_next, write_next. destruct next as [q|].
  - rewrite kwrite64_frame0, kwrite64_frame by (auto; lia).
    rewrite kread64_frame0, kread64_frame by (auto; lia).
    rewrite (read64_write64_ne _ (p + 8) p) by lia.
    rewrite read64_write64_same by word_lia. simpl Z.eqb. cbv iota.
    rewrite read64_write64_same by auto. reflexivity.
  - rewrite kwrite64_frame0, kread64_frame0 by auto.
    rewrite read64_write64_same by word_lia. reflexivity.
Qed.

Lemma write_next_changed m p next :
  frame_pa p -> changed m (write_next m (ttbr1_to_va p) next) [p].
Proof.
  intros Hp. unfold write_next. destruct next as [q|].
  - rewrite kwrite64_frame0, kwrite64_frame by (auto; lia).
    apply changed_trans with (write64 m p 1);
      (apply changed_write64 with p; [now left|lia|lia]).
  - rewrite kwrite64_frame0 by auto. apply changed_write64 with p; [now left|lia|lia].
Qed.

Lemma mem_ok_write_next m va next : mem_ok m -> mem_ok (write_next m va next).
Proof. intros. unfold write_next, kwrite64. destruct next; auto with atos. Qed.
#[export] Hint Resolve mem_ok_write_next : atos.

(** Any address inside the frame names the frame. *)
Lemma frame_of_va p off :
  frame_pa p -> 0 <= off < 4096 ->
  Z.land (ttbr1_to_va p + off) (not64 (PAGE_SIZE - 1)) = ttbr1_to_va p.
Proof.
  intros [Hp Ha] Hoff. unfold not64, PAGE_SIZE, U64_MAX.
  change (2 ^ 64 - 1 - (4096 - 1)) with (2 ^ 64 - 2 ^ 12).
  rewrite ttbr1_to_va_add by lia. unfold KERNEL_BASE.
  rewrite land_mask_high by lia. change (2 ^ 12) with 4096.
  replace ((0xffffff8000000000 + p + off) mod 4096) with off; [lia|].
  apply Z.mod_unique with (0xffffff8000000000 / 4096 + p / 4096); [lia|].
  apply Z.div_exact in Ha; [|lia]. change (0xffffff8000000000 / 4096) with 4503599493152768. lia.
Qed.

Lemma frame_of_va0 p :
  frame_pa p -> Z.land (ttbr1_to_va p) (not64 (PAGE_SIZE - 1)) = ttbr1_to_va p.
Proof.
  intros H. rewrite <- (Z.add_0_r (ttbr1_to_va p)) at 1. apply frame_of_va; [auto|lia].
Qed.

(** *** What a free frame holds *)

Lemma node_clean_ext m m' p :
  (forall x, in_frame p x -> m' x = m x) -> node_clean m p -> node_clean m' p.
Proof.
  intros Heq [H1 H2 H3]. split.
  - intros x Hx. rewrite Heq by (unfold in_frame; lia). now apply H1.
  - rewrite (read64_ext m m') by (intros x Hx; apply Heq; unfold in_frame; lia). exact H2.
  - rewrite (read64_ext m m') by (intros x Hx; apply Heq; unfold in_frame; lia). exact H3.
Qed.

Lemma write_next_clean m p next :
  frame_pa p -> (forall q, next = Some q -> exists p', frame_pa p' /\ q = ttbr1_to_va p') ->
  (forall x, p <= x < p + 4096 -> m x = 0) -> node_clean (write_next m (ttbr1_to_va p) next) p.
Proof.
  intros Hp Hn Hz. assert (forall a, p <= a -> a + 8 <= p + 4096 -> read64 m a = 0) as Hr.
  { intros a H1 H2. unfold read64. now rewrite !Hz by lia. }
  unfold write_next. destruct next as [q|].
  - destruct (Hn q eq_refl) as (p' & [Hp' Ha] & ->).
    rewrite kwrite64_frame0, kwrite64_frame by (auto; lia). split.
    + intros x Hx. rewrite !write64_out by lia. apply Hz. lia.
    + rewrite read64_write64_ne, read64_write64_same by (lia || (unfold is_u64, U64; lia)). discriminate.
    + rewrite ttbr1_to_va_add by lia. rewrite read64_write64_same by (unfold is_u64, U64, KERNEL_BASE; lia).
      rewrite (land_mask_low 2) by lia. change (2 ^ 2) with 4.
      rewrite (Z.div_mod p' 4096), Ha, Z.add_0_r by lia. unfold KERNEL_BASE.
      replace (0xffffff8000000000 + 4096 * (p' / 4096)) with (0 + (0x3FFFFFE000000000 + 1024 * (p' / 4096)) * 4) by lia.
      rewrite Z.mod_add by lia. discriminate.
  - rewrite kwrite64_frame0 by auto. split.
    + intros x Hx. rewrite write64_out by lia. apply Hz. lia.
    + rewrite read64_write64_same by (unfold is_u64, U64; lia). discriminate.
    + rewrite read64_write64_ne by lia. rewrite Hr by lia. discriminate.
Qed.

(** *** Helper specifications, used by the page-table proofs *)

Lemma free_frames_change st m' l :
  free_frames st l -> mem_ok m' ->
  (forall p x, p ∈ l -> in_frame p x -> m' x = ram st x) ->
  free_frames (set_ram m' st) l.
Proof.
  intros [Hc Hf Hn Hk _ Hcl] Hm' Heq. split; simpl; auto.
  - eapply chain_ext; eauto.
  - rewrite Forall_forall in *. intros p Hp. apply (node_clean_ext (ram st)); [intros x; now apply Heq|now apply Hcl].
Qed.

(** A duplicate-free list of frames below 2 GiB has at most [2^19] elements,
    so the frame counters never wrap. *)
Lemma frames_bounded l : Forall frame_pa l -> NoDup l -> Z.of_nat (length l) <= 2 ^ 19.
Proof.
  intros Hf Hn. rewrite Forall_forall in Hf.
  assert (length ((fun q => Z.div q 4096) <$> l) <= length (seqZ 0 (2 ^ 19)))%nat as Hlen.
  { apply submseteq_length, NoDup_submseteq.
    - apply NoDup_fmap_2_strong; [|assumption]. intros x y Hx Hy Heq.
      destruct (Hf x Hx) as [_ Hx2], (Hf y Hy) as [_ Hy2].
      apply Z.div_exact in Hx2, Hy2; lia.
    - intros x Hx. apply list_elem_of_fmap in Hx as (y & -> & Hy).
      destruct (Hf y Hy) as [Hr _]. apply elem_of_seqZ.
      split; [apply Z.div_pos; lia|]. apply Z.div_lt_upper_bound; lia. }
  rewrite length_fmap, length_seqZ in Hlen. lia.
Qed.

Lemma get_free_frame_pop st p l :
  free_frames st (p :: l) ->
  exists st', get_free_frame_pa st = Done (Some p) st' /\
              free_frames st' l /\ ram st' = ram st /\
              TOTAL_FRAME_COUNT st' = TOTAL_FRAME_COUNT st /\
              TTBR0_EL1 st' = TTBR0_EL1 st.
Proof.
  intros [[Hh Hc] Hf Hn Hk Hm Hcl]. unfold get_free_frame_pa. rewrite Hh.
  apply Forall_cons in Hf as [Hp Hf]. apply NoDup_cons in Hn as [_ Hn].
  apply Forall_cons in Hcl as [_ Hcl].
  rewrite ttbr1_pa_va by (destruct Hp; lia).
  eexists. split; [reflexivity|]. split; [|auto]. split; simpl; auto.
  rewrite Hk. simpl length. pose proof (frames_bounded l Hf Hn).
  rewrite sub64_small by word_lia. lia.
Qed.

Lemma get_free_frame_empty st :
  free_frames st [] -> get_free_frame_pa st = Done None st.
Proof. intros [Hc _ _ _ _ _]. simpl in Hc. unfold get_free_frame_pa. now rewrite Hc. Qed.

Lemma add_free_frame_push st p off l :
  free_frames st l -> frame_pa p -> p ∉ l -> 0 <= off < 4096 ->
  exists st', add_free_frame (ttbr1_to_va p + off) st = Done tt st' /\
              free_frames st' (p :: l) /\ changed (ram st) (ram st') [p] /\
              TOTAL_FRAME_COUNT st' = TOTAL_FRAME_COUNT st /\
              TTBR0_EL1 st' = TTBR0_EL1 st.
Proof.
  intros [Hc Hf Hn Hk Hm Hcl] Hp Hnot Hoff. unfold add_free_frame.
  rewrite frame_of_va by assumption. unfold zero_frame. run_m. cbn.
  rewrite ttbr1_pa_va by (destruct Hp; lia).
  set (m1 := write_zero (ram st) p PAGE_SIZE).
  set (m2 := write_next m1 (ttbr1_to_va p) (FREE_FRAME_LIST st)).
  assert (changed (ram st) m2 [p]) as Hch.
  { apply changed_trans with m1; [apply changed_write_zero; now left|].
    now apply write_next_changed. }
  eexists. split; [reflexivity|]. split; [|auto].
  assert (forall q, FREE_FRAME_LIST st = Some q -> is_u64 q) as Hq.
  { intros q Hq. destruct l as [|p' l]; simpl in Hc; [congruence|].
    destruct Hc as [Hc _]. rewrite Hq in Hc. injection Hc as ->.
    apply Forall_cons in Hf as [[Hf _] _]. rewrite ttbr1_to_va_add by lia.
    unfold KERNEL_BASE. word_lia. }
  split; simpl.
  - split; [reflexivity|]. subst m2. rewrite read_write_next by assumption.
    eapply chain_ext; [eassumption| |eassumption].
    intros q x Hql Hx. eapply changed_frame; [exact Hch| | |  |exact Hx].
    + rewrite Forall_forall in Hf. auto.
    + auto.
    + intros Hin. apply list_elem_of_singleton in Hin. congruence.
  - auto.
  - now constructor.
  - pose proof (frames_bounded (p :: l)) as Hb. simpl length in Hb.
    rewrite Hk, add64_small; [lia|].
    specialize (Hb ltac:(auto) ltac:(now constructor)). word_lia.
  - subst m2 m1. auto with atos.
  - constructor.
    + apply write_next_clean; [exact Hp| |intros x Hx; apply write_zero_in; unfold PAGE_SIZE; lia].
      intros q E. destruct l as [|p' l]; simpl in Hc; [congruence|]. destruct Hc as [Hc _].
      rewrite E in Hc. injection Hc as ->. apply Forall_cons in Hf as [Hf _]. now exists p'.
    + rewrite Forall_forall in Hcl, Hf. apply Forall_forall. intros q Hql.
      apply (node_clean_ext (ram st)); [|now apply Hcl].
      intros x Hx. eapply (changed_frame _ _ [p] q); [exact Hch|now apply Hf|now apply Forall_singleton| |exact Hx].
      intros Hin%list_elem_of_singleton. congruence.
Qed.

(** A frame taken off the list holds zeroes, its first two words excepted:
    those still hold the list node. *)
Lemma add_free_frame_zero st p l st' x :
  free_frames st l -> frame_pa p ->
  add_free_frame (ttbr1_to_va p) st = Done tt st' ->
  p + 16 <= x < p + 4096 -> ram st' x = 0.
Proof.
  intros _ Hp H Hx. unfold add_free_frame in H.
  rewrite frame_of_va0 in H by assumption. unfold zero_frame in H. run_m in H.
  injection H as <-. cbn.
  rewrite ttbr1_pa_va by (destruct Hp; lia). unfold write_next.
  destruct (FREE_FRAME_LIST st).
  - rewrite kwrite64_frame0, kwrite64_frame, !write64_out by (auto; lia).
    apply write_zero_in. unfold PAGE_SIZE. lia.
  - rewrite kwrite64_frame0, write64_out by (auto; lia).
    apply write_zero_in. unfold PAGE_SIZE. lia.
Qed.

Lemma wp_get_free_frame st l :
  free_frames st l ->
  wp get_free_frame_pa (fun r st' =>
    match l with
    | [] => r = None /\ st' = st
    | p :: l' => r = Some p /\ free_frames st' l' /\ ram st' = ram st /\
                 TOTAL_FRAME_COUNT st' = TOTAL_FRAME_COUNT st /\
                 TTBR0_EL1 st' = TTBR0_EL1 st
    end) st.
Proof.
  intros H. apply wp_done. destruct l as [|p l].
  - rewrite (get_free_frame_empty st H). eauto.
  - destruct (get_free_frame_pop st p l H) as (st' & -> & H1 & H2). eauto 10.
Qed.

(** ** Refinement: the allocator is a stack of frames *)

Inductive frame_op :=
| OpAlloc
| OpFree (p off : Z).

Definition run_frame_op (op : frame_op) : M pstate (option Z) :=
  match op with
  | OpAlloc => get_free_frame_pa
  | OpFree p off => add_free_frame (ttbr1_to_va p + off) ;; ret None
  end.

Fixpoint run_frame_ops (ops : list frame_op) : M pstate (list (option Z)) :=
  match ops with
  | [] => ret []
  | op :: ops' => let* r := run_frame_op op in
                  let* rs := run_frame_ops ops' in
                  ret (r :: rs)
  end.

Definition stack_op (op : frame_op) (l : list Z) : option Z * list Z :=
  match op, l with
  | OpAlloc, [] => (None, [])
  | OpAlloc, p :: l' => (Some p, l')
  | OpFree p _, _ => (None, p :: l)
  end.

Fixpoint stack_ops (ops : list frame_op) (l : list Z) : list (option Z) * list Z :=
  match ops with
  | [] => ([], l)
  | op :: ops' => let '(r, l1) := stack_op op l in
                  let '(rs, l2) := stack_ops ops' l1 in
                  (r :: rs, l2)
  end.

(** Frees are of whole frames that are not free already. *)
Fixpoint legal_ops (ops : list frame_op) (l : list Z) : Prop :=
  match ops with
  | [] => True
  | op :: ops' =>
      (match op with
       | OpAlloc => True
       | OpFree p off => frame_pa p /\ (p ∉ l) /\ 0 <= off < 4096
       end) /\ legal_ops ops' (snd (stack_op op l))
  end.

(** C33. The frame allocator refines a stack of frames: any sequence of
    allocations and legal frees returns without a panic, answers what the
    stack answers, and leaves the free list representing the stack's final
    contents. *)
Theorem allocator_refines_stack ops st l :
  free_frames st l -> legal_ops ops l ->
  exists st', run_frame_ops ops st = Done (fst (stack_ops ops l)) st' /\
              free_frames st' (snd (stack_ops ops l)).
Proof.
  revert st l. induction ops as [|op ops IH]; intros st l Hst Hleg; [simpl; eauto|].
  destruct Hleg as [Hop Hleg].
  assert (exists st1, run_frame_op op st = Done (fst (stack_op op l)) st1 /\
                      free_frames st1 (snd (stack_op op l))) as (st1 & Hrun & Hst1).
  { destruct op as [|p off]; simpl.
    - destruct l as [|p l]; simpl.
      + rewrite get_free_frame_empty by assumption. eauto.
      + destruct (get_free_frame_pop st p l Hst) as (st1 & -> & H1 & _). eauto.
    - destruct Hop as (Hp & Hnot & Hoff).
      destruct (add_free_frame_push st p off l Hst Hp Hnot Hoff) as (st1 & H1 & H2 & _).
      unfold bind. rewrite H1. run_m. eauto. }
  destruct (IH st1 _ Hst1 Hleg) as (st2 & Hrun2 & Hst2).
  simpl. unfold bind. rewrite Hrun, Hrun2. run_m.
  destruct (stack_op op l) as [r l1]; simpl in *.
  destruct (stack_ops ops l1) as [rs l2]; simpl in *. eauto.
Qed.

Definition boot_pstate : pstate := mk_pstate empty_mem None 0 0 0.

Lemma boot_free_frames : free_frames boot_pstate [].
Proof.
  split; simpl; auto.
  - constructor.
  - intros a. unfold is_u8, empty_mem. lia.
Qed.
#[export] Hint Resolve boot_free_frames : atos.

Definition demo_frame_ops : list frame_op :=
  [OpFree 4096 0; OpFree 8192 5; OpAlloc; OpAlloc; OpAlloc].

Lemma allocator_refines_stack_witness :
  (free_frames boot_pstate [] /\ legal_ops demo_frame_ops []) /\
  exists st', run_frame_ops demo_frame_ops boot_pstate =
                Done (fst (stack_ops demo_frame_ops [])) st' /\
              free_frames st' (snd (stack_ops demo_frame_ops [])).
Proof.
  assert (legal_ops demo_frame_ops []) as Hl.
  { unfold demo_frame_ops. simpl. unfold frame_pa.
    repeat split; try lia; try reflexivity;
      intros Hin; repeat (apply elem_of_cons in Hin as [Hin|Hin]; [lia|]);
      now apply elem_of_nil in Hin. }
  split; [split; [exact boot_free_frames|exact Hl]|].
  exact (allocator_refines_stack demo_frame_ops boot_pstate [] boot_free_frames Hl).
Defined.

(** *** The boot-time population of the list *)

Lemma init_loop (n : nat) p l st :
  free_frames st l -> frame_pa p -> p + Z.of_nat n * 4096 <= 2 ^ 31 ->
  (forall q, q ∈ l -> q < p) ->
  exists st', for_in ((fun i => ttbr1_to_va p + i * 4096) <$> seqZ 0 (Z.of_nat n))
                add_free_frame st = Done tt st' /\
    free_frames st' (reverse ((fun i => p + i * 4096) <$> seqZ 0 (Z.of_nat n)) ++ l) /\
    changed (ram st) (ram st') (reverse ((fun i => p + i * 4096) <$> seqZ 0 (Z.of_nat n))).
Proof.
  revert p l st. induction n as [|n IH]; intros p l st Hst Hp Hlim Hl.
  - simpl. eauto using changed_refl.
  - rewrite seqZ_cons by lia. cbn [fmap list_fmap for_in]. unfold bind.
    rewrite Z.mul_0_l, Z.add_0_r.
    destruct (add_free_frame_push st p 0 l Hst Hp) as (st1 & H1 & Hst1 & Hch1 & _).
    { intros Hin. apply Hl in Hin. lia. }
    { lia. }
    rewrite Z.add_0_r in H1. rewrite H1. clear H1.
    replace (Z.pred (Z.of_nat (S n))) with (Z.of_nat n) by lia.
    destruct n as [|n].
    { simpl. rewrite Z.add_0_r. eauto. }
    destruct Hp as [Hp1 Hp2].
    destruct (IH (p + 4096) (p :: l) st1) as (st2 & H2 & Hst2 & Hch2).
    { assumption. }
    { split; [lia|]. rewrite Z.add_mod, Hp2 by lia. reflexivity. }
    { lia. }
    { intros q [->|Hq]%elem_of_cons; [lia|]. apply Hl in Hq. lia. }
    exists st2. split.
    + rewrite <- H2. f_equal. rewrite <- (fmap_add_seqZ 1 0), <- list_fmap_compose.
      apply list_fmap_ext. intros i x _. simpl.
      rewrite (ttbr1_to_va_add (p + 4096)), ttbr1_to_va_add by lia. lia.
    + rewrite reverse_cons, <- app_assoc. simpl app at 2.
      rewrite Z.add_0_r. revert Hst2 Hch2. rewrite <- (fmap_add_seqZ 1 0), <- list_fmap_compose.
      erewrite (list_fmap_ext _ _ (seqZ 0 (Z.of_nat (S n)))).
      * intros H Hch2. split; [exact H|]. eapply changed_trans; (eapply changed_weaken; [eassumption|]);
          intros d Hd; apply elem_of_app; [right; exact Hd|left; exact Hd].
      * intros i x _. simpl. lia.
Qed.

Lemma init_frames_ok p limit st :
  free_frames st [] -> frame_pa p -> p <= limit <= 2 ^ 31 - 4096 ->
  exists st',
    init_frames (ttbr1_to_va p) (ttbr1_to_va limit) st = Done tt st' /\
    free_frames st' (reverse (step_range p limit PAGE_SIZE)) /\
    changed (ram st) (ram st') (reverse (step_range p limit PAGE_SIZE)) /\
    total_memory st' = available_memory st' /\
    available_memory st' = (limit - p + 4095) / 4096 * 4096.
Proof.
  intros Hst Hp Hlim. unfold init_frames, step_range, PAGE_SIZE.
  rewrite !ttbr1_to_va_add by (destruct Hp; lia).
  replace (KERNEL_BASE + limit - (KERNEL_BASE + p)) with (limit - p) by lia.
  set (k := Z.max 0 ((limit - p + 4096 - 1) / 4096)).
  assert (k = (limit - p + 4095) / 4096) as Hk.
  { subst k. replace (limit - p + 4096 - 1) with (limit - p + 4095) by lia.
    pose proof (Z.div_pos (limit - p + 4095) 4096). lia. }
  assert (k * 4096 <= limit - p + 4095) as Hk2.
  { rewrite Hk, Z.mul_comm. apply Z.mul_div_le. lia. }
  destruct (init_loop (Z.to_nat k) p [] st Hst Hp) as (st1 & H1 & Hst1 & Hch1).
  { lia. }
  { intros q Hq. now apply elem_of_nil in Hq. }
  rewrite Z2Nat.id in H1, Hst1, Hch1 by lia. rewrite ttbr1_to_va_add in H1 by (destruct Hp; lia).
  rewrite app_nil_r in Hst1. unfold bind. rewrite H1. run_m.
  eexists. split; [reflexivity|]. destruct Hst1 as [Hc Hf Hn Hcount Hm Hcl].
  split; [split; auto|]. unfold total_memory, available_memory, set_total. simpl.
  split; [exact Hch1|]. split; [reflexivity|].
  rewrite Hcount, length_reverse, length_fmap, length_seqZ.
  pose proof (frames_bounded _ Hf Hn) as Hb.
  rewrite length_reverse, length_fmap, length_seqZ in Hb. unfold PAGE_SIZE.
  rewrite mul64_small by word_lia. lia.
Qed.

(** At boot, [init_frames] puts exactly the frames between the two
    addresses on the free list, each once, changes no other byte of memory, and
    both counters end up at their number. *)
Theorem init_frames_spec p limit st :
  free_frames st [] -> frame_pa p -> p <= limit <= 2 ^ 31 - 4096 ->
  exists st',
    init_frames (ttbr1_to_va p) (ttbr1_to_va limit) st = Done tt st' /\
    free_frames st' (reverse (step_range p limit PAGE_SIZE)) /\
    changed (ram st) (ram st') (reverse (step_range p limit PAGE_SIZE)) /\
    total_memory st' = available_memory st' /\
    available_memory st' = (limit - p + 4095) / 4096 * 4096.
Proof. apply init_frames_ok. Qed.

Lemma init_frames_spec_witness :
  (free_frames boot_pstate [] /\ frame_pa 0x1000 /\ 0x1000 <= 0x3800 <= 2 ^ 31 - 4096) /\
  exists st',
    init_frames (ttbr1_to_va 0x1000) (ttbr1_to_va 0x3800) boot_pstate = Done tt st' /\
    free_frames st' (reverse (step_range 0x1000 0x3800 PAGE_SIZE)) /\
    changed (ram boot_pstate) (ram st') (reverse (step_range 0x1000 0x3800 PAGE_SIZE)) /\
    total_memory st' = available_memory st' /\
    available_memory st' = (0x3800 - 0x1000 + 4095) / 4096 * 4096.
Proof.
  assert (frame_pa 0x1000) as Hp by (split; [lia|reflexivity]).
  split; [split; [exact boot_free_frames|split; [exact Hp|lia]]|].
  apply (init_frames_spec 0x1000 0x3800 boot_pstate); [exact boot_free_frames|exact Hp|lia].
Defined.

(** A small machine with sixty-four frames, for concrete runs. *)
Definition boot_frames : pstate :=
  match init_frames (ttbr1_to_va 0x1000) (ttbr1_to_va 0x41000) boot_pstate with
  | Done _ st => st
  | _ => boot_pstate
  end.

Definition boot_frame_list : list Z := reverse (step_range 0x1000 0x41000 PAGE_SIZE).

Lemma boot_frames_ok : free_frames boot_frames boot_frame_list.
Proof.
  unfold boot_frames.
  destruct (init_frames_ok 0x1000 0x41000 boot_pstate boot_free_frames) as (st' & -> & H & _).
  - split; [lia|reflexivity].
  - lia.
  - exact H.
Qed.
