(* ===== verification/PageTable.v ===== *)
(** The user translation tables of src/src/kernel/paging.rs: the three-level
    walk ([ttbr0_to_pa], [ttbr0_to_ttbr1]), [alloc_page], [free_page],
    [duplicate_va_space], [free_page_table] and the two recursive functions
    under them, over the frame allocator of Frames.v.

    [owned k m t] lists the frames a table with [k] levels below it owns, in
    the order [do_free_table_recursive] returns them; the invariant of the
    component is that these frames and the free list are duplicate free. *)

From Stdlib Require Import ZArith Lia.
From stdpp Require Import base strings numbers list.
From S2P Require Import Prelude Memory Frames.

Local Open Scope Z_scope.

(** ** The operations *)

Definition PTE_ADDR_MASK : Z := 0x0000FFFFFFFFF000.

Definition entry_valid (e : Z) : bool := Z.land e 3 =? 3.
Definition entry_pa (e : Z) : Z := Z.land e PTE_ADDR_MASK.

(** Entry [i] of the table at physical address [table], read through its
    address in the kernel's linear map. *)
Definition table_entry (m : mem) (table i : Z) : Z :=
  kread64 m (ttbr1_to_va table + 8 * i).
Definition get_entry (table i : Z) : M pstate Z :=
  gets (fun st => table_entry (ram st) table i).
Definition set_entry (table i v : Z) : M pstate unit :=
  modify (fun st => set_ram (kwrite64 (ram st) (ttbr1_to_va table + 8 * i) v) st).
(** [entry.fill(0)] on that table. *)
Definition fill_zero (table : Z) : M pstate unit :=
  modify (fun st => set_ram (write_zero (ram st) (ttbr1_to_pa (ttbr1_to_va table)) PAGE_SIZE) st).

(** [0..PAGE_ENTRIES] *)
Definition indices : list Z := seqZ 0 PAGE_ENTRIES.
#[global] Arguments indices : simpl never.

(** [match ttbr0_val { Some(pa) => pa, None => mrs ttbr0_el1 & mask }] *)
Definition translation_table (st : pstate) (ttbr0_val : option Z) : Z :=
  match ttbr0_val with
  | Some pa => pa
  | None => Z.land (TTBR0_EL1 st) PTE_ADDR_MASK
  end.

Definition l1_index (va : Z) : Z := Z.land (Z.shiftr va 30) 0x1FF.
Definition l2_index (va : Z) : Z := Z.land (Z.shiftr va 21) 0x1FF.
Definition l3_index (va : Z) : Z := Z.land (Z.shiftr va 12) 0x1FF.

Definition ttbr0_to_pa (st : pstate) (va : Z) (ttbr0_val : option Z) : option Z :=
  let translation_table_pa := translation_table st ttbr0_val in
  let offset := Z.land va 0xFFF in
  let l1_entry := table_entry (ram st) translation_table_pa (l1_index va) in
  if negb (entry_valid l1_entry) then None else
  let l2_entry := table_entry (ram st) (entry_pa l1_entry) (l2_index va) in
  if negb (entry_valid l2_entry) then None else
  let l3_entry := table_entry (ram st) (entry_pa l2_entry) (l3_index va) in
  if negb (entry_valid l3_entry) then None else
  Some (entry_pa l3_entry + offset).

Definition ttbr0_to_ttbr1 (st : pstate) (va : Z) (ttbr0_val : option Z) : option Z :=
  ttbr1_to_va <$> ttbr0_to_pa st va ttbr0_val.

(** The descriptor bits [alloc_page] gives a page. *)
Definition DESC_VALID : Z := Z.shiftl 1 0.
Definition DESC_PAGE : Z := Z.shiftl 1 1.
Definition DESC_ATTR_NORMAL : Z := Z.shiftl 1 2.
Definition DESC_AP_EL0_RW : Z := Z.shiftl 1 6.
Definition DESC_SH_INNER : Z := Z.shiftl 3 8.
Definition DESC_AF : Z := Z.shiftl 1 10.
Definition DESC_PXN : Z := Z.shiftl 1 53.
Definition DESC_NG : Z := Z.shiftl 1 11.

Definition PAGE_FLAGS : Z :=
  Z.lor (Z.lor (Z.lor (Z.lor (Z.lor (Z.lor (Z.lor
    DESC_VALID DESC_PAGE) DESC_AP_EL0_RW) DESC_SH_INNER) DESC_AF) DESC_PXN)
    DESC_NG) DESC_ATTR_NORMAL.

(** The first two levels of [alloc_page]: the table under entry [i], after
    giving the entry a zeroed table when it is not valid. *)
Definition ensure_table (table i : Z) (oom : string) : M pstate Z :=
  let* e := get_entry table i in
  (if negb (entry_valid e) then
     let* new := get_free_frame_pa in
     let* new_pa := expect new oom in
     set_entry table i (Z.lor new_pa 3) ;;
     fill_zero new_pa
   else skip) ;;
  let* e' := get_entry table i in
  ret (entry_pa e').

Definition alloc_page (va : Z) (ttbr0_val : option Z) : M pstate Z :=
  let* translation_table_pa := gets (fun st => translation_table st ttbr0_val) in
  let* mapped := gets (fun st => ttbr0_to_pa st va ttbr0_val) in
  match mapped with
  | Some _ => panic "Page already allocated"
  | None =>
      let* l2 := ensure_table translation_table_pa (l1_index va)
                   "No free frames available for new L2 page table" in
      let* l3 := ensure_table l2 (l2_index va)
                   "No free frames available for new L3 page table" in
      let* l3_entry := get_entry l3 (l3_index va) in
      (if negb (entry_valid l3_entry) then
         let* new := get_free_frame_pa in
         let* frame := expect new "No free frames available for new page table entry" in
         set_entry l3 (l3_index va) (Z.lor frame PAGE_FLAGS)
       else panic "Page already allocated") ;;
      let* e := get_entry l3 (l3_index va) in
      ret (entry_pa e)
  end.

Definition free_page (va_in_page : Z) (ttbr0_val : option Z) : M pstate unit :=
  let* translation_table_pa := gets (fun st => translation_table st ttbr0_val) in
  let* e1 := get_entry translation_table_pa (l1_index va_in_page) in
  if negb (entry_valid e1) then skip else
  let* e2 := get_entry (entry_pa e1) (l2_index va_in_page) in
  if negb (entry_valid e2) then skip else
  let l3 := entry_pa e2 in
  let* l3_entry := get_entry l3 (l3_index va_in_page) in
  if negb (entry_valid l3_entry) then skip else
  set_entry l3 (l3_index va_in_page) 0 ;;
  add_free_frame (ttbr1_to_va (entry_pa l3_entry)).

(** The recursion goes from level 1 to level 3; [fuel] bounds its depth and
    3 is enough ([PageFree.free_page_table_spec]). *)
Fixpoint do_free_table_recursive (fuel : nat) (ttpa level : Z) : M pstate unit :=
  match fuel with
  | O => diverge
  | S fuel' =>
      if level >? 3 then skip else
      for_in (indices) (fun i =>
        let* entry := get_entry ttpa i in
        if entry_valid entry then
          if level <? 3 then do_free_table_recursive fuel' (entry_pa entry) (level + 1)
          else set_entry ttpa i 0 ;;
               add_free_frame (ttbr1_to_va (entry_pa entry))
        else skip) ;;
      add_free_frame (ttbr1_to_va ttpa)
  end.

Definition free_page_table (ttbr0_val : option Z) : M pstate unit :=
  let* translation_table_pa := gets (fun st => translation_table st ttbr0_val) in
  do_free_table_recursive 3 translation_table_pa 1.

Fixpoint do_duplicate_table_recursive (fuel : nat) (src_ttpa dst_ttpa level : Z)
  : M pstate (result unit) :=
  match fuel with
  | O => diverge
  | S fuel' =>
      if level >? 3 then ret (ROk tt) else
      for_try (indices) (fun i =>
        let* src_entry := get_entry src_ttpa i in
        if entry_valid src_entry then
          let old_pa := entry_pa src_entry in
          let flags := Z.land src_entry (not64 PTE_ADDR_MASK) in
          if level <? 3 then
            let* new := get_free_frame_pa in
            match new with
            | None => ret (RErr "Out of memory: failed to allocate intermediate page table")
            | Some new_table_pa =>
                fill_zero new_table_pa ;;
                set_entry dst_ttpa i (Z.lor new_table_pa flags) ;;
                do_duplicate_table_recursive fuel' old_pa new_table_pa (level + 1)
            end
          else
            let* new := get_free_frame_pa in
            match new with
            | None => ret (RErr "Out of memory: failed to allocate data frame for child process")
            | Some new_frame_pa =>
                modify (fun st => set_ram (copy_mem (ram st)
                  (ttbr1_to_pa (ttbr1_to_va old_pa))
                  (ttbr1_to_pa (ttbr1_to_va new_frame_pa)) 4096) st) ;;
                set_entry dst_ttpa i (Z.lor new_frame_pa flags) ;;
                ret (ROk tt)
            end
        else ret (ROk tt))
  end.

Definition duplicate_va_space (ttbr0_val : option Z) : M pstate (result Z) :=
  let* src_translation_table_pa := gets (fun st => translation_table st ttbr0_val) in
  let* new := get_free_frame_pa in
  match new with
  | None => ret (RErr "No more memory to allocate new translation table for child process")
  | Some dst_translation_table_pa =>
      fill_zero dst_translation_table_pa ;;
      let* r := do_duplicate_table_recursive 3 src_translation_table_pa
                  dst_translation_table_pa 1 in
      match r with
      | RErr e => free_page_table (Some dst_translation_table_pa) ;; ret (RErr e)
      | ROk _ => ret (ROk dst_translation_table_pa)
      end
  end.

(** ** Descriptors *)

Lemma lor_bound n a b : 0 <= a < 2 ^ n -> 0 <= b < 2 ^ n -> 0 <= n ->
  0 <= Z.lor a b < 2 ^ n.
Proof.
  intros Ha Hb Hn. assert (Z.lor a b mod 2 ^ n = Z.lor a b) as <-.
  { rewrite <- Z.land_ones by lia. rewrite Z.land_lor_distr_l.
    rewrite !Z.land_ones, !Z.mod_small by lia. reflexivity. }
  apply Z.mod_pos_bound. lia.
Qed.

Lemma land_bound n a b : 0 <= n -> 0 <= a -> 0 <= b < 2 ^ n -> 0 <= Z.land a b < 2 ^ n.
Proof.
  intros Hn Ha Hb. assert (Z.land a b mod 2 ^ n = Z.land a b) as <-.
  { rewrite <- Z.land_ones, <- Z.land_assoc, Z.land_ones, Z.mod_small by lia. reflexivity. }
  apply Z.mod_pos_bound. lia.
Qed.

Lemma land_frame_low p f : frame_pa p -> 0 <= f < 4096 -> Z.land p f = 0.
Proof. intros [_ Hp] Hf. now apply (land_disjoint 12). Qed.

Lemma entry_pa_frame p : frame_pa p -> entry_pa p = p.
Proof.
  intros [Hp Ha]. unfold entry_pa, PTE_ADDR_MASK.
  change 0x0000FFFFFFFFF000 with (2 ^ 48 - 2 ^ 12).
  rewrite land_mask_high by lia. change (2 ^ 12) with 4096. lia.
Qed.

(** A descriptor made of a frame address and flag bits reads back as them. *)
Lemma entry_pa_lor p flags :
  frame_pa p -> Z.land flags PTE_ADDR_MASK = 0 -> entry_pa (Z.lor p flags) = p.
Proof.
  intros Hp Hf. unfold entry_pa. rewrite Z.land_lor_distr_l, Hf, Z.lor_0_r.
  now apply entry_pa_frame.
Qed.

Lemma entry_valid_lor p flags :
  frame_pa p -> Z.land flags 3 = 3 -> entry_valid (Z.lor p flags) = true.
Proof.
  intros Hp Hf. unfold entry_valid.
  rewrite Z.land_lor_distr_l, Hf, (land_frame_low p 3) by (auto; lia). reflexivity.
Qed.

Lemma entry_u64_lor p flags : frame_pa p -> is_u64 flags -> is_u64 (Z.lor p flags).
Proof. intros [Hp _] Hf. apply lor_bound; unfold is_u64, U64 in *; lia. Qed.

(** Flag bits that leave the address field alone and mark the entry valid. *)
Record desc_flags (flags : Z) : Prop := {
  df_u64 : is_u64 flags;
  df_addr : Z.land flags PTE_ADDR_MASK = 0;
  df_valid : Z.land flags 3 = 3;
}.

Lemma desc_flags_3 : desc_flags 3.
Proof. split; [unfold is_u64, U64; lia|reflexivity|reflexivity]. Qed.

Lemma desc_flags_page : desc_flags PAGE_FLAGS.
Proof. split; [unfold is_u64; vm_compute; intuition congruence|reflexivity|reflexivity]. Qed.

Lemma desc_flags_copied e :
  is_u64 e -> entry_valid e = true -> desc_flags (Z.land e (not64 PTE_ADDR_MASK)).
Proof.
  intros He Hv. apply Z.eqb_eq in Hv.
  split.
  - apply land_bound; unfold is_u64, U64 in He; [lia|lia|vm_compute; intuition congruence].
  - rewrite <- Z.land_assoc. now rewrite Z.land_0_r.
  - rewrite <- Z.land_assoc. exact Hv.
Qed.
#[export] Hint Resolve desc_flags_3 desc_flags_page desc_flags_copied : atos.

(** ** What a table owns *)

Definition index_ok (i : Z) : Prop := 0 <= i < PAGE_ENTRIES.

Lemma elem_of_index i : i ∈ indices <-> index_ok i.
Proof. unfold indices. rewrite elem_of_seqZ. reflexivity. Qed.

Lemma indices_nodup : NoDup indices.
Proof. apply NoDup_seqZ. Qed.
#[global] Opaque indices.

Fixpoint owned (k : nat) (m : mem) (t : Z) : list Z :=
  match k with
  | O => [t]
  | S k' => (indices ≫= fun i =>
               let e := table_entry m t i in
               if entry_valid e then owned k' m (entry_pa e) else []) ++ [t]
  end.

Fixpoint tables (k : nat) (m : mem) (t : Z) : list Z :=
  match k with
  | O => []
  | S k' => (indices ≫= fun i =>
               let e := table_entry m t i in
               if entry_valid e then tables k' m (entry_pa e) else []) ++ [t]
  end.

Definition child_owned (k : nat) (m : mem) (t i : Z) : list Z :=
  if entry_valid (table_entry m t i) then owned k m (entry_pa (table_entry m t i)) else [].

(** Following the valid entries of a path of indices. *)
Fixpoint walk (m : mem) (t : Z) (path : list Z) : option Z :=
  match path with
  | [] => Some t
  | i :: path' => let e := table_entry m t i in
                  if entry_valid e then walk m (entry_pa e) path' else None
  end.

Definition va_path (va : Z) : list Z := [l1_index va; l2_index va; l3_index va].

Lemma ttbr0_to_pa_walk st va root :
  ttbr0_to_pa st va (Some root) =
  (fun pa => pa + Z.land va 0xFFF) <$> walk (ram st) root (va_path va).
Proof.
  unfold ttbr0_to_pa. simpl.
  destruct (entry_valid (table_entry (ram st) root _)); [|reflexivity]. simpl.
  destruct (entry_valid (table_entry (ram st) (entry_pa _) (l2_index va))); [|reflexivity].
  simpl. destruct (entry_valid _); reflexivity.
Qed.

Lemma index_range x : 0 <= Z.land x 0x1FF < 512.
Proof. change 0x1FF with (2 ^ 9 - 1). rewrite land_mask_low by lia. apply Z.mod_pos_bound. lia. Qed.

Lemma va_path_ok va : Forall index_ok (va_path va).
Proof. repeat constructor; apply index_range. Qed.
#[export] Hint Resolve va_path_ok : atos.

Lemma owned_S k m t :
  owned (S k) m t = (indices ≫= child_owned k m t) ++ [t].
Proof. reflexivity. Qed.

Lemma table_entry_frame m t i :
  frame_pa t -> index_ok i -> table_entry m t i = read64 m (t + 8 * i).
Proof.
  intros Ht Hi. unfold table_entry, index_ok, PAGE_ENTRIES, PAGE_SIZE in *.
  apply kread64_frame; [assumption|]. change (4096 / 8) with 512 in Hi. lia.
Qed.

Lemma set_entry_frame m t i v :
  frame_pa t -> index_ok i -> kwrite64 m (ttbr1_to_va t + 8 * i) v = write64 m (t + 8 * i) v.
Proof.
  intros Ht Hi. unfold index_ok, PAGE_ENTRIES, PAGE_SIZE in *.
  apply kwrite64_frame; [assumption|]. change (4096 / 8) with 512 in Hi. lia.
Qed.

Lemma table_entry_ext m m' t i :
  frame_pa t -> index_ok i -> (forall x, in_frame t x -> m' x = m x) ->
  table_entry m' t i = table_entry m t i.
Proof.
  intros Ht Hi Heq. rewrite !table_entry_frame by assumption.
  apply read64_ext. intros x Hx. apply Heq.
  unfold index_ok, PAGE_ENTRIES, PAGE_SIZE, in_frame in *. change (4096 / 8) with 512 in Hi. lia.
Qed.

Lemma list_bind_ext_in {A B} (f g : A -> list B) l :
  (forall x, x ∈ l -> f x = g x) -> l ≫= f = l ≫= g.
Proof.
  induction l as [|x l IH]; intros H; [reflexivity|]. cbn.
  rewrite H by left. f_equal. apply IH. intros y Hy. apply H. now right.
Qed.


Lemma tables_owned k m t p : p ∈ tables k m t -> p ∈ owned k m t.
Proof.
  revert t. induction k as [|k IH]; intros t; simpl.
  - intros H. now apply elem_of_nil in H.
  - rewrite !elem_of_app, !list_elem_of_bind. intros [(i & Hp & Hi)|H]; [left|now right].
    exists i. split; [|assumption]. destruct (entry_valid _); [|now apply elem_of_nil in Hp].
    now apply IH.
Qed.

Lemma tables_sub k m t i p :
  index_ok i -> entry_valid (table_entry m t i) = true ->
  p ∈ tables k m (entry_pa (table_entry m t i)) -> p ∈ tables (S k) m t.
Proof.
  intros Hi Hv Hp. simpl. apply elem_of_app. left. apply list_elem_of_bind.
  exists i. rewrite Hv. split; [assumption|now apply elem_of_index].
Qed.

Lemma owned_sub k m t i p :
  index_ok i -> p ∈ child_owned k m t i -> p ∈ owned (S k) m t.
Proof.
  intros Hi Hp. rewrite owned_S. apply elem_of_app. left. apply list_elem_of_bind.
  exists i. split; [assumption|now apply elem_of_index].
Qed.

Lemma owned_self k m t : t ∈ owned k m t.
Proof. destruct k; simpl; [now left|]. apply elem_of_app. right. now left. Qed.

Lemma table_self k m t : t ∈ tables (S k) m t.
Proof. simpl. apply elem_of_app. right. now left. Qed.
#[export] Hint Resolve owned_self table_self : atos.

(** A memory that agrees on the table frames has the same tree: the data
    frames do not matter. *)
Lemma tables_agree k m m' t :
  Forall frame_pa (owned k m t) ->
  (forall p x, p ∈ tables k m t -> in_frame p x -> m' x = m x) ->
  owned k m' t = owned k m t /\ tables k m' t = tables k m t /\
  (forall path, (length path <= k)%nat -> Forall index_ok path ->
     walk m' t path = walk m t path).
Proof.
  revert t. induction k as [|k IH]; intros t Hf Heq.
  - split; [reflexivity|]. split; [reflexivity|]. intros [|] Hl; [reflexivity|simpl in Hl; lia].
  - assert (frame_pa t) as Ht.
    { rewrite Forall_forall in Hf. apply Hf. apply owned_self. }
    assert (forall i, index_ok i -> table_entry m' t i = table_entry m t i) as He.
    { intros i Hi. apply table_entry_ext; [assumption|assumption|].
      intros x Hx. apply (Heq t x); auto with atos. }
    assert (forall i, index_ok i -> entry_valid (table_entry m t i) = true ->
      let c := entry_pa (table_entry m t i) in
      owned k m' c = owned k m c /\ tables k m' c = tables k m c /\
      (forall path, (length path <= k)%nat -> Forall index_ok path ->
         walk m' c path = walk m c path)) as Hc.
    { intros i Hi Hv. apply IH.
      - rewrite Forall_forall in *. intros p Hp. apply Hf.
        apply owned_sub with i; [assumption|]. unfold child_owned. now rewrite Hv.
      - intros p x Hp. apply Heq. now apply tables_sub with i. }
    split; [|split].
    + simpl. f_equal. apply list_bind_ext_in. intros i Hi%elem_of_index.
      rewrite He by assumption. destruct (entry_valid _) eqn:Hv; [|reflexivity].
      now apply Hc.
    + simpl. f_equal. apply list_bind_ext_in. intros i Hi%elem_of_index.
      rewrite He by assumption. destruct (entry_valid _) eqn:Hv; [|reflexivity].
      now apply Hc.
    + intros [|i path] Hl Hp; [reflexivity|]. apply Forall_cons in Hp as [Hi Hp].
      simpl. rewrite He by assumption. destruct (entry_valid _) eqn:Hv; [|reflexivity].
      simpl in Hl. apply Hc; [assumption|assumption|lia|assumption].
Qed.

(** The same, for a memory that changed only in frames the tree does not own. *)
Lemma owned_agree k m m' t D :
  Forall frame_pa (owned k m t) -> Forall frame_pa D ->
  (forall p, p ∈ owned k m t -> p ∉ D) -> changed m m' D ->
  owned k m' t = owned k m t /\ tables k m' t = tables k m t /\
  (forall path, (length path <= k)%nat -> Forall index_ok path ->
     walk m' t path = walk m t path).
Proof.
  intros Hf HD Hdis Hch. apply tables_agree; [assumption|].
  intros p x Hp Hx. apply tables_owned in Hp.
  eapply changed_frame; eauto. rewrite Forall_forall in Hf. auto.
Qed.

(** ** The invariant and the steps that keep it *)

(** The tree under [t] and the free list [l] consist of distinct frames. *)
Record pt_inv (k : nat) (m : mem) (t : Z) (l : list Z) : Prop := {
  pi_frames : Forall frame_pa (owned k m t ++ l);
  pi_nodup : NoDup (owned k m t ++ l);
}.

(** A step that only touches frames of the tree or of the free list, and
    moves frames between the two without losing or duplicating one. *)
Record pt_step (k : nat) (t : Z) (m : mem) (l : list Z) (m' : mem) (l' : list Z) : Prop := {
  ps_changed : changed m m' (owned k m t ++ l);
  ps_conserve : owned k m' t ++ l' ≡ₚ owned k m t ++ l;
}.

Lemma pt_step_refl k t m l : pt_step k t m l m l.
Proof. split; [apply changed_refl|reflexivity]. Qed.

Lemma pt_step_trans k t m1 l1 m2 l2 m3 l3 :
  pt_step k t m1 l1 m2 l2 -> pt_step k t m2 l2 m3 l3 -> pt_step k t m1 l1 m3 l3.
Proof.
  intros [H1 P1] [H2 P2]. split; [|now transitivity (owned k m2 t ++ l2)].
  eapply changed_trans; [exact H1|]. eapply changed_weaken; [exact H2|].
  intros d Hd. now rewrite P1 in Hd.
Qed.

Lemma pt_inv_step k t m l m' l' :
  pt_inv k m t l -> pt_step k t m l m' l' -> pt_inv k m' t l'.
Proof. intros [Hf Hn] [_ P]. split; now rewrite P. Qed.

Lemma pt_inv_root k m t l : pt_inv k m t l -> frame_pa t /\ (t ∉ l).
Proof.
  intros [Hf Hn]. rewrite Forall_forall in Hf. split.
  - apply Hf, elem_of_app. left. apply owned_self.
  - apply NoDup_app in Hn as (_ & Hn & _). apply Hn, owned_self.
Qed.

Lemma index_split i :
  index_ok i -> exists rest, indices ≡ₚ i :: rest /\
    (forall j, j ∈ rest <-> index_ok j /\ j <> i).
Proof.
  intros Hi. apply elem_of_index in Hi. apply elem_of_Permutation in Hi as [rest Hp].
  exists rest. split; [assumption|].
  pose proof indices_nodup as Hn. rewrite Hp in Hn. apply NoDup_cons in Hn as [Hn _].
  intros j. rewrite <- elem_of_index, Hp, elem_of_cons. split.
  - intros Hj. split; [now right|]. intros ->. contradiction.
  - intros [[->|Hj] Hne]; [congruence|assumption].
Qed.

Lemma bind_perm {A B} (f : A -> list B) l l' : l ≡ₚ l' -> l ≫= f ≡ₚ l' ≫= f.
Proof. intros H. now apply bind_Permutation. Qed.

Lemma owned_split i :
  index_ok i -> exists rest, (forall j, j ∈ rest <-> index_ok j /\ j <> i) /\
    forall k m t, owned (S k) m t ≡ₚ
      child_owned k m t i ++ (rest ≫= child_owned k m t) ++ [t].
Proof.
  intros Hi. destruct (index_split i Hi) as (rest & Hp & Hok).
  exists rest. split; [assumption|]. intros k m t.
  rewrite owned_S, (bind_perm _ _ _ Hp). cbn. now rewrite <- app_assoc.
Qed.

Lemma perm_frame (A B R l l' : list Z) :
  A ++ l' ≡ₚ B ++ l -> (A ++ R) ++ l' ≡ₚ (B ++ R) ++ l.
Proof.
  intros H. rewrite <- !app_assoc, (Permutation_app_comm R l'), (Permutation_app_comm R l).
  now rewrite !app_assoc, H.
Qed.

Lemma child_owned_valid k m t i :
  entry_valid (table_entry m t i) = true ->
  child_owned k m t i = owned k m (entry_pa (table_entry m t i)).
Proof. unfold child_owned. now intros ->. Qed.

Lemma pt_inv_child k m t l i :
  pt_inv (S k) m t l -> index_ok i -> entry_valid (table_entry m t i) = true ->
  pt_inv k m (entry_pa (table_entry m t i)) l.
Proof.
  intros [Hf Hn] Hi Hv. destruct (owned_split i Hi) as (rest & _ & Hp).
  rewrite Hp, child_owned_valid in Hf, Hn by assumption.
  rewrite <- app_assoc in Hf, Hn. split.
  - apply Forall_app in Hf as [Hf1 Hf2]. apply Forall_app in Hf2 as [_ Hf2].
    now apply Forall_app.
  - apply NoDup_app in Hn as (H1 & H2 & H3). apply NoDup_app in H3 as (_ & _ & H3).
    apply NoDup_app. split; [assumption|]. split; [|assumption].
    intros x Hx Hl. apply (H2 x Hx). apply elem_of_app. now right.
Qed.

(** Subtrees other than the one below entry [i] survive a change of entry [i]
    and of frames [D] outside the tree. *)
Lemma entry_update k m m' t l i D :
  pt_inv (S k) m t l -> index_ok i ->
  changed m m' (t :: D) -> Forall frame_pa D ->
  (forall j, index_ok j -> j <> i -> table_entry m' t j = table_entry m t j) ->
  (forall j p, index_ok j -> j <> i -> p ∈ child_owned k m t j -> p ∉ D) ->
  (forall j, index_ok j -> j <> i ->
     child_owned k m' t j = child_owned k m t j /\
     (forall path, (length path <= k)%nat -> Forall index_ok path ->
        walk m' t (j :: path) = walk m t (j :: path))).
Proof.
  intros Hinv Hi Hch HD Hent Hdis j Hj Hne.
  destruct (pt_inv_root _ _ _ _ Hinv) as [Ht _].
  unfold child_owned. simpl walk. rewrite (Hent j Hj Hne).
  destruct (entry_valid (table_entry m t j)) eqn:Hv; [|auto].
  destruct (pt_inv_child _ _ _ _ _ Hinv Hj Hv) as [Hf Hn].
  apply Forall_app in Hf as [Hf _].
  destruct (owned_agree k m m' (entry_pa (table_entry m t j)) (t :: D)) as (H1 & _ & H3);
    auto.
  intros p Hp. apply not_elem_of_cons. split.
  - intros ->. destruct (owned_split j Hj) as (rest & _ & Hs).
    destruct Hinv as [_ Hnd]. rewrite Hs, child_owned_valid, <- app_assoc in Hnd by assumption.
    apply NoDup_app in Hnd as (_ & Hnd & _). apply (Hnd t Hp).
    apply elem_of_app. left. apply elem_of_app. right. now left.
  - apply (Hdis j p Hj Hne). now rewrite child_owned_valid.
Qed.

(** A step of the subtree below entry [j] is a step of the whole tree, and
    leaves the other walks alone. *)
Lemma pt_step_lift k m t l m' l' j :
  pt_inv (S k) m t l -> index_ok j -> entry_valid (table_entry m t j) = true ->
  pt_step k (entry_pa (table_entry m t j)) m l m' l' ->
  (forall i, index_ok i -> table_entry m' t i = table_entry m t i) /\
  pt_step (S k) t m l m' l' /\
  (forall i path, index_ok i -> i <> j -> (length path <= k)%nat ->
     Forall index_ok path -> walk m' t (i :: path) = walk m t (i :: path)).
Proof.
  intros Hinv Hj Hv [Hch Hcons]. set (q := entry_pa (table_entry m t j)) in *.
  destruct (pt_inv_root _ _ _ _ Hinv) as [Ht Htl].
  destruct (owned_split j Hj) as (rest & Hrest & Hs).
  pose proof Hinv as [Hf Hn].
  rewrite Hs, child_owned_valid, <- !app_assoc in Hf, Hn by assumption. fold q in Hf, Hn.
  apply NoDup_app in Hn as (_ & Hn2 & Hn3).
  apply Forall_app in Hf as [Hf1 Hf2]. apply Forall_app in Hf2 as [_ Hf3].
  apply NoDup_app in Hn3 as (_ & Hn4 & _).
  assert (Forall frame_pa (owned k m q ++ l)) as HfD.
  { apply Forall_app. split; [assumption|]. now apply Forall_app in Hf3 as [_ ?]. }
  assert (forall i, index_ok i -> table_entry m' t i = table_entry m t i) as Hent.
  { intros i Hi. apply table_entry_ext; [assumption|assumption|].
    intros x Hx. eapply changed_frame; eauto.
    intros [Hin|Hin]%elem_of_app; [|auto].
    apply (Hn2 t Hin), elem_of_app. right. now left. }
  assert (forall i, index_ok i -> i <> j ->
     child_owned k m' t i = child_owned k m t i /\
     (forall path, (length path <= k)%nat -> Forall index_ok path ->
        walk m' t (i :: path) = walk m t (i :: path))) as Hoth.
  { eapply entry_update with (l := l) (D := owned k m q ++ l); eauto.
    - eapply changed_weaken; [exact Hch|]. intros d Hd. now right.
    - intros i p Hi Hne Hp Hin.
      assert (p ∈ rest ≫= child_owned k m t) as Hpr.
      { apply list_elem_of_bind. exists i. split; [assumption|]. now apply Hrest. }
      apply elem_of_app in Hin as [Hin|Hin].
      + apply (Hn2 p Hin), elem_of_app. now left.
      + apply (Hn4 p Hpr), elem_of_app. now right. }
  split; [assumption|]. split.
  - split.
    + eapply changed_weaken; [exact Hch|]. intros d [Hd|Hd]%elem_of_app;
        apply elem_of_app; [left|now right].
      apply owned_sub with j; [assumption|]. now rewrite child_owned_valid.
    + rewrite !Hs. rewrite (child_owned_valid k m t j) by assumption.
      rewrite (child_owned_valid k m' t j) by (rewrite Hent; assumption).
      rewrite (Hent j Hj). fold q.
      rewrite (list_bind_ext_in (child_owned k m' t) (child_owned k m t) rest).
      * now apply perm_frame.
      * intros i Hi. apply Hrest in Hi as [Hi Hne]. now apply Hoth.
  - intros i path Hi Hne. apply Hoth; assumption.
Qed.

(** *** Installing a fresh frame in an invalid entry *)

Lemma table_entry_write_same m t i v :
  frame_pa t -> index_ok i -> is_u64 v ->
  table_entry (write64 m (t + 8 * i) v) t i = v.
Proof. intros. rewrite table_entry_frame by assumption. now apply read64_write64_same. Qed.

Lemma table_entry_write_ne m t i j v :
  frame_pa t -> index_ok i -> index_ok j -> j <> i ->
  table_entry (write64 m (t + 8 * i) v) t j = table_entry m t j.
Proof.
  intros. rewrite !table_entry_frame by assumption. apply read64_write64_ne. lia.
Qed.

Lemma changed_set_entry m t i v D :
  index_ok i -> t ∈ D -> changed m (write64 m (t + 8 * i) v) D.
Proof.
  unfold index_ok, PAGE_ENTRIES, PAGE_SIZE. change (4096 / 8) with 512.
  intros Hi Ht. apply changed_write64 with t; [assumption|lia|lia].
Qed.

Definition zero_frame_at (m : mem) (t : Z) : Prop := forall x, in_frame t x -> m x = 0.

Lemma zero_table m t i :
  frame_pa t -> index_ok i -> zero_frame_at m t -> table_entry m t i = 0.
Proof.
  intros Ht Hi Hz. rewrite table_entry_frame by assumption.
  unfold index_ok, PAGE_ENTRIES, PAGE_SIZE, in_frame in *. change (4096 / 8) with 512 in Hi.
  unfold zero_frame_at, in_frame in Hz. unfold read64. rewrite !Hz by lia. reflexivity.
Qed.

Lemma list_bind_nil {A B} (f : A -> list B) l :
  (forall x, x ∈ l -> f x = []) -> l ≫= f = [].
Proof.
  induction l as [|x l IH]; intros H; [reflexivity|]. cbn.
  rewrite H by left. apply IH. intros y Hy. apply H. now right.
Qed.

Lemma owned_zero k m t : frame_pa t -> zero_frame_at m t -> owned k m t = [t].
Proof.
  intros Ht Hz. destruct k as [|k]; [reflexivity|]. rewrite owned_S.
  rewrite list_bind_nil; [reflexivity|]. intros i Hi%elem_of_index.
  unfold child_owned. now rewrite zero_table.
Qed.

Lemma walk_zero m t i path :
  frame_pa t -> zero_frame_at m t -> index_ok i -> walk m t (i :: path) = None.
Proof. intros Ht Hz Hi. simpl. now rewrite zero_table. Qed.

Lemma install_entry k m m' t l i new :
  pt_inv (S k) m t (new :: l) -> index_ok i ->
  entry_valid (table_entry m t i) = false ->
  changed m m' [t; new] ->
  entry_valid (table_entry m' t i) = true -> entry_pa (table_entry m' t i) = new ->
  (forall j, index_ok j -> j <> i -> table_entry m' t j = table_entry m t j) ->
  owned k m' new = [new] ->
  pt_step (S k) t m (new :: l) m' l /\
  (forall j path, index_ok j -> j <> i -> (length path <= k)%nat ->
     Forall index_ok path -> walk m' t (j :: path) = walk m t (j :: path)).
Proof.
  intros Hinv Hi Hv Hch Hv' Hpa Hent Hnew.
  destruct (pt_inv_root _ _ _ _ Hinv) as [Ht Htl].
  pose proof Hinv as [Hf Hn].
  apply Forall_app in Hf as [Hf1 Hf2]. apply Forall_cons in Hf2 as [Hfn Hf2].
  apply NoDup_app in Hn as (_ & Hn2 & _).
  assert (forall j, index_ok j -> j <> i ->
     child_owned k m' t j = child_owned k m t j /\
     (forall path, (length path <= k)%nat -> Forall index_ok path ->
        walk m' t (j :: path) = walk m t (j :: path))) as Hoth.
  { eapply entry_update with (l := new :: l) (D := [new]); eauto.
    intros j p Hj Hne Hp ->%list_elem_of_singleton.
    apply (Hn2 new); [now apply owned_sub with j|now left]. }
  split; [split|].
  - eapply changed_weaken; [exact Hch|]. intros d Hd.
    apply elem_of_cons in Hd as [->|Hd]; [|apply list_elem_of_singleton in Hd as ->];
      apply elem_of_app; [left; apply owned_self|right; now left].
  - destruct (owned_split i Hi) as (rest & Hrest & Hs). rewrite !Hs.
    unfold child_owned at 1 3. rewrite Hv, Hv', Hpa, Hnew.
    rewrite (list_bind_ext_in (child_owned k m' t) (child_owned k m t) rest).
    + simpl. apply Permutation_middle.
    + intros j Hj. apply Hrest in Hj as [Hj Hne]. now apply Hoth.
  - intros j path Hj Hne. apply Hoth; assumption.
Qed.

(** What the allocator's registers and boot-time total keep. *)
Definition same_regs (st st' : pstate) : Prop :=
  TOTAL_FRAME_COUNT st' = TOTAL_FRAME_COUNT st /\ TTBR0_EL1 st' = TTBR0_EL1 st.

Lemma ensure_table_spec k st t i oom l :
  free_frames st l -> pt_inv (S (S k)) (ram st) t l -> index_ok i ->
  entry_valid (table_entry (ram st) t i) = true \/ l <> [] ->
  exists st' l',
    ensure_table t i oom st = Done (entry_pa (table_entry (ram st') t i)) st' /\
    free_frames st' l' /\ pt_step (S (S k)) t (ram st) l (ram st') l' /\
    entry_valid (table_entry (ram st') t i) = true /\
    (forall path, length path = S (S k) -> Forall index_ok path ->
       walk (ram st') t path = walk (ram st) t path) /\
    (length l <= S (length l'))%nat /\ l' `suffix_of` l /\ same_regs st st' /\
    changed (ram st) (ram st') (t :: l).
Proof.
  intros Hst Hinv Hi Hne. unfold ensure_table, get_entry. run_m.
  destruct (entry_valid (table_entry (ram st) t i)) eqn:Hv; cbn [negb].
  { exists st, l. split_and!; auto using pt_step_refl with atos. split; reflexivity. }
  destruct l as [|new l]; [destruct Hne; congruence|].
  destruct (get_free_frame_pop st new l Hst) as (st1 & -> & Hst1 & Hram & Htot & Httbr).
  destruct (pt_inv_root _ _ _ _ Hinv) as [Ht Htl].
  pose proof Hinv as [Hf Hn]. apply Forall_app in Hf as [Hf1 Hf2].
  apply Forall_cons in Hf2 as [Hfn Hf2]. apply NoDup_app in Hn as (_ & Hn2 & Hn3).
  apply NoDup_cons in Hn3 as [Hn3 _].
  assert (t <> new) as Htn by (intros ->; apply Htl; now left).
  unfold expect, set_entry, fill_zero. run_m. cbn [ram set_ram]. rewrite Hram.
  rewrite set_entry_frame by assumption. rewrite ttbr1_pa_va by (destruct Hfn; lia).
  set (m1 := write64 (ram st) (t + 8 * i) (Z.lor new 3)).
  set (m2 := write_zero m1 new PAGE_SIZE).
  assert (changed m1 m2 [new]) as Hc2 by (apply changed_write_zero; now left).
  assert (changed (ram st) m2 [t; new]) as Hc12.
  { apply changed_trans with m1.
    - apply changed_set_entry; [assumption|now left].
    - eapply changed_weaken; [exact Hc2|]. intros d Hd. now right. }
  assert (forall j, table_entry m2 t j = table_entry m1 t j \/ ~ index_ok j) as Hm21.
  { intros j. destruct (decide (0 <= j < PAGE_ENTRIES)) as [Hj|Hj]; [left|right; exact Hj].
    apply table_entry_ext; [assumption|exact Hj|]. intros x Hx.
    apply (changed_frame m1 m2 [new] t); auto. now rewrite list_elem_of_singleton. }
  assert (table_entry m2 t i = Z.lor new 3) as He.
  { destruct (Hm21 i) as [->|]; [|contradiction].
    apply table_entry_write_same; auto. apply entry_u64_lor; [auto|apply desc_flags_3]. }
  assert (zero_frame_at m2 new) as Hz.
  { intros x Hx. apply write_zero_in. exact Hx. }
  destruct (install_entry (S k) (ram st) m2 t l i new) as [Hstep Hwalk]; auto.
  { rewrite He. apply entry_valid_lor; [auto|reflexivity]. }
  { rewrite He. apply entry_pa_lor; [auto|reflexivity]. }
  { intros j Hj Hji. destruct (Hm21 j) as [->|]; [|contradiction].
    now apply table_entry_write_ne. }
  { now apply owned_zero. }
  exists (set_ram m2 st1), l. split; [reflexivity|]. split; [|split; [exact Hstep|]].
  { apply free_frames_change; [assumption|subst m2 m1; apply mem_ok_write_zero, mem_ok_write64, Hst|].
    rewrite Hram. intros p x Hp Hx.
    eapply changed_frame; [exact Hc12| | | |exact Hx].
    - rewrite Forall_forall in Hf2. auto.
    - auto.
    - rewrite elem_of_cons, list_elem_of_singleton. intros [->| ->]; [|auto].
      apply Htl. now right. }
  cbn [ram set_ram]. split; [rewrite He; apply entry_valid_lor; [auto|reflexivity]|].
  split; [|split; [simpl; lia|split; [now exists [new]|split; [split; assumption|]]]].
  2:{ eapply changed_weaken; [exact Hc12|]. intros d Hd.
      apply elem_of_cons in Hd as [->|Hd]; [now left|].
      apply list_elem_of_singleton in Hd as ->. right. now left. }
  intros path Hlen Hpath. destruct path as [|j path]; [discriminate|].
  apply Forall_cons in Hpath as [Hj Hpath]. simpl in Hlen.
  destruct (decide (j = i)) as [->|Hji]; [|apply Hwalk; auto; lia].
  simpl. rewrite Hv, He, entry_valid_lor, entry_pa_lor by auto.
  destruct path as [|j2 path]; [discriminate|]. apply Forall_cons in Hpath as [Hj2 _].
  now apply walk_zero.
Qed.

(** *** Paths *)

Lemma walk_owned k m t path p :
  (length path <= k)%nat -> Forall index_ok path ->
  walk m t path = Some p -> p ∈ owned k m t.
Proof.
  revert t path. induction k as [|k IH]; intros t [|i path] Hl Hp Hw; simpl in Hl; try lia;
    try (injection Hw as <-; apply owned_self).
  simpl in Hw. destruct (entry_valid (table_entry m t i)) eqn:Hv; [|discriminate].
  apply Forall_cons in Hp as [Hi Hp]. apply owned_sub with i; [assumption|].
  rewrite child_owned_valid by assumption. apply IH with path; [lia|assumption|assumption].
Qed.

Lemma owned_disjoint k m t l i j p :
  pt_inv (S k) m t l -> index_ok i -> index_ok j -> i <> j ->
  p ∈ child_owned k m t i -> p ∈ child_owned k m t j -> False.
Proof.
  intros [_ Hn] Hi Hj Hne Hpi Hpj. destruct (owned_split i Hi) as (rest & Hrest & Hs).
  rewrite Hs, <- app_assoc in Hn. apply NoDup_app in Hn as (_ & Hn & _).
  apply (Hn p Hpi), elem_of_app. left. apply elem_of_app. left.
  apply list_elem_of_bind. exists j. split; [assumption|]. apply Hrest. split; [assumption|congruence].
Qed.

Lemma owned_root_fresh k m t l i :
  pt_inv (S k) m t l -> index_ok i -> t ∉ child_owned k m t i.
Proof.
  intros [_ Hn] Hi Hp. destruct (owned_split i Hi) as (rest & Hrest & Hs).
  rewrite Hs, <- app_assoc in Hn. apply NoDup_app in Hn as (_ & Hn & _).
  apply (Hn t Hp), elem_of_app. left. apply elem_of_app. right. now left.
Qed.

(** Every frame of a tree is reached by one path only. *)
Lemma walk_inj k m t l path path' p :
  pt_inv k m t l -> (length path <= k)%nat -> (length path' <= k)%nat ->
  Forall index_ok path -> Forall index_ok path' ->
  walk m t path = Some p -> walk m t path' = Some p -> path = path'.
Proof.
  revert t path path'. induction k as [|k IH]; intros t path path' Hinv Hl Hl' Hp Hp' Hw Hw'.
  { destruct path, path'; simpl in *; try lia. reflexivity. }
  assert (forall i r, Forall index_ok (i :: r) -> (length r <= k)%nat ->
    walk m t (i :: r) = Some p ->
    entry_valid (table_entry m t i) = true /\ p ∈ child_owned k m t i) as Hchild.
  { intros i r Hr Hlr Hwr. simpl in Hwr. apply Forall_cons in Hr as [_ Hr].
    destruct (entry_valid (table_entry m t i)) eqn:Hv; [|discriminate]. split; [reflexivity|].
    rewrite child_owned_valid by assumption. now apply walk_owned with r. }
  destruct path as [|i path], path' as [|j path']; simpl in Hl, Hl'; [reflexivity| | |].
  - injection Hw as <-. destruct (Hchild j path' Hp' ltac:(lia) Hw') as [_ Hin].
    apply Forall_cons in Hp' as [Hj _]. destruct (owned_root_fresh _ _ _ _ _ Hinv Hj Hin).
  - injection Hw' as <-. destruct (Hchild i path Hp ltac:(lia) Hw) as [_ Hin].
    apply Forall_cons in Hp as [Hi _]. destruct (owned_root_fresh _ _ _ _ _ Hinv Hi Hin).
  - destruct (Hchild i path Hp ltac:(lia) Hw) as [Hv Hin].
    destruct (Hchild j path' Hp' ltac:(lia) Hw') as [_ Hin'].
    apply Forall_cons in Hp as [Hi Hp]. apply Forall_cons in Hp' as [Hj Hp'].
    destruct (decide (i = j)) as [<-|Hne].
    + f_equal. simpl in Hw, Hw'. rewrite Hv in Hw, Hw'.
      apply (IH (entry_pa (table_entry m t i))); [now apply pt_inv_child|lia|lia|assumption|assumption|exact Hw|exact Hw'].
    + destruct (owned_disjoint _ _ _ _ _ _ _ Hinv Hi Hj Hne Hin Hin').
Qed.

(** *** The last level *)

Lemma leaf_install st t i l new flags :
  free_frames st l -> pt_inv 1 (ram st) t (new :: l) -> index_ok i -> desc_flags flags ->
  entry_valid (table_entry (ram st) t i) = false ->
  let st' := set_ram (kwrite64 (ram st) (ttbr1_to_va t + 8 * i) (Z.lor new flags)) st in
  free_frames st' l /\ pt_step 1 t (ram st) (new :: l) (ram st') l /\
  table_entry (ram st') t i = Z.lor new flags /\
  (forall j, index_ok j -> j <> i -> walk (ram st') t [j] = walk (ram st) t [j]) /\
  changed (ram st) (ram st') [t].
Proof.
  intros Hst Hinv Hi [Hfu Hfa Hfv] Hv st'. subst st'. cbn [ram set_ram].
  destruct (pt_inv_root _ _ _ _ Hinv) as [Ht Htl]. pose proof Hinv as [Hf Hn].
  apply Forall_app in Hf as [_ Hf2]. apply Forall_cons in Hf2 as [Hfn Hf2].
  rewrite set_entry_frame by assumption.
  set (m1 := write64 (ram st) (t + 8 * i) (Z.lor new flags)).
  assert (table_entry m1 t i = Z.lor new flags) as He.
  { apply table_entry_write_same; auto. now apply entry_u64_lor. }
  assert (changed (ram st) m1 [t]) as Hch by (apply changed_set_entry; [assumption|now left]).
  destruct (install_entry 0 (ram st) m1 t l i new) as [Hstep Hw]; auto.
  { eapply changed_weaken; [exact Hch|]. intros d ->%list_elem_of_singleton. now left. }
  { rewrite He. now apply entry_valid_lor. }
  { rewrite He. now apply entry_pa_lor. }
  { intros j Hj Hne. now apply table_entry_write_ne. }
  split; [|split; [exact Hstep|split; [exact He|split; [|exact Hch]]]].
  - apply free_frames_change; [assumption|apply mem_ok_write64, Hst|].
    intros p x Hp Hx. apply (changed_frame _ _ [t] p); auto.
    + rewrite Forall_forall in Hf2. auto.
    + intros ->%list_elem_of_singleton. apply Htl. now right.
  - intros j Hj Hne. apply Hw; auto.
Qed.

Lemma walk_cons_valid m t i path :
  entry_valid (table_entry m t i) = true ->
  walk m t (i :: path) = walk m (entry_pa (table_entry m t i)) path.
Proof. intros H. simpl. now rewrite H. Qed.

(** ** Address spaces *)

(** The free list represents [l], and with the tree under [root] it consists
    of distinct frames. *)
Record space_ok (st : pstate) (root : Z) (l : list Z) : Prop := {
  so_free : free_frames st l;
  so_inv : pt_inv 3 (ram st) root l;
}.

(** Two steps down the tree: a step below entry [i2] of the table below entry
    [i1] of the root is a step of the root. *)
Lemma pt_step_lift2 m root l m' l' i1 i2 :
  pt_inv 3 m root l -> index_ok i1 -> index_ok i2 ->
  entry_valid (table_entry m root i1) = true ->
  let q1 := entry_pa (table_entry m root i1) in
  entry_valid (table_entry m q1 i2) = true ->
  let q2 := entry_pa (table_entry m q1 i2) in
  pt_step 1 q2 m l m' l' ->
  pt_step 3 root m l m' l' /\
  (forall j1 j2 j3, index_ok j1 -> index_ok j2 -> index_ok j3 ->
     walk m' root [j1; j2; j3] =
     if decide (j1 = i1 /\ j2 = i2) then walk m' q2 [j3] else walk m root [j1; j2; j3]).
Proof.
  intros Hinv Hi1 Hi2 Hv1 q1 Hv2 q2 Hstep. subst q2. 
  assert (q1 = entry_pa (table_entry m root i1)) as Hq1 by reflexivity. clearbody q1.
  pose proof (pt_inv_child _ _ _ _ _ Hinv Hi1 Hv1) as Hinv1. rewrite <- Hq1 in Hinv1.
  destruct (pt_step_lift _ _ _ _ _ _ _ Hinv1 Hi2 Hv2 Hstep) as (He2 & Hstep2 & Hw2).
  rewrite Hq1 in Hstep2.
  destruct (pt_step_lift _ _ _ _ _ _ _ Hinv Hi1 Hv1 Hstep2) as (He1 & Hstep1 & Hw1).
  split; [assumption|]. intros j1 j2 j3 Hj1 Hj2 Hj3.
  destruct (decide (j1 = i1)) as [->|Hne1].
  - rewrite (walk_cons_valid m' root i1), (walk_cons_valid m root i1)
      by (rewrite ?He1; assumption).
    rewrite (He1 i1 Hi1), <- Hq1. destruct (decide (j2 = i2)) as [->|Hne2].
    + rewrite decide_True by auto. rewrite walk_cons_valid by (rewrite He2; assumption).
      now rewrite (He2 i2 Hi2).
    + rewrite decide_False by tauto. apply Hw2; auto.
  - rewrite decide_False by tauto. apply Hw1; auto.
Qed.

Lemma va_path_3 va : va_path va = [l1_index va; l2_index va; l3_index va].
Proof. reflexivity. Qed.

(** The bytes of a mapped page survive a change of a table of the tree and of
    free frames. *)
Lemma page_bytes_kept m m' root l q path va pa x :
  pt_inv 3 m root l -> walk m root (va_path va) = Some pa ->
  walk m root path = Some q -> (length path < 3)%nat -> Forall index_ok path ->
  changed m m' (q :: l) -> in_frame pa x -> m' x = m x.
Proof.
  intros Hinv Hw Hq Hlen Hpath Hch Hx. pose proof Hinv as [Hf Hn].
  assert (pa ∈ owned 3 m root) as Hpa.
  { eapply walk_owned; [|apply va_path_ok|exact Hw]. simpl. lia. }
  assert (q ∈ owned 3 m root) as Hqo by (eapply walk_owned; eauto; lia).
  rewrite Forall_forall in Hf. apply NoDup_app in Hn as (_ & Hn & _).
  eapply changed_frame; [exact Hch| | | |exact Hx].
  - apply Hf, elem_of_app. now left.
  - apply Forall_cons. split; [apply Hf, elem_of_app; now left|].
    apply Forall_forall. intros y Hy. apply Hf, elem_of_app. now right.
  - intros [->|Hin]%elem_of_cons; [|now apply (Hn pa Hpa)].
    assert (va_path va = path) as <-; [|simpl in Hlen; lia].
    eapply walk_inj; [exact Hinv|simpl; lia|lia|apply va_path_ok|assumption|exact Hw|exact Hq].
Qed.

Record alloc_page_post (st : pstate) (va root : Z) (l : list Z) (pa : Z)
    (st' : pstate) (l' : list Z) : Prop := {
  ap_space : space_ok st' root l';
  ap_fresh : pa ∈ l;
  ap_step : pt_step 3 root (ram st) l (ram st') l';
  ap_walk : forall va', walk (ram st') root (va_path va') =
    if decide (va_path va' = va_path va) then Some pa else walk (ram st) root (va_path va');
  ap_bytes : forall va' pa' x, walk (ram st) root (va_path va') = Some pa' ->
    in_frame pa' x -> ram st' x = ram st x;
  ap_regs : same_regs st st';
  ap_len : (length l <= 3 + length l')%nat;
}.

Lemma va_path_eq va va' :
  va_path va' = va_path va <->
  l1_index va' = l1_index va /\ l2_index va' = l2_index va /\ l3_index va' = l3_index va.
Proof. unfold va_path. split; [intros [=]; auto|intros (-> & -> & ->); reflexivity]. Qed.

Lemma l1_index_ok va : index_ok (l1_index va).
Proof. apply index_range. Qed.
Lemma l2_index_ok va : index_ok (l2_index va).
Proof. apply index_range. Qed.
Lemma l3_index_ok va : index_ok (l3_index va).
Proof. apply index_range. Qed.
#[export] Hint Resolve l1_index_ok l2_index_ok l3_index_ok : atos.

(** The two tables above the leaf of [va] exist after the first half of
    [alloc_page], and nothing that was mapped has moved. *)
Record path_ready (st : pstate) (va root : Z) (l : list Z) (q1 q2 : Z)
    (st2 : pstate) (l2 : list Z) : Prop := {
  pr_space : space_ok st2 root l2;
  pr_step : pt_step 3 root (ram st) l (ram st2) l2;
  pr_q1 : q1 = entry_pa (table_entry (ram st2) root (l1_index va));
  pr_v1 : entry_valid (table_entry (ram st2) root (l1_index va)) = true;
  pr_q2 : q2 = entry_pa (table_entry (ram st2) q1 (l2_index va));
  pr_v2 : entry_valid (table_entry (ram st2) q1 (l2_index va)) = true;
  pr_walk : forall va', walk (ram st2) root (va_path va') = walk (ram st) root (va_path va');
  pr_bytes : forall va' pa' x, walk (ram st) root (va_path va') = Some pa' ->
    in_frame pa' x -> ram st2 x = ram st x;
  pr_len : (length l <= 2 + length l2)%nat;
  pr_suffix : l2 `suffix_of` l;
  pr_regs : same_regs st st2;
}.

(** Without a free frame a missing table is a panic. *)
Lemma ensure_table_empty st t i oom :
  free_frames st [] -> entry_valid (table_entry (ram st) t i) = false -> ensure_table t i oom st = Panic oom.
Proof.
  intros Hst Hv. unfold ensure_table, get_entry. run_m. rewrite Hv. cbn [negb].
  now rewrite (get_free_frame_empty st Hst).
Qed.

Lemma ensure_table_cases st t i oom l :
  free_frames st l -> (l = [] /\ ensure_table t i oom st = Panic oom) \/ (entry_valid (table_entry (ram st) t i) = true \/ l <> []).
Proof.
  intros Hst. destruct (entry_valid (table_entry (ram st) t i)) eqn:Hv; [auto|].
  destruct l as [|new l]; [left; split; [reflexivity|now apply ensure_table_empty]|right; right; discriminate].
Qed.

(** The tables of a path: there, or the panic of the one that is missing. *)
Lemma ensure_path_cases st va root l msg1 msg2 :
  space_ok st root l ->
  (exists q1 q2 st1 st2 l2,
    ensure_table root (l1_index va) msg1 st = Done q1 st1 /\
    ensure_table q1 (l2_index va) msg2 st1 = Done q2 st2 /\
    path_ready st va root l q1 q2 st2 l2) \/
  ((length l < 2)%nat /\
   (ensure_table root (l1_index va) msg1 st = Panic msg1 \/
    exists q1 st1, ensure_table root (l1_index va) msg1 st = Done q1 st1 /\ ensure_table q1 (l2_index va) msg2 st1 = Panic msg2)).
Proof.
  intros [Hst Hinv].
  pose proof (l1_index_ok va) as Hi1. pose proof (l2_index_ok va) as Hi2.
  destruct (ensure_table_cases st root (l1_index va) msg1 l Hst) as [[-> Hp]|Hne1]; [right; split; [simpl; lia|auto]|].
  destruct (ensure_table_spec 1 st root (l1_index va) msg1 l Hst Hinv Hi1 Hne1)
    as (st1 & l1 & Hrun1 & Hst1 & Hstep1 & Hv1 & Hw1 & Hlen1 & Hsuf1 & Hregs1 & Hch1).
  pose proof (pt_inv_step _ _ _ _ _ _ Hinv Hstep1) as Hinv1.
  pose proof (pt_inv_child _ _ _ _ _ Hinv1 Hi1 Hv1) as Hinv1c.
  destruct (ensure_table_cases st1 (entry_pa (table_entry (ram st1) root (l1_index va))) (l2_index va) msg2 l1 Hst1)
    as [[-> Hp]|Hne2]; [right; split; [simpl in Hlen1; lia|eauto]|].
  destruct (ensure_table_spec 0 st1 _ (l2_index va) msg2 l1 Hst1 Hinv1c Hi2 Hne2)
    as (st2 & l2 & Hrun2 & Hst2 & Hstep2c & Hv2 & Hw2c & Hlen2 & Hsuf2 & Hregs2 & Hch2).
  left.
  destruct (pt_step_lift 2 _ _ _ _ _ _ Hinv1 Hi1 Hv1 Hstep2c) as (He1 & Hstep2 & Hw2).
  do 2 eexists. exists st1, st2, l2. split; [exact Hrun1|]. split; [exact Hrun2|].
  assert (forall va', walk (ram st1) root (va_path va') = walk (ram st) root (va_path va'))
    as Hwk1 by (intros; apply Hw1; auto with atos).
  split.
  - split; [assumption|]. now apply (pt_inv_step _ _ _ _ _ _ Hinv1).
  - now apply (pt_step_trans _ _ _ _ (ram st1) l1).
  - now rewrite (He1 _ Hi1).
  - now rewrite (He1 _ Hi1).
  - reflexivity.
  - exact Hv2.
  - intros va'. rewrite <- Hwk1. rewrite va_path_3.
    pose proof (va_path_ok va') as Hok. rewrite va_path_3 in Hok. apply Forall_cons in Hok as [Hj1 Hok].
    destruct (decide (l1_index va' = l1_index va)) as [->|Hne]; [|apply Hw2; auto].
    rewrite (walk_cons_valid (ram st2)), (walk_cons_valid (ram st1)) by (rewrite ?He1; auto).
    rewrite (He1 _ Hi1). apply Hw2c; [reflexivity|assumption].
  - intros va' pa' x Hw Hx. transitivity (ram st1 x).
    + apply (page_bytes_kept (ram st1) _ root l1
               (entry_pa (table_entry (ram st1) root (l1_index va))) [l1_index va] va' pa');
        [assumption|now rewrite Hwk1|now rewrite walk_cons_valid|simpl; lia|auto|assumption|assumption].
    + apply (page_bytes_kept (ram st) _ root l root [] va' pa');
        [assumption|assumption|reflexivity|simpl; lia|constructor|assumption|assumption].
  - lia.
  - now transitivity l1.
  - destruct Hregs1, Hregs2. split; congruence.
Qed.

(** Writing the leaf descriptor finishes the allocation. *)
Lemma alloc_page_finish st va root l q1 q2 st2 l3 new st4 :
  path_ready st va root l q1 q2 st2 (new :: l3) ->
  free_frames st4 l3 -> pt_step 1 q2 (ram st2) (new :: l3) (ram st4) l3 ->
  table_entry (ram st4) q2 (l3_index va) = Z.lor new PAGE_FLAGS ->
  (forall j, index_ok j -> j <> l3_index va ->
     walk (ram st4) q2 [j] = walk (ram st2) q2 [j]) ->
  changed (ram st2) (ram st4) [q2] -> same_regs st2 st4 -> frame_pa new ->
  alloc_page_post st va root l new st4 l3.
Proof.
  intros [[Hst2 Hinv2] Hstep Hq1 Hv1 Hq2 Hv2 Hwk Hby Hl2 Hsuf Hregs]
    Hst4 Hstep4 He4 Hw4 Hch4 Hregs4 Hfn.
  pose proof (l3_index_ok va) as Hi3. pose proof (l1_index_ok va) as Hi1.
  pose proof (l2_index_ok va) as Hi2. rewrite Hq2, Hq1 in Hstep4. rewrite Hq1 in Hv2.
  destruct (pt_step_lift2 _ _ _ _ _ _ _ Hinv2 Hi1 Hi2 Hv1 Hv2 Hstep4) as [Hstepr Hwr].
  cbv zeta in Hwr. rewrite <- Hq1, <- Hq2 in Hwr.
  assert (walk (ram st4) q2 [l3_index va] = Some new) as Hnew.
  { simpl. now rewrite He4, entry_valid_lor, entry_pa_lor by (auto; reflexivity). }
  split.
  - split; [assumption|]. now apply (pt_inv_step _ _ _ _ _ _ Hinv2).
  - destruct Hsuf as [pre ->]. apply elem_of_app. right. now left.
  - exact (pt_step_trans _ _ _ _ _ _ _ _ Hstep Hstepr).
  - intros va'. rewrite <- (Hwk va').
    change (walk (ram st4) root (va_path va'))
      with (walk (ram st4) root [l1_index va'; l2_index va'; l3_index va']).
    rewrite Hwr by auto with atos.
    change [l1_index va'; l2_index va'; l3_index va'] with (va_path va').
    destruct (decide (va_path va' = va_path va)) as [Heq|Hne].
    + apply va_path_eq in Heq as (-> & -> & ->). now rewrite decide_True by auto.
    + destruct (decide (_ /\ _)) as [[E1 E2]|]; [|reflexivity].
      rewrite Hw4; [|auto with atos|intros E3; apply Hne, va_path_eq; auto].
      rewrite va_path_3, E1, E2, (walk_cons_valid _ root), <- Hq1 by assumption.
      rewrite <- Hq1 in Hv2. now rewrite (walk_cons_valid _ q1), <- Hq2 by assumption.
  - intros va' pa' x Hw Hx. rewrite <- (Hby va' pa' x Hw Hx). rewrite <- Hwk in Hw.
    apply (page_bytes_kept (ram st2) _ root (new :: l3) q2 [l1_index va; l2_index va] va' pa');
      auto with atos.
    + rewrite walk_cons_valid, <- Hq1 by assumption.
      rewrite <- Hq1 in Hv2. now rewrite walk_cons_valid, <- Hq2 by assumption.
    + eapply changed_weaken; [exact Hch4|]. intros d ->%list_elem_of_singleton. now left.
  - destruct Hregs, Hregs4. split; congruence.
  - cbn [length] in Hl2. lia.
Qed.

(** The leaf of an address that is not mapped. *)
Lemma path_ready_leaf st va root l q1 q2 st2 l2 :
  path_ready st va root l q1 q2 st2 l2 -> walk (ram st) root (va_path va) = None ->
  entry_valid (table_entry (ram st2) q2 (l3_index va)) = false.
Proof.
  intros [_ _ Hq1 Hv1 Hq2 Hv2 Hwk _ _ _ _] Hnone.
  pose proof (Hwk va) as Hw. rewrite Hnone, va_path_3 in Hw.
  rewrite walk_cons_valid, <- Hq1, walk_cons_valid, <- Hq2 in Hw by assumption.
  cbn [walk] in Hw. revert Hw. destruct (entry_valid (table_entry (ram st2) q2 (l3_index va))). all: [> intros Hw; inversion Hw|reflexivity].
Qed.

(** [alloc_page] maps the page, or panics because the frames ran out. *)
Lemma alloc_page_cases st va root l :
  space_ok st root l -> walk (ram st) root (va_path va) = None ->
  (exists pa st' l', alloc_page va (Some root) st = Done pa st' /\ alloc_page_post st va root l pa st' l') \/
  ((length l < 3)%nat /\ exists msg, alloc_page va (Some root) st = Panic msg).
Proof.
  intros Hsp Hnone. pose proof (l3_index_ok va) as Hi3.
  pose proof (l1_index_ok va) as Hi1. pose proof (l2_index_ok va) as Hi2.
  unfold alloc_page. run_m. rewrite ttbr0_to_pa_walk, Hnone.
  cbn [fmap option_fmap option_map translation_table].
  destruct (ensure_path_cases st va root l "No free frames available for new L2 page table"
    "No free frames available for new L3 page table" Hsp)
    as [(q1 & q2 & st1 & st2 & l2 & -> & -> & Hpr)|[Hl [->|(q1 & st1 & -> & ->)]]];
    [|right; split; [lia|eexists; reflexivity]..].
  pose proof Hpr as [[Hst2 Hinv2] Hstep Hq1 Hv1 Hq2 Hv2 Hwk _ Hl2 _ _].
  destruct l2 as [|new l3].
  { right. split; [simpl in Hl2; lia|]. unfold get_entry. run_m. rewrite (path_ready_leaf _ _ _ _ _ _ _ _ Hpr Hnone). cbn [negb].
    rewrite (get_free_frame_empty st2 Hst2). eexists. reflexivity. }
  destruct (get_free_frame_pop st2 new l3 Hst2) as (st3 & Hpop & Hst3 & Hram3 & Htot & Hreg).
  unfold get_entry, set_entry, expect. run_m.
  pose proof (pt_inv_child _ _ _ _ _ Hinv2 Hi1 Hv1) as Hinvc. rewrite <- Hq1 in Hinvc.
  pose proof (pt_inv_child _ _ _ _ _ Hinvc Hi2 Hv2) as Hinvcc. rewrite <- Hq2 in Hinvcc.
  pose proof (path_ready_leaf _ _ _ _ _ _ _ _ Hpr Hnone) as Hv3.
  rewrite Hv3. cbn [negb]. rewrite Hpop. cbv beta iota.
  rewrite <- Hram3 in Hinvcc, Hv3.
  destruct (leaf_install st3 q2 (l3_index va) l3 new PAGE_FLAGS Hst3 Hinvcc Hi3
              desc_flags_page Hv3) as (Hst4 & Hstep4 & He4 & Hw4 & Hch4).
  cbv zeta in *. rewrite He4.
  set (st4 := set_ram _ st3) in *. rewrite Hram3 in Hstep4, Hw4, Hch4.
  assert (frame_pa new) as Hfn.
  { destruct Hinv2 as [Hf _]. apply Forall_app in Hf as [_ Hf]. now apply Forall_cons in Hf as [Hf _]. }
  rewrite entry_pa_lor by (auto; reflexivity).
  left. exists new, st4, l3. split; [reflexivity|].
  apply (alloc_page_finish st va root l q1 q2 st2 l3 new st4); auto. split; assumption.
Qed.

Lemma alloc_page_ok st va root l :
  space_ok st root l -> walk (ram st) root (va_path va) = None ->
  (3 <= length l)%nat ->
  exists pa st' l', alloc_page va (Some root) st = Done pa st' /\
                    alloc_page_post st va root l pa st' l'.
Proof. intros Hsp Hnone Hlen. destruct (alloc_page_cases st va root l Hsp Hnone) as [H|[Hl _]]; [exact H|lia]. Qed.
