(* ===== verification/PageFree.v ===== *)
(** Freeing: [free_page] and [free_page_table] of src/src/kernel/paging.rs
    (the definitions are in PageTable.v).  Freeing a table returns exactly the
    frames the table owns to the free list, in the order of [owned]. *)

From Stdlib Require Import ZArith Lia.
From stdpp Require Import base strings numbers list.
From S2P Require Import Prelude Memory Frames PageTable.

Local Open Scope Z_scope.

Lemma same_regs_refl st : same_regs st st.
Proof. split; reflexivity. Qed.

Lemma same_regs_trans st1 st2 st3 : same_regs st1 st2 -> same_regs st2 st3 -> same_regs st1 st3.
Proof. intros [] []. split; congruence. Qed.
#[export] Hint Resolve same_regs_refl : atos.

Lemma child_stable k m m' t j D :
  table_entry m' t j = table_entry m t j ->
  Forall frame_pa (child_owned k m t j) -> Forall frame_pa D ->
  (forall p, p ∈ child_owned k m t j -> p ∉ D) -> changed m m' D ->
  child_owned k m' t j = child_owned k m t j.
Proof.
  intros He Hf HD Hdis Hch. unfold child_owned in *. rewrite He.
  destruct (entry_valid _); [|reflexivity]. now apply (owned_agree k m m' _ D).
Qed.

Section free_loop.
  Context (k : nat) (t : Z) (body : Z -> M pstate unit).
  Context (Ht : frame_pa t).

  (** What one iteration of the loop does. *)
Definition frees_child (i : Z) (st : pstate) (l : list Z) : Prop :=
    exists st', body i st = Done tt st' /\
      free_frames st' (reverse (child_owned k (ram st) t i) ++ l) /\
      changed (ram st) (ram st') (t :: child_owned k (ram st) t i) /\
      (forall j, index_ok j -> j <> i ->
         table_entry (ram st') t j = table_entry (ram st) t j) /\
      same_regs st st'.

  Context (Hbody : forall st l i, free_frames st l -> index_ok i ->
    Forall frame_pa (child_owned k (ram st) t i) ->
    NoDup (child_owned k (ram st) t i ++ t :: l) -> frees_child i st l).

Lemma free_loop (ixs : list Z) st l :
    free_frames st l -> NoDup ixs -> Forall index_ok ixs ->
    Forall frame_pa (ixs ≫= child_owned k (ram st) t) ->
    NoDup ((ixs ≫= child_owned k (ram st) t) ++ t :: l) ->
    exists st', for_in ixs body st = Done tt st' /\
      free_frames st' (reverse (ixs ≫= child_owned k (ram st) t) ++ l) /\
      changed (ram st) (ram st') (t :: (ixs ≫= child_owned k (ram st) t)) /\
      same_regs st st'.
  Proof.
    revert st l. induction ixs as [|i ixs IH]; intros st l Hst Hnis His Hf Hn.
    { exists st. split; [reflexivity|]. split; [exact Hst|]. auto using changed_refl with atos. }
    cbn [mbind list_bind] in Hf, Hn. fold (ixs ≫= child_owned k (ram st) t) in *.
    apply NoDup_cons in Hnis as [Hi Hnis]. apply Forall_cons in His as [Hiok His].
    apply Forall_app in Hf as [Hfi Hf]. rewrite <- app_assoc in Hn.
    apply NoDup_app in Hn as (Hn1 & Hn2 & Hn3).
    assert (NoDup (child_owned k (ram st) t i ++ t :: l)) as Hni.
    { apply NoDup_app. apply NoDup_app in Hn3 as (_ & _ & Hn3).
      split; [assumption|]. split; [|assumption].
      intros x Hx Hin. apply (Hn2 x Hx), elem_of_app. now right. }
    destruct (Hbody st l i Hst Hiok Hfi Hni) as (st1 & Hrun & Hst1 & Hch & Hent & Hregs).
    assert (ixs ≫= child_owned k (ram st1) t = ixs ≫= child_owned k (ram st) t) as Hsame.
    { apply list_bind_ext_in. intros j Hj.
      assert (forall p, p ∈ child_owned k (ram st) t j -> p ∈ ixs ≫= child_owned k (ram st) t) as Hsub
        by (intros p Hp; apply list_elem_of_bind; eauto).
      rewrite Forall_forall in His. apply (child_stable k _ _ t j (t :: child_owned k (ram st) t i)); auto.
      - apply Hent; [auto|]. intros ->. contradiction.
      - rewrite Forall_forall in *. auto.
      - intros p Hp [->|Hin]%elem_of_cons.
        + apply NoDup_app in Hn3 as (_ & Hn3 & _). apply (Hn3 t); [auto|now left].
        + apply (Hn2 p Hin), elem_of_app. left. auto. }
    destruct (IH st1 (reverse (child_owned k (ram st) t i) ++ l)) as (st2 & Hrun2 & Hst2 & Hch2 & Hregs2);
      rewrite ?Hsame; auto.
    { rewrite (Permutation_app_comm (reverse _) l), reverse_Permutation.
      change (t :: l ++ child_owned k (ram st) t i) with ((t :: l) ++ child_owned k (ram st) t i).
      rewrite app_assoc, Permutation_app_comm. now apply NoDup_app. }
    rewrite Hsame in Hst2, Hch2. exists st2. cbn [for_in mbind list_bind].
    fold (ixs ≫= child_owned k (ram st) t). unfold bind. rewrite Hrun.
    split; [exact Hrun2|]. split; [|split].
    - now rewrite reverse_app, <- app_assoc.
    - eapply changed_trans.
      + eapply changed_weaken; [exact Hch|]. intros d [->|Hd]%elem_of_cons; [now left|].
        right. apply elem_of_app. now left.
      + eapply changed_weaken; [exact Hch2|]. intros d [->|Hd]%elem_of_cons; [now left|].
        right. apply elem_of_app. now right.
    - eauto using same_regs_trans.
  Qed.
End free_loop.

Lemma add_free_frame_push0 st p l :
  free_frames st l -> frame_pa p -> p ∉ l ->
  exists st', add_free_frame (ttbr1_to_va p) st = Done tt st' /\
              free_frames st' (p :: l) /\ changed (ram st) (ram st') [p] /\
              same_regs st st'.
Proof.
  intros H1 H2 H3. destruct (add_free_frame_push st p 0 l H1 H2 H3 ltac:(lia))
    as (st' & Hrun & Hst' & Hch & Hr1 & Hr2).
  rewrite Z.add_0_r in Hrun. exists st'. repeat split; auto; apply Hst'.
Qed.

(** Writing a table that is not on the free list keeps the free list. *)
Lemma free_frames_set_entry st t i v l :
  free_frames st l -> frame_pa t -> index_ok i -> t ∉ l ->
  let st' := set_ram (kwrite64 (ram st) (ttbr1_to_va t + 8 * i) v) st in
  free_frames st' l /\ changed (ram st) (ram st') [t] /\
  (forall j, index_ok j -> j <> i -> table_entry (ram st') t j = table_entry (ram st) t j) /\
  same_regs st st'.
Proof.
  intros Hst Ht Hi Hnot. cbv zeta. cbn [ram set_ram]. rewrite set_entry_frame by assumption.
  assert (changed (ram st) (write64 (ram st) (t + 8 * i) v) [t]) as Hch
    by (apply changed_set_entry; [assumption|now left]).
  split; [|split; [assumption|split; [|split; reflexivity]]].
  - apply free_frames_change; [assumption|apply mem_ok_write64, Hst|].
    intros p x Hp Hx. apply (changed_frame _ _ [t] p); auto.
    + destruct Hst as [_ Hf _ _ _]. rewrite Forall_forall in Hf. auto.
    + intros ->%list_elem_of_singleton. contradiction.
  - intros j Hj Hne. now apply table_entry_write_ne.
Qed.

(** Clearing a valid last-level entry and freeing the frame it names. *)
Lemma clear_leaf t i st l :
  frame_pa t -> free_frames st l -> index_ok i -> t ∉ l ->
  let c := entry_pa (table_entry (ram st) t i) in
  frame_pa c -> c <> t -> c ∉ l ->
  exists st', (set_entry t i 0 ;; add_free_frame (ttbr1_to_va c)) st = Done tt st' /\
    free_frames st' (c :: l) /\ changed (ram st) (ram st') [t; c] /\
    table_entry (ram st') t i = 0 /\
    (forall j, index_ok j -> j <> i ->
       table_entry (ram st') t j = table_entry (ram st) t j) /\
    same_regs st st'.
Proof.
  intros Ht Hst Hi Htl c Hc Hct Hcl.
  destruct (free_frames_set_entry st t i 0 l Hst Ht Hi Htl) as (Hst1 & Hch1 & Hent1 & Hregs1).
  assert (table_entry (ram (set_ram (kwrite64 (ram st) (ttbr1_to_va t + 8 * i) 0) st)) t i = 0) as He.
  { cbn [ram set_ram]. rewrite set_entry_frame by assumption.
    apply table_entry_write_same; auto. unfold is_u64, U64. lia. }
  unfold set_entry. run_m. set (st1 := set_ram _ st) in *.
  destruct (add_free_frame_push0 st1 c l Hst1 Hc Hcl) as (st2 & Hrun & Hst2 & Hch2 & Hregs2).
  assert (forall j, index_ok j -> table_entry (ram st2) t j = table_entry (ram st1) t j) as Hent2.
  { intros j Hj. apply table_entry_ext; auto. intros x Hx.
    apply (changed_frame _ _ [c] t); auto. now rewrite list_elem_of_singleton. }
  exists st2. split; [exact Hrun|]. split; [exact Hst2|]. split; [|split; [|split]].
  - apply changed_trans with (ram st1).
    + eapply changed_weaken; [exact Hch1|]. intros d ->%list_elem_of_singleton. now left.
    + eapply changed_weaken; [exact Hch2|]. intros d Hd. now right.
  - now rewrite Hent2.
  - intros j Hj Hne. rewrite Hent2, Hent1 by assumption. reflexivity.
  - eauto using same_regs_trans.
Qed.

(** One iteration at level 3: the entry is cleared and its frame freed. *)
Lemma free_leaf_entry t i st l :
  frame_pa t -> free_frames st l -> index_ok i ->
  Forall frame_pa (child_owned 0 (ram st) t i) ->
  NoDup (child_owned 0 (ram st) t i ++ t :: l) ->
  frees_child 0 t (fun i =>
    let* entry := get_entry t i in
    if entry_valid entry then
      set_entry t i 0 ;; add_free_frame (ttbr1_to_va (entry_pa entry))
    else skip) i st l.
Proof.
  intros Ht Hst Hi Hf Hn. unfold frees_child, child_owned in *.
  unfold get_entry at 1, gets, bind at 1.
  destruct (entry_valid (table_entry (ram st) t i)) eqn:Hv.
  2:{ exists st. split; [reflexivity|]. split; [exact Hst|]. auto using changed_refl with atos. }
  cbn [owned] in *.
  apply NoDup_app in Hn as (_ & Hn & Hn2). apply NoDup_cons in Hn2 as [Htl _].
  apply Forall_cons in Hf as [Hc _].
  assert (entry_pa (table_entry (ram st) t i) ∉ t :: l) as Hcn by (apply Hn; now left).
  apply not_elem_of_cons in Hcn as [Hct Hcl].
  destruct (clear_leaf t i st l Ht Hst Hi Htl Hc Hct Hcl)
    as (st2 & Hrun & Hst2 & Hch2 & _ & Hent & Hregs2).
  exists st2. auto.
Qed.

Definition frees_tree (k : nat) (t : Z) (m : M pstate unit) (st : pstate) (l : list Z) : Prop :=
  exists st', m st = Done tt st' /\
    free_frames st' (reverse (owned k (ram st) t) ++ l) /\
    changed (ram st) (ram st') (owned k (ram st) t) /\ same_regs st st'.

(** The loop over the entries, and then the table's own frame. *)
Lemma free_table_loop k t body st l :
  (forall st l i, free_frames st l -> index_ok i ->
     Forall frame_pa (child_owned k (ram st) t i) ->
     NoDup (child_owned k (ram st) t i ++ t :: l) -> frees_child k t body i st l) ->
  free_frames st l -> Forall frame_pa (owned (S k) (ram st) t) ->
  NoDup (owned (S k) (ram st) t ++ l) ->
  frees_tree (S k) t (for_in indices body ;; add_free_frame (ttbr1_to_va t)) st l.
Proof.
  intros Hbody Hst Hf Hn. unfold frees_tree.
  rewrite owned_S in *. rewrite <- app_assoc in Hn.
  apply Forall_app in Hf as [Hf Ht]. apply Forall_cons in Ht as [Ht _].
  destruct (free_loop k t body Ht Hbody indices st l) as (st1 & Hrun & Hst1 & Hch & Hregs);
    auto using indices_nodup.
  { apply Forall_forall. intros i. apply elem_of_index. }
  unfold bind. rewrite Hrun.
  assert (t ∉ reverse (indices ≫= child_owned k (ram st) t) ++ l) as Hnot.
  { apply NoDup_app in Hn as (_ & Hn & Hn2). apply NoDup_cons in Hn2 as [Hn2 _].
    rewrite elem_of_app, elem_of_reverse. intros [Hin|Hin]; [|contradiction].
    apply (Hn t Hin). now left. }
  destruct (add_free_frame_push0 st1 t _ Hst1 Ht Hnot) as (st2 & Hrun2 & Hst2 & Hch2 & Hregs2).
  exists st2. split; [exact Hrun2|]. split; [|split].
  - now rewrite reverse_app.
  - apply changed_trans with (ram st1).
    + eapply changed_weaken; [exact Hch|]. intros d [->|Hd]%elem_of_cons; apply elem_of_app;
        [right; now left|now left].
    + eapply changed_weaken; [exact Hch2|]. intros d Hd. apply elem_of_app. now right.
  - eauto using same_regs_trans.
Qed.

Lemma do_free_ok k fuel level t st l :
  (k <= 2)%nat -> level = 3 - Z.of_nat k -> (k < fuel)%nat ->
  free_frames st l -> Forall frame_pa (owned (S k) (ram st) t) ->
  NoDup (owned (S k) (ram st) t ++ l) ->
  frees_tree (S k) t (do_free_table_recursive fuel t level) st l.
Proof.
  revert fuel level t st l.
  induction k as [|k IH]; intros fuel level t st l Hk Hl Hfuel Hst Hf Hn;
    (destruct fuel as [|fuel]; [lia|]); cbn [do_free_table_recursive];
    (replace (level >? 3) with false by (symmetry; rewrite Z.gtb_ltb; apply Z.ltb_ge; lia));
    apply free_table_loop; auto; intros st0 l0 i Hst0 Hi Hf0 Hn0.
  - replace (level <? 3) with false by (symmetry; apply Z.ltb_ge; lia).
    apply free_leaf_entry; auto. rewrite Forall_forall in Hf. apply Hf, owned_self.
  - replace (level <? 3) with true by (symmetry; apply Z.ltb_lt; lia).
    unfold frees_child, get_entry. run_m. unfold child_owned in *.
    destruct (entry_valid (table_entry (ram st0) t i)) eqn:Hv.
    + set (c := entry_pa (table_entry (ram st0) t i)) in *.
      apply NoDup_app in Hn0 as (Hn1 & Hn2 & Hn3). apply NoDup_cons in Hn3 as [_ Hn3].
      destruct (IH fuel (level + 1) c st0 l0) as (st1 & Hrun & Hst1 & Hch & Hregs); auto; try lia.
      { apply NoDup_app. split; [assumption|]. split; [|assumption].
        intros x Hx Hin. apply (Hn2 x Hx). now right. }
      exists st1. split; [exact Hrun|]. split; [exact Hst1|]. split; [|split; [|exact Hregs]].
      * eapply changed_weaken; [exact Hch|]. intros d Hd. now right.
      * intros j Hj Hne. assert (frame_pa t) as Ht
          by (rewrite Forall_forall in Hf; apply Hf, owned_self).
        apply table_entry_ext; auto. intros x Hx.
        apply (changed_frame _ _ (owned (S k) (ram st0) c) t); auto.
        intros Hin. apply (Hn2 t Hin). now left.
    + exists st0. split; [reflexivity|]. split; [exact Hst0|]. auto using changed_refl with atos.
Qed.

(** ** A new, empty address space *)

Lemma new_root_ok st p l :
  free_frames st (p :: l) ->
  exists st1, get_free_frame_pa st = Done (Some p) st1 /\ same_regs st st1 /\
    let st2 := set_ram (write_zero (ram st1) (ttbr1_to_pa (ttbr1_to_va p)) PAGE_SIZE) st1 in
    space_ok st2 p l /\ zero_frame_at (ram st2) p /\ changed (ram st) (ram st2) [p].
Proof.
  intros Hst. pose proof Hst as [_ Hf Hn _ Hm].
  apply Forall_cons in Hf as [Hp Hf]. apply NoDup_cons in Hn as [Hnot Hn].
  destruct (get_free_frame_pop st p l Hst) as (st1 & Hrun & Hst1 & Hram & Hr1 & Hr2).
  exists st1. split; [exact Hrun|]. split; [split; assumption|]. cbv zeta. cbn [ram set_ram].
  rewrite ttbr1_pa_va, Hram by (destruct Hp; lia).
  assert (zero_frame_at (write_zero (ram st) p PAGE_SIZE) p) as Hz.
  { intros x Hx. apply write_zero_in. exact Hx. }
  assert (changed (ram st) (write_zero (ram st) p PAGE_SIZE) [p]) as Hch.
  { apply changed_write_zero. now left. }
  split; [|split; assumption]. split; cbn [ram set_ram].
  - apply free_frames_change; [assumption|auto with atos|]. rewrite Hram.
    intros q x Hq Hx. apply (changed_frame _ _ [p] q); auto.
    + rewrite Forall_forall in Hf. auto.
    + intros ->%list_elem_of_singleton. contradiction.
  - split; rewrite owned_zero by assumption; simpl; now constructor.
Qed.

(** The sixty-four-frame machine with one frame taken for an empty table. *)
Definition demo_root : Z := 0x40000.
Definition demo_space : pstate :=
  match (let* _ := get_free_frame_pa in fill_zero demo_root) boot_frames with
  | Done _ st => st
  | _ => boot_frames
  end.
Definition demo_free : list Z := tail boot_frame_list.

Lemma demo_space_ok : space_ok demo_space demo_root demo_free.
Proof.
  pose proof boot_frames_ok as H. change boot_frame_list with (demo_root :: demo_free) in H.
  destruct (new_root_ok _ _ _ H) as (st1 & Hrun & _ & Hok & _).
  unfold demo_space, fill_zero. run_m. rewrite Hrun. exact Hok.
Qed.

Lemma demo_space_empty : zero_frame_at (ram demo_space) demo_root /\ frame_pa demo_root.
Proof.
  pose proof boot_frames_ok as H. change boot_frame_list with (demo_root :: demo_free) in H.
  destruct (new_root_ok _ _ _ H) as (st1 & Hrun & _ & _ & Hz & _).
  unfold demo_space, fill_zero. run_m. rewrite Hrun. split; [exact Hz|].
  destruct H as [_ Hf _ _ _]. now apply Forall_cons in Hf as [Hf _].
Qed.

(** ** The theorems *)

(** Freeing an address space returns every frame of its tree to the free
    list exactly once, and nothing else: the call neither panics nor leaves
    the recursion unfinished, and the free list grows by the frames the tree
    owned, tables included. *)
Theorem free_page_table_spec st root l :
  space_ok st root l ->
  exists st', free_page_table (Some root) st = Done tt st' /\
    free_frames st' (reverse (owned 3 (ram st) root) ++ l) /\ same_regs st st'.
Proof.
  intros [Hst [Hf Hn]]. apply Forall_app in Hf as [Hf _].
  destruct (do_free_ok 2 3 1 root st l) as (st' & Hrun & Hst' & _ & Hregs); auto; try lia.
  exists st'. auto.
Qed.

Lemma free_page_table_spec_witness :
  space_ok demo_space demo_root demo_free /\
  exists st', free_page_table (Some demo_root) demo_space = Done tt st' /\
    free_frames st' (reverse (owned 3 (ram demo_space) demo_root) ++ demo_free) /\
    same_regs demo_space st'.
Proof.
  split; [exact demo_space_ok|].
  exact (free_page_table_spec demo_space demo_root demo_free demo_space_ok).
Defined.

Lemma leaf_remove st t i l :
  free_frames st l -> pt_inv 1 (ram st) t l -> index_ok i ->
  entry_valid (table_entry (ram st) t i) = true ->
  let c := entry_pa (table_entry (ram st) t i) in
  exists st', (set_entry t i 0 ;; add_free_frame (ttbr1_to_va c)) st = Done tt st' /\
    free_frames st' (c :: l) /\ pt_step 1 t (ram st) l (ram st') (c :: l) /\
    (forall j, index_ok j -> walk (ram st') t [j] =
       if decide (j = i) then None else walk (ram st) t [j]) /\
    changed (ram st) (ram st') [t; c] /\ same_regs st st'.
Proof.
  intros Hst Hinv Hi Hv c. destruct (pt_inv_root _ _ _ _ Hinv) as [Ht Htl].
  pose proof (pt_inv_child _ _ _ _ _ Hinv Hi Hv) as [Hfc Hnc]. fold c in Hfc, Hnc.
  cbn [owned] in Hfc, Hnc. apply Forall_cons in Hfc as [Hc Hfl]. apply NoDup_cons in Hnc as [Hcl _].
  assert (c <> t) as Hct.
  { intros Heq. apply (owned_root_fresh _ _ _ _ _ Hinv Hi).
    rewrite child_owned_valid by assumption. fold c. rewrite Heq. now left. }
  destruct (clear_leaf t i st l Ht Hst Hi Htl Hc Hct Hcl)
    as (st' & Hrun & Hst' & Hch & Hzero & Hent & Hregs).
  exists st'. split; [exact Hrun|]. split; [exact Hst'|].
  assert (forall j, index_ok j -> j <> i -> child_owned 0 (ram st') t j = child_owned 0 (ram st) t j)
    as Hoth by (intros j Hj Hne; unfold child_owned; now rewrite Hent).
  split; [split|split; [|split; assumption]].
  - eapply changed_weaken; [exact Hch|]. intros d [->|Hd]%elem_of_cons;
      apply elem_of_app; left; [apply owned_self|].
    apply list_elem_of_singleton in Hd as ->. apply owned_sub with i; [assumption|]. rewrite child_owned_valid by assumption. now left.
  - destruct (owned_split i Hi) as (rest & Hrest & Hs). rewrite !Hs.
    rewrite (child_owned_valid 0 (ram st)) by assumption. fold c.
    unfold child_owned at 1. rewrite Hzero. change (entry_valid 0) with false. cbv iota.
    rewrite (list_bind_ext_in (child_owned 0 (ram st') t) (child_owned 0 (ram st) t) rest).
    + simpl. symmetry. apply Permutation_middle.
    + intros j Hj. apply Hrest in Hj as [Hj Hne]. auto.
  - intros j Hj. destruct (decide (j = i)) as [->|Hne]; simpl.
    + now rewrite Hzero.
    + now rewrite Hent.
Qed.
