(* ===== verification/PagingSpec.v ===== *)
(** What [alloc_page], [free_page] and the translation of
    src/src/kernel/paging.rs promise to the rest of the kernel, stated on
    [ttbr0_to_pa]: the definitions are in PageTable.v, the proofs about trees
    in PageTable.v and PageFree.v. *)

From Stdlib Require Import ZArith Lia.
From stdpp Require Import base strings numbers list.
From S2P Require Import Prelude Memory Frames PageTable PageFree.

Local Open Scope Z_scope.

(** Two addresses on the same page of a 39-bit address space. *)
Definition same_page (va va' : Z) : Prop := va_path va' = va_path va.
#[global] Instance same_page_dec va va' : Decision (same_page va va').
Proof. unfold same_page. apply _. Defined.

Lemma translate_walk st va root :
  ttbr0_to_pa st va (Some root) = None <-> walk (ram st) root (va_path va) = None.
Proof. rewrite ttbr0_to_pa_walk. destruct (walk _ _ _); simpl; split; congruence. Qed.

Lemma offset_range va : 0 <= Z.land va 0xFFF < 4096.
Proof. change 0xFFF with (2 ^ 12 - 1). rewrite land_mask_low by lia. apply Z.mod_pos_bound. lia. Qed.

Lemma translate_some st va root p :
  ttbr0_to_pa st va (Some root) = Some p <->
  exists pa, walk (ram st) root (va_path va) = Some pa /\ p = pa + Z.land va 0xFFF.
Proof.
  rewrite ttbr0_to_pa_walk. destruct (walk _ _ _) as [pa|]; simpl; split.
  - intros [= <-]. eauto.
  - intros (? & [= <-] & ->). reflexivity.
  - discriminate.
  - intros (? & [=] & _).
Qed.

(** C21. [alloc_page] on an unmapped address: it returns the frame it took from
    the free list, the address's page translates to that frame and every other
    page translates as before, no byte of a page that was mapped changes, and
    the frames of the tree and of the free list are only moved around. *)
Theorem alloc_page_spec st va root l :
  space_ok st root l -> ttbr0_to_pa st va (Some root) = None -> (3 <= length l)%nat ->
  exists pa st' l', alloc_page va (Some root) st = Done pa st' /\
    space_ok st' root l' /\ pa ∈ l /\
    owned 3 (ram st') root ++ l' ≡ₚ owned 3 (ram st) root ++ l /\
    (forall va', ttbr0_to_pa st' va' (Some root) =
       if decide (same_page va va') then Some (pa + Z.land va' 0xFFF)
       else ttbr0_to_pa st va' (Some root)) /\
    (forall va' p, ttbr0_to_pa st va' (Some root) = Some p -> ram st' p = ram st p).
Proof.
  intros Hsp Hnone Hlen. apply translate_walk in Hnone.
  destruct (alloc_page_ok st va root l Hsp Hnone Hlen) as (pa & st' & l' & Hrun & [H1 H2 [_ H3] H4 H5 _ _]).
  exists pa, st', l'. split_and!; auto.
  - intros va'. rewrite !ttbr0_to_pa_walk, H4. unfold same_page.
    destruct (decide _); reflexivity.
  - intros va' p (pa' & Hw & ->)%translate_some. apply (H5 va' pa'); [assumption|].
    pose proof (offset_range va'). unfold in_frame. lia.
Qed.

Lemma demo_unmapped : ttbr0_to_pa demo_space 0x400000 (Some demo_root) = None.
Proof. vm_compute. reflexivity. Qed.

Lemma alloc_page_spec_witness :
  (space_ok demo_space demo_root demo_free /\
   ttbr0_to_pa demo_space 0x400000 (Some demo_root) = None /\
   (3 <= length demo_free)%nat) /\
  exists pa st' l', alloc_page 0x400000 (Some demo_root) demo_space = Done pa st' /\
    space_ok st' demo_root l' /\ pa ∈ demo_free /\
    owned 3 (ram st') demo_root ++ l' ≡ₚ owned 3 (ram demo_space) demo_root ++ demo_free /\
    (forall va', ttbr0_to_pa st' va' (Some demo_root) =
       if decide (same_page 0x400000 va') then Some (pa + Z.land va' 0xFFF)
       else ttbr0_to_pa demo_space va' (Some demo_root)) /\
    (forall va' p, ttbr0_to_pa demo_space va' (Some demo_root) = Some p ->
       ram st' p = ram demo_space p).
Proof.
  assert (3 <= length demo_free)%nat as Hl by (vm_compute; lia).
  split; [split; [exact demo_space_ok|split; [exact demo_unmapped|exact Hl]]|].
  exact (alloc_page_spec demo_space 0x400000 demo_root demo_free demo_space_ok demo_unmapped Hl).
Defined.

(** The translation of an address space never maps two pages to one frame:
    equal physical addresses come from the same page and the same offset. *)
Theorem translation_injective st root l va va' p :
  space_ok st root l ->
  ttbr0_to_pa st va (Some root) = Some p -> ttbr0_to_pa st va' (Some root) = Some p ->
  same_page va va' /\ Z.land va' 0xFFF = Z.land va 0xFFF.
Proof.
  intros [_ Hinv] (pa & Hw & Hp)%translate_some (pa' & Hw' & Hp')%translate_some.
  pose proof (offset_range va). pose proof (offset_range va').
  assert (frame_pa pa /\ frame_pa pa') as [Hf Hf'].
  { destruct Hinv as [Hf _]. rewrite Forall_forall in Hf. split; apply Hf, elem_of_app; left.
    - eapply walk_owned; [|apply va_path_ok|exact Hw]. simpl. lia.
    - eapply walk_owned; [|apply va_path_ok|exact Hw']. simpl. lia. }
  assert (pa = pa') as <- by (apply (in_frame_inj pa pa' p); auto; unfold in_frame; lia).
  split; [|lia]. unfold same_page. symmetry.
  eapply walk_inj; [exact Hinv|simpl; lia|simpl; lia|apply va_path_ok|apply va_path_ok|exact Hw|exact Hw'].
Qed.

(** The demonstration machine after one [alloc_page]. *)
Definition demo_mapped : pstate :=
  match alloc_page 0x400000 (Some demo_root) demo_space with
  | Done _ st => st
  | _ => demo_space
  end.

Lemma demo_mapped_ok : exists l, space_ok demo_mapped demo_root l.
Proof.
  assert (3 <= length demo_free)%nat as Hl by (vm_compute; lia).
  destruct (alloc_page_ok demo_space 0x400000 demo_root demo_free demo_space_ok)
    as (pa & st' & l' & Hrun & [H1 _ _ _ _ _ _]).
  - apply translate_walk, demo_unmapped.
  - exact Hl.
  - exists l'. unfold demo_mapped. now rewrite Hrun.
Qed.

Lemma translation_injective_witness :
  exists l, (space_ok demo_mapped demo_root l /\
    ttbr0_to_pa demo_mapped 0x400123 (Some demo_root) = Some 0x3d123) /\
  same_page 0x400123 0x8000400123 /\ Z.land 0x8000400123 0xFFF = Z.land 0x400123 0xFFF.
Proof.
  destruct demo_mapped_ok as [l Hl]. exists l.
  assert (ttbr0_to_pa demo_mapped 0x400123 (Some demo_root) = Some 0x3d123) as H1
    by (vm_compute; reflexivity).
  assert (ttbr0_to_pa demo_mapped 0x8000400123 (Some demo_root) = Some 0x3d123) as H2
    by (vm_compute; reflexivity).
  split; [split; assumption|].
  exact (translation_injective demo_mapped demo_root l 0x400123 0x8000400123 0x3d123 Hl H1 H2).
Defined.

Lemma path_tables m root l va pa :
  pt_inv 3 m root l -> walk m root (va_path va) = Some pa ->
  let e1 := table_entry m root (l1_index va) in
  let e2 := table_entry m (entry_pa e1) (l2_index va) in
  let e3 := table_entry m (entry_pa e2) (l3_index va) in
  entry_valid e1 = true /\ entry_valid e2 = true /\ entry_valid e3 = true /\ pa = entry_pa e3 /\
  pt_inv 2 m (entry_pa e1) l /\ pt_inv 1 m (entry_pa e2) l.
Proof.
  intros Hinv Hw e1 e2 e3. unfold va_path in Hw. cbn [walk] in Hw. fold e1 e2 e3 in Hw.
  destruct (entry_valid e1) eqn:H1; [|discriminate Hw].
  destruct (entry_valid e2) eqn:H2; [|discriminate Hw].
  destruct (entry_valid e3) eqn:H3; [|discriminate Hw]. injection Hw as <-.
  pose proof (pt_inv_child _ _ _ _ _ Hinv (l1_index_ok va) H1) as Hi1.
  pose proof (pt_inv_child _ _ _ _ _ Hi1 (l2_index_ok va) H2) as Hi2. auto 10.
Qed.

(** Changing the last-level table and the frame of one page leaves the bytes
    of another page alone. *)
Lemma other_page_bytes m m' root l va va' q2 pa pa' x :
  pt_inv 3 m root l -> walk m root (va_path va) = Some pa ->
  walk m root (va_path va') = Some pa' -> ~ same_page va va' ->
  walk m root [l1_index va; l2_index va] = Some q2 ->
  changed m m' [q2; pa] -> in_frame pa' x -> m' x = m x.
Proof.
  intros Hinv Hw Hw' Hne Hq Hch Hx. pose proof Hinv as [Hf _]. rewrite Forall_forall in Hf.
  assert (forall path p, (length path <= 3)%nat -> Forall index_ok path ->
            walk m root path = Some p -> frame_pa p) as Hframe.
  { intros path p Hl Hp Hwp. apply Hf, elem_of_app. left. now apply walk_owned with path. }
  apply (changed_frame m m' [q2; pa] pa'); auto.
  - apply (Hframe (va_path va')); [simpl; lia|apply va_path_ok|assumption].
  - apply Forall_cons. split; [|apply Forall_singleton].
    + apply (Hframe [l1_index va; l2_index va]); [simpl; lia|auto with atos|assumption].
    + apply (Hframe (va_path va)); [simpl; lia|apply va_path_ok|assumption].
  - intros [->|Heq]%elem_of_cons.
    + assert (va_path va' = [l1_index va; l2_index va]) as Heq; [|discriminate Heq].
      eapply walk_inj; [exact Hinv| | |apply va_path_ok| |exact Hw'|exact Hq]; auto with atos; simpl; lia.
    + apply list_elem_of_singleton in Heq as ->. apply Hne.
      eapply walk_inj; [exact Hinv| | |apply va_path_ok|apply va_path_ok|exact Hw'|exact Hw]; simpl; lia.
Qed.

Lemma free_page_ok st va root l pa :
  space_ok st root l -> walk (ram st) root (va_path va) = Some pa ->
  exists st', free_page va (Some root) st = Done tt st' /\
    space_ok st' root (pa :: l) /\
    (forall va', walk (ram st') root (va_path va') =
       if decide (same_page va va') then None else walk (ram st) root (va_path va')) /\
    (forall va' pa' x, walk (ram st') root (va_path va') = Some pa' ->
       in_frame pa' x -> ram st' x = ram st x) /\ same_regs st st' /\
    pt_step 3 root (ram st) l (ram st') (pa :: l).
Proof.
  intros [Hst Hinv] Hw. destruct (path_tables _ _ _ _ _ Hinv Hw) as (Hv1 & Hv2 & Hv3 & Hpa & Hi1 & Hi2).
  pose proof (l1_index_ok va) as Hok1. pose proof (l2_index_ok va) as Hok2.
  pose proof (l3_index_ok va) as Hok3.
  unfold free_page. cbn [translation_table]. unfold get_entry. unfold gets at 1 2, bind at 1 2.
  rewrite Hv1. cbn [negb]. unfold gets at 1, bind at 1. rewrite Hv2. cbn [negb].
  unfold gets at 1, bind at 1. rewrite Hv3. cbn [negb].
  set (q1 := entry_pa (table_entry (ram st) root (l1_index va))) in *.
  set (q2 := entry_pa (table_entry (ram st) q1 (l2_index va))) in *.
  destruct (leaf_remove st q2 (l3_index va) l Hst Hi2 Hok3 Hv3)
    as (st' & Hrun & Hst' & Hstep & Hwl & Hch & Hregs). cbv zeta in Hrun.
  rewrite <- Hpa in *.
  destruct (pt_step_lift2 _ _ _ _ _ _ _ Hinv Hok1 Hok2 Hv1 Hv2 Hstep) as [Hstepr Hwr].
  cbv zeta in Hwr. fold q1 q2 in Hwr.
  pose proof (pt_inv_step _ _ _ _ _ _ Hinv Hstepr) as Hinv'.
  assert (forall va', walk (ram st') root (va_path va') =
    if decide (same_page va va') then None else walk (ram st) root (va_path va')) as Hwalk.
  { intros va'. change (va_path va') with [l1_index va'; l2_index va'; l3_index va'].
    rewrite Hwr by auto with atos. change [l1_index va'; l2_index va'; l3_index va'] with (va_path va').
    destruct (decide (same_page va va')) as [Heq|Hne].
    - apply va_path_eq in Heq as (-> & -> & ->). rewrite decide_True by auto.
      rewrite Hwl by assumption. now rewrite decide_True.
    - destruct (decide (_ /\ _)) as [[E1 E2]|]; [|reflexivity].
      rewrite Hwl by auto with atos. rewrite decide_False.
      + change (va_path va') with [l1_index va'; l2_index va'; l3_index va'].
        rewrite E1, E2, (walk_cons_valid _ root), (walk_cons_valid _ q1) by assumption. reflexivity.
      + intros E3. apply Hne, va_path_eq. auto. }
  exists st'. split; [exact Hrun|]. split; [split; assumption|]. split; [exact Hwalk|].
  split; [|split; [exact Hregs|exact Hstepr]]. intros va' pa' x Hw' Hx.
  pose proof Hw' as Hw2. rewrite Hwalk in Hw2.
  destruct (decide (same_page va va')); [discriminate Hw2|].
  apply (other_page_bytes (ram st) (ram st') root l va va' q2 pa pa'); auto.
  now rewrite (walk_cons_valid _ root), (walk_cons_valid _ q1) by assumption.
Qed.

Lemma free_page_unmapped st va root :
  ttbr0_to_pa st va (Some root) = None -> free_page va (Some root) st = Done tt st.
Proof.
  intros Htr. unfold ttbr0_to_pa in Htr. unfold free_page, get_entry. run_m.
  cbn [translation_table] in *.
  destruct (negb (entry_valid _)); [reflexivity|]. cbv zeta in Htr.
  destruct (negb (entry_valid _)); [reflexivity|].
  destruct (negb (entry_valid _)); [reflexivity|]. discriminate Htr.
Qed.

(** [free_page]: an address that is not mapped is left alone; a mapped one
    becomes unmapped, its frame goes on top of the free list, and every other
    page keeps its translation and its bytes. *)
Theorem free_page_spec st va root l :
  space_ok st root l ->
  match ttbr0_to_pa st va (Some root) with
  | None => free_page va (Some root) st = Done tt st
  | Some p =>
      exists st', free_page va (Some root) st = Done tt st' /\
        space_ok st' root ((p - Z.land va 0xFFF) :: l) /\
        (forall va', ttbr0_to_pa st' va' (Some root) =
           if decide (same_page va va') then None else ttbr0_to_pa st va' (Some root)) /\
        (forall va' q, ttbr0_to_pa st' va' (Some root) = Some q -> ram st' q = ram st q)
  end.
Proof.
  intros Hsp. destruct (ttbr0_to_pa st va (Some root)) as [p|] eqn:Htr.
  - apply translate_some in Htr as (pa & Hw & ->).
    destruct (free_page_ok st va root l pa Hsp Hw) as (st' & Hrun & H1 & H2 & H3 & _).
    exists st'. replace (pa + Z.land va 0xFFF - Z.land va 0xFFF) with pa by lia.
    split_and!; auto.
    + intros va'. rewrite !ttbr0_to_pa_walk, H2. destruct (decide _); reflexivity.
    + intros va' q (pa' & Hw' & ->)%translate_some. apply (H3 va' pa'); [assumption|].
      pose proof (offset_range va'). unfold in_frame. lia.
  - now apply free_page_unmapped.
Qed.

Lemma free_page_spec_witness :
  exists l, space_ok demo_mapped demo_root l /\
  match ttbr0_to_pa demo_mapped 0x400123 (Some demo_root) with
  | None => free_page 0x400123 (Some demo_root) demo_mapped = Done tt demo_mapped
  | Some p =>
      exists st', free_page 0x400123 (Some demo_root) demo_mapped = Done tt st' /\
        space_ok st' demo_root ((p - Z.land 0x400123 0xFFF) :: l) /\
        (forall va', ttbr0_to_pa st' va' (Some demo_root) =
           if decide (same_page 0x400123 va') then None
           else ttbr0_to_pa demo_mapped va' (Some demo_root)) /\
        (forall va' q, ttbr0_to_pa st' va' (Some demo_root) = Some q ->
           ram st' q = ram demo_mapped q)
  end.
Proof.
  destruct demo_mapped_ok as [l Hl]. exists l. split; [exact Hl|].
  exact (free_page_spec demo_mapped 0x400123 demo_root l Hl).
Defined.

(** Allocating a page and freeing it again restores the translation of
    every address and the bytes of every page that was mapped, and puts the
    frame back on top of the free list; only intermediate tables stay. *)
Theorem alloc_free_roundtrip st va root l :
  space_ok st root l -> ttbr0_to_pa st va (Some root) = None -> (3 <= length l)%nat ->
  exists pa st' l', (alloc_page va (Some root) ;; free_page va (Some root)) st = Done tt st' /\
    space_ok st' root (pa :: l') /\
    (forall va', ttbr0_to_pa st' va' (Some root) = ttbr0_to_pa st va' (Some root)) /\
    (forall va' p, ttbr0_to_pa st va' (Some root) = Some p -> ram st' p = ram st p).
Proof.
  intros Hsp Hnone Hlen. apply translate_walk in Hnone.
  destruct (alloc_page_ok st va root l Hsp Hnone Hlen) as (pa & st1 & l' & Hrun & [H1 H2 [_ H3] H4 H5 _ _]).
  pose proof (H4 va) as Hva. rewrite decide_True in Hva by reflexivity.
  destruct (free_page_ok st1 va root l' pa H1 Hva) as (st2 & Hrun2 & G1 & G2 & G3 & _).
  assert (forall va', walk (ram st2) root (va_path va') = walk (ram st) root (va_path va')) as Hsame.
  { intros va'. rewrite G2. destruct (decide (same_page va va')) as [Heq|Hne].
    - unfold same_page in Heq. now rewrite Heq.
    - rewrite H4. now rewrite decide_False. }
  exists pa, st2, l'. split; [unfold bind; rewrite Hrun; exact Hrun2|]. split; [exact G1|]. split.
  - intros va'. now rewrite !ttbr0_to_pa_walk, Hsame.
  - intros va' p (pa' & Hw & ->)%translate_some.
    assert (in_frame pa' (pa' + Z.land va' 0xFFF)) as Hin
      by (pose proof (offset_range va'); unfold in_frame; lia).
    rewrite (G3 va' pa'), (H5 va' pa'); auto. now rewrite Hsame.
Qed.

Lemma alloc_free_roundtrip_witness :
  (space_ok demo_space demo_root demo_free /\
   ttbr0_to_pa demo_space 0x400000 (Some demo_root) = None /\ (3 <= length demo_free)%nat) /\
  exists pa st' l',
    (alloc_page 0x400000 (Some demo_root) ;; free_page 0x400000 (Some demo_root)) demo_space
      = Done tt st' /\
    space_ok st' demo_root (pa :: l') /\
    (forall va', ttbr0_to_pa st' va' (Some demo_root) = ttbr0_to_pa demo_space va' (Some demo_root)) /\
    (forall va' p, ttbr0_to_pa demo_space va' (Some demo_root) = Some p ->
       ram st' p = ram demo_space p).
Proof.
  assert (3 <= length demo_free)%nat as Hl by (vm_compute; lia).
  split; [split; [exact demo_space_ok|split; [exact demo_unmapped|exact Hl]]|].
  exact (alloc_free_roundtrip demo_space 0x400000 demo_root demo_free demo_space_ok demo_unmapped Hl).
Defined.
