(* ===== verification/UserMem.v ===== *)
(** Writing a process's memory from the kernel: [copy_to_pages] of
    src/src/kernel/paging.rs, over the translation of PageTable.v.

    [vread st root va] is the byte a process whose table is [root] sees at
    [va].  The addresses of a space are the 39-bit ones the table walk
    distinguishes. *)

From Stdlib Require Import ZArith Lia.
From stdpp Require Import base strings numbers list.
From S2P Require Import Prelude Memory Frames PageTable PageFree PagingSpec.

Local Open Scope Z_scope.

(** ** The operation *)

(** The [while] loop: every iteration copies at least one byte, so
    [length src] iterations are enough. *)
Fixpoint copy_to_pages_loop (fuel : nat) (src : bytes) (src_offset current_va : Z)
    (ttbr0_val : option Z) : M pstate (result unit) :=
  if src_offset <? Z.of_nat (length src) then
    match fuel with
    | O => diverge
    | S fuel' =>
        let* t := gets (fun st => ttbr0_to_ttbr1 st current_va ttbr0_val) in
        match t with
        | None => ret (RErr "Destination page not mapped")
        | Some dst =>
            let bytes_this_page :=
              Z.min (sub64 PAGE_SIZE (Z.land current_va (PAGE_SIZE - 1)))
                    (sub64 (Z.of_nat (length src)) src_offset) in
            modify (fun st => set_ram (write_list (ram st) (ttbr1_to_pa dst)
              (take (Z.to_nat bytes_this_page) (drop (Z.to_nat src_offset) src))) st) ;;
            copy_to_pages_loop fuel' src (add64 src_offset bytes_this_page)
              (add64 current_va bytes_this_page) ttbr0_val
        end
    end
  else ret (ROk tt).

Definition copy_to_pages (src : bytes) (dst_va : Z) (ttbr0_val : option Z)
  : M pstate (result unit) :=
  copy_to_pages_loop (length src) src 0 dst_va ttbr0_val.

(** ** Virtual addresses *)

Definition VA_LIMIT : Z := 2 ^ 39.

Definition vread (st : pstate) (root va : Z) : option Z :=
  ram st <$> ttbr0_to_pa st va (Some root).

Lemma offset_mod va : Z.land va 0xFFF = va mod 4096.
Proof. change 0xFFF with (2 ^ 12 - 1). now rewrite land_mask_low by lia. Qed.

Lemma index_div va n : 12 <= n -> Z.land (Z.shiftr va n) 0x1FF = (va / 4096 / 2 ^ (n - 12)) mod 512.
Proof.
  intros Hn. change 0x1FF with (2 ^ 9 - 1). rewrite land_mask_low by lia.
  rewrite Z.shiftr_div_pow2 by lia. rewrite Z.div_div by lia.
  change 4096 with (2 ^ 12). rewrite <- Z.pow_add_r by lia. do 3 f_equal. lia.
Qed.

Lemma va_path_page va va' : va / 4096 = va' / 4096 -> va_path va = va_path va'.
Proof.
  intros H. unfold va_path, l1_index, l2_index, l3_index.
  rewrite !index_div by lia. now rewrite H.
Qed.

(** A page number of a 39-bit address from its three indices. *)
Lemma page_number a :
  0 <= a < 512 * 512 * 512 ->
  a = (a / 262144 mod 512) * 262144 + (a / 512 mod 512) * 512 + a mod 512.
Proof.
  intros H. change 262144 with (512 * 512). rewrite <- Z.div_div by lia.
  pose proof (Z.div_mod a 512 ltac:(lia)) as H1.
  pose proof (Z.div_mod (a / 512) 512 ltac:(lia)) as H2.
  rewrite (Z.mod_small (a / 512 / 512)) by
    (split; [apply Z.div_pos; [apply Z.div_pos; lia|lia]|
             do 2 (apply Z.div_lt_upper_bound; [lia|]); lia]).
  lia.
Qed.

(** Distinct 39-bit page numbers have distinct paths. *)
Lemma va_path_inj va va' :
  0 <= va < VA_LIMIT -> 0 <= va' < VA_LIMIT -> va_path va = va_path va' ->
  va / 4096 = va' / 4096.
Proof.
  unfold VA_LIMIT, va_path, l1_index, l2_index, l3_index.
  rewrite !index_div by lia. intros H H' [= H1 H2 H3].
  change (2 ^ (30 - 12)) with 262144 in *. change (2 ^ (21 - 12)) with 512 in *.
  change (2 ^ (12 - 12)) with 1 in *. rewrite !Z.div_1_r in H3.
  assert (forall x, 0 <= x < 2 ^ 39 -> 0 <= x / 4096 < 512 * 512 * 512) as Hb.
  { intros x Hx. split; [apply Z.div_pos; lia|]. apply Z.div_lt_upper_bound; [lia|].
    change (4096 * (512 * 512 * 512)) with (2 ^ 39). apply Hx. }
  rewrite (page_number (va / 4096) (Hb va H)), (page_number (va' / 4096) (Hb va' H')).
  now rewrite H1, H2, H3.
Qed.

Lemma vread_some st root va pa :
  walk (ram st) root (va_path va) = Some pa -> vread st root va = Some (ram st (pa + va mod 4096)).
Proof. intros H. unfold vread. now rewrite ttbr0_to_pa_walk, H, offset_mod. Qed.

Lemma vread_none st root va :
  walk (ram st) root (va_path va) = None -> vread st root va = None.
Proof. intros H. unfold vread. now rewrite ttbr0_to_pa_walk, H. Qed.

(** ** Writing to a mapped page *)

Lemma tables_walk k m t p :
  p ∈ tables k m t ->
  exists path, (length path < k)%nat /\ Forall index_ok path /\ walk m t path = Some p.
Proof.
  revert t. induction k as [|k IH]; intros t Hp; [inversion Hp|].
  cbn [tables] in Hp. apply elem_of_app in Hp as [Hp|Hp].
  - apply list_elem_of_bind in Hp as (i & Hp & Hi). apply elem_of_index in Hi.
    cbv zeta in Hp. destruct (entry_valid (table_entry m t i)) eqn:Hv; [|inversion Hp].
    destruct (IH _ Hp) as (path & Hl & Hf & Hw). exists (i :: path).
    split; [simpl; lia|]. split; [now constructor|]. now rewrite walk_cons_valid.
  - apply list_elem_of_singleton in Hp as ->. exists []. split; [simpl; lia|]. auto.
Qed.

(** Changing the bytes of a page changes neither the tables nor the free list. *)
Lemma page_write_ok st va root l pa m' :
  space_ok st root l -> walk (ram st) root (va_path va) = Some pa ->
  changed (ram st) m' [pa] -> mem_ok m' ->
  space_ok (set_ram m' st) root l /\ owned 3 m' root = owned 3 (ram st) root /\
  forall va', walk m' root (va_path va') = walk (ram st) root (va_path va').
Proof.
  intros [Hst Hinv] Hw Hch Hm. pose proof Hinv as [Hf Hn].
  assert (pa ∈ owned 3 (ram st) root) as Hpa
    by (eapply walk_owned; [|apply va_path_ok|exact Hw]; simpl; lia).
  apply Forall_app in Hf as [Hfo Hfl]. apply NoDup_app in Hn as (_ & Hdis & _).
  pose proof Hfo as Hfo'. pose proof Hfl as Hfl'. rewrite Forall_forall in Hfo', Hfl'.
  assert (Forall frame_pa [pa]) as Hfp by (constructor; auto).
  destruct (tables_agree 3 (ram st) m' root Hfo) as (Ho & _ & Hwk).
  { intros p x Hp Hx. apply (changed_frame _ _ [pa] p);
      [exact Hch|apply Hfo', tables_owned, Hp|exact Hfp| |exact Hx].
    intros ->%list_elem_of_singleton.
    destruct (tables_walk _ _ _ _ Hp) as (path & Hl & Hpf & Hwp).
    assert (va_path va = path) as <-; [|simpl in Hl; lia].
    eapply walk_inj; [exact Hinv|simpl; lia|lia|apply va_path_ok|assumption|exact Hw|exact Hwp]. }
  split; [|split; [exact Ho|]].
  - split; cbn [ram set_ram].
    + apply free_frames_change; [assumption|assumption|]. intros p x Hp Hx.
      apply (changed_frame _ _ [pa] p); auto.
      intros ->%list_elem_of_singleton. now apply (Hdis pa).
    + destruct Hinv as [H1 H2]. split; now rewrite Ho.
  - intros va'. apply Hwk; [simpl; lia|apply va_path_ok].
Qed.

(** Two pages mapped at distinct 39-bit page numbers are distinct frames. *)
Lemma pages_distinct st root l va va' pa pa' :
  space_ok st root l -> 0 <= va < VA_LIMIT -> 0 <= va' < VA_LIMIT ->
  walk (ram st) root (va_path va) = Some pa -> walk (ram st) root (va_path va') = Some pa' ->
  va / 4096 <> va' / 4096 -> frame_pa pa /\ frame_pa pa' /\ pa <> pa'.
Proof.
  intros [_ Hinv] Hva Hva' Hw Hw' Hne. pose proof Hinv as [Hf _]. rewrite Forall_forall in Hf.
  assert (forall v q, walk (ram st) root (va_path v) = Some q -> frame_pa q) as Hfr.
  { intros v q Hq. apply Hf, elem_of_app. left.
    eapply walk_owned; [|apply va_path_ok|exact Hq]. simpl. lia. }
  split; [eauto|]. split; [eauto|]. intros <-. apply Hne, va_path_inj; auto.
  eapply walk_inj; [exact Hinv|simpl; lia|simpl; lia|apply va_path_ok|apply va_path_ok|exact Hw|exact Hw'].
Qed.

(** The bytes [bs] written through one page at [va]. *)
Definition page_write (st : pstate) (p : Z) (bs : bytes) : pstate :=
  set_ram (write_list (ram st) p bs) st.

(** [st'] is [st] after the process's bytes at [va] became [bs]: no other
    byte it sees and no translation changed. *)
Record user_update (st : pstate) (root : Z) (l : list Z) (va : Z) (bs : bytes)
    (st' : pstate) : Prop := {
  uu_space : space_ok st' root l;
  uu_owned : owned 3 (ram st') root = owned 3 (ram st) root;
  uu_walk : forall va', walk (ram st') root (va_path va') = walk (ram st) root (va_path va');
  uu_read : forall va', 0 <= va' < VA_LIMIT -> vread st' root va' =
     if decide (va <= va' < va + Z.of_nat (length bs)) then bs !! Z.to_nat (va' - va)
     else vread st root va';
  uu_changed : changed (ram st) (ram st') (owned 3 (ram st) root);
  uu_regs : same_regs st st';
}.

Lemma user_update_nil st root l va : space_ok st root l -> user_update st root l va [] st.
Proof.
  intros H. split; auto using changed_refl with atos.
  intros va' _. rewrite decide_False by (simpl; lia). reflexivity.
Qed.

Lemma user_update_app st root l va bs1 st1 bs2 st2 :
  user_update st root l va bs1 st1 ->
  user_update st1 root l (va + Z.of_nat (length bs1)) bs2 st2 ->
  user_update st root l va (bs1 ++ bs2) st2.
Proof.
  intros [S1 O1 W1 R1 C1 G1] [S2 O2 W2 R2 C2 G2]. split; auto.
  - congruence.
  - intros va'. now rewrite W2.
  - intros va' Hva'. rewrite R2, R1, length_app by assumption.
    destruct (decide (va + _ <= va' < _)) as [H|H]; [|destruct (decide (va <= va' < _)) as [H'|H']].
    + rewrite decide_True by lia. rewrite lookup_app_r by lia. f_equal. lia.
    + rewrite decide_True by lia. rewrite lookup_app_l by lia. reflexivity.
    + now rewrite decide_False by lia.
  - eapply changed_trans; [exact C1|]. now rewrite <- O1.
  - eauto using same_regs_trans.
Qed.

(** Replacing bytes of one page, however they are written. *)
Lemma page_update_spec st va root l pa m' bs :
  space_ok st root l -> walk (ram st) root (va_path va) = Some pa ->
  0 <= va < VA_LIMIT -> va mod 4096 + Z.of_nat (length bs) <= 4096 -> mem_ok m' ->
  (forall x, pa + va mod 4096 <= x < pa + va mod 4096 + Z.of_nat (length bs) ->
     bs !! Z.to_nat (x - (pa + va mod 4096)) = Some (m' x)) ->
  (forall x, ~ pa + va mod 4096 <= x < pa + va mod 4096 + Z.of_nat (length bs) -> m' x = ram st x) ->
  user_update st root l va bs (set_ram m' st).
Proof.
  intros Hsp Hw Hva Hlen Hm Hin Hout.
  pose proof (Z.mod_pos_bound va 4096 ltac:(lia)) as Hoff.
  pose proof (Z.div_mod va 4096 ltac:(lia)) as Hdm.
  assert (changed (ram st) m' [pa]) as Hch.
  { intros x Hx. apply Hout. specialize (Hx pa ltac:(left)). unfold in_frame in Hx. lia. }
  destruct (page_write_ok st va root l pa m' Hsp Hw Hch Hm) as (Hsp' & Hown & Hwk).
  split; [exact Hsp'|exact Hown|exact Hwk| | |split; reflexivity].
  - intros va' Hva'. pose proof (Z.mod_pos_bound va' 4096 ltac:(lia)) as Hoff'.
    pose proof (Z.div_mod va' 4096 ltac:(lia)) as Hdm'.
    destruct (walk (ram st) root (va_path va')) as [pa'|] eqn:Hw'.
    2:{ rewrite !vread_none by (cbn [ram set_ram]; rewrite ?Hwk; assumption).
        destruct (decide _) as [Hr|]; [exfalso|reflexivity].
        rewrite (va_path_page va' va) in Hw'; [congruence|]. lia. }
    rewrite (vread_some (set_ram _ _) _ _ pa') by (cbn [ram set_ram]; now rewrite Hwk).
    rewrite (vread_some st _ _ pa') by assumption. cbn [ram set_ram].
    destruct (decide (va / 4096 = va' / 4096)) as [Heq|Hne].
    + rewrite <- (va_path_page va va' Heq) in Hw'. assert (pa' = pa) as -> by congruence.
      destruct (decide _) as [Hr|Hnr].
      * rewrite <- Hin by lia. f_equal. lia.
      * f_equal. apply Hout. lia.
    + rewrite decide_False by lia.
      destruct (pages_distinct st root l va va' pa pa') as (Hf & Hf' & Hpp); auto. f_equal.
      apply (changed_frame _ _ [pa] pa'); auto.
      * rewrite list_elem_of_singleton. auto.
      * pose proof (Z.mod_pos_bound va' 4096 ltac:(lia)). unfold in_frame. lia.
  - eapply changed_weaken; [exact Hch|]. intros d ->%list_elem_of_singleton.
    eapply walk_owned; [|apply va_path_ok|exact Hw]. simpl. lia.
Qed.

Lemma page_write_spec st va root l p bs :
  space_ok st root l -> ttbr0_to_pa st va (Some root) = Some p ->
  0 <= va < VA_LIMIT -> va mod 4096 + Z.of_nat (length bs) <= 4096 -> Forall is_u8 bs ->
  user_update st root l va bs (page_write st p bs).
Proof.
  intros Hsp Htr Hva Hlen Hbs. apply translate_some in Htr as (pa & Hw & ->).
  rewrite offset_mod in *. apply (page_update_spec st va root l pa); auto.
  - apply mem_ok_write_list; [apply Hsp|assumption].
  - intros x Hx. rewrite write_list_in by lia.
    destruct (lookup_lt_is_Some_2 bs (Z.to_nat (x - (pa + va mod 4096))) ltac:(lia)) as [c Hc].
    rewrite Hc. f_equal. symmetry. now apply nth_lookup_Some.
  - intros x Hx. now apply write_list_out.
Qed.

(** ** The copy *)

Lemma ttbr1_pa_va_user p : 0 <= p < 2 ^ 32 -> ttbr1_to_pa (ttbr1_to_va p) = p.
Proof. intros. apply ttbr1_pa_va. lia. Qed.

Lemma mapped_bound st va root l p :
  space_ok st root l -> ttbr0_to_pa st va (Some root) = Some p -> 0 <= p < 2 ^ 31 + 4096.
Proof.
  intros [_ [Hf _]] (pa & Hw & ->)%translate_some. rewrite Forall_forall in Hf.
  assert (frame_pa pa) as [H _].
  { apply Hf, elem_of_app. left. eapply walk_owned; [|apply va_path_ok|exact Hw]. simpl. lia. }
  pose proof (offset_range va). lia.
Qed.

(** One round of the loop. *)
Lemma copy_round st root l src off va p :
  space_ok st root l -> ttbr0_to_pa st va (Some root) = Some p ->
  0 <= off < Z.of_nat (length src) -> Z.of_nat (length src) < U64 -> 0 <= va < VA_LIMIT ->
  Forall is_u8 src ->
  let n := Z.min (sub64 PAGE_SIZE (Z.land va (PAGE_SIZE - 1))) (sub64 (Z.of_nat (length src)) off) in
  let chunk := take (Z.to_nat n) (drop (Z.to_nat off) src) in
  0 < n <= Z.of_nat (length src) - off /\ Z.of_nat (length chunk) = n /\
  user_update st root l va chunk
    (set_ram (write_list (ram st) (ttbr1_to_pa (ttbr1_to_va p)) chunk) st).
Proof.
  intros Hsp Htr Hoff Hlen Hva Hbs. cbv zeta.
  change (PAGE_SIZE - 1) with 0xFFF. rewrite offset_mod.
  pose proof (Z.mod_pos_bound va 4096 ltac:(lia)) as Ho. change PAGE_SIZE with 4096.
  no_wrap. set (n := Z.min (4096 - va mod 4096) (Z.of_nat (length src) - off)).
  assert (0 < n <= Z.of_nat (length src) - off) as Hn by lia.
  set (chunk := take (Z.to_nat n) (drop (Z.to_nat off) src)).
  assert (Z.of_nat (length chunk) = n) as Hc
    by (unfold chunk; rewrite length_take, length_drop; lia).
  split; [exact Hn|]. split; [exact Hc|].
  rewrite ttbr1_pa_va_user by (pose proof (mapped_bound _ _ _ _ _ Hsp Htr); lia).
  apply (page_write_spec st va root l p chunk); auto; [lia|].
  now apply Forall_take, Forall_drop.
Qed.

Definition copy_outcome (st : pstate) (root : Z) (l : list Z) (va limit : Z) (bs : bytes)
    (r : result unit) (st' : pstate) : Prop :=
  match r with
  | ROk _ => user_update st root l va bs st' /\
      forall v, va <= v < limit -> ttbr0_to_pa st v (Some root) <> None
  | RErr e => e = "Destination page not mapped"%string /\
      exists v k, va <= v < limit /\ ttbr0_to_pa st v (Some root) = None /\
        user_update st root l va (take k bs) st'
  end.

Lemma user_update_translate st root l va bs st' v :
  user_update st root l va bs st' -> ttbr0_to_pa st' v (Some root) = ttbr0_to_pa st v (Some root).
Proof. intros [_ _ W _ _ _]. now rewrite !ttbr0_to_pa_walk, W. Qed.

(** Inside one page, the first address decides whether all are mapped. *)
Lemma same_page_mapped st root va v :
  va / 4096 = v / 4096 -> ttbr0_to_pa st va (Some root) <> None ->
  ttbr0_to_pa st v (Some root) <> None.
Proof. rewrite !translate_walk. intros H. now rewrite (va_path_page va v H). Qed.

Lemma copy_loop_ok fuel src off va0 st root l :
  (length src - Z.to_nat off <= fuel)%nat -> 0 <= off <= Z.of_nat (length src) ->
  0 <= va0 -> va0 + Z.of_nat (length src) <= VA_LIMIT -> Forall is_u8 src ->
  space_ok st root l ->
  exists r st', copy_to_pages_loop fuel src off (va0 + off) (Some root) st = Done r st' /\
    copy_outcome st root l (va0 + off) (va0 + Z.of_nat (length src)) (drop (Z.to_nat off) src) r st'.
Proof.
  intros Hfuel Hoff Hva Hlim Hbs. revert off st Hfuel Hoff.
  induction fuel as [|fuel IH]; intros off st Hfuel Hoff Hsp; cbn [copy_to_pages_loop];
    (destruct (Z.ltb_spec off (Z.of_nat (length src))) as [Hlt|Hge];
     [|exists (ROk tt), st; split; [reflexivity|]; cbn [copy_outcome];
       rewrite drop_ge by lia; split; [now apply user_update_nil|intros; lia]]); [lia|].
  unfold VA_LIMIT in *. run_m. unfold ttbr0_to_ttbr1.
  destruct (ttbr0_to_pa st (va0 + off) (Some root)) as [p|] eqn:Htr; cbn [fmap option_fmap option_map].
  2:{ exists (RErr "Destination page not mapped"), st. split; [reflexivity|]. cbn [copy_outcome].
      split; [reflexivity|]. exists (va0 + off), 0%nat. split; [lia|]. split; [exact Htr|].
      rewrite take_0. now apply user_update_nil. }
  destruct (copy_round st root l src off (va0 + off) p) as (Hn & Hc & Hu); auto;
    [lia|unfold U64; lia|unfold VA_LIMIT; lia|]. cbv zeta in *.
  set (n := Z.min _ _) in *. set (chunk := take _ _) in *.
  rewrite !add64_small by (unfold U64; lia). set (st1 := set_ram _ st) in *.
  replace (va0 + off + n) with (va0 + (off + n)) by lia.
  destruct (IH (off + n) st1) as (r & st' & Hrun & Hout); [lia|lia|apply Hu|].
  exists r, st'. split; [exact Hrun|]. rewrite <- (take_drop (Z.to_nat n) (drop (Z.to_nat off) src)).
  fold chunk. rewrite drop_drop.
  replace (Z.to_nat off + Z.to_nat n)%nat with (Z.to_nat (off + n)) by lia.
  destruct r as [u|e]; cbn [copy_outcome] in *.
  - destruct Hout as [Hu2 Hm]. split.
    + eapply user_update_app; [exact Hu|]. rewrite Hc. now replace (va0 + off + n) with (va0 + (off + n)) by lia.
    + intros v Hv. destruct (Z.lt_ge_cases v (va0 + (off + n))) as [Hin|Hout].
      * apply (same_page_mapped st root (va0 + off)); [|congruence].
        assert (n <= 4096 - (va0 + off) mod 4096) as Hpg.
        { subst n. change (PAGE_SIZE - 1) with 0xFFF. rewrite offset_mod.
          pose proof (Z.mod_pos_bound (va0 + off) 4096 ltac:(lia)).
          rewrite sub64_small by (unfold PAGE_SIZE, U64; lia). unfold PAGE_SIZE. lia. }
        pose proof (Z.div_mod (va0 + off) 4096 ltac:(lia)).
        pose proof (Z.mod_pos_bound (va0 + off) 4096 ltac:(lia)).
        apply (Z.div_unique_pos v 4096 ((va0 + off) / 4096) (v - 4096 * ((va0 + off) / 4096))); lia.
      * rewrite <- (user_update_translate _ _ _ _ _ _ v Hu). apply Hm. lia.
  - destruct Hout as (He & v & k & Hv & Hnone & Hu2). split; [exact He|].
    exists v, (length chunk + k)%nat. split; [lia|].
    split; [now rewrite <- (user_update_translate _ _ _ _ _ _ v Hu)|].
    rewrite take_app_add. eapply user_update_app; [exact Hu|]. rewrite Hc.
    now replace (va0 + off + n) with (va0 + (off + n)) by lia.
Qed.

Lemma copy_to_pages_ok src va st root l :
  space_ok st root l -> Forall is_u8 src -> 0 <= va -> va + Z.of_nat (length src) <= VA_LIMIT ->
  exists r st', copy_to_pages src va (Some root) st = Done r st' /\
    copy_outcome st root l va (va + Z.of_nat (length src)) src r st'.
Proof.
  intros Hsp Hbs Hva Hlim.
  destruct (copy_loop_ok (length src) src 0 va st root l) as (r & st' & Hrun & Hout); auto; try lia.
  rewrite Z.add_0_r in *. exists r, st'. auto.
Qed.

(** Copying into a process's address space succeeds exactly when every
    destination page is mapped.  After a successful copy the process reads the
    copied bytes at the destination and what it read before everywhere else;
    after a failed one it reads a prefix of them.  In both cases the tables,
    the free list and every translation are as before. *)
Theorem copy_to_pages_spec src va st root l :
  space_ok st root l -> Forall is_u8 src -> 0 <= va -> va + Z.of_nat (length src) <= VA_LIMIT ->
  exists r st' k, copy_to_pages src va (Some root) st = Done r st' /\
    (r = ROk tt <-> forall v, va <= v < va + Z.of_nat (length src) ->
                              ttbr0_to_pa st v (Some root) <> None) /\
    (r = ROk tt -> k = length src) /\
    space_ok st' root l /\
    (forall v, ttbr0_to_pa st' v (Some root) = ttbr0_to_pa st v (Some root)) /\
    (forall v, 0 <= v < VA_LIMIT -> vread st' root v =
       if decide (va <= v < va + Z.of_nat (length (take k src))) then src !! Z.to_nat (v - va)
       else vread st root v).
Proof.
  intros Hsp Hbs Hva Hlim.
  destruct (copy_to_pages_ok src va st root l Hsp Hbs Hva Hlim) as (r & st' & Hrun & Hout).
  destruct r as [[]|e].
  - destruct Hout as [Hu Hm]. exists (ROk tt), st', (length src). rewrite take_ge by lia.
    split; [exact Hrun|]. split; [tauto|]. split; [reflexivity|]. split; [apply Hu|].
    split; [intros v; eapply user_update_translate; exact Hu|apply Hu].
  - destruct Hout as (-> & v & k & Hv & Hnone & Hu). exists (RErr "Destination page not mapped"), st', k.
    split; [exact Hrun|]. split; [split; [intros [=]|intros H; now apply H in Hnone]|].
    split; [intros [=]|]. split; [apply Hu|].
    split; [intros v'; eapply user_update_translate; exact Hu|].
    intros v' Hv'. rewrite (uu_read _ _ _ _ _ _ Hu) by assumption.
    destruct (decide _) as [Hr|]; [|reflexivity].
    apply lookup_take_lt. rewrite length_take in Hr. lia.
Qed.

Lemma copy_to_pages_spec_witness :
  exists l, space_ok demo_mapped demo_root l /\ Forall is_u8 (str "hello") /\
  exists r st' k, copy_to_pages (str "hello") 0x400ffe (Some demo_root) demo_mapped = Done r st' /\
    (r = ROk tt <-> forall v, 0x400ffe <= v < 0x400ffe + Z.of_nat (length (str "hello")) ->
                              ttbr0_to_pa demo_mapped v (Some demo_root) <> None) /\
    (r = ROk tt -> k = length (str "hello")) /\
    space_ok st' demo_root l /\
    (forall v, ttbr0_to_pa st' v (Some demo_root) = ttbr0_to_pa demo_mapped v (Some demo_root)) /\
    (forall v, 0 <= v < VA_LIMIT -> vread st' demo_root v =
       if decide (0x400ffe <= v < 0x400ffe + Z.of_nat (length (take k (str "hello"))))
       then str "hello" !! Z.to_nat (v - 0x400ffe)
       else vread demo_mapped demo_root v).
Proof.
  destruct demo_mapped_ok as [l Hl]. exists l.
  assert (Forall is_u8 (str "hello")) as Hs by (apply (bool_decide_unpack _); vm_compute; exact I).
  split; [exact Hl|]. split; [exact Hs|].
  apply (copy_to_pages_spec (str "hello") 0x400ffe demo_mapped demo_root l Hl Hs);
    vm_compute; intros [=].
Defined.
