(* ===== verification/PageDup.v ===== *)
(** Duplicating an address space: [duplicate_va_space] and
    [do_duplicate_table_recursive] of src/src/kernel/paging.rs (the
    definitions are in PageTable.v).  The copy is a tree of fresh frames with
    the source's shape, attribute bits and page contents; when memory runs
    out the rollback returns every frame that was taken. *)

From Stdlib Require Import ZArith Lia.
From stdpp Require Import base strings numbers list.
From S2P Require Import Prelude Memory Frames PageTable PageFree PagingSpec.

Local Open Scope Z_scope.

(** The memory [m] has the bytes of [m0] in the frames of [D]. *)
Definition agree (D : list Z) (m m0 : mem) : Prop :=
  forall p x, p ∈ D -> in_frame p x -> m x = m0 x.

(** The table [d] of [m] is a deep copy of the table [s] of [m0]: the same
    valid entries with the same attribute bits, and under them copies; at
    depth 0 the frames are pages, with the same bytes. *)
Fixpoint dup_tree (k : nat) (m0 : mem) (s : Z) (m : mem) (d : Z) : Prop :=
  match k with
  | O => forall o, 0 <= o < 4096 -> m (d + o) = m0 (s + o)
  | S k' => forall i, index_ok i ->
      let e := table_entry m0 s i in
      let e' := table_entry m d i in
      entry_valid e' = entry_valid e /\
      (entry_valid e = true ->
         Z.land e' (not64 PTE_ADDR_MASK) = Z.land e (not64 PTE_ADDR_MASK) /\
         dup_tree k' m0 (entry_pa e) m (entry_pa e'))
  end.

Definition dup_entry (k : nat) (m0 : mem) (s : Z) (m : mem) (d i : Z) : Prop :=
  let e := table_entry m0 s i in
  let e' := table_entry m d i in
  entry_valid e' = entry_valid e /\
  (entry_valid e = true ->
     Z.land e' (not64 PTE_ADDR_MASK) = Z.land e (not64 PTE_ADDR_MASK) /\
     dup_tree k m0 (entry_pa e) m (entry_pa e')).

(** Frames [used] left the front of the free list [l], and only they and the
    table [d] changed. *)
Record copy_step (d : Z) (st : pstate) (l : list Z) (st' : pstate) (used l' : list Z) : Prop := {
  cs_list : l = used ++ l';
  cs_free : free_frames st' l';
  cs_changed : changed (ram st) (ram st') (d :: used);
  cs_regs : same_regs st st';
}.

Lemma copy_step_refl d st l : free_frames st l -> copy_step d st l st [] l.
Proof. intros H. split; auto using changed_refl with atos. Qed.

Lemma copy_step_trans d st1 l1 st2 u1 l2 st3 u2 l3 :
  copy_step d st1 l1 st2 u1 l2 -> copy_step d st2 l2 st3 u2 l3 ->
  copy_step d st1 l1 st3 (u1 ++ u2) l3.
Proof.
  intros [-> H1 C1 R1] [-> H2 C2 R2]. split; auto.
  - now rewrite app_assoc.
  - eapply changed_trans.
    + eapply changed_weaken; [exact C1|]. intros x. rewrite !elem_of_cons, elem_of_app. tauto.
    + eapply changed_weaken; [exact C2|]. intros x. rewrite !elem_of_cons, elem_of_app. tauto.
  - eauto using same_regs_trans.
Qed.

Lemma free_frames_frames st l : free_frames st l -> Forall frame_pa l.
Proof. now intros []. Qed.

Lemma agree_changed D m m0 m' E :
  agree D m m0 -> Forall frame_pa D -> Forall frame_pa E ->
  (forall p, p ∈ D -> p ∉ E) -> changed m m' E -> agree D m' m0.
Proof.
  intros Ha HD HE Hdis Hch p x Hp Hx. rewrite <- (Ha p x Hp Hx).
  rewrite Forall_forall in HD. apply (changed_frame _ _ E p); auto.
Qed.

Lemma agree_sub D D' m m0 : agree D m m0 -> (forall p, p ∈ D' -> p ∈ D) -> agree D' m m0.
Proof. intros Ha Hs p x Hp. apply Ha, Hs, Hp. Qed.

Lemma agree_entry D m m0 t i :
  agree D m m0 -> t ∈ D -> frame_pa t -> index_ok i -> table_entry m t i = table_entry m0 t i.
Proof. intros Ha Ht Hf Hi. apply table_entry_ext; auto. intros x Hx. now apply (Ha t). Qed.

(** A copy stays one when the frames it owns keep their bytes. *)
Lemma dup_tree_stable k m0 s m m' d :
  Forall frame_pa (owned k m d) -> agree (owned k m d) m' m ->
  dup_tree k m0 s m d -> dup_tree k m0 s m' d.
Proof.
  revert s d. induction k as [|k IH]; intros s d Hf Ha Hd.
  - intros o Ho. rewrite <- (Hd o Ho). apply (Ha d); [now left|]. unfold in_frame. lia.
  - intros i Hi. destruct (Hd i Hi) as [Hv Hc].
    assert (table_entry m' d i = table_entry m d i) as He.
    { apply (agree_entry (owned (S k) m d)); auto with atos.
      rewrite Forall_forall in Hf. apply Hf, owned_self. }
    rewrite He. split; [exact Hv|]. intros Hve. destruct (Hc Hve) as [Hfl Ht].
    split; [exact Hfl|]. rewrite Hve in Hv.
    assert (forall p, p ∈ owned k m (entry_pa (table_entry m d i)) -> p ∈ owned (S k) m d) as Hsub.
    { intros p Hp. apply owned_sub with i; [exact Hi|]. now rewrite child_owned_valid. }
    apply IH; [|eapply agree_sub; eauto|exact Ht].
    rewrite Forall_forall in *. auto.
Qed.

(** Following the same path in a tree and in its copy. *)
Lemma dup_tree_walk k m0 s m d path :
  dup_tree k m0 s m d -> length path = k -> Forall index_ok path ->
  match walk m0 s path with
  | None => walk m d path = None
  | Some p => exists p', walk m d path = Some p' /\
                         forall o, 0 <= o < 4096 -> m (p' + o) = m0 (p + o)
  end.
Proof.
  revert s d path. induction k as [|k IH]; intros s d path Hd Hl Hp.
  - destruct path; [|discriminate]. cbn. eauto.
  - destruct path as [|i path]; [discriminate|]. apply Forall_cons in Hp as [Hi Hp].
    destruct (Hd i Hi) as [Hv Hc]. cbn [walk]. rewrite Hv.
    destruct (entry_valid (table_entry m0 s i)); [|reflexivity].
    apply IH; [now apply Hc|simpl in Hl; lia|exact Hp].
Qed.

(** ** The loop over a table's entries *)

Section copy_loop.
Context (k : nat) (m0 : mem) (s d : Z) (body : Z -> M pstate (result unit)).
Context (Hs : Forall frame_pa (owned (S k) m0 s)) (Hd : frame_pa d).

(** What has to hold before entry [i] is copied. *)
Record copy_ready (i : Z) (st : pstate) (l : list Z) : Prop := {
  cr_free : free_frames st l;
  cr_fresh : d ∉ l;
  cr_disj : forall p, p ∈ owned (S k) m0 s -> p ∉ d :: l;
  cr_agree : agree (owned (S k) m0 s) (ram st) m0;
  cr_index : index_ok i;
  cr_empty : entry_valid (table_entry (ram st) d i) = false;
}.

(** What one iteration of the loop does. *)
Definition copies_child (i : Z) (st : pstate) (l : list Z) : Prop :=
  exists r st' used l', body i st = Done r st' /\ copy_step d st l st' used l' /\
    (forall j, index_ok j -> j <> i ->
       table_entry (ram st') d j = table_entry (ram st) d j) /\
    child_owned k (ram st') d i ≡ₚ used /\
    match r with
    | ROk _ => dup_entry k m0 s (ram st') d i /\
               length used = length (child_owned k m0 s i)
    | RErr _ => l' = [] /\ (length used < length (child_owned k m0 s i))%nat
    end.

Context (Hbody : forall i st l, copy_ready i st l -> copies_child i st l).

Lemma copy_ready_step i j st l st' used l' :
  copy_ready j st l -> copy_step d st l st' used l' -> index_ok i ->
  entry_valid (table_entry (ram st') d i) = false -> copy_ready i st' l'.
Proof.
  intros [H1 H2 H3 H4 _ _] [-> G2 G3 G4] Hi Hv. split; auto.
  - intros H. apply H2, elem_of_app. now right.
  - intros p Hp Hin. apply (H3 p Hp). revert Hin. rewrite !elem_of_cons, elem_of_app. tauto.
  - pose proof (free_frames_frames _ _ H1) as Hf. apply Forall_app in Hf as [Hf _].
    eapply agree_changed; [exact H4|exact Hs| |  |exact G3].
    + now constructor.
    + intros p Hp Hin. apply (H3 p Hp). revert Hin. rewrite !elem_of_cons, elem_of_app. tauto.
Qed.

(** The child copied at [i] is not disturbed by the rest of the loop. *)
Lemma child_kept i st1 l1 st2 used1 used2 l2 :
  child_owned k (ram st1) d i ≡ₚ used1 -> Forall frame_pa used1 -> free_frames st1 l1 ->
  (forall p, p ∈ used1 -> p ∉ d :: l1) ->
  copy_step d st1 l1 st2 used2 l2 ->
  table_entry (ram st2) d i = table_entry (ram st1) d i ->
  child_owned k (ram st2) d i = child_owned k (ram st1) d i /\
  (dup_entry k m0 s (ram st1) d i -> dup_entry k m0 s (ram st2) d i).
Proof.
  intros Hu Hf Hst Hdis [-> _ Hch _] He.
  pose proof (free_frames_frames _ _ Hst) as Hfl. apply Forall_app in Hfl as [Hfl _].
  assert (Forall frame_pa (d :: used2)) as HfD by now constructor.
  assert (forall p, p ∈ child_owned k (ram st1) d i -> p ∉ d :: used2) as Hdis'.
  { intros p Hp Hin. rewrite Hu in Hp. apply (Hdis p Hp).
    revert Hin. rewrite !elem_of_cons, elem_of_app. tauto. }
  assert (Forall frame_pa (child_owned k (ram st1) d i)) as Hfc by now rewrite Hu.
  split; [now apply child_stable with (d :: used2)|].
  unfold dup_entry. rewrite He. intros [Hv Hc]. split; [exact Hv|]. intros Hve.
  destruct (Hc Hve) as [Hfg Ht]. split; [exact Hfg|]. rewrite Hve in Hv.
  rewrite child_owned_valid in Hfc, Hdis' by exact Hv.
  apply dup_tree_stable with (m := ram st1); auto.
  intros p x Hp Hx. rewrite Forall_forall in Hfc. apply (changed_frame _ _ (d :: used2) p); auto.
Qed.

Definition copies_all (ixs : list Z) (st : pstate) (l : list Z) : Prop :=
  exists r st' used l', for_try ixs body st = Done r st' /\ copy_step d st l st' used l' /\
    (forall j, index_ok j -> j ∉ ixs ->
       table_entry (ram st') d j = table_entry (ram st) d j) /\
    (ixs ≫= child_owned k (ram st') d) ≡ₚ used /\
    match r with
    | ROk _ => (forall i, i ∈ ixs -> dup_entry k m0 s (ram st') d i) /\
               length used = length (ixs ≫= child_owned k m0 s)
    | RErr _ => l' = [] /\ (length used < length (ixs ≫= child_owned k m0 s))%nat
    end.

Lemma copy_loop ixs st l :
  free_frames st l -> NoDup ixs -> (forall i, i ∈ ixs -> copy_ready i st l) ->
  copies_all ixs st l.
Proof.
  revert st l. induction ixs as [|i ixs IH]; intros st l Hst Hn Hr.
  { exists (ROk tt), st, [], l. split; [reflexivity|].
    split; [now apply copy_step_refl|]. split; [auto|]. split; [reflexivity|].
    split; [|reflexivity]. intros i Hi. inversion Hi. }
  apply NoDup_cons in Hn as [Hi Hn].
  pose proof (Hr i ltac:(left)) as Hri.
  destruct (Hbody i st l Hri) as (r & st1 & u1 & l1 & Hrun & Hs1 & He1 & Hu1 & Hres).
  assert (forall j, j ∈ ixs -> index_ok j /\ j <> i) as Hne.
  { intros j Hj. split; [apply (Hr j); now right|]. intros ->. contradiction. }
  assert (forall j, j ∈ ixs -> entry_valid (table_entry (ram st1) d j) = false) as Hinv.
  { intros j Hj. rewrite He1 by now apply Hne. apply (Hr j). now right. }
  assert ((ixs ≫= child_owned k (ram st1) d) = []) as Hnil.
  { apply list_bind_nil. intros j Hj. unfold child_owned. now rewrite Hinv. }
  unfold copies_all. cbn [for_try mbind list_bind].
  fold (ixs ≫= child_owned k m0 s). unfold bind_try, bind at 1. rewrite Hrun.
  destruct r as [u|e].
  2:{ exists (RErr e), st1, u1, l1. split; [reflexivity|]. split; [exact Hs1|].
      split; [intros j Hj Hnin; apply He1; [exact Hj|intros ->; apply Hnin; now left]|].
      fold (ixs ≫= child_owned k (ram st1) d). rewrite Hnil, app_nil_r, length_app.
      split; [exact Hu1|]. destruct Hres as [-> Hlt]. split; [reflexivity|lia]. }
  destruct Hres as [Hdup Hlen].
  destruct (IH st1 l1) as (r2 & st2 & u2 & l2 & Hrun2 & Hs2 & He2 & Hu2 & Hres2); auto.
  { apply Hs1. }
  { intros j Hj. eapply copy_ready_step; eauto. now apply Hne. }
  pose proof Hs1 as [Hl1 Hf1 _ _]. destruct Hri as [_ Hdl Hdis _ Hii _].
  pose proof Hst as [_ Hff Hnd _ _]. rewrite Hl1 in Hff, Hnd, Hdl.
  apply Forall_app in Hff as [Hff _]. apply NoDup_app in Hnd as (_ & Hnd & _).
  destruct (child_kept i st1 l1 st2 u1 u2 l2) as [Hck Hdk]; auto.
  { intros p Hp Hin. apply elem_of_cons in Hin as [->|Hin].
    - apply Hdl, elem_of_app. now left.
    - now apply (Hnd p). }
  exists r2, st2, (u1 ++ u2), l2. split; [exact Hrun2|].
  split; [eapply copy_step_trans; eauto|].
  split; [|split].
  - intros j Hj Hnin. apply not_elem_of_cons in Hnin as [Hj1 Hj2]. rewrite He2, He1; auto.
  - fold (ixs ≫= child_owned k (ram st2) d). now rewrite Hck, Hu1, Hu2.
  - rewrite !length_app. destruct r2 as [v|e].
    + destruct Hres2 as [Hd2 Hl2]. split; [|lia].
      intros j [->|Hj]%elem_of_cons; auto.
    + destruct Hres2 as [-> Hl2]. split; [reflexivity|lia].
Qed.
End copy_loop.

(** ** One entry *)

Lemma copied_flags new e :
  frame_pa new ->
  Z.land (Z.lor new (Z.land e (not64 PTE_ADDR_MASK))) (not64 PTE_ADDR_MASK) =
  Z.land e (not64 PTE_ADDR_MASK).
Proof.
  intros Hn. rewrite Z.land_lor_distr_l, <- Z.land_assoc, Z.land_diag.
  rewrite <- (entry_pa_frame new Hn) at 1. unfold entry_pa.
  rewrite <- Z.land_assoc. change (Z.land PTE_ADDR_MASK (not64 PTE_ADDR_MASK)) with 0.
  now rewrite Z.land_0_r.
Qed.

(** The descriptor of the copy: the new frame with the source's attributes. *)
Lemma copied_entry new e :
  frame_pa new -> entry_valid e = true ->
  let e' := Z.lor new (Z.land e (not64 PTE_ADDR_MASK)) in
  entry_valid e' = true /\ entry_pa e' = new /\
  Z.land e' (not64 PTE_ADDR_MASK) = Z.land e (not64 PTE_ADDR_MASK).
Proof.
  intros Hn He. split; [|split].
  - apply entry_valid_lor; [assumption|]. rewrite <- Z.land_assoc.
    change (Z.land (not64 PTE_ADDR_MASK) 3) with 3. now apply Z.eqb_eq.
  - apply entry_pa_lor; [assumption|]. rewrite <- Z.land_assoc.
    change (Z.land (not64 PTE_ADDR_MASK) PTE_ADDR_MASK) with 0. apply Z.land_0_r.
  - now apply copied_flags.
Qed.

Lemma table_entry_u64 m t i : mem_ok m -> is_u64 (table_entry m t i).
Proof. intros H. unfold table_entry, kread64. now apply read64_u64. Qed.

(** A fresh frame is filled ([m1]) and linked at entry [i] of [d]. *)
Lemma link_fresh st st1 m1 d i new flags l :
  free_frames st (new :: l) -> get_free_frame_pa st = Done (Some new) st1 ->
  frame_pa d -> d ∉ new :: l -> index_ok i -> desc_flags flags ->
  changed (ram st) m1 [new] -> mem_ok m1 ->
  let st2 := set_ram (kwrite64 m1 (ttbr1_to_va d + 8 * i) (Z.lor new flags)) st1 in
  copy_step d st (new :: l) st2 [new] l /\
  table_entry (ram st2) d i = Z.lor new flags /\
  (forall j, index_ok j -> j <> i -> table_entry (ram st2) d j = table_entry (ram st) d j) /\
  (forall x, in_frame new x -> ram st2 x = m1 x).
Proof.
  intros Hst Hpop Hd Hdl Hi Hfl Hch1 Hm1. cbv zeta. cbn [ram set_ram].
  rewrite set_entry_frame by assumption.
  destruct (get_free_frame_pop st new l Hst) as (st1' & Hpop' & Hst1 & Hram & Hr1 & Hr2).
  rewrite Hpop in Hpop'. injection Hpop' as <-.
  pose proof Hst as [_ Hf Hn _ _]. apply Forall_cons in Hf as [Hnew Hf].
  apply NoDup_cons in Hn as [Hnl Hn]. apply not_elem_of_cons in Hdl as [Hdn Hdl].
  set (m2 := write64 m1 (d + 8 * i) (Z.lor new flags)).
  assert (changed m1 m2 [d]) as Hch2 by (apply changed_set_entry; [assumption|now left]).
  assert (changed (ram st) m2 [d; new]) as Hch.
  { apply changed_trans with m1.
    - eapply changed_weaken; [exact Hch1|]. intros x ->%list_elem_of_singleton. right. now left.
    - eapply changed_weaken; [exact Hch2|]. intros x ->%list_elem_of_singleton. now left. }
  split; [split; cbn [ram set_ram]|split; [|split]].
  - reflexivity.
  - apply free_frames_change; [assumption|now apply mem_ok_write64|].
    intros p x Hp Hx. rewrite Hram. apply (changed_frame _ _ [d; new] p); auto.
    + rewrite Forall_forall in Hf. auto.
    + rewrite !not_elem_of_cons. split; [|split].
      * intros ->. contradiction.
      * intros ->. contradiction.
      * intros H. inversion H.
  - exact Hch.
  - split; assumption.
  - apply table_entry_write_same; auto. apply entry_u64_lor, Hfl. assumption.
  - intros j Hj Hne. unfold m2. rewrite table_entry_write_ne by assumption.
    apply table_entry_ext; auto. intros x Hx. apply (changed_frame _ _ [new] d); auto.
    now rewrite list_elem_of_singleton.
  - intros x Hx. apply (changed_frame _ _ [d] new); auto.
    rewrite list_elem_of_singleton. auto.
Qed.

(** The body of the loop over the last level's entries. *)
Definition copy_leaf (src_ttpa dst_ttpa i : Z) : M pstate (result unit) :=
  let* src_entry := get_entry src_ttpa i in
  if entry_valid src_entry then
    let old_pa := entry_pa src_entry in
    let flags := Z.land src_entry (not64 PTE_ADDR_MASK) in
    let* new := get_free_frame_pa in
    match new with
    | None => ret (RErr "Out of memory: failed to allocate data frame for child process")
    | Some new_frame_pa =>
        modify (fun st => set_ram (copy_mem (ram st)
          (ttbr1_to_pa (ttbr1_to_va old_pa))
          (ttbr1_to_pa (ttbr1_to_va new_frame_pa)) 4096) st) ;;
        set_entry dst_ttpa i (Z.lor new_frame_pa flags) ;;
        ret (ROk tt)
    end
  else ret (ROk tt).

Lemma copy_invalid k m0 s d i st l :
  copy_ready k m0 s d i st l -> entry_valid (table_entry m0 s i) = false ->
  child_owned k (ram st) d i = [] /\ child_owned k m0 s i = [] /\
  dup_entry k m0 s (ram st) d i.
Proof.
  intros [_ _ _ _ _ Hv] Hs. unfold child_owned, dup_entry. rewrite Hv, Hs.
  split; [reflexivity|]. split; [reflexivity|]. split; [reflexivity|]. intros H; inversion H.
Qed.

Lemma copy_leaf_ok m0 s d i st l :
  Forall frame_pa (owned 1 m0 s) -> frame_pa d -> copy_ready 0 m0 s d i st l ->
  copies_child 0 m0 s d (copy_leaf s d) i st l.
Proof.
  intros Hs Hd Hr. pose proof Hr as [Hst Hdl Hdis Hag Hi Hv].
  assert (frame_pa s) as Hsf by (rewrite Forall_forall in Hs; apply Hs, owned_self).
  assert (table_entry (ram st) s i = table_entry m0 s i) as Hes
    by (eapply agree_entry; eauto with atos).
  unfold copies_child, copy_leaf, get_entry. run_m. rewrite Hes.
  destruct (entry_valid (table_entry m0 s i)) eqn:Hve.
  2:{ destruct (copy_invalid _ _ _ _ _ _ _ Hr Hve) as (Hc1 & Hc2 & Hc3).
      exists (ROk tt), st, [], l. split; [reflexivity|]. split; [now apply copy_step_refl|].
      rewrite Hc1, Hc2. auto. }
  set (old := entry_pa (table_entry m0 s i)) in *.
  assert (old ∈ owned 1 m0 s) as Ho.
  { apply owned_sub with i; [assumption|]. rewrite child_owned_valid by assumption. now left. }
  assert (frame_pa old) as Hof by (rewrite Forall_forall in Hs; auto).
  assert (length (child_owned 0 m0 s i) = 1%nat) as Hlen by (now rewrite child_owned_valid).
  destruct l as [|new l].
  { rewrite (get_free_frame_empty st Hst). eexists (RErr _), st, [], []. split; [reflexivity|].
    split; [now apply copy_step_refl|]. split; [auto|]. rewrite Hlen.
    unfold child_owned. rewrite Hv. split; [reflexivity|]. split; [reflexivity|simpl; lia]. }
  destruct (get_free_frame_pop st new l Hst) as (st1 & Hpop & Hst1 & Hram & _).
  rewrite Hpop. cbn [ram set_ram]. rewrite Hram.
  pose proof (free_frames_frames _ _ Hst) as Hfr. apply Forall_cons in Hfr as [Hnf _].
  rewrite !ttbr1_pa_va by (destruct Hnf, Hof; lia).
  set (m1 := copy_mem (ram st) old new 4096).
  destruct (link_fresh st st1 m1 d i new (Z.land (table_entry m0 s i) (not64 PTE_ADDR_MASK)) l)
    as (Hcs & Hei & Hej & Hby); auto.
  { apply desc_flags_copied; [|assumption]. rewrite <- Hes. apply table_entry_u64, Hst. }
  { apply changed_copy. now left. }
  { apply mem_ok_copy, Hst. }
  cbv zeta in *. unfold set_entry. run_m. cbn [ram set_ram].
  set (st2 := set_ram (kwrite64 m1 _ _) st1) in *.
  exists (ROk tt), st2, [new], l.
  destruct (copied_entry new (table_entry m0 s i) Hnf Hve) as (Hv2 & Hpa & Hfl).
  rewrite <- Hei in Hv2, Hpa, Hfl.
  split; [reflexivity|]. split; [exact Hcs|]. split; [exact Hej|].
  rewrite child_owned_valid, Hpa by assumption. split; [reflexivity|].
  split; [|now rewrite Hlen]. unfold dup_entry. rewrite Hv2, Hve, Hpa, Hfl.
  split; [reflexivity|]. split; [reflexivity|]. fold old.
  intros o Hoo. rewrite Hby by (unfold in_frame; lia). unfold m1.
  rewrite copy_mem_in by lia. replace (new + o - new + old) with (old + o) by lia.
  apply (Hag old); [assumption|unfold in_frame; lia].
Qed.

(** The body of the loop at the upper levels, over the recursive call. *)
Definition copy_table (rec : Z -> Z -> M pstate (result unit)) (src_ttpa dst_ttpa i : Z)
  : M pstate (result unit) :=
  let* src_entry := get_entry src_ttpa i in
  if entry_valid src_entry then
    let old_pa := entry_pa src_entry in
    let flags := Z.land src_entry (not64 PTE_ADDR_MASK) in
    let* new := get_free_frame_pa in
    match new with
    | None => ret (RErr "Out of memory: failed to allocate intermediate page table")
    | Some new_table_pa =>
        fill_zero new_table_pa ;;
        set_entry dst_ttpa i (Z.lor new_table_pa flags) ;;
        rec old_pa new_table_pa
    end
  else ret (ROk tt).

(** What has to hold before the table [s] is copied into the fresh table [d]. *)
Record tree_ready (k : nat) (m0 : mem) (s d : Z) (st : pstate) (l : list Z) : Prop := {
  tr_frames : Forall frame_pa (owned k m0 s);
  tr_dst : frame_pa d;
  tr_free : free_frames st l;
  tr_fresh : d ∉ l;
  tr_disj : forall p, p ∈ owned k m0 s -> p ∉ d :: l;
  tr_agree : agree (owned k m0 s) (ram st) m0;
  tr_zero : zero_frame_at (ram st) d;
}.

Definition copies_tree (k : nat) (m0 : mem) (s d : Z) (m : M pstate (result unit))
    (st : pstate) (l : list Z) : Prop :=
  exists r st' used l', m st = Done r st' /\ copy_step d st l st' used l' /\
    owned k (ram st') d ≡ₚ d :: used /\
    match r with
    | ROk _ => dup_tree k m0 s (ram st') d /\ S (length used) = length (owned k m0 s)
    | RErr _ => l' = [] /\ (S (length used) < length (owned k m0 s))%nat
    end.

Lemma copy_step_under d new st l0 st2 l st3 used l' :
  copy_step d st l0 st2 [new] l -> copy_step new st2 l st3 used l' ->
  copy_step d st l0 st3 (new :: used) l'.
Proof.
  intros [-> H1 C1 R1] [-> H2 C2 R2]. split; auto.
  - eapply changed_trans.
    + eapply changed_weaken; [exact C1|]. intros x. rewrite !elem_of_cons, elem_of_nil. tauto.
    + eapply changed_weaken; [exact C2|]. intros x. rewrite !elem_of_cons. tauto.
  - eauto using same_regs_trans.
Qed.

(** The recursive call finds the child and its fresh table ready. *)
Lemma child_ready k m0 s d i st new l st2 :
  Forall frame_pa (owned (S k) m0 s) -> copy_ready k m0 s d i st (new :: l) ->
  frame_pa d -> entry_valid (table_entry m0 s i) = true ->
  copy_step d st (new :: l) st2 [new] l -> zero_frame_at (ram st2) new ->
  tree_ready k m0 (entry_pa (table_entry m0 s i)) new st2 l.
Proof.
  intros Hs [Hst Hdl Hdis Hag Hi _] Hd Hve [_ Hst2 Hch _] Hz.
  pose proof Hst as [_ Hf Hn _ _]. apply Forall_cons in Hf as [Hnew Hf].
  apply NoDup_cons in Hn as [Hnl Hn].
  assert (forall p, p ∈ owned k m0 (entry_pa (table_entry m0 s i)) -> p ∈ owned (S k) m0 s) as Hsub.
  { intros p Hp. apply owned_sub with i; [assumption|]. now rewrite child_owned_valid. }
  split; auto.
  - rewrite Forall_forall in *. auto.
  - intros p Hp Hin. apply (Hdis p (Hsub p Hp)). now right.
  - apply (agree_sub (owned (S k) m0 s)); [|exact Hsub].
    apply (agree_changed _ (ram st) m0 _ [d; new]); auto.
    intros p Hp Hin. apply (Hdis p Hp). revert Hin.
    rewrite !elem_of_cons, elem_of_nil. tauto.
Qed.

Lemma copy_table_ok k m0 s d rec i st l :
  (forall s d st l, tree_ready k m0 s d st l -> copies_tree k m0 s d (rec s d) st l) ->
  Forall frame_pa (owned (S k) m0 s) -> frame_pa d -> copy_ready k m0 s d i st l ->
  copies_child k m0 s d (copy_table rec s d) i st l.
Proof.
  intros Hrec Hs Hd Hr. pose proof Hr as [Hst Hdl Hdis Hag Hi Hv].
  assert (frame_pa s) as Hsf by (rewrite Forall_forall in Hs; apply Hs, owned_self).
  assert (table_entry (ram st) s i = table_entry m0 s i) as Hes
    by (eapply agree_entry; eauto with atos).
  unfold copies_child, copy_table, get_entry. run_m. rewrite Hes.
  destruct (entry_valid (table_entry m0 s i)) eqn:Hve.
  2:{ destruct (copy_invalid _ _ _ _ _ _ _ Hr Hve) as (Hc1 & Hc2 & Hc3).
      exists (ROk tt), st, [], l. split; [reflexivity|]. split; [now apply copy_step_refl|].
      rewrite Hc1, Hc2. auto. }
  assert (length (child_owned k m0 s i) = length (owned k m0 (entry_pa (table_entry m0 s i))))
    as Hlen by (now rewrite child_owned_valid).
  destruct l as [|new l].
  { rewrite (get_free_frame_empty st Hst). eexists (RErr _), st, [], []. split; [reflexivity|].
    split; [now apply copy_step_refl|]. split; [auto|]. rewrite Hlen.
    unfold child_owned. rewrite Hv. split; [reflexivity|]. split; [reflexivity|].
    destruct (owned k m0 _) eqn:E; [|simpl; lia].
    pose proof (owned_self k m0 (entry_pa (table_entry m0 s i))) as Hin. rewrite E in Hin. inversion Hin. }
  destruct (get_free_frame_pop st new l Hst) as (st1 & Hpop & Hst1 & Hram & _).
  rewrite Hpop. unfold fill_zero, set_entry. run_m. cbn [ram set_ram]. rewrite Hram.
  pose proof (free_frames_frames _ _ Hst) as Hfr. apply Forall_cons in Hfr as [Hnf _].
  rewrite !(ttbr1_pa_va new) by (destruct Hnf; lia).
  destruct (link_fresh st st1 (write_zero (ram st) new PAGE_SIZE) d i new
              (Z.land (table_entry m0 s i) (not64 PTE_ADDR_MASK)) l)
    as (Hcs & Hei & Hej & Hby); auto with atos.
  { apply desc_flags_copied; [|assumption]. rewrite <- Hes. apply table_entry_u64, Hst. }
  { apply changed_write_zero. now left. }
  { apply mem_ok_write_zero, Hst. }
  cbv zeta in *. set (st2 := set_ram (kwrite64 _ _ _) st1) in *.
  change (set_ram _ _) with st2.
  destruct (copied_entry new (table_entry m0 s i) Hnf Hve) as (Hv2 & Hpa & Hfl).
  rewrite <- Hei in Hv2, Hpa, Hfl.
  destruct (Hrec (entry_pa (table_entry m0 s i)) new st2 l) as (r & st3 & used & l' & Hrun & Hcs3 & Hown & Hres).
  { apply child_ready with d st; auto. intros x Hx. rewrite Hby by assumption.
    apply write_zero_in. exact Hx. }
  assert (forall j, index_ok j -> table_entry (ram st3) d j = table_entry (ram st2) d j) as He3.
  { intros j Hj. apply table_entry_ext; auto. intros x Hx. destruct Hcs3 as [Hl Hf3 Hc3 _].
    apply (changed_frame _ _ (new :: used) d); auto.
    - rewrite Hl in Hst1. pose proof (free_frames_frames _ _ Hst1) as Hf. apply Forall_app in Hf as [Hf _].
      now constructor.
    - intros Hin. apply Hdl. rewrite Hl. revert Hin. rewrite !elem_of_cons, elem_of_app. tauto. }
  exists r, st3, (new :: used), l'. split; [exact Hrun|].
  split; [eapply copy_step_under; eauto|].
  split; [intros j Hj Hne; now rewrite He3, Hej|].
  rewrite child_owned_valid, He3, Hpa, Hlen by (rewrite ?He3; assumption).
  split; [exact Hown|]. destruct r as [u|e]; [|exact Hres].
  destruct Hres as [Hdt Hln]. split; [|exact Hln].
  unfold dup_entry. rewrite He3, Hv2, Hve, Hpa, Hfl by assumption. auto.
Qed.

(** ** The recursion *)

Lemma copy_tree_of_loop k m0 s d body st l :
  (forall i st l, copy_ready k m0 s d i st l -> copies_child k m0 s d body i st l) ->
  tree_ready (S k) m0 s d st l ->
  copies_tree (S k) m0 s d (for_try indices body) st l.
Proof.
  intros Hbody [Hs Hd Hst Hdl Hdis Hag Hz].
  destruct (copy_loop k m0 s d body Hs Hd Hbody indices st l)
    as (r & st' & used & l' & Hrun & Hcs & _ & Hu & Hres); auto using indices_nodup.
  { intros i Hi%elem_of_index. split; auto. now rewrite zero_table. }
  exists r, st', used, l'. split; [exact Hrun|]. split; [exact Hcs|].
  rewrite !owned_S, Hu. split; [now rewrite Permutation_app_comm|].
  rewrite length_app. cbn [length]. destruct r as [u|e].
  - destruct Hres as [Hdup Hln]. split; [|lia]. intros i Hi. apply Hdup. now apply elem_of_index.
  - destruct Hres as [-> Hln]. split; [reflexivity|lia].
Qed.

Lemma do_duplicate_ok k fuel level m0 s d st l :
  (k <= 2)%nat -> level = 3 - Z.of_nat k -> (k < fuel)%nat ->
  tree_ready (S k) m0 s d st l ->
  copies_tree (S k) m0 s d (do_duplicate_table_recursive fuel s d level) st l.
Proof.
  revert fuel level s d st l.
  induction k as [|k IH]; intros fuel level s d st l Hk Hl Hfuel Hr;
    (destruct fuel as [|fuel]; [lia|]); cbn [do_duplicate_table_recursive];
    (replace (level >? 3) with false by (symmetry; rewrite Z.gtb_ltb; apply Z.ltb_ge; lia));
    pose proof Hr as [Hs Hd _ _ _ _ _].
  - replace (level <? 3) with false by (symmetry; apply Z.ltb_ge; lia).
    apply copy_tree_of_loop; [|exact Hr]. intros i st0 l0 Hi. now apply copy_leaf_ok.
  - replace (level <? 3) with true by (symmetry; apply Z.ltb_lt; lia).
    apply copy_tree_of_loop; [|exact Hr]. intros i st0 l0 Hi.
    apply (copy_table_ok (S k) m0 s d
             (fun a b => do_duplicate_table_recursive fuel a b (level + 1))); auto.
    intros s' d' st' l' Hr'. apply IH; auto; lia.
Qed.

(** ** The theorem *)

(** The two trees and the free list consist of distinct frames, and the
    second tree is a copy of the first. *)
Record duplicated (st : pstate) (src : Z) (st' : pstate) (dst : Z) (l' : list Z) : Prop := {
  du_free : free_frames st' l';
  du_nodup : NoDup (owned 3 (ram st') dst ++ owned 3 (ram st) src ++ l');
  du_src : forall p x, p ∈ owned 3 (ram st) src -> in_frame p x -> ram st' x = ram st x;
  du_tree : dup_tree 3 (ram st) src (ram st') dst;
}.

(** Freeing the partial copy after the allocator ran dry. *)
Lemma rollback_ok st dst used :
  free_frames st [] -> owned 3 (ram st) dst ≡ₚ dst :: used ->
  Forall frame_pa (dst :: used) -> NoDup (dst :: used) ->
  exists st' l', free_page_table (Some dst) st = Done tt st' /\ free_frames st' l' /\
    l' ≡ₚ dst :: used /\ changed (ram st) (ram st') (dst :: used) /\ same_regs st st'.
Proof.
  intros Hst Hown Hf Hn.
  destruct (do_free_ok 2 3 1 dst st []) as (st' & Hrun & Hst' & Hch & Hr); auto; try lia.
  { now rewrite Hown. }
  { now rewrite app_nil_r, Hown. }
  rewrite app_nil_r in Hst'. exists st', (reverse (owned 3 (ram st) dst)).
  unfold free_page_table. run_m. cbn [translation_table].
  split; [exact Hrun|]. split; [exact Hst'|]. split; [now rewrite reverse_Permutation|].
  split; [|exact Hr]. eapply changed_weaken; [exact Hch|]. intros x Hx. now rewrite Hown in Hx.
Qed.

Lemma duplicate_run st src l :
  space_ok st src l ->
  exists r st' l', duplicate_va_space (Some src) st = Done r st' /\ same_regs st st' /\
    changed (ram st) (ram st') l /\
    match r with
    | ROk dst => duplicated st src st' dst l' /\ owned 3 (ram st') dst ++ l' ≡ₚ l
    | RErr _ => free_frames st' l' /\ l' ≡ₚ l /\
                (length l < length (owned 3 (ram st) src))%nat
    end.
Proof.
  intros [Hst [Hf Hn]]. unfold duplicate_va_space, fill_zero. run_m. cbn [translation_table].
  apply Forall_app in Hf as [Hfs Hfl]. apply NoDup_app in Hn as (Hns & Hdis & Hnl).
  destruct l as [|dst l].
  { rewrite (get_free_frame_empty st Hst). eexists (RErr _), st, [].
    split; [reflexivity|]. split; [apply same_regs_refl|]. split; [apply changed_refl|].
    split; [exact Hst|]. split; [reflexivity|].
    pose proof (owned_self 3 (ram st) src) as Hin. destruct (owned 3 (ram st) src); [inversion Hin|simpl; lia]. }
  destruct (new_root_ok st dst l Hst) as (st1 & Hpop & Hr1 & [Hst2 Hinv] & Hz & Hch).
  rewrite Hpop. set (st2 := set_ram _ st1) in *.
  apply Forall_cons in Hfl as [Hdf Hfl]. apply NoDup_cons in Hnl as [Hdl Hnl].
  assert (tree_ready 3 (ram st) src dst st2 l) as Hready.
  { split; auto. apply (agree_changed _ (ram st) _ _ [dst]); auto.
    - intros p x _ _. reflexivity.
    - intros p Hp ->%list_elem_of_singleton. apply (Hdis dst Hp). now left. }
  destruct (do_duplicate_ok 2 3 1 (ram st) src dst st2 l) as (r & st3 & used & l' & Hrun & Hcs & Hown & Hres);
    auto; try lia.
  rewrite Hrun. destruct Hcs as [-> Hst3 Hch3 Hr3].
  apply Forall_app in Hfl as [Hfu Hfl']. apply NoDup_app in Hnl as (Hnu & Hnul & Hnl').
  assert (Forall frame_pa (dst :: used)) as HfD by now constructor.
  assert (changed (ram st) (ram st3) (dst :: used ++ l')) as Hall.
  { eapply changed_trans.
    - eapply changed_weaken; [exact Hch|]. intros x ->%list_elem_of_singleton. now left.
    - eapply changed_weaken; [exact Hch3|]. intros x. rewrite !elem_of_cons, elem_of_app. tauto. }
  assert (NoDup (dst :: used ++ l')) as Hnd.
  { apply NoDup_cons. split; [assumption|]. apply NoDup_app. auto. }
  destruct r as [u|e].
  - destruct Hres as [Hdt Hln]. exists (ROk dst), st3, l'. split; [reflexivity|].
    split; [exact (same_regs_trans _ _ _ Hr1 Hr3)|]. split; [exact Hall|].
    split; [|now rewrite Hown]. split; auto.
    + rewrite Hown. rewrite (Permutation_app_swap_app _ _ l').
      apply NoDup_app. auto.
    + intros p x Hp Hx. apply (changed_frame _ _ _ p x Hall); auto.
      * rewrite Forall_forall in Hfs. auto.
      * constructor; auto. apply Forall_app. auto.
  - destruct Hres as [-> Hlt]. rewrite app_nil_r in *.
    destruct (rollback_ok st3 dst used) as (st4 & lf & Hrun4 & Hst4 & Hlf & Hch4 & Hr4); auto.
    rewrite Hrun4. exists (RErr e), st4, lf. split; [reflexivity|].
    split; [eauto using same_regs_trans|]. split; [eapply changed_trans; eauto|]. auto.
Qed.

(** A copy owns as many frames as its source. *)
Lemma dup_tree_length k m0 s m d :
  dup_tree k m0 s m d -> length (owned k m d) = length (owned k m0 s).
Proof.
  revert s d. induction k as [|k IH]; intros s d Hd; [reflexivity|].
  rewrite !owned_S, !length_app. cbn [length]. f_equal.
  assert (forall i, i ∈ indices -> length (child_owned k m d i) = length (child_owned k m0 s i)) as Hc.
  { intros i Hi%elem_of_index. destruct (Hd i Hi) as [Hv Ht]. unfold child_owned. rewrite Hv.
    destruct (entry_valid (table_entry m0 s i)); [|reflexivity]. apply IH. now apply Ht. }
  clear Hd IH. revert Hc. generalize indices as ixs.
  induction ixs as [|i ixs IHl]; intros Hc; [reflexivity|].
  cbn [mbind list_bind]. rewrite !length_app, (Hc i) by left.
  f_equal. apply IHl. intros j Hj. apply Hc. now right.
Qed.

(** C17. Duplicating an address space either builds a second space of fresh
    frames in which every address translates exactly when it does in the
    first one, to a page with the same bytes, while the first space and its
    bytes are untouched and no frame is shared; or, when there are fewer free
    frames than the space owns, it returns an error and the rollback has
    returned every frame to the free list. *)
Theorem duplicate_va_space_spec st src l :
  space_ok st src l ->
  exists r st' l', duplicate_va_space (Some src) st = Done r st' /\
    match r with
    | ROk dst =>
        (length (owned 3 (ram st) src) <= length l)%nat /\
        space_ok st' dst l' /\
        NoDup (owned 3 (ram st') dst ++ owned 3 (ram st) src ++ l') /\
        (forall p x, p ∈ owned 3 (ram st) src -> in_frame p x -> ram st' x = ram st x) /\
        (forall va, match walk (ram st) src (va_path va) with
                    | None => ttbr0_to_pa st' va (Some dst) = None
                    | Some pa => exists pa', walk (ram st') dst (va_path va) = Some pa' /\
                        forall o, 0 <= o < 4096 -> ram st' (pa' + o) = ram st (pa + o)
                    end)
    | RErr _ =>
        (length l < length (owned 3 (ram st) src))%nat /\ free_frames st' l' /\ l' ≡ₚ l /\
        (forall p x, p ∈ owned 3 (ram st) src -> in_frame p x -> ram st' x = ram st x)
    end.
Proof.
  intros Hsp. destruct (duplicate_run st src l Hsp) as (r & st' & l' & Hrun & Hregs & Hch & Hr).
  exists r, st', l'. split; [exact Hrun|].
  destruct Hsp as [Hst [Hf Hn]]. apply Forall_app in Hf as [Hfs Hfl].
  apply NoDup_app in Hn as (_ & Hdis & _). destruct r as [dst|e].
  - destruct Hr as [[H1 H2 H3 H4] Hown]. 
    split; [rewrite <- (dup_tree_length _ _ _ _ _ H4), <- Hown, length_app; lia|].
    split; [split; [exact H1|split]|].
    + rewrite Hown. exact Hfl.
    + rewrite Permutation_app_swap_app in H2. now apply NoDup_app in H2 as (_ & _ & H2).
    + split; [exact H2|]. split; [exact H3|]. intros va.
      pose proof (dup_tree_walk 3 _ _ _ _ (va_path va) H4 eq_refl (va_path_ok va)) as Hw.
      destruct (walk (ram st) src (va_path va)) as [pa|]; [exact Hw|].
      now rewrite ttbr0_to_pa_walk, Hw.
  - destruct Hr as (H1 & H2 & H3). split; [exact H3|]. split; [exact H1|]. split; [exact H2|].
    intros p x Hp Hx. rewrite Forall_forall in Hfs. apply (changed_frame _ _ l p); auto.
Qed.

(** The machine with one page mapped at 0x400000. *)
Lemma duplicate_va_space_spec_witness :
  exists l, space_ok demo_mapped demo_root l /\
  exists r st' l', duplicate_va_space (Some demo_root) demo_mapped = Done r st' /\
    match r with
    | ROk dst =>
        (length (owned 3 (ram demo_mapped) demo_root) <= length l)%nat /\
        space_ok st' dst l' /\
        NoDup (owned 3 (ram st') dst ++ owned 3 (ram demo_mapped) demo_root ++ l') /\
        (forall p x, p ∈ owned 3 (ram demo_mapped) demo_root -> in_frame p x ->
           ram st' x = ram demo_mapped x) /\
        (forall va, match walk (ram demo_mapped) demo_root (va_path va) with
                    | None => ttbr0_to_pa st' va (Some dst) = None
                    | Some pa => exists pa', walk (ram st') dst (va_path va) = Some pa' /\
                        forall o, 0 <= o < 4096 -> ram st' (pa' + o) = ram demo_mapped (pa + o)
                    end)
    | RErr _ =>
        (length l < length (owned 3 (ram demo_mapped) demo_root))%nat /\
        free_frames st' l' /\ l' ≡ₚ l /\
        (forall p x, p ∈ owned 3 (ram demo_mapped) demo_root -> in_frame p x ->
           ram st' x = ram demo_mapped x)
    end.
Proof.
  destruct demo_mapped_ok as [l Hl]. exists l. split; [exact Hl|].
  exact (duplicate_va_space_spec demo_mapped demo_root l Hl).
Defined.
