(* ===== verification/PageRange.v ===== *)
(** Mapping and unmapping several pages of one address space: what a sequence
    of [alloc_page] or [free_page] calls does to the set of mapped pages.  The
    kernel stacks and the program loader are built on these lemmas. *)

From Stdlib Require Import ZArith Lia.
From stdpp Require Import base strings numbers list.
From S2P Require Import Prelude Memory Frames PageTable PageFree PagingSpec UserMem.

Local Open Scope Z_scope.

Definition mapped (st : pstate) (root va : Z) : Prop := walk (ram st) root (va_path va) <> None.
#[global] Instance mapped_dec st root va : Decision (mapped st root va).
Proof. unfold mapped. apply _. Defined.

Lemma mapped_translate st root va : mapped st root va <-> ttbr0_to_pa st va (Some root) <> None.
Proof. unfold mapped. now rewrite translate_walk. Qed.

(** No page of the list is on the page of another. *)
Definition pages_nodup (vs : list Z) : Prop := NoDup (va_path <$> vs).

(** [st'] is [st] with the pages of [vs] mapped to fresh frames. *)
Record mapped_more (st : pstate) (root : Z) (l vs : list Z) (st' : pstate) (l' : list Z) : Prop := {
  mm_space : space_ok st' root l';
  mm_mapped : forall va, mapped st' root va <-> mapped st root va \/ va_path va ∈ (va_path <$> vs);
  mm_kept : forall va, mapped st root va ->
    walk (ram st') root (va_path va) = walk (ram st) root (va_path va);
  mm_bytes : forall va pa x, walk (ram st) root (va_path va) = Some pa -> in_frame pa x ->
    ram st' x = ram st x;
  mm_step : pt_step 3 root (ram st) l (ram st') l';
  mm_len : (length l <= 3 * length vs + length l')%nat;
  mm_regs : same_regs st st';
}.

Lemma mapped_more_nil st root l : space_ok st root l -> mapped_more st root l [] st l.
Proof.
  intros H. split; [exact H| |auto|auto|apply pt_step_refl|simpl; lia|apply same_regs_refl].
  intros va. split; [auto|]. intros [Hm|Hm]; [exact Hm|inversion Hm].
Qed.

(** All of them, or the panic of the one for which no frame was left. *)
Lemma alloc_pages_cases root vs st l :
  space_ok st root l -> pages_nodup vs -> Forall (fun va => ~ mapped st root va) vs ->
  (exists st' l', for_in vs (fun va => alloc_page va (Some root) ;; skip) st = Done tt st' /\
                  mapped_more st root l vs st' l') \/
  ((length l < 3 * length vs)%nat /\ exists msg, for_in vs (fun va => alloc_page va (Some root) ;; skip) st = Panic msg).
Proof.
  revert st l. induction vs as [|va vs IH]; intros st l Hsp Hnd Hun.
  { left. exists st, l. split; [reflexivity|now apply mapped_more_nil]. }
  apply NoDup_cons in Hnd as [Hva Hnd]. apply Forall_cons in Hun as [Hu Hun].
  destruct (alloc_page_cases st va root l Hsp) as [(pa & st1 & l1 & Hrun & [A1 A2 A3 A4 A5 A6 A7])|[Hl [msg Hp]]];
    [unfold mapped in Hu; destruct (walk _ _ _); [now contradiction Hu|reflexivity]| |].
  2:{ right. cbn [length for_in]. split; [lia|]. exists msg. now do 2 apply bind_panic. }
  assert (forall v, mapped st1 root v <-> mapped st root v \/ va_path v = va_path va) as Hm1.
  { intros v. unfold mapped. rewrite A4. destruct (decide _) as [E|E]; [|tauto].
    split; [now right|]. intros _ [=]. }
  destruct (IH st1 l1) as [(st2 & l2 & Hrun2 & [B1 B2 B3 B4 B5 B6 B7])|[Hl [msg Hp]]]; auto.
  { rewrite Forall_forall in *. intros v Hv Hc. apply Hm1 in Hc as [Hc|Hc]; [now apply (Hun v)|].
    apply Hva. rewrite <- Hc. now apply list_elem_of_fmap_2. }
  2:{ right. cbn [length for_in]. split; [lia|]. exists msg. unfold bind at 1 2. rewrite Hrun. cbn [skip ret]. exact Hp. }
  assert (forall v, mapped st root v -> walk (ram st1) root (va_path v) = walk (ram st) root (va_path v)) as Hk.
  { intros v Hv. rewrite A4, decide_False; [reflexivity|]. intros E. apply Hu. unfold mapped in *. now rewrite <- E. }
  left. exists st2, l2. cbn [for_in]. unfold bind at 1 2. rewrite Hrun. cbn [skip ret]. split; [exact Hrun2|]. split; auto.
  - intros v. rewrite B2, Hm1. cbn [fmap list_fmap]. rewrite elem_of_cons. tauto.
  - intros v Hv. rewrite B3, Hk; auto. apply Hm1. now left.
  - intros v p x Hw Hx. rewrite (B4 v p x), (A5 v p x); auto. rewrite Hk; auto.
    unfold mapped. rewrite Hw. intros [=].
  - exact (pt_step_trans _ _ _ _ _ _ _ _ A3 B5).
  - cbn [length]. lia.
  - eauto using same_regs_trans.
Qed.

Lemma alloc_pages_ok root vs st l :
  space_ok st root l -> pages_nodup vs -> Forall (fun va => ~ mapped st root va) vs ->
  (3 * length vs <= length l)%nat ->
  exists st' l', for_in vs (fun va => alloc_page va (Some root) ;; skip) st = Done tt st' /\
                 mapped_more st root l vs st' l'.
Proof. intros H1 H2 H3 Hlen. destruct (alloc_pages_cases root vs st l H1 H2 H3) as [H|[Hl _]]; [exact H|lia]. Qed.

(** [st'] is [st] with the pages of [vs] unmapped. *)
Record mapped_less (st : pstate) (root : Z) (l vs : list Z) (st' : pstate) (l' : list Z) : Prop := {
  ml_space : space_ok st' root l';
  ml_mapped : forall va, mapped st' root va <-> mapped st root va /\ va_path va ∉ (va_path <$> vs);
  ml_kept : forall va, mapped st' root va ->
    walk (ram st') root (va_path va) = walk (ram st) root (va_path va);
  ml_bytes : forall va pa x, walk (ram st') root (va_path va) = Some pa -> in_frame pa x ->
    ram st' x = ram st x;
  ml_step : pt_step 3 root (ram st) l (ram st') l';
  ml_regs : same_regs st st';
}.

Lemma free_pages_ok root vs st l :
  space_ok st root l -> pages_nodup vs -> Forall (mapped st root) vs ->
  exists st' l', for_in vs (fun va => free_page va (Some root)) st = Done tt st' /\
                 mapped_less st root l vs st' l' /\ length l' = (length vs + length l)%nat.
Proof.
  revert st l. induction vs as [|va vs IH]; intros st l Hsp Hnd Hm.
  { exists st, l. split; [reflexivity|]. split; [|reflexivity].
    split; [exact Hsp| |auto|auto|apply pt_step_refl|apply same_regs_refl].
    intros va. split; [intros H; split; [exact H|intros Hin; inversion Hin]|tauto]. }
  apply NoDup_cons in Hnd as [Hva Hnd]. apply Forall_cons in Hm as [Hu Hm].
  destruct (walk (ram st) root (va_path va)) as [pa|] eqn:Hw; [|now contradiction Hu].
  destruct (free_page_ok st va root l pa Hsp Hw) as (st1 & Hrun & A1 & A2 & A3 & A4 & A5).
  assert (forall v, mapped st1 root v <-> mapped st root v /\ va_path v <> va_path va) as Hm1.
  { intros v. unfold mapped. rewrite A2. unfold same_page. destruct (decide _) as [E|E]; [|tauto].
    split; [intros H; now contradiction H|tauto]. }
  destruct (IH st1 (pa :: l)) as (st2 & l2 & Hrun2 & [B1 B2 B3 B4 B6 B5] & Hlen); auto.
  { rewrite Forall_forall in *. intros v Hv. apply Hm1. split; [auto|]. intros E. apply Hva.
    rewrite <- E. now apply list_elem_of_fmap_2. }
  assert (forall v, mapped st1 root v -> walk (ram st1) root (va_path v) = walk (ram st) root (va_path v)) as Hk.
  { intros v Hv. rewrite A2. apply Hm1 in Hv as [_ Hv]. now rewrite decide_False. }
  assert (forall v, mapped st2 root v -> mapped st1 root v) as H21 by (intros v; rewrite B2; tauto).
  exists st2, l2. cbn [for_in]. unfold bind at 1. rewrite Hrun. split; [exact Hrun2|].
  split; [|cbn [length] in *; lia]. split; auto.
  - intros v. rewrite B2, Hm1. cbn [fmap list_fmap]. rewrite elem_of_cons. tauto.
  - intros v Hv. rewrite B3, Hk; auto.
  - intros v p x Hwv Hx. rewrite (B4 v p x), (A3 v p x); auto.
    rewrite <- B3; [exact Hwv|]. unfold mapped. rewrite Hwv. intros [=].
  - exact (pt_step_trans _ _ _ _ _ _ _ _ A5 B6).
  - eauto using same_regs_trans.
Qed.
