(* ===== verification/Isolation.v ===== *)
(** Process isolation: several address spaces over one pool of frames.

    [spaces st roots l] says that the trees under [roots] and the free list
    own disjoint frames, and together all the frames of the pool, the list of
    frames the allocator was given: none is lost.  Every operation of the paging component keeps it, and
    an operation on one space leaves the translations and the bytes of all the
    others as they are.  The process and stack operations are proved against
    this interface. *)

From Stdlib Require Import ZArith Lia.
From stdpp Require Import base strings numbers list.
From S2P Require Import Prelude Memory Frames PageTable PageFree PagingSpec UserMem PageDup.
From S2P Require Import PageRange.

Local Open Scope Z_scope.

(** ** Disjoint spaces *)

Definition all_owned (m : mem) (roots : list Z) : list Z := roots ≫= owned 3 m.

(** The frames of the machine that are an address space's or free; they stay
    the same while the kernel runs, so the theorems find them in the context. *)
Class Pool := pool : list Z.

Section Spaces.
Context {F : Pool}.

Record spaces (st : pstate) (roots l : list Z) : Prop := {
  sp_free : free_frames st l;
  sp_frames : Forall frame_pa (all_owned (ram st) roots ++ l);
  sp_nodup : NoDup (all_owned (ram st) roots ++ l);
  sp_all : all_owned (ram st) roots ++ l ≡ₚ pool;
}.

(** The space under [r] is untouched from [m] to [m']. *)
Definition space_kept (m m' : mem) (r : Z) : Prop :=
  owned 3 m' r = owned 3 m r /\
  forall p x, p ∈ owned 3 m r -> in_frame p x -> m' x = m x.

Lemma space_kept_refl m r : space_kept m m r.
Proof. split; auto. Qed.

Lemma space_kept_trans m1 m2 m3 r :
  space_kept m1 m2 r -> space_kept m2 m3 r -> space_kept m1 m3 r.
Proof.
  intros [H1 B1] [H2 B2]. split; [congruence|]. intros p x Hp Hx.
  rewrite (B2 p x), (B1 p x); auto. now rewrite H1.
Qed.

Lemma all_owned_kept m m' roots :
  Forall (space_kept m m') roots -> all_owned m' roots = all_owned m roots.
Proof.
  unfold all_owned. induction 1 as [|r roots [Hr _] _ IH]; [reflexivity|].
  cbn [mbind list_bind]. now rewrite Hr, IH.
Qed.

Lemma all_owned_cons m r roots : all_owned m (r :: roots) = owned 3 m r ++ all_owned m roots.
Proof. reflexivity. Qed.

Lemma in_all_owned m roots r p : r ∈ roots -> p ∈ owned 3 m r -> p ∈ all_owned m roots.
Proof. intros. apply list_elem_of_bind. eauto. Qed.

Lemma spaces_space st roots l r : spaces st roots l -> r ∈ roots -> space_ok st r l.
Proof.
  intros [Hf Hfr Hn _] Hr. split; [exact Hf|].
  apply list_elem_of_split in Hr as (r1 & r2 & ->).
  unfold all_owned in *. rewrite bind_app in *. cbn [mbind list_bind] in *.
  split.
  - rewrite !Forall_app in *. tauto.
  - apply NoDup_app in Hn as (Hn & Hd & Hl). apply NoDup_app in Hn as (_ & _ & Hn).
    apply NoDup_app in Hn as (Hn & _ & _). apply NoDup_app. split; [exact Hn|]. split; [|exact Hl].
    intros x Hx. apply Hd. rewrite !elem_of_app. auto.
Qed.

Lemma spaces_perm st roots roots' l : roots ≡ₚ roots' -> spaces st roots l -> spaces st roots' l.
Proof.
  intros Hp [H1 H2 H3 H4]. assert (all_owned (ram st) roots ≡ₚ all_owned (ram st) roots') as E
    by (unfold all_owned; now apply bind_perm).
  split; [exact H1|now rewrite <- E..].
Qed.

#[global] Instance spaces_proper st :
  Proper ((≡ₚ) ==> eq ==> iff) (spaces st).
Proof. intros r r' Hr l l' ->. split; apply spaces_perm; [|symmetry]; exact Hr. Qed.

(** Spaces whose frames are not among the changed ones are kept. *)
Lemma untouched m m' roots D :
  Forall frame_pa (all_owned m roots) -> Forall frame_pa D ->
  (forall p, p ∈ all_owned m roots -> p ∉ D) -> changed m m' D ->
  Forall (space_kept m m') roots.
Proof.
  intros Hf HD Hdis Hch. apply Forall_forall. intros r Hr. split.
  - assert (Forall frame_pa (owned 3 m r)) as Hfr.
    { rewrite Forall_forall in *. intros p Hp. apply Hf. now apply in_all_owned with r. }
    destruct (owned_agree 3 m m' r D Hfr HD) as (E & _); [|exact Hch|exact E].
    intros p Hp. apply Hdis. now apply in_all_owned with r.
  - intros p x Hp Hx. apply (changed_frame _ _ D p); [exact Hch| |exact HD| |exact Hx].
    + rewrite Forall_forall in Hf. apply Hf. now apply in_all_owned with r.
    + apply Hdis. now apply in_all_owned with r.
Qed.

(** A step of one space that moves frames between it and the free list. *)
Lemma spaces_step st st' r roots l l' :
  spaces st (r :: roots) l -> pt_step 3 r (ram st) l (ram st') l' -> free_frames st' l' ->
  spaces st' (r :: roots) l' /\ Forall (space_kept (ram st) (ram st')) roots /\
  all_owned (ram st') (r :: roots) ++ l' ≡ₚ all_owned (ram st) (r :: roots) ++ l.
Proof.
  intros [H1 H2 H3 H4] [Hch Hp] Hfree. rewrite all_owned_cons in *.
  assert (Forall (space_kept (ram st) (ram st')) roots) as Hk.
  { rewrite !Forall_app in H2. apply (untouched _ _ _ (owned 3 (ram st) r ++ l)); [tauto|rewrite Forall_app; tauto| |exact Hch].
    intros p Hp1 [Hp2|Hp2]%elem_of_app.
    - apply NoDup_app in H3 as (H3 & _ & _). apply NoDup_app in H3 as (_ & H3 & _). exact (H3 p Hp2 Hp1).
    - apply NoDup_app in H3 as (_ & H3 & _). apply (H3 p); [|exact Hp2]. apply elem_of_app. auto. }
  assert (all_owned (ram st') (r :: roots) ++ l' ≡ₚ owned 3 (ram st) r ++ all_owned (ram st) roots ++ l) as E.
  { rewrite all_owned_cons, (all_owned_kept _ _ _ Hk), <- app_assoc, (Permutation_app_comm (all_owned _ _) l').
    rewrite app_assoc, Hp, <- app_assoc. f_equiv. apply Permutation_app_comm. }
  split; [|split; [exact Hk|now rewrite E, app_assoc]].
  split; [exact Hfree|rewrite E, app_assoc; assumption..].
Qed.

(** A space taken out of the world: its frames change hands. *)
Lemma spaces_without st st' r roots l l' :
  spaces st (r :: roots) l -> changed (ram st) (ram st') (owned 3 (ram st) r) ->
  free_frames st' l' -> l' ≡ₚ owned 3 (ram st) r ++ l ->
  spaces st' roots l' /\ Forall (space_kept (ram st) (ram st')) roots.
Proof.
  intros [H1 H2 H3 H4] Hch Hfree Hl. rewrite all_owned_cons in *. rewrite <- app_assoc in *.
  assert (Forall (space_kept (ram st) (ram st')) roots) as Hk.
  { rewrite !Forall_app in H2. apply (untouched _ _ _ (owned 3 (ram st) r)); [tauto|tauto| |exact Hch].
    intros p Hp1 Hp2. apply NoDup_app in H3 as (_ & H3 & _). apply (H3 p Hp2), elem_of_app. auto. }
  split; [|exact Hk]. split; [exact Hfree|..];
    rewrite (all_owned_kept _ _ _ Hk), Hl, Permutation_app_swap_app; assumption.
Qed.

(** A space built from free frames joins the world. *)
Lemma spaces_with st st' r roots l l' :
  spaces st roots l -> changed (ram st) (ram st') l ->
  free_frames st' l' -> owned 3 (ram st') r ++ l' ≡ₚ l ->
  spaces st' (r :: roots) l' /\ Forall (space_kept (ram st) (ram st')) roots.
Proof.
  intros [H1 H2 H3 H4] Hch Hfree Hl.
  assert (Forall (space_kept (ram st) (ram st')) roots) as Hk.
  { apply Forall_app in H2 as [Hf1 Hf2]. apply (untouched _ _ _ l); auto.
    intros p Hp. apply NoDup_app in H3 as (_ & H3 & _). exact (H3 p Hp). }
  split; [|exact Hk]. split; [exact Hfree|..];
    rewrite all_owned_cons, (all_owned_kept _ _ _ Hk), <- app_assoc, Permutation_app_swap_app, Hl; assumption.
Qed.

(** A free list that only changed its order or lost nothing. *)
Lemma spaces_same st st' roots l l' :
  spaces st roots l -> changed (ram st) (ram st') l -> free_frames st' l' -> l' ≡ₚ l ->
  spaces st' roots l' /\ Forall (space_kept (ram st) (ram st')) roots.
Proof.
  intros [H1 H2 H3 H4] Hch Hfree Hl.
  assert (Forall (space_kept (ram st) (ram st')) roots) as Hk.
  { apply Forall_app in H2 as [Hf1 Hf2]. apply (untouched _ _ _ l); auto.
    intros p Hp. apply NoDup_app in H3 as (_ & H3 & _). exact (H3 p Hp). }
  split; [|exact Hk]. split; [exact Hfree|..]; rewrite (all_owned_kept _ _ _ Hk), Hl; assumption.
Qed.

(** A space is gone and other spaces are kept: as no frame is lost, those it
    had are free or in the spaces that came. *)
Lemma spaces_pass_on st st' gone came kept l l' q :
  spaces st (gone ++ kept) l -> spaces st' (came ++ kept) l' -> Forall (space_kept (ram st) (ram st')) kept ->
  q ∈ all_owned (ram st) gone -> q ∈ l' \/ q ∈ all_owned (ram st') came.
Proof.
  intros [_ _ Hn Ha] [_ _ _ Ha'] Hk Hq. unfold all_owned in *. rewrite bind_app in Hn, Ha, Ha'.
  fold (all_owned (ram st') kept) in *. fold (all_owned (ram st) kept) in *. rewrite (all_owned_kept _ _ _ Hk) in Ha'.
  assert (q ∈ pool) as Hp by (rewrite <- Ha, !elem_of_app; auto).
  rewrite <- Ha', !elem_of_app in Hp. destruct Hp as [[Hp|Hp]|Hp]; [auto| |auto].
  apply NoDup_app in Hn as (Hn & _ & _). apply NoDup_app in Hn as (_ & Hd & _). now contradiction (Hd q Hq).
Qed.

(** What a kept space still reads. *)
Lemma kept_walk st st' roots l r va :
  spaces st roots l -> r ∈ roots -> space_kept (ram st) (ram st') r ->
  walk (ram st') r (va_path va) = walk (ram st) r (va_path va).
Proof.
  intros Hsp Hr [Ho Hb]. pose proof (spaces_space _ _ _ _ Hsp Hr) as [_ [Hf _]].
  apply Forall_app in Hf as [Hf _].
  destruct (tables_agree 3 (ram st) (ram st') r Hf) as (_ & _ & Hw).
  - intros p x Hp. apply Hb. now apply tables_owned.
  - apply Hw; [reflexivity|apply va_path_ok].
Qed.

Lemma kept_translate st st' roots l r va :
  spaces st roots l -> r ∈ roots -> space_kept (ram st) (ram st') r ->
  ttbr0_to_pa st' va (Some r) = ttbr0_to_pa st va (Some r).
Proof. intros. rewrite !ttbr0_to_pa_walk. erewrite kept_walk; eauto. Qed.

Lemma kept_read st st' roots l r va :
  spaces st roots l -> r ∈ roots -> space_kept (ram st) (ram st') r ->
  vread st' r va = vread st r va.
Proof.
  intros Hsp Hr Hk. destruct (walk (ram st) r (va_path va)) as [pa|] eqn:Hw.
  - rewrite (vread_some st r va pa Hw), (vread_some st' r va pa)
      by (erewrite kept_walk; eauto). f_equal. destruct Hk as [_ Hb]. apply (Hb pa).
    + apply (walk_owned 3 (ram st) r (va_path va)); [reflexivity|apply va_path_ok|exact Hw].
    + pose proof (Z.mod_pos_bound va 4096 ltac:(lia)). unfold in_frame. lia.
  - rewrite !vread_none; auto. erewrite kept_walk; eauto.
Qed.

(** ** Runs of operations *)

Lemma spaces_roots_nodup st roots l : spaces st roots l -> NoDup roots.
Proof.
  intros [_ _ Hn _]. apply NoDup_app in Hn as (Hn & _ & _). revert Hn. unfold all_owned.
  induction roots as [|r roots IH]; intros Hn; constructor; cbn [mbind list_bind] in Hn;
    apply NoDup_app in Hn as (_ & Hd & Hn); [|auto].
  intros Hin. apply (Hd r); [apply owned_self|].
  apply list_elem_of_bind. exists r. split; [apply owned_self|exact Hin].
Qed.

Lemma filter_ne_id (r : Z) (roots : list Z) : r ∉ roots -> filter (fun x => x <> r) roots = roots.
Proof.
  induction roots as [|a roots IH]; intros Hr; [reflexivity|]. apply not_elem_of_cons in Hr as [H1 H2].
  rewrite filter_cons_True by congruence. now rewrite IH.
Qed.

Lemma perm_filter_ne (r : Z) (roots : list Z) :
  NoDup roots -> r ∈ roots -> roots ≡ₚ r :: filter (fun x => x <> r) roots.
Proof.
  induction roots as [|a roots IH]; intros Hn Hr; [inversion Hr|].
  apply NoDup_cons in Hn as [Ha Hn]. destruct (decide (a = r)) as [->|Hne].
  - rewrite filter_cons_False by (intros H; now apply H). f_equiv.
    now rewrite filter_ne_id.
  - rewrite filter_cons_True by exact Hne. apply elem_of_cons in Hr as [->|Hr]; [now contradiction Hne|].
    rewrite (IH Hn Hr) at 1. apply Permutation_swap.
Qed.

Inductive space_op :=
| MapPage (root va : Z)
| UnmapPage (root va : Z)
| CopyIn (root va : Z) (bs : bytes)
| Clone (root : Z)
| Destroy (root : Z).

Definition run_space_op (op : space_op) (roots : list Z) : M pstate (list Z) :=
  match op with
  | MapPage root va => alloc_page va (Some root) ;; ret roots
  | UnmapPage root va => free_page va (Some root) ;; ret roots
  | CopyIn root va bs => copy_to_pages bs va (Some root) ;; ret roots
  | Clone root =>
      let* r := duplicate_va_space (Some root) in
      ret (match r with ROk dst => dst :: roots | RErr _ => roots end)
  | Destroy root =>
      free_page_table (Some root) ;; ret (filter (fun x => x <> root) roots)
  end.

Fixpoint run_space_ops (ops : list space_op) (roots : list Z) : M pstate (list Z) :=
  match ops with
  | [] => ret roots
  | op :: ops' => let* roots' := run_space_op op roots in run_space_ops ops' roots'
  end.

(** The space an operation may change. *)
Definition op_root (op : space_op) : option Z :=
  match op with
  | MapPage r _ | UnmapPage r _ | CopyIn r _ _ | Destroy r => Some r
  | Clone _ => None
  end.

(** The operation names a live space and is one the kernel's code runs. *)
Definition op_legal (op : space_op) (roots : list Z) (st : pstate) : Prop :=
  match op with
  | MapPage r va => r ∈ roots /\ ttbr0_to_pa st va (Some r) = None /\ 3 <= FREE_FRAME_COUNT st
  | UnmapPage r _ => r ∈ roots
  | CopyIn r va bs =>
      r ∈ roots /\ Forall is_u8 bs /\ 0 <= va /\ va + Z.of_nat (length bs) <= VA_LIMIT
  | Clone r | Destroy r => r ∈ roots
  end.

Fixpoint ops_legal (ops : list space_op) (roots : list Z) (st : pstate) : Prop :=
  match ops with
  | [] => True
  | op :: ops' =>
      op_legal op roots st /\
      match run_space_op op roots st with
      | Done roots' st' => ops_legal ops' roots' st'
      | _ => True
      end
  end.

(** What one operation leaves of the world. *)
Record op_kept (op : space_op) (roots : list Z) (st : pstate) (l roots' : list Z)
    (st' : pstate) (l' : list Z) : Prop := {
  ok_spaces : spaces st' roots' l';
  ok_frames : all_owned (ram st') roots' ++ l' ≡ₚ all_owned (ram st) roots ++ l;
  ok_kept : forall r, r ∈ roots -> op_root op <> Some r ->
    r ∈ roots' /\ space_kept (ram st) (ram st') r;
}.

(** An operation on the space [r] that keeps the set of spaces. *)
Lemma op_kept_step op r roots st l st' l' :
  op_root op = Some r -> spaces st roots l -> r ∈ roots ->
  pt_step 3 r (ram st) l (ram st') l' -> free_frames st' l' ->
  op_kept op roots st l roots st' l'.
Proof.
  intros Hop Hsp Hr Hstep Hfree.
  pose proof (perm_filter_ne r roots (spaces_roots_nodup _ _ _ Hsp) Hr) as Hperm.
  destruct (spaces_step st st' r (filter (fun x => x <> r) roots) l l') as (H1 & H2 & H3); auto.
  { now apply (spaces_perm st roots). }
  assert (forall m, all_owned m roots ≡ₚ all_owned m (r :: filter (fun x => x <> r) roots)) as E
    by (intros m; unfold all_owned; now apply bind_perm).
  split.
  - now apply (spaces_perm st' (r :: filter (fun x => x <> r) roots)).
  - now rewrite (E (ram st')), (E (ram st)).
  - intros q Hq Hne. split; [exact Hq|]. rewrite Forall_forall in H2. apply H2.
    apply list_elem_of_filter. split; [congruence|exact Hq].
Qed.

Lemma op_kept_refl op roots st l : spaces st roots l -> op_kept op roots st l roots st l.
Proof. intros H. split; [exact H|reflexivity|]. auto using space_kept_refl. Qed.

Lemma user_update_step st r l va bs st' :
  user_update st r l va bs st' -> pt_step 3 r (ram st) l (ram st') l.
Proof.
  intros [_ Ho _ _ Hch _]. split; [|now rewrite Ho].
  eapply changed_weaken; [exact Hch|]. intros d Hd. apply elem_of_app. now left.
Qed.

Lemma run_space_op_ok op roots st l :
  spaces st roots l -> op_legal op roots st ->
  exists roots' st' l', run_space_op op roots st = Done roots' st' /\
                        op_kept op roots st l roots' st' l'.
Proof.
  intros Hsp Hleg. destruct op as [r va|r va|r va bs|r|r]; cbn [op_legal run_space_op] in *.
  - destruct Hleg as (Hr & Hun & Hn). pose proof (spaces_space _ _ _ _ Hsp Hr) as Hso.
    apply translate_walk in Hun. destruct Hsp as [Hf ? ? ?] eqn:E. rewrite (ff_count _ _ Hf) in Hn.
    destruct (alloc_page_ok st va r l Hso Hun ltac:(lia)) as (pa & st' & l' & Hrun & Hpost).
    rewrite (bind_run _ _ _ _ _ Hrun). exists roots, st', l'. split; [reflexivity|].
    apply (op_kept_step _ r); auto; [apply Hpost|apply Hpost].
  - pose proof (spaces_space _ _ _ _ Hsp Hleg) as Hso.
    destruct (walk (ram st) r (va_path va)) as [pa|] eqn:Hw.
    + destruct (free_page_ok st va r l pa Hso Hw) as (st' & Hrun & H1 & _ & _ & _ & H2).
      rewrite (bind_run _ _ _ _ _ Hrun). exists roots, st', (pa :: l). split; [reflexivity|].
      apply (op_kept_step _ r); auto. apply H1.
    + rewrite (bind_run _ _ _ _ _ (free_page_unmapped st va r (proj2 (translate_walk _ _ _) Hw))).
      exists roots, st, l. split; [reflexivity|]. now apply op_kept_refl.
  - destruct Hleg as (Hr & Hbs & Hva & Hlim). pose proof (spaces_space _ _ _ _ Hsp Hr) as Hso.
    destruct (copy_to_pages_ok bs va st r l Hso Hbs Hva Hlim) as (e & st' & Hrun & Hout).
    rewrite (bind_run _ _ _ _ _ Hrun). exists roots, st', l. split; [reflexivity|].
    assert (exists bs', user_update st r l va bs' st') as (bs' & Hu)
      by (destruct e; [destruct Hout; eauto|destruct Hout as (_ & ? & ? & _ & _ & ?); eauto]).
    apply (op_kept_step _ r); auto; [now apply user_update_step with va bs'|apply Hu].
  - pose proof (spaces_space _ _ _ _ Hsp Hleg) as Hso.
    destruct (duplicate_run st r l Hso) as (e & st' & l' & Hrun & _ & Hch & Hres).
    rewrite (bind_run _ _ _ _ _ Hrun). destruct e as [dst|msg].
    + destruct Hres as [Hd Ho].
      destruct (spaces_with st st' dst roots l l' Hsp Hch (du_free _ _ _ _ _ Hd) Ho) as [H1 H2].
      exists (dst :: roots), st', l'. split; [reflexivity|]. split; [exact H1| |].
      * rewrite all_owned_cons, (all_owned_kept _ _ _ H2), <- app_assoc, Permutation_app_swap_app.
        now rewrite Ho.
      * intros q Hq _. split; [now right|]. rewrite Forall_forall in H2. auto.
    + destruct Hres as (Hf & Hl & _). destruct (spaces_same st st' roots l l' Hsp Hch Hf Hl) as [H1 H2].
      exists roots, st', l'. split; [reflexivity|]. split; [exact H1| |].
      * now rewrite (all_owned_kept _ _ _ H2), Hl.
      * intros q Hq _. split; [exact Hq|]. rewrite Forall_forall in H2. auto.
  - pose proof (perm_filter_ne r roots (spaces_roots_nodup _ _ _ Hsp) Hleg) as Hperm.
    pose proof (spaces_space _ _ _ _ Hsp Hleg) as [Hf [Hfr Hn]]. pose proof Hfr as Hfr0.
    apply Forall_app in Hfr as [Hfr _].
    destruct (do_free_ok 2 3 1 r st l) as (st' & Hrun & Hst' & Hch & _); auto; try lia.
    rewrite (bind_run (free_page_table (Some r)) _ _ tt st') by exact Hrun.
    apply (spaces_perm _ _ _ _ Hperm) in Hsp.
    destruct (spaces_without st st' r _ l _ Hsp Hch Hst') as [H1 H2]; [now rewrite reverse_Permutation|].
    eexists _, st', _. split; [reflexivity|]. split; [exact H1| |].
    + rewrite (all_owned_kept _ _ _ H2), reverse_Permutation, Permutation_app_swap_app, app_assoc.
      f_equiv. rewrite <- all_owned_cons. unfold all_owned. apply bind_perm. now symmetry.
    + intros q Hq Hne. cbn [op_root] in Hne.
      assert (q ∈ filter (fun x => x <> r) roots) as Hq' by (apply list_elem_of_filter; split; congruence).
      split; [exact Hq'|]. rewrite Forall_forall in H2. auto.
Qed.

(** C9. Process isolation.  Whatever sequence of mapping, unmapping, copying,
    cloning and destroying the kernel runs on its address spaces, every call
    returns; the live spaces keep owning disjoint frames, none of them on the
    free list; no frame is lost or gained; and a space that no operation of
    the sequence was for still has every translation and every byte it had. *)
Theorem process_isolation ops roots st l :
  spaces st roots l -> ops_legal ops roots st ->
  exists roots' st' l', run_space_ops ops roots st = Done roots' st' /\
    spaces st' roots' l' /\
    all_owned (ram st') roots' ++ l' ≡ₚ all_owned (ram st) roots ++ l /\
    forall r, r ∈ roots -> (Some r ∉ op_root <$> ops) ->
      r ∈ roots' /\ forall va, ttbr0_to_pa st' va (Some r) = ttbr0_to_pa st va (Some r) /\
                             vread st' r va = vread st r va.
Proof.
  revert roots st l. induction ops as [|op ops IH]; intros roots st l Hsp Hleg.
  { exists roots, st, l. split; [reflexivity|]. split; [exact Hsp|]. split; [reflexivity|]. auto. }
  destruct Hleg as [Hop Hleg].
  destruct (run_space_op_ok op roots st l Hsp Hop) as (roots1 & st1 & l1 & Hrun & [K1 K2 K3]).
  cbn [run_space_ops]. rewrite Hrun in Hleg. rewrite (bind_run _ _ _ _ _ Hrun).
  destruct (IH roots1 st1 l1 K1 Hleg) as (roots2 & st2 & l2 & Hrun2 & H1 & H2 & H3).
  exists roots2, st2, l2. split; [exact Hrun2|]. split; [exact H1|]. split; [now rewrite H2|].
  intros r Hr Hn. cbn in Hn. apply not_elem_of_cons in Hn as [Hn1 Hn2].
  destruct (K3 r Hr ltac:(congruence)) as [Hr1 Hk]. destruct (H3 r Hr1 Hn2) as [Hr2 Hv].
  split; [exact Hr2|]. intros va. destruct (Hv va) as [-> ->].
  split; [now apply (kept_translate st st1 roots l)|now apply (kept_read st st1 roots l)].
Qed.

End Spaces.

(** One space and the free frames are a pool. *)
Lemma spaces_one st root l : space_ok st root l -> spaces (F := owned 3 (ram st) root ++ l) st [root] l.
Proof.
  intros [Hf [H1 H2]]. assert (all_owned (ram st) [root] = owned 3 (ram st) root) as E
    by apply app_nil_r.
  split; rewrite ?E; auto.
Qed.

(** The space with one page and its clone. *)
Definition demo_clone_run : outcome pstate (list Z) :=
  run_space_op (Clone demo_root) [demo_root] demo_mapped.
Definition demo_pair :=
  match demo_clone_run with
  | Done r s => (r, s)
  | _ => ([], demo_mapped)
  end.
Definition demo_clone : Z := 0x3c000.

Lemma demo_pair_roots : fst demo_pair = [demo_clone; demo_root].
Proof. vm_compute. reflexivity. Qed.

Lemma demo_pair_ok : exists (F : Pool) l, spaces (snd demo_pair) [demo_clone; demo_root] l.
Proof.
  destruct demo_mapped_ok as [l Hl]. pose proof (spaces_one _ _ _ Hl) as Hsp.
  destruct (run_space_op_ok (Clone demo_root) [demo_root] demo_mapped l Hsp ltac:(now left))
    as (roots' & st' & l' & Hrun & [K _ _]).
  exists (owned 3 (ram demo_mapped) demo_root ++ l), l'. rewrite <- demo_pair_roots. unfold demo_pair, demo_clone_run. rewrite Hrun. exact K.
Qed.

Definition demo_ops : list space_op := [CopyIn demo_clone 0x400000 [1; 2; 3]; Destroy demo_clone].

Lemma copy_destroy_legal r va bs roots st :
  r ∈ roots -> Forall is_u8 bs -> 0 <= va -> va + Z.of_nat (length bs) <= VA_LIMIT ->
  ops_legal [CopyIn r va bs; Destroy r] roots st.
Proof.
  intros Hr Hbs Hva Hlim. cbn [ops_legal op_legal]. split; [auto|].
  destruct (run_space_op (CopyIn r va bs) roots st) as [roots1 st1| | |] eqn:Hrun; [|exact I..].
  cbn [run_space_op] in Hrun. inv_done. split; [exact Hr|]. now destruct (run_space_op (Destroy r) _ _).
Qed.

Lemma demo_ops_legal : ops_legal demo_ops [demo_clone; demo_root] (snd demo_pair).
Proof.
  apply copy_destroy_legal; [now left| |discriminate|discriminate].
  repeat constructor; unfold is_u8; lia.
Qed.

Lemma process_isolation_witness :
  exists (F : Pool) l, (spaces (snd demo_pair) [demo_clone; demo_root] l /\
    ops_legal demo_ops [demo_clone; demo_root] (snd demo_pair)) /\
  exists roots' st' l',
    run_space_ops demo_ops [demo_clone; demo_root] (snd demo_pair) = Done roots' st' /\
    spaces st' roots' l' /\
    all_owned (ram st') roots' ++ l'
      ≡ₚ all_owned (ram (snd demo_pair)) [demo_clone; demo_root] ++ l /\
    forall r, r ∈ [demo_clone; demo_root] -> (Some r ∉ op_root <$> demo_ops) ->
      r ∈ roots' /\ forall va,
        ttbr0_to_pa st' va (Some r) = ttbr0_to_pa (snd demo_pair) va (Some r) /\
        vread st' r va = vread (snd demo_pair) r va.
Proof.
  destruct demo_pair_ok as (F & l & Hl). exists F, l. split; [exact (conj Hl demo_ops_legal)|].
  exact (process_isolation demo_ops [demo_clone; demo_root] (snd demo_pair) l Hl demo_ops_legal).
Defined.
