(* ===== verification/LoadElf.v ===== *)
(** ELF files: the header of src/src/kernel/elf.rs and the loader [load_elf]
    of src/src/kernel/paging.rs, over the page operations.

    The kernel is a release build: the address arithmetic wraps.  The loop
    that maps a segment takes a frame or panics at every round, so one round
    more than there are free frames is enough fuel; the loop that zeroes the
    rest of a segment ends a page at every round. *)

From Stdlib Require Import ZArith Lia.
From stdpp Require Import base strings numbers list.
From S2P Require Import Prelude Memory Frames PageTable PageFree PagingSpec UserMem PageRange.

Local Open Scope Z_scope.

(** ** Headers *)

Definition ELF_MAGIC : Z := 0x464C457F.
Definition PT_LOAD : Z := 1.

Record Elf64Hdr := mk_Elf64Hdr {
  magic : Z; elf : bytes; h_type : Z; machine : Z; version : Z; entry : Z; phoff : Z;
  shoff : Z; h_flags : Z; ehsize : Z; phentsize : Z; phnum : Z; shentsize : Z; shnum : Z;
  shstrndx : Z;
}.

Record Elf64ProgHdr := mk_Elf64ProgHdr {
  p_type : Z; p_flags : Z; offset : Z; virtaddr : Z; phyaddr : Z; filesize : Z;
  memsize : Z; align : Z;
}.

(** [size_of] of the two [repr(C)] structures. *)
Definition HDR_SIZE : Z := 64.
Definition PH_SIZE : Z := 56.

(** The little-endian field of [n] bytes at [off]. *)
Definition field (b : bytes) (off n : nat) : Z := le_combine (take n (drop off b)).

Definition read_hdr (b : bytes) : Elf64Hdr :=
  mk_Elf64Hdr (field b 0 4) (take 12 (drop 4 b)) (field b 16 2) (field b 18 2) (field b 20 4)
    (field b 24 8) (field b 32 8) (field b 40 8) (field b 48 4) (field b 52 2) (field b 54 2)
    (field b 56 2) (field b 58 2) (field b 60 2) (field b 62 2).

Definition read_proghdr (b : bytes) : Elf64ProgHdr :=
  mk_Elf64ProgHdr (field b 0 4) (field b 4 4) (field b 8 8) (field b 16 8) (field b 24 8)
    (field b 32 8) (field b 40 8) (field b 48 8).

Definition verify (h : Elf64Hdr) : bool := magic h =? ELF_MAGIC.

Definition mkfrombytes (b : bytes) : option Elf64Hdr :=
  if Z.of_nat (length b) <? HDR_SIZE then None else
  let header := read_hdr b in
  if verify header then Some header else None.

(** ** The loader *)

(** [while current_page_va < va_end { alloc_page(..); current_page_va += 4096 }] *)
Fixpoint map_pages (fuel : nat) (current_page_va va_end ttbr0 : Z) : M pstate unit :=
  if current_page_va <? va_end then
    match fuel with
    | O => diverge
    | S f => alloc_page current_page_va (Some ttbr0) ;;
             map_pages f (add64 current_page_va 4096) va_end ttbr0
    end
  else skip.

(** The BSS loop.  [frame_va] already contains the offset in the page. *)
Fixpoint zero_bss (fuel : nat) (zero_va va_end ttbr0 : Z) : M pstate unit :=
  if zero_va <? va_end then
    match fuel with
    | O => diverge
    | S f =>
        let* t := gets (fun st => ttbr0_to_ttbr1 st zero_va (Some ttbr0)) in
        let* frame_va := expect t "load_elf: missing page while zeroing BSS" in
        let offset_in_page := Z.land zero_va 0xFFF in
        let bytes_to_zero := Z.min (4096 - offset_in_page) (sub64 va_end zero_va) in
        modify (fun st => set_ram (write_zero (ram st)
          (ttbr1_to_pa (add64 frame_va offset_in_page)) bytes_to_zero) st) ;;
        zero_bss f (add64 zero_va bytes_to_zero) va_end ttbr0
    end
  else skip.

(** [&bytes[a..b]], which panics when the range is not inside the slice. *)
Definition slice {St} (b : bytes) (lo hi : Z) : M St bytes :=
  if (lo <=? hi) && (hi <=? Z.of_nat (length b))
  then ret (take (Z.to_nat (hi - lo)) (drop (Z.to_nat lo) b))
  else panic "slice index out of range".

(** One PT_LOAD segment; the result is its [va_end]. *)
Definition load_segment (b : bytes) (ph : Elf64ProgHdr) (ttbr0 : Z) : M pstate Z :=
  let va_start := virtaddr ph in
  let va_end := add64 va_start (memsize ph) in
  let file_end := add64 va_start (filesize ph) in
  let* frames := gets FREE_FRAME_COUNT in
  map_pages (S (Z.to_nat frames)) (Z.land va_start (not64 0xFFF)) va_end ttbr0 ;;
  (if filesize ph >? 0 then
     let* src := slice b (offset ph) (add64 (offset ph) (filesize ph)) in
     let* r := copy_to_pages src va_start (Some ttbr0) in
     match r with
     | ROk _ => skip
     | RErr _ => panic "load_elf: copy_to_pages failed"
     end
   else skip) ;;
  (if file_end <? va_end
   then zero_bss (S (Z.to_nat ((va_end - file_end) / 4096 + 2))) file_end va_end ttbr0
   else skip) ;;
  ret va_end.

(** The loop over the program headers: [break] at the first one that is not
    inside the file.  The state is (loaded_any_segments, max_allocated_addr). *)
Fixpoint load_segments (ixs : list Z) (b : bytes) (start ttbr0 : Z) (loaded : bool) (max_addr : Z)
  : M pstate (bool * Z) :=
  match ixs with
  | [] => ret (loaded, max_addr)
  | i :: ixs' =>
      let off := add64 start (mul64 i PH_SIZE) in
      if add64 off PH_SIZE >? Z.of_nat (length b) then ret (loaded, max_addr) else
      let ph := read_proghdr (drop (Z.to_nat off) b) in
      if p_type ph =? PT_LOAD then
        let* va_end := load_segment b ph ttbr0 in
        load_segments ixs' b start ttbr0 true (if va_end >? max_addr then va_end else max_addr)
      else load_segments ixs' b start ttbr0 loaded max_addr
  end.

Definition load_elf (b : bytes) : M pstate (result (Z * Z * Z)) :=
  match mkfrombytes b with
  | None => ret (RErr "Invalid ELF file header")
  | Some header =>
      let* root := get_free_frame_pa in
      let* ttbr0 := expect root "No free frames available for new process" in
      let* r := load_segments (seqZ 0 (phnum header)) b (phoff header) ttbr0 false 0 in
      let '(loaded_any_segments, max_allocated_addr) := r in
      if negb loaded_any_segments then ret (RErr "No loadable segments found in ELF file") else
      let entry_point := entry header in
      let stack_top := Z.land (add64 max_allocated_addr 0x16000) (not64 0xF) in
      for_in (seqZ 0 14) (fun i =>
        alloc_page (sub64 (sub64 stack_top (i * 4096)) 1) (Some ttbr0) ;; skip) ;;
      ret (ROk (entry_point, stack_top, ttbr0))
  end.

(** The embedded program images, by name; the bytes come from the build. *)
Definition file_names : list bytes :=
  str <$> ["init"; "waittest"; "ptest"; "echo"; "wc"; "tetris"; "clear"; "info"; "exectest";
           "shell"; "help"]%string.

Definition read_file (images : bytes -> bytes) (file_name : bytes) : option bytes :=
  if bool_decide (file_name ∈ file_names) then Some (images file_name) else None.

(** ** Header properties *)

(** A header as the linker writes it. *)
Definition hdr_bytes (h : Elf64Hdr) : bytes :=
  le_split 4 (magic h) ++ elf h ++ le_split 2 (h_type h) ++ le_split 2 (machine h) ++
  le_split 4 (version h) ++ le_split 8 (entry h) ++ le_split 8 (phoff h) ++ le_split 8 (shoff h) ++
  le_split 4 (h_flags h) ++ le_split 2 (ehsize h) ++ le_split 2 (phentsize h) ++
  le_split 2 (phnum h) ++ le_split 2 (shentsize h) ++ le_split 2 (shnum h) ++ le_split 2 (shstrndx h).

(** Every field fits its width. *)
Record hdr_wf (h : Elf64Hdr) : Prop := {
  hw_elf : length (elf h) = 12%nat;
  hw_32 : Forall (fun v => 0 <= v < 2 ^ 32) [magic h; version h; h_flags h];
  hw_64 : Forall (fun v => 0 <= v < 2 ^ 64) [entry h; phoff h; shoff h];
  hw_16 : Forall (fun v => 0 <= v < 2 ^ 16)
    [h_type h; machine h; ehsize h; phentsize h; phnum h; shentsize h; shnum h; shstrndx h];
}.

Lemma field_here n v post :
  0 <= v < 2 ^ (8 * Z.of_nat n) -> field (le_split n v ++ post) 0 n = v.
Proof.
  intros Hv. unfold field. rewrite drop_0, take_app_length' by now rewrite length_le_split.
  rewrite le_combine_split. now apply Z.mod_small.
Qed.

Lemma field_skip pre b off n :
  (length pre <= off)%nat -> field (pre ++ b) off n = field b (off - length pre) n.
Proof. intros H. unfold field. now rewrite drop_app_ge. Qed.

(** Finds the field of a concatenation of fields. *)
Ltac find_field :=
  repeat (rewrite field_skip by (rewrite ?length_le_split; lia);
          rewrite ?length_le_split; cbn [Nat.sub]);
  apply field_here; lia.

(** Parsing the bytes of a well-formed header, whatever follows them,
    gives the header back when its magic number is right and nothing
    otherwise; a file shorter than a header is rejected. *)
Theorem elf_header_roundtrip h rest :
  hdr_wf h ->
  mkfrombytes (hdr_bytes h ++ rest) = (if verify h then Some h else None) /\
  forall b, Z.of_nat (length b) < HDR_SIZE -> mkfrombytes b = None.
Proof.
  intros [He H32 H64 H16]. split.
  2:{ intros b Hb. unfold mkfrombytes. now rewrite (proj2 (Z.ltb_lt _ _)). }
  assert (read_hdr (hdr_bytes h ++ rest) = h) as Hr.
  { repeat match goal with H : Forall _ (_ :: _) |- _ => apply Forall_cons in H as [? H] end.
    destruct h as [f1 f2 f3 f4 f5 f6 f7 f8 f9 f10 f11 f12 f13 f14 f15]. 
    cbn [magic elf h_type machine version entry phoff shoff h_flags ehsize phentsize phnum
      shentsize shnum shstrndx] in *.
    unfold hdr_bytes, read_hdr.
    cbn [magic elf h_type machine version entry phoff shoff h_flags ehsize phentsize phnum
      shentsize shnum shstrndx]. rewrite <- !app_assoc.
    f_equal; try (rewrite ?(field_skip (le_split 4 f1)), ?(field_skip f2), ?He, ?length_le_split
                    by (rewrite ?He, ?length_le_split; lia); cbn [Nat.sub]; find_field).
    rewrite drop_app_length' by now rewrite length_le_split.
    now apply take_app_length'. }
  unfold mkfrombytes. rewrite Hr. rewrite (proj2 (Z.ltb_ge _ _)); [reflexivity|].
  unfold hdr_bytes, HDR_SIZE. rewrite !length_app, !length_le_split, He. lia.
Qed.

Definition demo_hdr : Elf64Hdr :=
  mk_Elf64Hdr ELF_MAGIC (replicate 12 2) 2 183 1 0x400000 64 0 0 64 56 1 64 0 0.

Lemma elf_header_roundtrip_witness :
  hdr_wf demo_hdr /\
  mkfrombytes (hdr_bytes demo_hdr ++ [1; 2; 3]) = (if verify demo_hdr then Some demo_hdr else None) /\
  forall b, Z.of_nat (length b) < HDR_SIZE -> mkfrombytes b = None.
Proof.
  assert (hdr_wf demo_hdr) as H 
    by (split; [reflexivity| | |]; apply (bool_decide_unpack _); vm_compute; exact I).
  split; [exact H|]. exact (elf_header_roundtrip demo_hdr [1; 2; 3] H).
Defined.

(** ** Loading a segment *)

(** The pages of [lo .. hi], from the page of [lo] on. *)
Definition page_list (lo hi : Z) : list Z := step_range (lo / 4096 * 4096) hi 4096.

Lemma page_list_in lo hi va :
  va ∈ page_list lo hi <-> exists i, 0 <= i /\ va = (lo / 4096 + i) * 4096 /\ va < hi.
Proof.
  unfold page_list, step_range. rewrite list_elem_of_fmap. split.
  - intros (i & -> & Hi). apply elem_of_seqZ in Hi. exists i.
    assert (i < (hi - lo / 4096 * 4096 + 4096 - 1) / 4096) as H by lia.
    assert (4096 * (i + 1) <= hi - lo / 4096 * 4096 + 4096 - 1).
    { etransitivity; [|apply (Z.mul_div_le _ 4096); lia]. lia. }
    split; [lia|]. split; lia.
  - intros (i & Hi & -> & Hlt). exists i. split; [lia|]. apply elem_of_seqZ.
    assert (i + 1 <= (hi - lo / 4096 * 4096 + 4096 - 1) / 4096)
      by (apply Z.div_le_lower_bound; lia). lia.
Qed.

Lemma map_pages_for fuel cur n va_end root st :
  (n <= fuel)%nat -> 0 <= cur -> cur + Z.of_nat n * 4096 < U64 ->
  (forall i, (i < n)%nat -> cur + Z.of_nat i * 4096 < va_end) -> va_end <= cur + Z.of_nat n * 4096 ->
  map_pages fuel cur va_end root st =
  for_in ((fun i => cur + Z.of_nat i * 4096) <$> seq 0 n) (fun va => alloc_page va (Some root) ;; skip) st.
Proof.
  revert cur n st. induction fuel as [|fuel IH]; intros cur n st Hn Hc Hw Hlt Hge;
    cbn [map_pages].
  - replace n with O in * by lia. rewrite (proj2 (Z.ltb_ge _ _)) by lia. reflexivity.
  - destruct n as [|n].
    + rewrite (proj2 (Z.ltb_ge _ _)) by lia. reflexivity.
    + specialize (Hlt O ltac:(lia)) as H0. rewrite (proj2 (Z.ltb_lt _ _)) by lia.
      cbn [seq fmap list_fmap for_in]. unfold bind. rewrite Z.add_0_r.
      destruct (alloc_page cur (Some root) st) as [a s|e|w|]; try reflexivity.
      cbn [skip ret]. rewrite add64_small by lia. rewrite (IH (cur + 4096) n s); [|lia|lia|lia| |lia].
      * rewrite <- fmap_S_seq, <- list_fmap_compose. f_equal. apply list_fmap_ext. intros i x Hx. cbn. lia.
      * intros i Hi. specialize (Hlt (S i) ltac:(lia)). lia.
Qed.

Lemma page_list_seq lo hi n :
  0 <= lo -> n = Z.to_nat ((hi - lo / 4096 * 4096 + 4095) / 4096) ->
  page_list lo hi = (fun i => lo / 4096 * 4096 + Z.of_nat i * 4096) <$> seq 0 n.
Proof.
  intros Hlo ->. unfold page_list, step_range. unfold seqZ.
  rewrite <- list_fmap_compose.
  replace (Z.to_nat (Z.max 0 ((hi - lo / 4096 * 4096 + 4096 - 1) / 4096)))
    with (Z.to_nat ((hi - lo / 4096 * 4096 + 4095) / 4096))
    by (replace (hi - lo / 4096 * 4096 + 4096 - 1) with (hi - lo / 4096 * 4096 + 4095) by lia; lia).
  apply list_fmap_ext. intros i x _. cbn. lia.
Qed.

Lemma page_list_nodup lo hi : 0 <= lo -> hi <= VA_LIMIT -> pages_nodup (page_list lo hi).
Proof.
  intros Hlo Hhi. unfold pages_nodup. apply NoDup_fmap_2_strong.
  - intros a b (i & Hi & -> & Ha)%page_list_in (j & Hj & -> & Hb)%page_list_in H.
    assert (0 <= lo / 4096) by (apply Z.div_pos; lia).
    apply va_path_inj in H; [|unfold VA_LIMIT in *; lia|unfold VA_LIMIT in *; lia].
    rewrite !Z.div_mul in H by lia. now rewrite H.
  - rewrite (page_list_seq lo hi _ Hlo eq_refl). apply NoDup_fmap_2_strong; [|apply NoDup_seq].
    intros i j _ _ H. lia.
Qed.

Lemma page_list_covers lo hi v :
  0 <= lo -> lo <= v < hi -> va_path v ∈ (va_path <$> page_list lo hi).
Proof.
  intros Hlo Hv. apply list_elem_of_fmap. exists (v / 4096 * 4096). split.
  - apply va_path_page. now rewrite Z.div_mul by lia.
  - apply page_list_in. exists (v / 4096 - lo / 4096).
    pose proof (Z.div_le_mono lo v 4096 ltac:(lia) ltac:(lia)).
    pose proof (Z.mul_div_le v 4096 ltac:(lia)). split; [lia|]. split; lia.
Qed.

(** The pages a segment needs, mapped one by one. *)
Lemma map_pages_ok st root l lo hi :
  space_ok st root l -> 0 <= lo < hi -> hi <= VA_LIMIT ->
  Forall (fun va => ~ mapped st root va) (page_list lo hi) ->
  (3 * length (page_list lo hi) <= length l)%nat ->
  exists st' l', map_pages (S (Z.to_nat (FREE_FRAME_COUNT st))) (Z.land lo (not64 0xFFF)) hi root st
                   = Done tt st' /\ mapped_more st root l (page_list lo hi) st' l'.
Proof.
  intros Hsp Hlo Hhi Hun Hlen.
  destruct (alloc_pages_ok root (page_list lo hi) st l) as (st' & l' & Hrun & Hm); auto.
  { apply page_list_nodup; lia. }
  exists st', l'. split; [|exact Hm]. rewrite <- Hrun. unfold VA_LIMIT in Hhi.
  rewrite (page_list_seq lo hi _ ltac:(lia) eq_refl) in Hlen |- *.
  rewrite length_fmap, length_seq in Hlen.
  set (n := Z.to_nat ((hi - lo / 4096 * 4096 + 4095) / 4096)) in *.
  assert (Z.land lo (not64 0xFFF) = lo / 4096 * 4096) as ->.
  { unfold not64, U64_MAX. change (2 ^ 64 - 1 - 0xFFF) with (2 ^ 64 - 2 ^ 12).
    rewrite land_mask_high by lia. change (2 ^ 12) with 4096.
    pose proof (Z.div_mod lo 4096 ltac:(lia)). lia. }
  pose proof (Z.mul_div_le lo 4096 ltac:(lia)) as Hb. assert (0 <= lo / 4096) by (apply Z.div_pos; lia).
  pose proof (Z.div_mod (hi - lo / 4096 * 4096 + 4095) 4096 ltac:(lia)) as Hdm.
  pose proof (Z.mod_pos_bound (hi - lo / 4096 * 4096 + 4095) 4096 ltac:(lia)) as Hmb.
  assert (0 <= (hi - lo / 4096 * 4096 + 4095) / 4096) by (apply Z.div_pos; lia).
  pose proof (so_free _ _ _ Hsp) as [_ _ _ Hk _].
  apply map_pages_for; [rewrite Hk; lia|lia|unfold U64; lia|intros i Hi; lia|lia].
Qed.
