(* ===== verification/LoadSpec.v ===== *)
(** What the loader of LoadElf.v does: a segment with its BSS, all segments of
    a file, and [load_elf] as a whole on the free list.

    The frames the allocator hands out are clean ([node_clean]): that is why
    the root of a new space, which [load_elf] does not clear, has no entry. *)

From Stdlib Require Import ZArith Lia.
From stdpp Require Import base strings numbers list.
From S2P Require Import Prelude Memory Frames PageTable PageFree PagingSpec UserMem PageRange LoadElf.

Local Open Scope Z_scope.

(** ** The rest of a segment *)

(** Where the loop that zeroes [lo .. hi] writes: in the first page at twice
    its offset, because the offset is added to an address that has it, and
    every byte of the following pages. *)
Definition bss_first (lo : Z) : Z := lo + lo mod 4096.
Definition bss_len (lo hi : Z) : Z := Z.min (4096 - lo mod 4096) (hi - lo).
Definition bss_zeroed (lo hi v : Z) : Prop :=
  bss_first lo <= v < bss_first lo + bss_len lo hi \/ (lo / 4096 + 1) * 4096 <= v < hi.

(** The first write stays in its page. *)
Definition bss_fits (lo hi : Z) : Prop := 2 * (lo mod 4096) + bss_len lo hi <= 4096.

(** [st'] is [st] with the bytes of [P] zeroed. *)
Record zeroed (st : pstate) (root : Z) (l : list Z) (P : Z -> Prop) (st' : pstate) : Prop := {
  zd_space : space_ok st' root l;
  zd_owned : owned 3 (ram st') root = owned 3 (ram st) root;
  zd_walk : forall v, walk (ram st') root (va_path v) = walk (ram st) root (va_path v);
  zd_in : forall v, 0 <= v < VA_LIMIT -> P v -> vread st' root v = Some 0;
  zd_out : forall v, 0 <= v < VA_LIMIT -> ~ P v -> vread st' root v = vread st root v;
  zd_changed : changed (ram st) (ram st') (owned 3 (ram st) root);
  zd_regs : same_regs st st';
}.

Lemma zeroed_nil st root l P : (forall v, ~ P v) -> space_ok st root l -> zeroed st root l P st.
Proof.
  intros HP H. split; auto using changed_refl with atos. intros v _ Hv. now apply HP in Hv.
Qed.

Lemma zeroed_update st root l va n st' :
  0 < n -> user_update st root l va (replicate (Z.to_nat n) 0) st' ->
  zeroed st root l (fun v => va <= v < va + n) st'.
Proof.
  intros Hn [U1 U2 U3 U4 U5 U6]. rewrite length_replicate in U4. split; auto; intros v Hv HP.
  - rewrite U4, decide_True by lia. apply lookup_replicate. lia.
  - rewrite U4, decide_False by lia. reflexivity.
Qed.

Lemma zeroed_then st root l P st1 Q st2 :
  (forall v, Decision (P v)) -> (forall v, Decision (Q v)) ->
  zeroed st root l P st1 -> zeroed st1 root l Q st2 ->
  zeroed st root l (fun v => P v \/ Q v) st2.
Proof.
  intros HP HQ [S1 O1 W1 I1 T1 C1 G1] [S2 O2 W2 I2 T2 C2 G2]. split; auto.
  - congruence.
  - intros v. now rewrite W2.
  - intros v Hv H. destruct (decide (Q v)) as [Hq|Hq]; [auto|].
    rewrite T2 by assumption. destruct H; [auto|contradiction].
  - intros v Hv H. rewrite T2, T1; auto; tauto.
  - eapply changed_trans; [exact C1|]. now rewrite <- O1.
  - eauto using same_regs_trans.
Qed.

Lemma zeroed_ext st root l P Q st' :
  (forall v, P v <-> Q v) -> zeroed st root l P st' -> zeroed st root l Q st'.
Proof.
  intros H [S1 O1 W1 I1 T1 C1 G1]. split; auto; intros v Hv Hp; [apply I1|apply T1]; auto; now rewrite H.
Qed.

(** One round: the bytes written, as the process sees them. *)
Lemma zero_round st root l lo hi pa :
  space_ok st root l -> walk (ram st) root (va_path lo) = Some pa ->
  0 <= lo < hi -> hi <= VA_LIMIT -> bss_fits lo hi ->
  zeroed st root l (fun v => bss_first lo <= v < bss_first lo + bss_len lo hi)
    (set_ram (write_zero (ram st) (pa + 2 * (lo mod 4096)) (bss_len lo hi)) st).
Proof.
  intros Hsp Hw Hlo Hhi Hfit. unfold bss_fits in Hfit. unfold VA_LIMIT in Hhi.
  pose proof (Z.mod_pos_bound lo 4096 ltac:(lia)) as Ho. pose proof (Z.div_mod lo 4096 ltac:(lia)) as Hd.
  assert (0 < bss_len lo hi) as Hn by (unfold bss_len; lia).
  assert (bss_first lo / 4096 = lo / 4096) as Hq.
  { symmetry. apply (Z.div_unique_pos _ _ _ (2 * (lo mod 4096))); [lia|]. unfold bss_first. lia. }
  assert (bss_first lo mod 4096 = 2 * (lo mod 4096)) as Hm.
  { symmetry. apply (Z.mod_unique_pos _ _ (lo / 4096)); [lia|]. unfold bss_first. lia. }
  apply zeroed_update; [exact Hn|].
  apply (page_update_spec st (bss_first lo) root l pa); rewrite ?Hm, ?length_replicate, ?Z2Nat.id by lia; auto.
  - now rewrite (va_path_page (bss_first lo) lo Hq).
  - unfold bss_first, VA_LIMIT. unfold bss_len in *. lia.
  - apply mem_ok_write_zero, Hsp.
  - intros x Hx. rewrite write_zero_in by lia. apply lookup_replicate. lia.
  - intros x Hx. apply write_zero_out. lia.
Qed.

#[global] Instance bss_zeroed_dec lo hi v : Decision (bss_zeroed lo hi v).
Proof. unfold bss_zeroed. apply _. Defined.

(** On a page boundary the loop zeroes what it should. *)
Lemma bss_aligned lo hi v :
  lo mod 4096 = 0 -> lo <= hi -> (bss_zeroed lo hi v <-> lo <= v < hi) /\ bss_fits lo hi.
Proof.
  intros Ha Hle. unfold bss_zeroed, bss_fits, bss_first, bss_len. rewrite Ha.
  pose proof (Z.div_mod lo 4096 ltac:(lia)). split; [|lia]. lia.
Qed.

Lemma zero_bss_round fuel lo hi root st pa :
  walk (ram st) root (va_path lo) = Some pa -> 0 <= pa < 2 ^ 31 -> 0 <= lo < hi -> hi <= VA_LIMIT ->
  zero_bss (S fuel) lo hi root st
  = zero_bss fuel (lo + bss_len lo hi) hi root
      (set_ram (write_zero (ram st) (pa + 2 * (lo mod 4096)) (bss_len lo hi)) st).
Proof.
  intros Hw Hp Hlo Hhi. unfold VA_LIMIT in Hhi.
  pose proof (Z.mod_pos_bound lo 4096 ltac:(lia)) as Ho. cbn [zero_bss].
  rewrite (proj2 (Z.ltb_lt lo hi)) by lia. unfold ttbr0_to_ttbr1. run_m.
  rewrite ttbr0_to_pa_walk, Hw. cbn [fmap option_fmap option_map expect].
  unfold ret. rewrite !offset_mod. rewrite sub64_small by (unfold U64; lia).
  fold (bss_len lo hi). rewrite ttbr1_to_va_add by lia.
  rewrite !add64_small by (unfold U64, KERNEL_BASE, bss_len; lia).
  replace (KERNEL_BASE + (pa + lo mod 4096) + lo mod 4096) with (KERNEL_BASE + (pa + 2 * (lo mod 4096))) by lia.
  rewrite <- ttbr1_to_va_add, ttbr1_pa_va by lia. reflexivity.
Qed.

Lemma zero_bss_ok root l hi fuel : forall lo st,
  space_ok st root l -> 0 <= lo < hi -> hi <= VA_LIMIT -> bss_fits lo hi ->
  (forall v, lo <= v < hi -> mapped st root v) ->
  (Z.to_nat ((hi - 1) / 4096 - lo / 4096 + 1) <= fuel)%nat ->
  exists st', zero_bss fuel lo hi root st = Done tt st' /\ zeroed st root l (bss_zeroed lo hi) st'.
Proof.
  induction fuel as [|fuel IH]; intros lo st Hsp Hlo Hhi Hfit Hm Hfuel.
  { pose proof (Z.div_le_mono lo (hi - 1) 4096 ltac:(lia) ltac:(lia)). lia. }
  destruct (walk (ram st) root (va_path lo)) as [pa|] eqn:Hw; [|now contradiction (Hm lo)].
  assert (frame_pa pa) as [Hp _].
  { destruct Hsp as [_ [Hf _]]. rewrite Forall_forall in Hf. apply Hf, elem_of_app. left.
    eapply walk_owned; [|apply va_path_ok|exact Hw]. simpl. lia. }
  pose proof (Z.mod_pos_bound lo 4096 ltac:(lia)) as Ho. pose proof (Z.div_mod lo 4096 ltac:(lia)) as Hd.
  pose proof (zero_round st root l lo hi pa Hsp Hw Hlo Hhi Hfit) as Hr.
  set (st1 := set_ram _ st) in Hr. unfold VA_LIMIT in Hhi.
  rewrite (zero_bss_round fuel lo hi root st pa Hw Hp) by (unfold VA_LIMIT; lia). fold st1.
  destruct (Z.le_gt_cases hi (lo + bss_len lo hi)) as [Hend|Hmore].
  - exists st1. assert (lo + bss_len lo hi = hi) as -> by (unfold bss_len in *; lia). split.
    + destruct fuel; cbn [zero_bss]; now rewrite Z.ltb_irrefl.
    + eapply zeroed_ext; [|exact Hr]. intros v. unfold bss_zeroed, bss_len in *. lia.
  - assert (lo + bss_len lo hi = (lo / 4096 + 1) * 4096) as E by (unfold bss_len in *; lia). rewrite E in *.
    set (lo1 := (lo / 4096 + 1) * 4096) in *.
    assert (lo1 mod 4096 = 0) as Ha by (apply Z.mod_mul; lia).
    assert (lo1 / 4096 = lo / 4096 + 1) as Hq by (apply Z.div_mul; lia).
    destruct (IH lo1 st1) as (st2 & Hrun & Hz); [apply Hr|lia|unfold VA_LIMIT; lia| | |lia|].
    + apply (bss_aligned lo1 hi 0 Ha). lia.
    + intros v Hv. unfold mapped. rewrite (zd_walk _ _ _ _ _ Hr). apply Hm. lia.
    + exists st2. split; [exact Hrun|].
      eapply zeroed_ext; [|eapply (zeroed_then st root l _ st1 (bss_zeroed lo1 hi)); [| |exact Hr|exact Hz]];
        try apply _.
      intros v. cbv beta. destruct (bss_aligned lo1 hi v Ha ltac:(lia)) as [-> _].
      unfold bss_zeroed. fold lo1. reflexivity.
Qed.

(** ** Loading a segment *)

Definition ph_lo (ph : Elf64ProgHdr) : Z := virtaddr ph.
Definition ph_file_end (ph : Elf64ProgHdr) : Z := virtaddr ph + filesize ph.
Definition ph_hi (ph : Elf64ProgHdr) : Z := virtaddr ph + memsize ph.
Definition ph_pages (ph : Elf64ProgHdr) : list Z := page_list (ph_lo ph) (ph_hi ph).

(** A segment the loader handles: inside the file and the user's addresses,
    and, if it has a BSS, one whose first write stays in its page. *)
Record seg_ok (b : bytes) (ph : Elf64ProgHdr) : Prop := {
  sg_file : 0 <= offset ph /\ offset ph + filesize ph <= Z.of_nat (length b);
  sg_size : 0 <= filesize ph <= memsize ph /\ 0 < memsize ph;
  sg_va : 0 <= virtaddr ph /\ ph_hi ph <= VA_LIMIT;
  sg_bss : filesize ph < memsize ph -> bss_fits (ph_file_end ph) (ph_hi ph);
}.

Definition ph_zeroed (ph : Elf64ProgHdr) (v : Z) : Prop :=
  filesize ph < memsize ph /\ bss_zeroed (ph_file_end ph) (ph_hi ph) v.

(** [st'] is [st] with the segment loaded. *)
Record seg_loaded (st : pstate) (root : Z) (l : list Z) (b : bytes) (ph : Elf64ProgHdr)
    (st' : pstate) (l' : list Z) : Prop := {
  sl_space : space_ok st' root l';
  sl_mapped : forall v, mapped st' root v <-> mapped st root v \/ va_path v ∈ (va_path <$> ph_pages ph);
  sl_file : forall i, 0 <= i < filesize ph ->
    vread st' root (virtaddr ph + i) = b !! Z.to_nat (offset ph + i);
  sl_bss : forall v, 0 <= v < VA_LIMIT -> ph_zeroed ph v -> vread st' root v = Some 0;
  sl_kept : forall v, 0 <= v < VA_LIMIT -> mapped st root v -> vread st' root v = vread st root v;
  sl_step : pt_step 3 root (ram st) l (ram st') l';
  sl_len : (length l <= 3 * length (ph_pages ph) + length l')%nat;
  sl_regs : same_regs st st';
}.

(** The file's bytes, copied into the mapped pages. *)
Lemma copy_segment_ok st root l b ph :
  space_ok st root l -> Forall is_u8 b -> Z.of_nat (length b) < U64 -> seg_ok b ph ->
  (forall v, ph_lo ph <= v < ph_hi ph -> mapped st root v) ->
  exists st', (if filesize ph >? 0 then
     let* src := slice b (offset ph) (add64 (offset ph) (filesize ph)) in
     let* r := copy_to_pages src (virtaddr ph) (Some root) in
     match r with ROk _ => skip | RErr _ => panic "load_elf: copy_to_pages failed" end
   else skip) st = Done tt st' /\
   user_update st root l (virtaddr ph) (take (Z.to_nat (filesize ph)) (drop (Z.to_nat (offset ph)) b)) st'.
Proof.
  intros Hsp Hb Hlb [[Ho Hof] [Hfs Hms] [Hva Hlim] _] Hm. unfold ph_lo, ph_hi in *.
  set (src := take (Z.to_nat (filesize ph)) (drop (Z.to_nat (offset ph)) b)).
  rewrite Z.gtb_ltb. destruct (Z.ltb_spec 0 (filesize ph)) as [Hpos|Hz].
  2:{ exists st. split; [reflexivity|]. assert (src = []) as -> by (unfold src; now replace (Z.to_nat (filesize ph)) with O by lia).
      now apply user_update_nil. }
  assert (length src = Z.to_nat (filesize ph)) as Hsl
    by (unfold src; rewrite length_take, length_drop; lia).
  destruct (copy_to_pages_ok src (virtaddr ph) st root l) as (r & st2 & Hrun & Hout);
    [exact Hsp|now apply Forall_take, Forall_drop|lia|lia|].
  exists st2. unfold slice. rewrite add64_small by lia.
  rewrite (proj2 (Z.leb_le _ _)), (proj2 (Z.leb_le _ _)) by lia. cbn [andb].
  replace (offset ph + filesize ph - offset ph) with (filesize ph) by lia. fold src.
  unfold bind, ret. rewrite Hrun. destruct r as [[]|e]; [split; [reflexivity|apply Hout]|].
  destruct Hout as (_ & v & k & Hv & Hnone & _). exfalso. apply translate_walk in Hnone.
  now apply (Hm v ltac:(lia)).
Qed.

Lemma zero_segment_ok st root l b ph :
  space_ok st root l -> seg_ok b ph -> (forall v, ph_lo ph <= v < ph_hi ph -> mapped st root v) ->
  exists st', (if ph_file_end ph <? ph_hi ph
     then zero_bss (S (Z.to_nat ((ph_hi ph - ph_file_end ph) / 4096 + 2))) (ph_file_end ph) (ph_hi ph) root
     else skip) st = Done tt st' /\ zeroed st root l (ph_zeroed ph) st'.
Proof.
  intros Hsp [_ [Hfs Hms] [Hva Hlim] Hbss] Hm. unfold ph_lo, ph_hi, ph_file_end, ph_zeroed in *.
  set (lo := virtaddr ph + filesize ph) in *. set (hi := virtaddr ph + memsize ph) in *.
  destruct (Z.ltb_spec lo hi) as [Hlt|Hge].
  2:{ exists st. split; [reflexivity|]. apply zeroed_nil; [|exact Hsp]. intros v [H _]. lia. }
  destruct (zero_bss_ok root l hi (S (Z.to_nat ((hi - lo) / 4096 + 2))) lo st) as (st' & Hrun & Hz); auto.
  - lia.
  - apply Hbss. lia.
  - intros v Hv. apply Hm. lia.
  - pose proof (Z.div_mod (hi - 1) 4096 ltac:(lia)). pose proof (Z.mod_pos_bound (hi - 1) 4096 ltac:(lia)).
    pose proof (Z.div_mod lo 4096 ltac:(lia)). pose proof (Z.mod_pos_bound lo 4096 ltac:(lia)).
    pose proof (Z.div_mod (hi - lo) 4096 ltac:(lia)). pose proof (Z.mod_pos_bound (hi - lo) 4096 ltac:(lia)).
    lia.
  - exists st'. split; [exact Hrun|]. eapply zeroed_ext; [|exact Hz]. intros v. cbv beta. split; [|tauto].
    intros H. split; [lia|exact H].
Qed.

(** What the BSS loop writes is in the segment's pages, past the file's bytes. *)
Lemma zeroed_in_pages b ph v :
  seg_ok b ph -> ph_zeroed ph v -> ph_file_end ph <= v /\ va_path v ∈ (va_path <$> ph_pages ph).
Proof.
  intros [_ [Hfs Hms] [Hva Hlim] Hbss] [Hl Hv]. specialize (Hbss Hl).
  unfold bss_zeroed, bss_first, bss_fits, bss_len, ph_file_end, ph_hi, ph_lo in *.
  set (lo := virtaddr ph + filesize ph) in *. set (hi := virtaddr ph + memsize ph) in *.
  pose proof (Z.div_mod lo 4096 ltac:(lia)) as Hd. pose proof (Z.mod_pos_bound lo 4096 ltac:(lia)) as Hm.
  assert (lo <= v /\ v / 4096 * 4096 < hi) as [H1 H2].
  { pose proof (Z.div_mod v 4096 ltac:(lia)). pose proof (Z.mod_pos_bound v 4096 ltac:(lia)).
    destruct Hv as [Hv|Hv]; [|lia]. assert (v / 4096 = lo / 4096) as ->; [|lia].
    symmetry. apply (Z.div_unique_pos _ _ _ (v - 4096 * (lo / 4096))); lia. }
  split; [exact H1|]. apply list_elem_of_fmap. exists (v / 4096 * 4096). split.
  - apply va_path_page. now rewrite Z.div_mul by lia.
  - apply page_list_in. unfold ph_lo, ph_hi. exists (v / 4096 - virtaddr ph / 4096).
    pose proof (Z.div_le_mono (virtaddr ph) v 4096 ltac:(lia) ltac:(lia)). split; [lia|]. fold hi. lia.
Qed.

Lemma load_segment_ok st root l b ph :
  space_ok st root l -> Forall is_u8 b -> Z.of_nat (length b) < U64 -> seg_ok b ph ->
  Forall (fun va => ~ mapped st root va) (ph_pages ph) -> (3 * length (ph_pages ph) <= length l)%nat ->
  exists st' l', load_segment b ph root st = Done (ph_hi ph) st' /\ seg_loaded st root l b ph st' l'.
Proof.
  intros Hsp Hb Hlb Hok Hun Hlen. pose proof Hok as [[Ho Hof] [Hfs Hms] [Hva Hlim] Hbss].
  unfold ph_hi in Hlim. pose proof Hlim as Hlim'. unfold VA_LIMIT in Hlim.
  destruct (map_pages_ok st root l (ph_lo ph) (ph_hi ph)) as (st1 & l1 & Hrun1 & [M1 M2 M3 M4 M5 M6 M7]);
    [assumption|unfold ph_lo, ph_hi; lia|assumption|assumption|assumption|].
  assert (forall v, ph_lo ph <= v < ph_hi ph -> mapped st1 root v) as Hm1.
  { intros v Hv. apply M2. right. apply page_list_covers; [exact Hva|exact Hv]. }
  destruct (copy_segment_ok st1 root l1 b ph M1 Hb Hlb Hok Hm1) as (st2 & Hrun2 & [U1 U2 U3 U4 U5 U6]).
  destruct (zero_segment_ok st2 root l1 b ph U1 Hok) as (st3 & Hrun3 & [Z1 Z2 Z3 Z4 Z5 Z6 Z7]).
  { intros v Hv. unfold mapped. rewrite U3. now apply Hm1. }
  exists st3, l1. split.
  { unfold load_segment. rewrite !add64_small by (unfold U64 in *; lia).
    fold (ph_file_end ph) (ph_hi ph). change (virtaddr ph) with (ph_lo ph) at 1.
    rewrite (bind_run _ _ _ (FREE_FRAME_COUNT st) st) by reflexivity.
    rewrite (bind_run _ _ _ _ _ Hrun1). rewrite <- (add64_small (offset ph) (filesize ph)) by (unfold U64 in *; lia).
    rewrite (bind_run _ _ _ _ _ Hrun2), (bind_run _ _ _ _ _ Hrun3). reflexivity. }
  assert (Hfile : forall v, va_path v ∈ (va_path <$> ph_pages ph) -> ~ mapped st root v).
  { intros v (va & Hp & Hin)%list_elem_of_fmap Hc. rewrite Forall_forall in Hun.
    apply (Hun va Hin). unfold mapped in *. now rewrite <- Hp. }
  assert (Hz : forall v, ph_zeroed ph v -> ph_file_end ph <= v /\ va_path v ∈ (va_path <$> ph_pages ph))
    by (intros v Hv; now apply (zeroed_in_pages b)).
  set (src := take _ _) in *. assert (length src = Z.to_nat (filesize ph)) as Hsl
    by (unfold src; rewrite length_take, length_drop; lia).
  split; [exact Z1| | | | | |exact M6|].
  - intros v. rewrite <- M2. unfold mapped. now rewrite Z3, U3.
  - intros i Hi. rewrite Z5; [|unfold VA_LIMIT; lia|intros Hc%Hz; unfold ph_file_end in Hc; lia].
    rewrite U4 by (unfold VA_LIMIT; lia).
    rewrite decide_True by lia. unfold src. rewrite lookup_take_lt, lookup_drop by lia. f_equal. lia.
  - exact Z4.
  - intros v Hv Hm. rewrite Z5; [|exact Hv|intros Hc%Hz; now apply (Hfile v)].
    rewrite U4 by exact Hv. rewrite decide_False.
    2:{ intros Hc. apply (Hfile v); [|exact Hm]. apply page_list_covers; [exact Hva|unfold ph_lo, ph_hi; lia]. }
    pose proof (M3 v Hm) as Hw. unfold mapped in Hm.
    destruct (walk (ram st) root (va_path v)) as [pa|] eqn:Hpa; [|now contradiction Hm].
    rewrite (vread_some st1 _ _ pa), (vread_some st _ _ pa) by assumption. f_equal.
    apply (M4 v pa); [exact Hpa|]. pose proof (Z.mod_pos_bound v 4096 ltac:(lia)). unfold in_frame. lia.
  - apply (pt_step_trans _ _ _ _ _ _ _ _ M5). split; [|now rewrite Z2, U2].
    eapply changed_weaken; [eapply changed_trans; [exact U5|rewrite <- U2; exact Z6]|].
    intros d Hd. apply elem_of_app. now left.
  - eauto using same_regs_trans.
Qed.

(** ** The whole file *)

(** The program headers [load_segments] reads: up to the first that is not in
    the file. *)
Fixpoint phdrs (ixs : list Z) (b : bytes) (start : Z) : list Elf64ProgHdr :=
  match ixs with
  | [] => []
  | i :: ixs' =>
      let off := add64 start (mul64 i PH_SIZE) in
      if add64 off PH_SIZE >? Z.of_nat (length b) then []
      else read_proghdr (drop (Z.to_nat off) b) :: phdrs ixs' b start
  end.

Definition loads (b : bytes) (h : Elf64Hdr) : list Elf64ProgHdr :=
  filter (fun ph => p_type ph = PT_LOAD) (phdrs (seqZ 0 (phnum h)) b (phoff h)).

Definition all_pages (phs : list Elf64ProgHdr) : list Z := phs ≫= ph_pages.

(** [st'] is [st] with all the segments loaded. *)
Record image_loaded (st : pstate) (root : Z) (l : list Z) (b : bytes) (phs : list Elf64ProgHdr)
    (st' : pstate) (l' : list Z) : Prop := {
  im_space : space_ok st' root l';
  im_mapped : forall v, mapped st' root v <-> mapped st root v \/ va_path v ∈ (va_path <$> all_pages phs);
  im_file : forall ph i, ph ∈ phs -> 0 <= i < filesize ph ->
    vread st' root (virtaddr ph + i) = b !! Z.to_nat (offset ph + i);
  im_bss : forall ph v, ph ∈ phs -> 0 <= v < VA_LIMIT -> ph_zeroed ph v -> vread st' root v = Some 0;
  im_kept : forall v, 0 <= v < VA_LIMIT -> mapped st root v -> vread st' root v = vread st root v;
  im_step : pt_step 3 root (ram st) l (ram st') l';
  im_len : (length l <= 3 * length (all_pages phs) + length l')%nat;
  im_regs : same_regs st st';
}.

Lemma image_nil st root l b : space_ok st root l -> image_loaded st root l b [] st l.
Proof.
  intros H. split; [exact H| | | |auto|apply pt_step_refl|cbn; lia|apply same_regs_refl].
  - intros v. split; [auto|]. intros [Hm|Hm]; [exact Hm|inversion Hm].
  - intros ph i Hin. inversion Hin.
  - intros ph v Hin. inversion Hin.
Qed.

Lemma image_cons st root l b ph st1 l1 phs st2 l2 :
  seg_ok b ph -> seg_loaded st root l b ph st1 l1 -> image_loaded st1 root l1 b phs st2 l2 ->
  image_loaded st root l b (ph :: phs) st2 l2.
Proof.
  intros Hok [S1 S2 S3 S4 S5 S6 S7 S8] [I1 I2 I3 I4 I5 I6 I7 I8].
  pose proof Hok as [_ [Hfs Hms] [Hva Hlim] _]. unfold ph_hi in Hlim.
  assert (Hin : forall v, 0 <= v -> virtaddr ph <= v < virtaddr ph + memsize ph -> mapped st1 root v).
  { intros v _ Hv. apply S2. right. apply page_list_covers; [exact Hva|exact Hv]. }
  split; auto.
  - intros v. rewrite I2, S2. unfold all_pages. cbn [mbind list_bind]. rewrite fmap_app, elem_of_app. tauto.
  - intros q i [->|Hq]%elem_of_cons Hi; [|now apply I3].
    rewrite I5; [now apply S3|lia|apply Hin; lia].
  - intros q v [->|Hq]%elem_of_cons Hv Hz; [|now apply (I4 q)].
    rewrite I5; [now apply S4|exact Hv|]. apply S2. right. now apply (zeroed_in_pages b).
  - intros v Hv Hm. rewrite I5; [now apply S5|exact Hv|apply S2; now left].
  - now apply (pt_step_trans _ _ _ _ _ _ _ _ S6).
  - unfold all_pages in *. cbn [mbind list_bind]. rewrite length_app. lia.
  - eauto using same_regs_trans.
Qed.

Lemma all_pages_in ph phs v :
  ph ∈ phs -> va_path v ∈ (va_path <$> ph_pages ph) -> va_path v ∈ (va_path <$> all_pages phs).
Proof.
  intros Hph (w & E & Hw)%list_elem_of_fmap. apply list_elem_of_fmap. exists w. split; [exact E|].
  apply list_elem_of_bind. eauto.
Qed.

(** The address after the last byte of the segments. *)
Definition top_of (phs : list Elf64ProgHdr) (m : Z) : Z :=
  fold_left (fun m ph => if ph_hi ph >? m then ph_hi ph else m) phs m.

Lemma load_segments_ok b start root ixs : forall st l loaded m,
  let phs := filter (fun ph => p_type ph = PT_LOAD) (phdrs ixs b start) in
  space_ok st root l -> Forall is_u8 b -> Z.of_nat (length b) < U64 -> Forall (seg_ok b) phs ->
  Forall (fun va => ~ mapped st root va) (all_pages phs) -> pages_nodup (all_pages phs) ->
  (3 * length (all_pages phs) <= length l)%nat ->
  exists st' l', load_segments ixs b start root loaded m st
                 = Done (loaded || bool_decide (phs <> []), top_of phs m) st'
    /\ image_loaded st root l b phs st' l'.
Proof.
  induction ixs as [|i ixs IH]; intros st l loaded m phs Hsp Hb Hlb Hok Hun Hnd Hlen; subst phs;
    cbn [load_segments phdrs] in *.
  { exists st, l. split; [now rewrite orb_false_r|now apply image_nil]. }
  set (off := add64 start (mul64 i PH_SIZE)) in *.
  destruct (add64 off PH_SIZE >? Z.of_nat (length b)).
  { exists st, l. split; [now rewrite orb_false_r|now apply image_nil]. }
  set (ph := read_proghdr (drop (Z.to_nat off) b)) in *.
  destruct (Z.eqb_spec (p_type ph) PT_LOAD) as [Ht|Ht].
  2:{ rewrite filter_cons_False in * by exact Ht. now apply IH. }
  rewrite filter_cons_True in * by exact Ht. set (phs := filter _ _) in *.
  apply Forall_cons in Hok as [Hph Hok]. unfold all_pages in Hun, Hnd, Hlen. cbn [mbind list_bind] in Hun, Hnd, Hlen.
  fold (all_pages phs) in *. rewrite length_app in Hlen. apply Forall_app in Hun as [Hu1 Hu2].
  unfold pages_nodup in Hnd. rewrite fmap_app in Hnd. apply NoDup_app in Hnd as (_ & Hdis & Hnd).
  destruct (load_segment_ok st root l b ph) as (st1 & l1 & Hrun & Hl); auto; [lia|].
  rewrite (bind_run _ _ _ _ _ Hrun).
  destruct (IH st1 l1 true (if ph_hi ph >? m then ph_hi ph else m)) as (st2 & l2 & Hrun2 & Him); auto.
  - apply Hl.
  - rewrite Forall_forall in *. intros va Hva Hc. apply (sl_mapped _ _ _ _ _ _ _ Hl) in Hc as [Hc|Hc].
    + now apply (Hu2 va).
    + apply (Hdis (va_path va) Hc). now apply list_elem_of_fmap_2.
  - pose proof (sl_len _ _ _ _ _ _ _ Hl). fold phs. lia.
  - exists st2, l2. fold phs in Hrun2, Him. split.
    + rewrite Hrun2. rewrite (bool_decide_true (ph :: phs <> [])) by done. now rewrite orb_true_r.
    + now apply (image_cons st root l b ph st1 l1).
Qed.

(** A frame off the free list holds the list's node and zeroes: read as a table
    it has no valid entry. *)
Lemma clean_entries st p l i :
  free_frames st (p :: l) -> index_ok i -> entry_valid (table_entry (ram st) p i) = false.
Proof.
  intros [_ Hf _ _ _ Hcl] Hi. apply Forall_cons in Hf as [Hp _]. apply Forall_cons in Hcl as [[Hz Ht Hk] _].
  rewrite table_entry_frame by assumption. unfold entry_valid. apply Z.eqb_neq.
  unfold index_ok, PAGE_ENTRIES, PAGE_SIZE in Hi. change (4096 / 8) with 512 in Hi.
  destruct (Z.eq_dec i 0) as [->|H0].
  { match goal with |- context [read64 _ ?a] => replace a with p by lia end. exact Ht. }
  destruct (Z.eq_dec i 1) as [->|H1].
  { match goal with |- context [read64 _ ?a] => replace a with (p + 8) by lia end. exact Hk. }
  unfold read64. rewrite !Hz by lia. discriminate.
Qed.

Lemma clean_root st p l :
  free_frames st (p :: l) ->
  exists st1, get_free_frame_pa st = Done (Some p) st1 /\ same_regs st st1 /\ ram st1 = ram st /\
    space_ok st1 p l /\ owned 3 (ram st) p = [p] /\ forall va, ~ mapped st1 p va.
Proof.
  intros Hst. pose proof Hst as [_ Hf Hn _ _ _].
  apply Forall_cons in Hf as [Hp Hf]. apply NoDup_cons in Hn as [Hnot Hn].
  destruct (get_free_frame_pop st p l Hst) as (st1 & Hrun & Hst1 & Hram & Hr1 & Hr2).
  assert (owned 3 (ram st) p = [p]) as Ho.
  { rewrite owned_S. rewrite list_bind_nil; [reflexivity|]. intros i Hi%elem_of_index.
    unfold child_owned. now rewrite (clean_entries st p l i Hst Hi). }
  exists st1. split; [exact Hrun|]. split; [split; assumption|]. split; [exact Hram|].
  split; [|split; [exact Ho|]].
  - split; [exact Hst1|]. rewrite Hram. split; rewrite Ho; cbn [app]; now constructor.
  - intros va Hm. apply Hm. unfold va_path. rewrite Hram. simpl.
    now rewrite (clean_entries st p l _ Hst (l1_index_ok va)).
Qed.

Definition stack_pages_of (stack_top : Z) : list Z := (fun i => stack_top - i * 4096 - 1) <$> seqZ 0 14.

(** A file [load_elf] accepts. *)
Record elf_ok (b : bytes) (h : Elf64Hdr) : Prop := {
  el_bytes : Forall is_u8 b;
  el_len : Z.of_nat (length b) < U64;
  el_hdr : mkfrombytes b = Some h;
  el_some : loads b h <> [];
  el_segs : Forall (seg_ok b) (loads b h);
  el_pages : pages_nodup (all_pages (loads b h));
  el_top : top_of (loads b h) 0 + 0x16000 <= VA_LIMIT;
}.

Definition elf_stack_top (b : bytes) (h : Elf64Hdr) : Z :=
  let x := top_of (loads b h) 0 + 0x16000 in x - x mod 16.

(** The space [root] holds the program: its segments, the rest of its pages
    as the loader leaves them, and fourteen pages of stack. *)
Record elf_loaded (b : bytes) (h : Elf64Hdr) (root : Z) (st' : pstate) : Prop := {
  eo_mapped : forall v, mapped st' root v <->
    va_path v ∈ (va_path <$> all_pages (loads b h) ++ stack_pages_of (elf_stack_top b h));
  eo_file : forall ph i, ph ∈ loads b h -> 0 <= i < filesize ph ->
    vread st' root (virtaddr ph + i) = b !! Z.to_nat (offset ph + i);
  eo_bss : forall ph v, ph ∈ loads b h -> 0 <= v < VA_LIMIT -> ph_zeroed ph v ->
    vread st' root v = Some 0;
}.

Lemma top_of_ge phs : forall m, m <= top_of phs m /\ forall ph, ph ∈ phs -> ph_hi ph <= top_of phs m.
Proof.
  unfold top_of. induction phs as [|p phs IH]; intros m; cbn [fold_left].
  - split; [lia|]. intros ph Hin. inversion Hin.
  - destruct (IH (if ph_hi p >? m then ph_hi p else m)) as [H1 H2]. rewrite Z.gtb_ltb in *.
    destruct (Z.ltb_spec m (ph_hi p)); (split; [lia|]); intros ph [->|Hin]%elem_of_cons; auto; lia.
Qed.

(** The stack's pages are apart from each other and above the segments. *)
Lemma stack_pages_above top T :
  0 <= top -> top + 0x16000 <= VA_LIMIT -> T = top + 0x16000 - (top + 0x16000) mod 16 ->
  pages_nodup (stack_pages_of T) /\
  forall va, va ∈ stack_pages_of T -> 0 <= va < VA_LIMIT /\ top / 4096 + 1 < va / 4096.
Proof.
  intros Htop Hlim ->. pose proof (Z.mod_pos_bound (top + 0x16000) 16 ltac:(lia)) as Hm.
  set (T := top + 0x16000 - (top + 0x16000) mod 16) in *. unfold VA_LIMIT in *.
  assert (Hb : forall va, va ∈ stack_pages_of T -> 0 <= va < 2 ^ 39 /\ top / 4096 + 1 < va / 4096).
  { intros va (i & -> & Hi)%list_elem_of_fmap. apply elem_of_seqZ in Hi. split; [lia|].
    pose proof (Z.div_mod top 4096 ltac:(lia)). pose proof (Z.mod_pos_bound top 4096 ltac:(lia)).
    apply Z.lt_le_trans with (top / 4096 + 2); [lia|]. apply Z.div_le_lower_bound; lia. }
  split; [|exact Hb]. unfold pages_nodup. apply NoDup_fmap_2_strong.
  - intros x y Hx Hy Hxy. destruct (Hb x Hx) as [Hx1 _], (Hb y Hy) as [Hy1 _].
    apply va_path_inj in Hxy; [|exact Hx1|exact Hy1].
    apply list_elem_of_fmap in Hx as (i & -> & Hi), Hy as (j & -> & Hj).
    replace (T - i * 4096 - 1) with (T - 1 + (- i) * 4096) in Hxy by lia.
    replace (T - j * 4096 - 1) with (T - 1 + (- j) * 4096) in Hxy by lia.
    rewrite !Z.div_add in Hxy by lia. f_equal. lia.
  - apply NoDup_fmap_2_strong; [|apply NoDup_seqZ]. intros x y _ _ H. lia.
Qed.

Lemma for_in_fmap {S A B} (h : A -> B) (l : list A) (f : B -> M S unit) s :
  for_in (h <$> l) f s = for_in l (fun x => f (h x)) s.
Proof.
  revert s. induction l as [|x l IH]; intros s; [reflexivity|]. cbn [fmap list_fmap for_in].
  unfold bind. destruct (f (h x) s); auto.
Qed.

(** The loop that maps the stack. *)
Lemma map_stack_ok st root l T :
  space_ok st root l -> 0x10000 <= T < U64 -> pages_nodup (stack_pages_of T) ->
  Forall (fun va => ~ mapped st root va) (stack_pages_of T) -> (42 <= length l)%nat ->
  exists st' l', for_in (seqZ 0 14) (fun i =>
      alloc_page (sub64 (sub64 T (i * 4096)) 1) (Some root) ;; skip) st = Done tt st'
    /\ mapped_more st root l (stack_pages_of T) st' l'.
Proof.
  intros Hsp HT Hnd Hun Hlen.
  destruct (alloc_pages_ok root (stack_pages_of T) st l) as (st' & l' & Hrun & Hm); auto.
  exists st', l'. split; [|exact Hm]. rewrite <- Hrun. unfold stack_pages_of. rewrite for_in_fmap.
  assert (forall i, i ∈ seqZ 0 14 -> sub64 (sub64 T (i * 4096)) 1 = T - i * 4096 - 1) as E.
  { intros i Hi%elem_of_seqZ. rewrite (sub64_small T) by lia. rewrite sub64_small by lia. reflexivity. }
  clear -E. revert st E. generalize (seqZ 0 14). intros ixs. induction ixs as [|i ixs IH]; intros st E; [reflexivity|].
  cbn [for_in]. rewrite E by left. unfold bind. destruct (alloc_page _ _ st); auto.
  cbn. apply IH. intros j Hj. apply E. now right.
Qed.

Lemma pages_below phs m va :
  Forall (fun ph => 0 <= virtaddr ph) phs -> va ∈ all_pages phs -> va / 4096 <= top_of phs m / 4096.
Proof.
  intros HF Hva. unfold all_pages in Hva. apply list_elem_of_bind in Hva as (ph & Hva & Hph).
  apply page_list_in in Hva as (i & Hi & _ & Hlt).
  pose proof (proj2 (top_of_ge phs m) ph Hph). apply Z.div_le_mono; lia.
Qed.

Lemma stack_pages_fresh b phs va :
  Forall (seg_ok b) phs -> top_of phs 0 + 0x16000 <= VA_LIMIT ->
  let top := top_of phs 0 in
  va ∈ stack_pages_of (top + 0x16000 - (top + 0x16000) mod 16) ->
  va_path va ∉ (va_path <$> all_pages phs).
Proof.
  intros Hsegs Htop top Hin (w & Hw & Hwin)%list_elem_of_fmap.
  pose proof (proj1 (top_of_ge phs 0)) as Ht0.
  destruct (stack_pages_above top _ Ht0 Htop eq_refl) as [_ Hab]. destruct (Hab va Hin) as [Hr Hgt].
  assert (Forall (fun ph => 0 <= virtaddr ph) phs) as Hva.
  { eapply Forall_impl; [exact Hsegs|]. intros ph [_ _ [H _] _]. exact H. }
  pose proof (pages_below phs 0 w Hva Hwin) as Hle. fold top in Hle.
  apply va_path_inj in Hw; [lia|exact Hr|].
  unfold all_pages in Hwin. apply list_elem_of_bind in Hwin as (ph & Hwin & Hph).
  rewrite Forall_forall in Hsegs. destruct (Hsegs ph Hph) as [_ _ [H0 H1] _].
  apply page_list_in in Hwin as (i & Hi & -> & Hlt). unfold ph_lo in *. unfold VA_LIMIT in *.
  pose proof (Z.div_pos (virtaddr ph) 4096 H0 ltac:(lia)). lia.
Qed.

(** Mapping the stack leaves the image as it is. *)
Lemma image_with_stack st1 p l b h st2 l2 st3 l3 :
  (forall va, ~ mapped st1 p va) -> Forall (seg_ok b) (loads b h) ->
  image_loaded st1 p l b (loads b h) st2 l2 ->
  mapped_more st2 p l2 (stack_pages_of (elf_stack_top b h)) st3 l3 -> elf_loaded b h p st3.
Proof.
  intros Hun Hsegs [I1 I2 I3 I4 I5 I6 I7 I8] [M1 M2 M3 M4 M5 M6 M7]. rewrite Forall_forall in Hsegs.
  assert (Hr3 : forall v, 0 <= v < VA_LIMIT -> mapped st2 p v -> vread st3 p v = vread st2 p v).
  { intros v Hv Hm. pose proof (M3 v Hm) as Hw. unfold mapped in Hm.
    destruct (walk (ram st2) p (va_path v)) as [pa|] eqn:E; [|now contradiction Hm].
    rewrite (vread_some st3 _ _ pa), (vread_some st2 _ _ pa) by assumption. f_equal.
    apply (M4 v pa); [exact E|]. pose proof (Z.mod_pos_bound v 4096 ltac:(lia)). unfold in_frame. lia. }
  split.
  - intros v. rewrite M2, I2, fmap_app, elem_of_app. split; [|tauto].
    intros [[Hc|Hc]|Hc]; auto. now apply Hun in Hc.
  - intros ph i Hph Hi. destruct (Hsegs ph Hph) as [_ [H2 _] [H0 H1] _]. unfold ph_hi in H1.
    rewrite Hr3; [now apply I3|lia|]. apply I2. right. apply (all_pages_in ph); [exact Hph|].
    apply page_list_covers; [exact H0|unfold ph_lo, ph_hi; lia].
  - intros ph v Hph Hv Hz. rewrite Hr3; [now apply (I4 ph)|exact Hv|]. apply I2. right.
    apply (all_pages_in ph); [exact Hph|]. apply (zeroed_in_pages b ph v (Hsegs ph Hph) Hz).
Qed.

(** The outcome of [load_elf]: the root is the first free frame. *)
Record elf_done (st : pstate) (p : Z) (l : list Z) (b : bytes) (h : Elf64Hdr) (st' : pstate) (l' : list Z)
  : Prop := {
  ed_space : space_ok st' p l';
  ed_loaded : elf_loaded b h p st';
  ed_changed : changed (ram st) (ram st') (p :: l);
  ed_frames : owned 3 (ram st') p ++ l' ≡ₚ p :: l;
  ed_regs : same_regs st st';
  ed_len : (length l <= 3 * (length (all_pages (loads b h)) + 14) + length l')%nat;
}.

Lemma load_elf_ok st p l b h :
  free_frames st (p :: l) -> elf_ok b h ->
  (3 * (length (all_pages (loads b h)) + 14) <= length l)%nat ->
  exists st' l', load_elf b st = Done (ROk (entry h, elf_stack_top b h, p)) st'
    /\ elf_done st p l b h st' l'.
Proof.
  intros Hst [Hb Hlb Hh Hsome Hsegs Hnd Htop] Hlen.
  destruct (clean_root st p l Hst) as (st1 & Hrun1 & Hr1 & Hram & Hsp1 & Ho & Hun1).
  destruct (load_segments_ok b (phoff h) p (seqZ 0 (phnum h)) st1 l false 0) as (st2 & l2 & Hrun2 & Him);
    auto; [now apply Forall_true|fold (loads b h); lia|]. fold (loads b h) in Hrun2, Him.
  pose proof (proj1 (top_of_ge (loads b h) 0)) as Ht0. set (top := top_of (loads b h) 0) in *.
  assert (elf_stack_top b h = top + 0x16000 - (top + 0x16000) mod 16) as ET by reflexivity.
  pose proof (Z.mod_pos_bound (top + 0x16000) 16 ltac:(lia)) as Hm16. unfold VA_LIMIT in Htop.
  destruct (stack_pages_above top _ Ht0 Htop ET) as [Hsnd _].
  destruct (map_stack_ok st2 p l2 (elf_stack_top b h) (im_space _ _ _ _ _ _ _ Him)) as (st3 & l3 & Hrun3 & Hmm);
    [unfold U64; lia|exact Hsnd| |pose proof (im_len _ _ _ _ _ _ _ Him); lia|].
  { apply Forall_forall. intros va Hin Hc. apply (im_mapped _ _ _ _ _ _ _ Him) in Hc as [Hc|Hc];
      [now apply (Hun1 va)|]. now apply (stack_pages_fresh b (loads b h) va Hsegs Htop Hin). }
  exists st3, l3. pose proof (pt_step_trans _ _ _ _ _ _ _ _ (im_step _ _ _ _ _ _ _ Him) (mm_step _ _ _ _ _ _ Hmm))
    as [Hch Hp]. rewrite Hram, Ho in Hch, Hp. split.
  - unfold load_elf. rewrite Hh, (bind_run _ _ _ _ _ Hrun1). cbn [expect].
    rewrite (bind_run _ _ _ p st1) by reflexivity. rewrite (bind_run _ _ _ _ _ Hrun2).
    rewrite bool_decide_true by exact Hsome. cbn [orb negb].
    assert (Z.land (add64 top 0x16000) (not64 0xF) = elf_stack_top b h) as ->.
    { rewrite add64_small by (unfold U64; lia). unfold not64, U64_MAX.
      change (2 ^ 64 - 1 - 0xF) with (2 ^ 64 - 2 ^ 4). rewrite land_mask_high by lia. now rewrite ET. }
    rewrite (bind_run _ _ _ _ _ Hrun3). reflexivity.
  - split; [apply Hmm|now apply (image_with_stack st1 p l b h st2 l2 st3 l3)|exact Hch|exact Hp| |].
    + pose proof (im_regs _ _ _ _ _ _ _ Him). pose proof (mm_regs _ _ _ _ _ _ Hmm). eauto using same_regs_trans.
    + pose proof (im_len _ _ _ _ _ _ _ Him) as H1. pose proof (mm_len _ _ _ _ _ _ Hmm) as H2.
      change (length (stack_pages_of (elf_stack_top b h))) with 14%nat in H2. lia.
Qed.

(** ** Properties *)

(** Loading a segment whose pages are not mapped yet: it succeeds, maps
    exactly the segment's pages, the process reads the file's bytes at their
    addresses and zeroes where the BSS loop writes, and what was mapped before
    reads as it did. *)
Theorem load_segment_spec st root l b ph :
  space_ok st root l -> Forall is_u8 b -> Z.of_nat (length b) < U64 -> seg_ok b ph ->
  Forall (fun va => ~ mapped st root va) (ph_pages ph) -> (3 * length (ph_pages ph) <= length l)%nat ->
  exists st' l', load_segment b ph root st = Done (ph_hi ph) st' /\ seg_loaded st root l b ph st' l'.
Proof. apply load_segment_ok. Qed.

(** C34. [load_elf] on a well-formed file with frames enough: it returns the
    entry point and a stack top 0x16000 above the highest segment, 16-byte
    aligned (the README has the stack at the end of the user's half); the new space, rooted at
    the first free frame, has exactly the segments' pages and fourteen stack
    pages; it holds the file's bytes; and every frame it took came off the
    free list, the rest of memory being unchanged. *)
Theorem load_elf_spec st p l b h :
  free_frames st (p :: l) -> elf_ok b h ->
  (3 * (length (all_pages (loads b h)) + 14) <= length l)%nat ->
  exists st' l', load_elf b st = Done (ROk (entry h, elf_stack_top b h, p)) st'
    /\ elf_done st p l b h st' l'.
Proof. apply load_elf_ok. Qed.

(** C37. The BSS loop leaves its page.  When the BSS starts at offset [o] of a
    page and reaches the end of it, the loop zeroes the page from twice [o]
    on, and [o] bytes of the next physical frame, whoever owns it. *)
Theorem bss_overruns st root l lo pa :
  space_ok st root l -> walk (ram st) root (va_path lo) = Some pa -> 0 <= lo < VA_LIMIT - 4096 ->
  0 < lo mod 4096 ->
  exists st', zero_bss 2 lo ((lo / 4096 + 1) * 4096) root st = Done tt st'
    /\ (forall x, pa + 4096 <= x < pa + 4096 + lo mod 4096 -> pa + 2 * (lo mod 4096) <= x -> ram st' x = 0)
    /\ (forall x, ~ (pa + 2 * (lo mod 4096) <= x < pa + 4096 + lo mod 4096) -> ram st' x = ram st x).
Proof.
  intros Hsp Hw Hlo Ho. unfold VA_LIMIT in Hlo. set (hi := (lo / 4096 + 1) * 4096).
  pose proof (Z.mod_pos_bound lo 4096 ltac:(lia)) as Hm. pose proof (Z.div_mod lo 4096 ltac:(lia)) as Hd.
  assert (frame_pa pa) as [Hp _].
  { destruct Hsp as [_ [Hf _]]. rewrite Forall_forall in Hf. apply Hf, elem_of_app. left.
    eapply walk_owned; [|apply va_path_ok|exact Hw]. simpl. lia. }
  rewrite (zero_bss_round 1 lo hi root st pa Hw Hp) by (unfold hi, VA_LIMIT; lia).
  assert (lo + bss_len lo hi = hi) as -> by (unfold bss_len, hi; lia).
  cbn [zero_bss]. rewrite Z.ltb_irrefl. eexists. split; [reflexivity|]. cbn [ram set_ram].
  assert (bss_len lo hi = 4096 - lo mod 4096) as -> by (unfold bss_len, hi; lia).
  split; intros x Hx; [intros Hx2; apply write_zero_in; lia|apply write_zero_out; lia].
Qed.

(** ** Witnesses *)

(** A segment of five bytes of the file and a BSS of twenty-seven. *)
Definition demo_ph : Elf64ProgHdr := mk_Elf64ProgHdr PT_LOAD 5 2 0x400000 0x400000 5 32 4096.
Definition demo_file : bytes := str "..hello..".

Lemma demo_seg_ok : seg_ok demo_file demo_ph.
Proof.
  split; [cbn; lia|cbn; lia|unfold ph_hi, VA_LIMIT; cbn; lia|].
  intros _. unfold bss_fits, bss_len, ph_file_end, ph_hi. vm_compute. discriminate.
Qed.

Lemma load_segment_spec_witness :
  exists st' l', load_segment demo_file demo_ph demo_root demo_space = Done 0x400020 st' /\
    seg_loaded demo_space demo_root demo_free demo_file demo_ph st' l'.
Proof.
  assert (Forall is_u8 demo_file) as Hb by (apply (bool_decide_unpack _); vm_compute; exact I).
  assert (ph_pages demo_ph = [0x400000]) as Hp by (vm_compute; reflexivity).
  assert (walk (ram demo_space) demo_root (va_path 0x400000) = None) as Hw by (vm_compute; reflexivity).
  apply (load_segment_spec demo_space demo_root demo_free demo_file demo_ph demo_space_ok Hb);
    [vm_compute; reflexivity|exact demo_seg_ok| |].
  - rewrite Hp. apply Forall_singleton. intros Hm. exact (Hm Hw).
  - rewrite Hp. vm_compute. lia.
Defined.

(** A program: a header, one program header, and seven bytes. *)
Definition demo_elf_hdr : Elf64Hdr :=
  mk_Elf64Hdr ELF_MAGIC (replicate 12 2) 2 183 1 0x400000 64 0 0 64 56 1 64 0 0.
Definition ph_bytes (ph : Elf64ProgHdr) : bytes :=
  le_split 4 (p_type ph) ++ le_split 4 (p_flags ph) ++ le_split 8 (offset ph) ++ le_split 8 (virtaddr ph) ++
  le_split 8 (phyaddr ph) ++ le_split 8 (filesize ph) ++ le_split 8 (memsize ph) ++ le_split 8 (align ph).
Definition demo_elf_ph : Elf64ProgHdr := mk_Elf64ProgHdr PT_LOAD 5 120 0x400000 0x400000 7 32 4096.
Definition demo_elf : bytes := hdr_bytes demo_elf_hdr ++ ph_bytes demo_elf_ph ++ str "program".

Lemma demo_elf_loads : loads demo_elf demo_elf_hdr = [demo_elf_ph].
Proof. vm_compute. reflexivity. Qed.

Lemma demo_elf_ok : elf_ok demo_elf demo_elf_hdr.
Proof.
  split; rewrite ?demo_elf_loads.
  - apply (bool_decide_unpack _). vm_compute. exact I.
  - vm_compute. reflexivity.
  - vm_compute. reflexivity.
  - discriminate.
  - apply Forall_singleton. split; [cbn; lia|cbn; lia|unfold ph_hi, VA_LIMIT; cbn; lia|].
    intros _. unfold bss_fits, bss_len, ph_file_end, ph_hi. vm_compute. discriminate.
  - assert (all_pages [demo_elf_ph] = [0x400000]) as -> by (vm_compute; reflexivity).
    apply NoDup_singleton.
  - vm_compute. discriminate.
Qed.

Lemma load_elf_spec_witness :
  exists st' l', load_elf demo_elf boot_frames
                 = Done (ROk (0x400000, elf_stack_top demo_elf demo_elf_hdr, 0x40000)) st'
    /\ elf_done boot_frames 0x40000 (drop 1 boot_frame_list) demo_elf demo_elf_hdr st' l'.
Proof.
  assert (boot_frame_list = 0x40000 :: drop 1 boot_frame_list) as E by (vm_compute; reflexivity).
  apply (load_elf_spec boot_frames 0x40000 (drop 1 boot_frame_list) demo_elf demo_elf_hdr).
  - rewrite <- E. exact boot_frames_ok.
  - exact demo_elf_ok.
  - rewrite demo_elf_loads. vm_compute. lia.
Defined.
(** A segment of nine file bytes in a page, with a BSS of seven. *)
Definition demo_bss_ph : Elf64ProgHdr := mk_Elf64ProgHdr PT_LOAD 6 0 0x400000 0x400000 9 16 4096.

(** The loop that zeroes the BSS adds the offset in the page to an address
    that has it already: here the seven BSS bytes after the nine file bytes
    keep what the frame held, a part of the free list's link, and the zeroes
    go to the bytes from the eighteenth on. *)
Theorem load_segment_bss_not_zeroed :
  exists st', load_segment demo_file demo_bss_ph demo_root demo_space = Done 0x400010 st' /\
    (fun i => vread st' demo_root (0x400009 + i)) <$> seqZ 0 7 =
    Some <$> [192; 3; 0; 128; 255; 255; 255].
Proof.
  assert (match load_segment demo_file demo_bss_ph demo_root demo_space with
          | Done a st' => (a, (fun i => vread st' demo_root (0x400009 + i)) <$> seqZ 0 7)
          | _ => (0, [])
          end = (0x400010, Some <$> [192; 3; 0; 128; 255; 255; 255])) as H
    by (vm_compute; reflexivity).
  destruct (load_segment demo_file demo_bss_ph demo_root demo_space) as [a st'|e|w|];
    apply pair_eq in H as [Ha Hl]; [|discriminate|discriminate|discriminate].
  subst a. exists st'. split; [reflexivity|exact Hl].
Qed.

(** A page mapped at 0x400000 lies in the frame 0x3d000; the frame after it is
    the second level table of this very space. *)
Lemma bss_overruns_witness :
  exists st', zero_bss 2 0x400F00 0x401000 demo_root demo_mapped = Done tt st'
    /\ (forall x, 0x3d000 + 4096 <= x < 0x3d000 + 4096 + 0xF00 -> 0x3d000 + 2 * 0xF00 <= x -> ram st' x = 0)
    /\ (forall x, ~ (0x3d000 + 2 * 0xF00 <= x < 0x3d000 + 4096 + 0xF00) -> ram st' x = ram demo_mapped x).
Proof.
  destruct demo_mapped_ok as [l Hl].
  apply (bss_overruns demo_mapped demo_root l 0x400F00 0x3d000 Hl);
    [vm_compute; reflexivity|unfold VA_LIMIT; lia|vm_compute; reflexivity].
Defined.
