(* ===== verification/Args.v ===== *)
(** Program arguments: the image [push_args_to_stack] of
    src/src/kernel/processes.rs builds on the user stack, and the [parse_args!]
    macro of src/src/user/src/lib.rs that reads it back in the new program.

    Arguments are the bytes of the source's [&str]s.  The kernel is built in
    release mode and its arithmetic wraps; the user library is built in debug
    mode, where [None] stands for the panic of an overflow, of [expect] or of a
    slice index, and for a fault on an unmapped address. *)

From Stdlib Require Import ZArith Lia.
From stdpp Require Import base strings numbers list.
From S2P Require Import Prelude Memory Frames PageTable PageFree PagingSpec UserMem.

Local Open Scope Z_scope.

(** ** The kernel's side *)

Definition STACK_BUF_SIZE : Z := 4096.
Definition MAX_ARGS : nat := 64.

(** The first loop: each argument goes below the ones before it. *)
Fixpoint place_args (args : list bytes) (image : bytes) (sp : Z) (arg_starts : list Z)
  : result (bytes * Z * list Z) :=
  match args with
  | [] => ROk (image, sp, arg_starts)
  | arg :: args' =>
      let len := Z.of_nat (length arg) in
      if sp <? len then RErr "arguments exceed stack" else
      let sp' := sp - len in
      place_args args' (splice image (Z.to_nat sp') arg) sp' (arg_starts ++ [sp'])
  end.

(** The second loop: the offsets from the final [sp]. *)
Fixpoint write_offsets (arg_starts : list Z) (i : nat) (sp : Z) (image : bytes) : bytes :=
  match arg_starts with
  | [] => image
  | arg_start :: arg_starts' =>
      let offset := sub64 arg_start sp in
      let dst := sp + Z.of_nat i * 8 in
      write_offsets arg_starts' (S i) sp (splice image (Z.to_nat dst) (le_split 8 offset))
  end.

(** The image and the final [sp] within it. *)
Definition args_image (args : list bytes) : result (bytes * Z) :=
  if (MAX_ARGS <? length args)%nat then RErr "too many arguments" else
  match place_args args (replicate 4096 0) STACK_BUF_SIZE [] with
  | RErr e => RErr e
  | ROk (image, sp, arg_starts) =>
      let sp := Z.land sp (not64 0xF) in
      if sp <? Z.of_nat (length args) * 8 + 8 then RErr "arguments exceed stack" else
      let sp := sp - Z.of_nat (length args) * 8 in
      let sp := Z.land sp (not64 0xF) in
      ROk (write_offsets arg_starts 0 sp image, sp)
  end.

(** [push_args_to_stack]: the stack pointer and the table are the process's
    [pctx.sp_el0] and [pctx.ttbr0]; the second component of the result is the
    new [pctx.sp_el0]. *)
Definition push_args_to_stack (sp_el0 ttbr0 : Z) (args : list bytes)
  : M pstate (result (Z * Z * Z)) :=
  match args_image args with
  | RErr e => ret (RErr e)
  | ROk (image, sp) =>
      let stack_top := sp_el0 in
      let new_sp := sub64 stack_top (STACK_BUF_SIZE - sp) in
      let? _ := copy_to_pages (drop (Z.to_nat sp) image) new_sp (Some ttbr0) in
      ret (ROk (Z.of_nat (length args), new_sp, stack_top))
  end.

(** ** The user's side *)

(** [core::slice::from_raw_parts(a, n)] in the address space [umem]. *)
Definition uread (umem : Z -> option Z) (a n : Z) : option bytes :=
  mapM umem (seqZ a n).

Definition checked_sub64 (a b : Z) : option Z := if b <=? a then Some (a - b) else None.

Definition parse_arg (umem : Z -> option Z) (final_sp stack_top : Z) (offsets : list Z)
    (i : Z) : option bytes :=
  o ← offsets !! Z.to_nat i;
  start ← checked_add64 final_sp o;
  len ← (if i =? 0 then checked_sub64 stack_top start
         else prev ← offsets !! Z.to_nat (i - 1); checked_sub64 prev o);
  s ← uread umem start len;
  if utf8_valid s then Some s else None.

Definition parse_args (umem : Z -> option Z) (argc final_sp stack_top : Z)
  : option (list bytes) :=
  if argc >? Z.of_nat MAX_ARGS then None else
  offsets ← mapM (fun i => le_combine <$> uread umem (final_sp + 8 * i) 8) (seqZ 0 argc);
  mapM (parse_arg umem final_sp stack_top offsets) (seqZ 0 argc).

(** ** The image in closed form *)

Definition args_size (args : list bytes) : Z := Z.of_nat (length (List.concat args)).

(** The offset-in-image of every argument when [top] is free below. *)
Fixpoint arg_starts_from (top : Z) (args : list bytes) : list Z :=
  match args with
  | [] => []
  | a :: args' => let s := top - Z.of_nat (length a) in s :: arg_starts_from s args'
  end.

Definition sp_aligned (args : list bytes) : Z := (4096 - args_size args) / 16 * 16.
Definition final_sp_of (args : list bytes) : Z :=
  (sp_aligned args - 8 * Z.of_nat (length args)) / 16 * 16.

(** When the arguments fit: two alignments, and a word per argument. *)
Definition args_fit (args : list bytes) : Prop :=
  (length args <= MAX_ARGS)%nat /\ args_size args <= 4096 /\
  8 * Z.of_nat (length args) + 8 <= sp_aligned args.
#[global] Instance args_fit_dec args : Decision (args_fit args).
Proof. unfold args_fit. apply _. Defined.

(** What ends up on the stack, from the final [sp] to the old one. *)
Definition args_payload (args : list bytes) : bytes :=
  let sp := final_sp_of args in
  List.concat ((fun s => le_split 8 (s - sp)) <$> arg_starts_from 4096 args)
  ++ replicate (Z.to_nat (4096 - args_size args - sp - 8 * Z.of_nat (length args))) 0
  ++ List.concat (reverse args).

Lemma args_size_cons a args : args_size (a :: args) = Z.of_nat (length a) + args_size args.
Proof. unfold args_size. simpl. rewrite length_app. lia. Qed.

Lemma align_down n z : 0 <= z < U64 -> n = 4 -> Z.land z (not64 0xF) = z / 2 ^ n * 2 ^ n.
Proof.
  intros Hz ->. unfold not64, U64_MAX. change (2 ^ 64 - 1 - 15) with (2 ^ 64 - 2 ^ 4).
  rewrite land_mask_high by (unfold U64 in Hz; lia).
  pose proof (Z.div_mod z (2 ^ 4) ltac:(lia)). lia.
Qed.

Lemma splice_zeros (n m : nat) bs rest :
  (m = n - length bs)%nat -> (length bs <= n)%nat ->
  splice (replicate n 0 ++ rest) m bs = replicate m 0 ++ bs ++ rest.
Proof.
  intros -> Hl. unfold splice.
  rewrite take_app_le by (rewrite length_replicate; lia).
  rewrite take_replicate. rewrite drop_app_ge by (rewrite length_replicate; lia).
  rewrite length_replicate. replace (n - length bs + length bs - n)%nat with O by lia.
  rewrite drop_0. do 2 f_equal. lia.
Qed.

Lemma length_reverse_concat (args : list bytes) : length (List.concat (reverse args)) = length (List.concat args).
Proof.
  induction args as [|a args IH]; [reflexivity|].
  rewrite reverse_cons, List.concat_app, length_app. simpl. rewrite app_nil_r, length_app. lia.
Qed.

(** The first loop in closed form, errors included. *)
Lemma place_args_eq args top rest starts :
  0 <= top ->
  place_args args (replicate (Z.to_nat top) 0 ++ rest) top starts =
  if args_size args <=? top then
    ROk (replicate (Z.to_nat (top - args_size args)) 0 ++ List.concat (reverse args) ++ rest,
         top - args_size args, starts ++ arg_starts_from top args)
  else RErr "arguments exceed stack".
Proof.
  revert top rest starts. induction args as [|a args IH]; intros top rest starts Htop.
  - cbn. replace (args_size []) with 0 by reflexivity. rewrite (proj2 (Z.leb_le 0 top)) by lia.
    rewrite Z.sub_0_r, app_nil_r. reflexivity.
  - cbn [place_args arg_starts_from]. rewrite args_size_cons.
    assert (0 <= args_size args) by (unfold args_size; lia).
    destruct (Z.ltb_spec top (Z.of_nat (length a))) as [Hlt|Hge].
    { rewrite (proj2 (Z.leb_gt _ _)) by lia. reflexivity. }
    rewrite splice_zeros by lia. rewrite IH by lia.
    destruct (Z.leb_spec (args_size args) (top - Z.of_nat (length a)));
      [rewrite (proj2 (Z.leb_le _ _)) by lia|rewrite (proj2 (Z.leb_gt _ _)) by lia; reflexivity].
    replace (top - Z.of_nat (length a) - args_size args)
      with (top - (Z.of_nat (length a) + args_size args)) by lia.
    rewrite reverse_cons, List.concat_app. cbn [List.concat]. rewrite app_nil_r, <- !app_assoc.
    reflexivity.
Qed.

Lemma splice_middle (A B C bs : bytes) (k : nat) :
  k = length A -> length B = length bs -> splice (A ++ B ++ C) k bs = A ++ bs ++ C.
Proof.
  intros -> Hl. unfold splice. rewrite take_app_length. do 2 f_equal.
  rewrite app_assoc, drop_app_length'; [reflexivity|]. rewrite length_app. lia.
Qed.

Definition words (starts : list Z) (sp : Z) : bytes :=
  List.concat ((fun s => le_split 8 (s - sp)) <$> starts).

Lemma length_words starts sp : length (words starts sp) = (8 * length starts)%nat.
Proof.
  unfold words. induction starts as [|s starts IH]; [reflexivity|].
  cbn [fmap list_fmap List.concat]. rewrite length_app, length_le_split, IH. simpl. lia.
Qed.

Lemma write_offsets_eq starts i sp W m rest :
  0 <= sp -> length W = (8 * i)%nat -> (8 * length starts <= m)%nat ->
  Forall (fun s => sp <= s < U64) starts ->
  write_offsets starts i sp (replicate (Z.to_nat sp) 0 ++ W ++ replicate m 0 ++ rest) =
  replicate (Z.to_nat sp) 0 ++ W ++ words starts sp ++ replicate (m - 8 * length starts) 0 ++ rest.
Proof.
  intros Hsp. revert i W m. induction starts as [|s starts IH]; intros i W m HW Hm Hs.
  - cbn. now rewrite Nat.sub_0_r.
  - apply Forall_cons in Hs as [Hs Hss]. cbn [write_offsets].
    rewrite sub64_small by lia. cbn [length] in Hm.
    replace (replicate m 0) with (replicate 8 0 ++ replicate (m - 8) 0)
      by (rewrite <- replicate_add; f_equal; lia).
    rewrite <- (app_assoc (replicate 8 0)), (app_assoc (replicate _ 0) W).
    rewrite splice_middle.
    + rewrite <- (app_assoc (replicate _ 0) W), (app_assoc W).
      rewrite (IH (S i)); [|rewrite length_app, length_le_split; lia|lia|assumption].
      unfold words. cbn [fmap list_fmap List.concat]. rewrite <- !app_assoc.
      replace (m - 8 * length (s :: starts))%nat with (m - 8 - 8 * length starts)%nat
        by (cbn [length]; lia).
      reflexivity.
    + rewrite length_app, length_replicate. lia.
    + rewrite length_replicate. now rewrite length_le_split.
Qed.

Lemma arg_starts_bound top args :
  args_size args <= top -> Forall (fun s => top - args_size args <= s <= top) (arg_starts_from top args).
Proof.
  revert top. induction args as [|a args IH]; intros top H; constructor; rewrite args_size_cons in *.
  - unfold args_size in *. lia.
  - eapply Forall_impl; [apply IH; lia|]. cbn. intros s Hs. lia.
Qed.

Lemma length_arg_starts top args : length (arg_starts_from top args) = length args.
Proof. revert top. induction args; intros; simpl; auto. Qed.

Lemma sp_aligned_bound args : args_size args <= 4096 -> 0 <= sp_aligned args <= 4096 - args_size args.
Proof. intros H. unfold sp_aligned. pose proof (Z.div_mod (4096 - args_size args) 16 ltac:(lia)).
  pose proof (Z.mod_pos_bound (4096 - args_size args) 16 ltac:(lia)).
  assert (0 <= (4096 - args_size args) / 16) by (apply Z.div_pos; lia). lia.
Qed.

Lemma final_sp_bound args : args_fit args ->
  0 <= final_sp_of args /\ final_sp_of args + 8 * Z.of_nat (length args) <= sp_aligned args.
Proof.
  intros (_ & Hsz & Hf). unfold final_sp_of.
  set (z := sp_aligned args - 8 * Z.of_nat (length args)) in *.
  pose proof (Z.div_mod z 16 ltac:(lia)). pose proof (Z.mod_pos_bound z 16 ltac:(lia)).
  assert (0 <= z / 16) by (apply Z.div_pos; lia). lia.
Qed.

Lemma length_args_payload args : args_fit args ->
  Z.of_nat (length (args_payload args)) = 4096 - final_sp_of args.
Proof.
  intros Hf. pose proof (final_sp_bound args Hf) as [H0 H1]. destruct Hf as (_ & Hsz & _).
  pose proof (sp_aligned_bound args Hsz). unfold args_payload.
  fold (words (arg_starts_from 4096 args) (final_sp_of args)).
  rewrite !length_app, length_words, length_arg_starts, length_replicate, length_reverse_concat.
  fold (args_size args) in *. unfold args_size in *. lia.
Qed.

(** The image, and exactly when there is one. *)
Lemma args_image_eq args :
  args_image args =
  if decide (args_fit args) then
    ROk (replicate (Z.to_nat (final_sp_of args)) 0 ++ args_payload args, final_sp_of args)
  else RErr (if (MAX_ARGS <? length args)%nat then "too many arguments" else "arguments exceed stack").
Proof.
  unfold args_image. destruct (Nat.ltb_spec MAX_ARGS (length args)) as [Hn|Hn].
  { rewrite decide_False; [reflexivity|]. intros [H _]. lia. }
  pose proof (place_args_eq args STACK_BUF_SIZE [] [] ltac:(unfold STACK_BUF_SIZE; lia)) as Hp.
  rewrite app_nil_r in Hp. change (Z.to_nat STACK_BUF_SIZE) with 4096%nat in Hp. rewrite Hp.
  change STACK_BUF_SIZE with 4096. assert (0 <= args_size args) by (unfold args_size; lia).
  destruct (Z.leb_spec (args_size args) 4096) as [Hsz|Hsz].
  2:{ rewrite decide_False; [reflexivity|]. intros (_ & H1 & _). lia. }
  rewrite app_nil_r. cbn [app]. rewrite (align_down 4) by (unfold U64; lia).
  change (2 ^ 4) with 16. fold (sp_aligned args).
  destruct (Z.ltb_spec (sp_aligned args) (Z.of_nat (length args) * 8 + 8)) as [Hlt|Hge].
  { rewrite decide_False; [reflexivity|]. intros (_ & _ & H1). lia. }
  assert (args_fit args) as Hf by (split; [lia|split; [lia|lia]]).
  rewrite decide_True by exact Hf. pose proof (sp_aligned_bound args Hsz) as Hal.
  pose proof (final_sp_bound args Hf) as [Hs0 Hs1].
  rewrite (align_down 4) by (unfold U64; lia). change (2 ^ 4) with 16.
  replace (Z.of_nat (length args) * 8) with (8 * Z.of_nat (length args)) by lia.
  fold (final_sp_of args). set (sp := final_sp_of args) in *. f_equal. f_equal.
  replace (Z.to_nat (4096 - args_size args))
    with (Z.to_nat sp + Z.to_nat (4096 - args_size args - sp))%nat by lia.
  rewrite replicate_add, <- app_assoc.
  pose proof (write_offsets_eq (arg_starts_from 4096 args) 0 sp []
    (Z.to_nat (4096 - args_size args - sp)) (List.concat (reverse args))) as Hw.
  cbn [app] in Hw. rewrite Hw; clear Hw; auto.
  - unfold args_payload. fold sp. fold (words (arg_starts_from 4096 args) sp).
    rewrite length_arg_starts. do 4 f_equal. lia.
  - rewrite length_arg_starts. lia.
  - eapply Forall_impl; [apply arg_starts_bound; exact Hsz|]. cbn. intros s Hs. unfold U64. lia.
Qed.

(** ** Reading the image back *)

Section reading.
Context (umem : Z -> option Z) (base : Z) (payload : bytes).
Context (Hmem : forall k : nat, (k < length payload)%nat -> umem (base + Z.of_nat k) = payload !! k).

Lemma uread_payload (off n : nat) :
  (off + n <= length payload)%nat ->
  uread umem (base + Z.of_nat off) (Z.of_nat n) = Some (take n (drop off payload)).
Proof.
  intros H. unfold uread. apply mapM_Some. apply Forall2_same_length_lookup_2.
  - rewrite length_seqZ, length_take, length_drop. lia.
  - intros i x y Hx Hy. apply lookup_seqZ in Hx as [-> Hi].
    rewrite lookup_take_lt, lookup_drop in Hy by lia.
    rewrite <- Hy, <- Hmem by (apply lookup_lt_Some in Hy; lia). f_equal. lia.
Qed.
End reading.

Lemma words_chunk starts sp rest i s :
  starts !! i = Some s -> take 8 (drop (8 * i) (words starts sp ++ rest)) = le_split 8 (s - sp).
Proof.
  revert i. induction starts as [|s0 starts IH]; intros i Hi; [discriminate|].
  unfold words in *. cbn [fmap list_fmap List.concat]. rewrite <- app_assoc.
  destruct i as [|i]; simpl in Hi.
  - injection Hi as ->. rewrite Nat.mul_0_r, drop_0. apply take_app_length'.
    now rewrite length_le_split.
  - replace (8 * S i)%nat with (length (le_split 8 (s0 - sp)) + 8 * i)%nat
      by (rewrite length_le_split; lia).
    rewrite <- drop_drop, drop_app_length. now apply IH.
Qed.

Lemma args_chunk args top i a s :
  args !! i = Some a -> arg_starts_from top args !! i = Some s ->
  let off := s - (top - args_size args) in
  0 <= off /\ off + Z.of_nat (length a) <= args_size args /\
  take (length a) (drop (Z.to_nat off) (List.concat (reverse args))) = a.
Proof.
  revert top i. induction args as [|b args IH]; intros top i Ha Hs; [discriminate|].
  rewrite args_size_cons, reverse_cons, List.concat_app. cbn [List.concat]. rewrite app_nil_r.
  assert (length (List.concat (reverse args)) = Z.to_nat (args_size args)) as Hl
    by (rewrite length_reverse_concat; unfold args_size; lia).
  assert (0 <= args_size args) by (unfold args_size; lia).
  destruct i as [|i]; simpl in Ha, Hs.
  - injection Ha as ->. injection Hs as <-. cbv zeta.
    replace (_ - (top - _)) with (args_size args) by lia. split; [lia|]. split; [lia|].
    rewrite drop_app_length' by (now rewrite Hl). now rewrite firstn_all.
  - destruct (IH (top - Z.of_nat (length b)) i Ha Hs) as (H1 & H2 & H3). cbv zeta in *.
    replace (top - Z.of_nat (length b) - args_size args)
      with (top - (Z.of_nat (length b) + args_size args)) in * by lia.
    split; [lia|]. split; [lia|].
    rewrite drop_app_le by lia. rewrite take_app_le by (rewrite length_drop; lia). exact H3.
Qed.

(** Consecutive starts differ by the length of the argument between them. *)
Lemma arg_starts_step args top i a :
  args !! i = Some a ->
  exists s, arg_starts_from top args !! i = Some s /\
    match i with
    | O => s = top - Z.of_nat (length a)
    | S j => exists p, arg_starts_from top args !! j = Some p /\ s = p - Z.of_nat (length a)
    end.
Proof.
  revert top i. induction args as [|b args IH]; intros top i Ha; [discriminate|].
  destruct i as [|i]; simpl in Ha.
  - injection Ha as ->. cbn. eauto.
  - destruct (IH (top - Z.of_nat (length b)) i Ha) as (s & Hs & Hr).
    exists s. cbn. split; [exact Hs|]. destruct i as [|i].
    + exists (top - Z.of_nat (length b)). auto.
    + exact Hr.
Qed.

Section parsing.
Context (umem : Z -> option Z) (args : list bytes) (base : Z).
Context (Hfit : args_fit args).
Context (Hbase : 0 <= base /\ base + 4096 < U64).
Context (Hvalid : Forall (fun a => utf8_valid a = true) args).
Context (Hmem : forall k : nat, (k < length (args_payload args))%nat ->
                 umem (base + Z.of_nat k) = args_payload args !! k).

Let sp := final_sp_of args.
Let offsets := (fun s => s - sp) <$> arg_starts_from 4096 args.

Lemma start_bound i s : arg_starts_from 4096 args !! i = Some s -> sp + 8 * Z.of_nat (length args) <= s <= 4096.
Proof.
  intros Hs. destruct Hfit as (_ & Hsz & _).
  pose proof (arg_starts_bound 4096 args Hsz) as Hb. rewrite Forall_forall in Hb.
  specialize (Hb s ltac:(eapply list_elem_of_lookup_2; exact Hs)).
  pose proof (final_sp_bound args Hfit) as [H0 H1]. pose proof (sp_aligned_bound args Hsz).
  unfold sp. lia.
Qed.

Lemma offsets_lookup i s : arg_starts_from 4096 args !! i = Some s -> offsets !! i = Some (s - sp).
Proof. intros Hs. unfold offsets. now rewrite list_lookup_fmap, Hs. Qed.

Lemma parse_offsets :
  mapM (fun i => le_combine <$> uread umem (base + 8 * i) 8) (seqZ 0 (Z.of_nat (length args))) = Some offsets.
Proof.
  apply mapM_Some, Forall2_same_length_lookup_2.
  { unfold offsets. rewrite length_seqZ, length_fmap, length_arg_starts. lia. }
  intros i x o Hx Ho. apply lookup_seqZ in Hx as [-> Hi]. rewrite Z.add_0_l.
  unfold offsets in Ho. apply list_lookup_fmap_Some in Ho as (s & -> & Hs).
  pose proof (start_bound i s Hs) as Hsb. pose proof (final_sp_bound args Hfit) as [H0 _].
  pose proof (length_args_payload args Hfit) as Hlen. fold sp in Hlen, H0.
  replace (base + 8 * Z.of_nat i) with (base + Z.of_nat (8 * i)) by lia.
  change 8 with (Z.of_nat 8) at 1. rewrite (uread_payload _ _ _ Hmem).
  - cbn [fmap option_fmap option_map]. f_equal. unfold args_payload. fold sp.
    change (List.concat ((fun s => le_split 8 (s - sp)) <$> arg_starts_from 4096 args))
      with (words (arg_starts_from 4096 args) sp).
    rewrite (words_chunk _ _ _ i s Hs). apply le_split_8_u64. unfold is_u64, U64. lia.
  - assert (Z.of_nat i < Z.of_nat (length args)) by lia.
    apply lookup_lt_Some in Hs. rewrite length_arg_starts in Hs.
    assert (8 * Z.of_nat (length args) <= 4096 - sp) by lia. lia.
Qed.

Lemma parse_one i a : args !! i = Some a ->
  parse_arg umem base (base + (4096 - sp)) offsets (Z.of_nat i) = Some a.
Proof.
  intros Ha. destruct (arg_starts_step args 4096 i a Ha) as (s & Hs & Hprev).
  pose proof (start_bound i s Hs) as Hsb. pose proof (final_sp_bound args Hfit) as [H0 _]. fold sp in H0.
  pose proof (length_args_payload args Hfit) as Hlen. fold sp in Hlen.
  unfold parse_arg. rewrite Nat2Z.id, (offsets_lookup i s Hs). cbn.
  unfold checked_add64. rewrite (proj2 (Z.ltb_lt _ _)) by lia. cbn.
  assert ((if Z.of_nat i =? 0 then checked_sub64 (base + (4096 - sp)) (base + (s - sp))
           else prev ← offsets !! Z.to_nat (Z.of_nat i - 1); checked_sub64 prev (s - sp))
          = Some (Z.of_nat (length a))) as ->.
  { destruct i as [|j].
    - cbn [Z.of_nat Z.eqb]. unfold checked_sub64. rewrite (proj2 (Z.leb_le _ _)) by lia. f_equal. lia.
    - destruct Hprev as (p & Hp & ->). rewrite (proj2 (Z.eqb_neq _ 0)) by lia.
      replace (Z.to_nat (Z.of_nat (S j) - 1)) with j by lia.
      rewrite (offsets_lookup j p Hp). cbn. unfold checked_sub64.
      rewrite (proj2 (Z.leb_le _ _)) by lia. f_equal. lia. }
  cbn. destruct (args_chunk args 4096 i a s Ha Hs) as (Ho1 & Ho2 & Hch). cbv zeta in *.
  replace (base + (s - sp)) with (base + Z.of_nat (Z.to_nat (s - sp))) by lia.
  rewrite (uread_payload _ _ _ Hmem) by lia. cbn.
  assert (take (length a) (drop (Z.to_nat (s - sp)) (args_payload args)) = a) as ->.
  { rewrite <- Hch at 2. f_equal. unfold args_payload. fold sp.
    change (List.concat ((fun s => le_split 8 (s - sp)) <$> arg_starts_from 4096 args))
      with (words (arg_starts_from 4096 args) sp).
    rewrite app_assoc. destruct Hfit as (_ & Hsz & _). pose proof (sp_aligned_bound args Hsz).
    pose proof (final_sp_bound args Hfit) as [_ H1]. fold sp in H1.
    rewrite drop_app_ge; rewrite length_app, length_words, length_arg_starts, length_replicate; [|lia].
    f_equal. lia. }
  rewrite Forall_forall in Hvalid.
  now rewrite (Hvalid a) by (eapply list_elem_of_lookup_2; exact Ha).
Qed.

Lemma parse_args_ok :
  parse_args umem (Z.of_nat (length args)) base (base + (4096 - sp)) = Some args.
Proof.
  unfold parse_args. destruct Hfit as (Hn & _ & _).
  rewrite Z.gtb_ltb, (proj2 (Z.ltb_ge _ _)) by lia.
  rewrite parse_offsets. cbn. apply mapM_Some, Forall2_same_length_lookup_2.
  { rewrite length_seqZ. lia. }
  intros i x a Hx Ha. apply lookup_seqZ in Hx as [-> Hi]. rewrite Z.add_0_l. now apply parse_one.
Qed.
End parsing.

(** ** The theorems *)

Lemma Forall_concat (P : Z -> Prop) (ls : list bytes) :
  Forall (Forall P) ls -> Forall P (List.concat ls).
Proof. induction 1; simpl; [constructor|]. apply Forall_app. auto. Qed.

Lemma args_payload_u8 args : Forall (Forall is_u8) args -> Forall is_u8 (args_payload args).
Proof.
  intros H. unfold args_payload. repeat apply Forall_app_2.
  - apply Forall_concat, Forall_fmap, Forall_true. intros. apply le_split_u8.
  - apply Forall_replicate. unfold is_u8. lia.
  - apply Forall_concat. now apply Forall_reverse.
Qed.

Lemma push_args_ok st root l args top :
  space_ok st root l -> Forall (Forall is_u8) args -> args_fit args -> 4096 <= top <= VA_LIMIT ->
  (forall v, top - 4096 <= v < top -> ttbr0_to_pa st v (Some root) <> None) ->
  let sp := top - (4096 - final_sp_of args) in
  exists st', push_args_to_stack top root args st =
                Done (ROk (Z.of_nat (length args), sp, top)) st' /\
              user_update st root l sp (args_payload args) st'.
Proof.
  intros Hsp Hu8 Hfit Htop Hmap sp. unfold push_args_to_stack.
  rewrite args_image_eq, decide_True by exact Hfit.
  pose proof (final_sp_bound args Hfit) as [H0 H1].
  pose proof (length_args_payload args Hfit) as Hlen.
  unfold STACK_BUF_SIZE, VA_LIMIT in *. rewrite sub64_small by (unfold U64; lia). fold sp.
  rewrite drop_app_length' by (now rewrite length_replicate).
  destruct (copy_to_pages_ok (args_payload args) sp st root l) as (r & st' & Hrun & Hout);
    [exact Hsp|now apply args_payload_u8|lia|unfold VA_LIMIT; lia|].
  unfold bind_try, bind. rewrite Hrun. destruct r as [u|e].
  - exists st'. split; [reflexivity|apply Hout].
  - destruct Hout as (_ & v & k & Hv & Hnone & _). exfalso. apply (Hmap v); [lia|exact Hnone].
Qed.

(** C18. Whatever arguments the kernel accepts, the new program reads back:
    when they fit, the image is written below the old stack pointer, within
    its top 4096 bytes, nothing else of the process's memory changes, the new
    stack pointer keeps the old one's 16-byte alignment, and [parse_args!] run
    on the registers the kernel hands over returns the arguments. *)
Theorem args_roundtrip st root l args top :
  space_ok st root l -> Forall (Forall is_u8) args ->
  Forall (fun a => utf8_valid a = true) args -> args_fit args -> 4096 <= top <= VA_LIMIT ->
  (forall v, top - 4096 <= v < top -> ttbr0_to_pa st v (Some root) <> None) ->
  exists st' sp, push_args_to_stack top root args st =
                   Done (ROk (Z.of_nat (length args), sp, top)) st' /\
    space_ok st' root l /\ top - 4096 <= sp <= top /\ (top - sp) mod 16 = 0 /\
    (forall v, 0 <= v < VA_LIMIT -> ~ (sp <= v < top) -> vread st' root v = vread st root v) /\
    parse_args (vread st' root) (Z.of_nat (length args)) sp top = Some args.
Proof.
  intros Hsp Hu8 Hval Hfit Htop Hmap.
  destruct (push_args_ok st root l args top Hsp Hu8 Hfit Htop Hmap) as (st' & Hrun & Hu).
  cbv zeta in *. pose proof (final_sp_bound args Hfit) as [H0 H1].
  pose proof Hfit as (_ & Hsz & _). pose proof (sp_aligned_bound args Hsz) as Hal.
  pose proof (length_args_payload args Hfit) as Hlen. unfold VA_LIMIT in Htop.
  set (sp := top - (4096 - final_sp_of args)) in *.
  exists st', sp. split; [exact Hrun|]. split; [apply Hu|]. split; [lia|]. split; [|split].
  - unfold sp, final_sp_of. set (q := _ / 16).
    replace (top - (top - (4096 - q * 16))) with (0 + (256 - q) * 16) by lia.
    now rewrite Z.mod_add by lia.
  - intros v Hv Hout. rewrite (uu_read _ _ _ _ _ _ Hu) by assumption.
    rewrite decide_False by lia. reflexivity.
  - replace top with (sp + (4096 - final_sp_of args)) by lia.
    apply parse_args_ok; auto; [unfold U64; lia|]. intros k Hk.
    rewrite (uu_read _ _ _ _ _ _ Hu) by (unfold VA_LIMIT; lia).
    rewrite decide_True by lia. f_equal. lia.
Qed.

Definition demo_args : list bytes := [str "init"; str "hi there"; str "this is test of args"].

Lemma demo_top_mapped v :
  0x401000 - 4096 <= v < 0x401000 -> ttbr0_to_pa demo_mapped v (Some demo_root) <> None.
Proof.
  intros Hv. apply (same_page_mapped demo_mapped demo_root 0x400000).
  - apply (Z.div_unique_pos v 4096 (0x400000 / 4096) (v - 0x400000)); [lia|].
    change (0x400000 / 4096) with 0x400. lia.
  - vm_compute. discriminate.
Qed.

Lemma args_roundtrip_witness :
  exists l, (space_ok demo_mapped demo_root l /\ Forall (Forall is_u8) demo_args /\
    Forall (fun a => utf8_valid a = true) demo_args /\ args_fit demo_args) /\
  exists st' sp, push_args_to_stack 0x401000 demo_root demo_args demo_mapped =
                   Done (ROk (Z.of_nat (length demo_args), sp, 0x401000)) st' /\
    space_ok st' demo_root l /\ 0x401000 - 4096 <= sp <= 0x401000 /\ (0x401000 - sp) mod 16 = 0 /\
    (forall v, 0 <= v < VA_LIMIT -> ~ (sp <= v < 0x401000) ->
       vread st' demo_root v = vread demo_mapped demo_root v) /\
    parse_args (vread st' demo_root) (Z.of_nat (length demo_args)) sp 0x401000 = Some demo_args.
Proof.
  destruct demo_mapped_ok as [l Hl]. exists l.
  assert (Forall (Forall is_u8) demo_args) as H1 by (apply (bool_decide_unpack _); vm_compute; exact I).
  assert (Forall (fun a => utf8_valid a = true) demo_args) as H2
    by (repeat constructor; vm_compute; reflexivity).
  assert (args_fit demo_args) as H3 by (apply (bool_decide_unpack _); vm_compute; exact I).
  split; [auto|].
  apply (args_roundtrip demo_mapped demo_root l demo_args 0x401000 Hl H1 H2 H3).
  - vm_compute. split; discriminate.
  - exact demo_top_mapped.
Defined.

(** [push_args_to_stack] rejects exactly the argument lists that do not
    fit (more than 64, or more bytes and offset words than the 4096-byte
    buffer), with the message of the check that failed, and then leaves the
    machine as it was. *)
Theorem push_args_rejects st sp_el0 ttbr0 args :
  ~ args_fit args ->
  push_args_to_stack sp_el0 ttbr0 args st =
  Done (RErr (if (MAX_ARGS <? length args)%nat then "too many arguments"
              else "arguments exceed stack")) st.
Proof.
  intros H. unfold push_args_to_stack. rewrite args_image_eq, decide_False by exact H.
  reflexivity.
Qed.

(** Thirty-two arguments of 256 bytes, the most [sys_exec] lets through. *)
Definition demo_big_args : list bytes := replicate 32 (replicate 256 65).

Lemma push_args_rejects_witness :
  ~ args_fit demo_big_args /\
  push_args_to_stack 0x401000 demo_root demo_big_args demo_mapped =
  Done (RErr (if (MAX_ARGS <? length demo_big_args)%nat then "too many arguments"
              else "arguments exceed stack")) demo_mapped.
Proof.
  assert (~ args_fit demo_big_args) as H by (apply (bool_decide_unpack _); vm_compute; exact I).
  split; [exact H|]. exact (push_args_rejects demo_mapped 0x401000 demo_root demo_big_args H).
Defined.
