(* ===== verification/KernelMap.v ===== *)
(** The kernel's own translation tables of src/src/kernel/paging.rs: the block
    descriptors computed at compile time, the two level-2 tables, the level-1
    table src/entry.S links them into, and the register constants
    TCR_EL1 and MAIR_EL1.  [kernel_translate] is the architecture's walk of a
    level-1 table entry and a level-2 block entry. *)

From Stdlib Require Import ZArith Lia.
From stdpp Require Import base strings numbers list.
From S2P Require Import Prelude Memory Frames PageTable.

Local Open Scope Z_scope.

Definition ATTR_DEVICE : Z := Z.shiftl 0 2.
Definition ATTR_NORMAL : Z := Z.shiftl 1 2.

Definition kernel_l2_block_descriptor (pa attr : Z) : Z :=
  let VALID := Z.shiftl 1 0 in
  let BLOCK := 0 in
  let AP_EL1_RW := Z.shiftl 0 6 in
  let SH_INNER := Z.shiftl 3 8 in
  let SH_NON := Z.shiftl 0 8 in
  let AF := Z.shiftl 1 10 in
  let PXN := Z.shiftl 1 53 in
  let UXN := Z.shiftl 1 54 in
  let sh := if attr =? ATTR_DEVICE then SH_NON else SH_INNER in
  let pxn := if attr =? ATTR_DEVICE then PXN else 0 in
  Z.lor (Z.lor (Z.lor (Z.lor (Z.lor (Z.lor (Z.lor (Z.lor
    (Z.land pa (not64 (Z.shiftl 1 21 - 1))) VALID) BLOCK) attr) AP_EL1_RW) sh) AF) pxn) UXN.

Definition l2_attr (pa : Z) : Z := if pa >=? 0x3F000000 then ATTR_DEVICE else ATTR_NORMAL.

(** [while i < PAGE_ENTRIES { table.entry[i] = ..; i += 1 }] *)
Definition kernel_l2_0 : list Z :=
  (fun i => let pa := Z.shiftl i 21 in
            kernel_l2_block_descriptor pa (l2_attr pa)) <$> seqZ 0 PAGE_ENTRIES.
Definition kernel_l2_1 : list Z :=
  (fun i => let pa := Z.shiftl (i + PAGE_ENTRIES) 21 in
            kernel_l2_block_descriptor pa (l2_attr pa)) <$> seqZ 0 PAGE_ENTRIES.

(** The level-1 table, as the level-2 tables its first two entries point to. *)
Definition PAGE_TABLE_KERNEL_L1 : list (list Z) := [kernel_l2_0; kernel_l2_1].

Definition TCR_EL1_VALUE : Z :=
  let TCR_T0SZ := 25 in
  let TCR_EPD0 := Z.shiftl 0 7 in
  let TCR_IRGN0_WBWA := Z.shiftl 1 8 in
  let TCR_ORGN0_WBWA := Z.shiftl 1 10 in
  let TCR_SH0_INNER := Z.shiftl 3 12 in
  let TCR_TG0_4K := Z.shiftl 0 14 in
  let TCR_T1SZ := Z.shiftl 25 16 in
  let TCR_A1 := Z.shiftl 0 22 in
  let TCR_EPD1 := Z.shiftl 0 23 in
  let TCR_IRGN1_WBWA := Z.shiftl 1 24 in
  let TCR_ORGN1_WBWA := Z.shiftl 1 26 in
  let TCR_SH1_INNER := Z.shiftl 3 28 in
  let TCR_TG1_4K := Z.shiftl 2 30 in
  let TCR_IPS_36BIT := Z.shiftl 1 32 in
  foldl Z.lor TCR_T0SZ
    [TCR_EPD0; TCR_IRGN0_WBWA; TCR_ORGN0_WBWA; TCR_SH0_INNER; TCR_TG0_4K; TCR_T1SZ;
     TCR_A1; TCR_EPD1; TCR_IRGN1_WBWA; TCR_ORGN1_WBWA; TCR_SH1_INNER; TCR_TG1_4K;
     TCR_IPS_36BIT].

Definition MAIR_EL1_VALUE : Z :=
  let MAIR_ATTR_DEVICE := 0x00 in
  let MAIR_ATTR_NORMAL := 0xFF in
  Z.lor (Z.shiftl MAIR_ATTR_DEVICE 0) (Z.shiftl MAIR_ATTR_NORMAL 8).

Definition SCTLR_EL1_ENABLE_MMU : Z := Z.shiftl 1 0.

(** ** The architecture's reading of these values *)

(** Bits 47..21 of a level-2 block descriptor are its output address. *)
Definition BLOCK_ADDR_MASK : Z := 2 ^ 48 - 2 ^ 21.

(** An upper-half address has its top [T1SZ] bits set ([TCR_EL1] bits 21..16);
    the rest are a level-1 index, a level-2 index and an offset in a block. *)
Definition T1SZ : Z := Z.land (Z.shiftr TCR_EL1_VALUE 16) 0x3F.

Definition kernel_translate (va : Z) : option Z :=
  if Z.shiftr va (64 - T1SZ) =? 2 ^ T1SZ - 1 then
    t ← PAGE_TABLE_KERNEL_L1 !! Z.to_nat (l1_index va);
    d ← t !! Z.to_nat (l2_index va);
    if Z.land d 3 =? 1 then Some (Z.land d BLOCK_ADDR_MASK + va mod 2 ^ 21) else None
  else None.

(** What the access-permission and execute-never bits of a block say. *)
Definition el0_access (d : Z) : bool := Z.testbit d 6.
Definition el0_exec (d : Z) : bool := negb (Z.testbit d 54).
Definition el1_exec (d : Z) : bool := negb (Z.testbit d 53).
(** Bits 4..2 select one of the attribute bytes of MAIR_EL1. *)
Definition mair_attr (d : Z) : Z :=
  Z.land (Z.shiftr MAIR_EL1_VALUE (8 * Z.land (Z.shiftr d 2) 7)) 0xFF.

(** ** The tables, checked entry by entry *)

Definition block_ok (i d : Z) : bool :=
  (Z.land d 3 =? 1) && (Z.land d BLOCK_ADDR_MASK =? i * 2 ^ 21)
  && negb (el0_access d) && negb (el0_exec d)
  && eqb (el1_exec d) (i * 2 ^ 21 <? 0x3F000000)
  && (mair_attr d =? if i * 2 ^ 21 <? 0x3F000000 then 0xFF else 0x00)
  && Z.testbit d 10.

Lemma l2_tables_checked :
  forallb (fun p => block_ok (fst p) (snd p)) (zip (seqZ 0 1024) (kernel_l2_0 ++ kernel_l2_1)) = true.
Proof. vm_compute. reflexivity. Qed.

(** The block of a physical address, found through its two indices. *)
Lemma l2_block pa :
  0 <= pa < 2 ^ 31 ->
  exists t d, PAGE_TABLE_KERNEL_L1 !! Z.to_nat (pa / 2 ^ 30) = Some t /\
              t !! Z.to_nat (pa / 2 ^ 21 mod 512) = Some d /\ block_ok (pa / 2 ^ 21) d = true.
Proof.
  intros Hpa. set (i := pa / 2 ^ 21).
  assert (0 <= i < 1024) as Hi.
  { unfold i. split; [apply Z.div_pos; lia|]. apply Z.div_lt_upper_bound; lia. }
  assert (pa / 2 ^ 30 = i / 512) as ->.
  { unfold i. rewrite Z.div_div by lia. reflexivity. }
  assert (length kernel_l2_0 = 512%nat) as Hl0 by (vm_compute; reflexivity).
  assert (length kernel_l2_1 = 512%nat) as Hl1 by (vm_compute; reflexivity).
  assert (exists d, (kernel_l2_0 ++ kernel_l2_1) !! Z.to_nat i = Some d) as [d Hd].
  { apply lookup_lt_is_Some_2. rewrite length_app. lia. }
  assert (block_ok i d = true) as Hb.
  { pose proof l2_tables_checked as Hc. rewrite forallb_forall in Hc.
    apply (Hc (i, d)). apply list_elem_of_In, list_elem_of_lookup. exists (Z.to_nat i).
    rewrite lookup_zip_with. rewrite lookup_seqZ_lt by lia. cbn. rewrite Hd. cbn.
    do 2 f_equal. lia. }
  destruct (Z.lt_ge_cases i 512) as [Hlt|Hge].
  - rewrite (Z.div_small i), (Z.mod_small i) by lia. exists kernel_l2_0, d.
    split; [reflexivity|]. split; [|exact Hb]. rewrite lookup_app_l in Hd by lia. exact Hd.
  - replace (i / 512) with 1 by (apply (Z.div_unique_pos i 512 1 (i - 512)); lia).
    replace (i mod 512) with (i - 512) by (apply (Z.mod_unique_pos i 512 1 (i - 512)); lia).
    exists kernel_l2_1, d. split; [reflexivity|]. split; [|exact Hb].
    rewrite lookup_app_r in Hd by lia. rewrite Hl0 in Hd.
    now replace (Z.to_nat (i - 512)) with (Z.to_nat i - 512)%nat by lia.
Qed.

Lemma kernel_va_fields pa :
  0 <= pa < 2 ^ 31 ->
  let va := ttbr1_to_va pa in
  Z.shiftr va (64 - T1SZ) = 2 ^ T1SZ - 1 /\ l1_index va = pa / 2 ^ 30 /\
  l2_index va = pa / 2 ^ 21 mod 512 /\ va mod 2 ^ 21 = pa mod 2 ^ 21.
Proof.
  intros Hpa va. unfold va. rewrite <- (Z.add_0_r (ttbr1_to_va pa)), ttbr1_to_va_add by lia.
  rewrite Z.add_0_r. change T1SZ with 25. unfold l1_index, l2_index, KERNEL_BASE.
  change 0x1FF with (2 ^ 9 - 1). rewrite !land_mask_low by lia. rewrite !Z.shiftr_div_pow2 by lia.
  change 0xffffff8000000000 with ((2 ^ 25 - 1) * 2 ^ 39).
  change (64 - 25) with 39. split; [|split; [|split]].
  - rewrite Z.div_add_l by lia. rewrite (Z.div_small pa) by lia. lia.
  - replace ((2 ^ 25 - 1) * 2 ^ 39 + pa) with (pa + ((2 ^ 25 - 1) * 2 ^ 9) * 2 ^ 30) by lia.
    rewrite Z.div_add by lia. rewrite Z.mod_add by lia. apply Z.mod_small.
    split; [apply Z.div_pos; lia|]. apply Z.div_lt_upper_bound; lia.
  - replace ((2 ^ 25 - 1) * 2 ^ 39 + pa) with (pa + ((2 ^ 25 - 1) * 2 ^ 18) * 2 ^ 21) by lia.
    rewrite Z.div_add by lia. replace ((2 ^ 25 - 1) * 2 ^ 18) with (((2 ^ 25 - 1) * 2 ^ 9) * 2 ^ 9) by lia.
    now rewrite Z.mod_add by lia.
  - replace ((2 ^ 25 - 1) * 2 ^ 39 + pa) with (pa + ((2 ^ 25 - 1) * 2 ^ 18) * 2 ^ 21) by lia.
    now rewrite Z.mod_add by lia.
Qed.

(** The upper half is the physical memory. *)
Lemma kernel_translate_linear pa : 0 <= pa < 2 ^ 31 -> kernel_translate (ttbr1_to_va pa) = Some pa.
Proof.
  intros Hpa. destruct (kernel_va_fields pa Hpa) as (H1 & H2 & H3 & H4).
  destruct (l2_block pa Hpa) as (t & d & Ht & Hd & Hb).
  unfold kernel_translate. rewrite H1, H2, H3, H4, Z.eqb_refl, Ht. cbn. rewrite Hd. cbn.
  unfold block_ok in Hb. rewrite !andb_true_iff in Hb. destruct Hb as ((((((B1 & B2) & _) & _) & _) & _) & _).
  rewrite B1. apply Z.eqb_eq in B2. rewrite B2. f_equal. pose proof (Z.div_mod pa (2 ^ 21) ltac:(lia)). lia.
Qed.

(** C35. The kernel's compile-time tables map the upper half linearly: the
    address [ttbr1_to_va!] computes for a physical address below 2 GiB
    translates to that physical address, through a block that user mode can
    neither access nor execute, with the access flag set, kernel-executable
    normal memory below 0x3F000000 and never-executable device memory from
    there on. *)
Theorem kernel_map_linear pa :
  0 <= pa < 2 ^ 31 ->
  kernel_translate (ttbr1_to_va pa) = Some pa /\
  exists t d, PAGE_TABLE_KERNEL_L1 !! Z.to_nat (l1_index (ttbr1_to_va pa)) = Some t /\
    t !! Z.to_nat (l2_index (ttbr1_to_va pa)) = Some d /\
    el0_access d = false /\ el0_exec d = false /\ Z.testbit d 10 = true /\
    el1_exec d = (pa <? 0x3F000000) /\
    mair_attr d = if pa <? 0x3F000000 then 0xFF else 0x00.
Proof.
  intros Hpa. split; [now apply kernel_translate_linear|].
  destruct (kernel_va_fields pa Hpa) as (H1 & H2 & H3 & H4). destruct (l2_block pa Hpa) as (t & d & Ht & Hd & Hb).
  rewrite H2, H3. unfold block_ok in Hb. rewrite !andb_true_iff in Hb.
  destruct Hb as ((((((B1 & B2) & B3) & B4) & B5) & B6) & B7). apply Z.eqb_eq in B6.
  assert ((pa / 2 ^ 21 * 2 ^ 21 <? 0x3F000000) = (pa <? 0x3F000000)) as Hdev.
  { pose proof (Z.div_mod pa (2 ^ 21) ltac:(lia)). pose proof (Z.mod_pos_bound pa (2 ^ 21) ltac:(lia)).
    destruct (Z.ltb_spec (pa / 2 ^ 21 * 2 ^ 21) 0x3F000000), (Z.ltb_spec pa 0x3F000000); lia. }
  rewrite Hdev in B5, B6. exists t, d. split; [exact Ht|]. split; [exact Hd|].
  apply negb_true_iff in B3, B4. apply eqb_prop in B5. auto.
Qed.

Lemma kernel_map_linear_witness :
  0 <= 0x3F201000 < 2 ^ 31 /\
  kernel_translate (ttbr1_to_va 0x3F201000) = Some 0x3F201000 /\
  exists t d, PAGE_TABLE_KERNEL_L1 !! Z.to_nat (l1_index (ttbr1_to_va 0x3F201000)) = Some t /\
    t !! Z.to_nat (l2_index (ttbr1_to_va 0x3F201000)) = Some d /\
    el0_access d = false /\ el0_exec d = false /\ Z.testbit d 10 = true /\
    el1_exec d = (0x3F201000 <? 0x3F000000) /\
    mair_attr d = if 0x3F201000 <? 0x3F000000 then 0xFF else 0x00.
Proof. split; [lia|]. apply (kernel_map_linear 0x3F201000). lia. Defined.
