(* ===== verification/Start.v ===== *)
(** The boot assembly of src/entry.S: from the firmware's jump to [_start] to
    [_rust_main] in the upper half.  The file is a list of labels, instructions
    and literal pools, fetched through the translation in force; [tr] is the
    architecture's walk of the tables that are in memory.

    What the code relies on is [loaded]: the image is where linker.ld puts it
    and the compile-time tables and constants are in it. *)

From Stdlib Require Import ZArith Lia.
From stdpp Require Import base strings numbers list.
From S2P Require Import Prelude Memory Frames PageTable KernelMap A64.

Local Open Scope Z_scope.

(** ** The code *)

(** The numeric labels 1 and 2 carry the name of their function. *)
Inductive label :=
| _start | transition_to_el1 | el1_start | rt_setup | rt_setup_1 | rt_setup_2 | icache_clean_invalidate
| dcache_l1_clean_invalidate | dcache_l1_1 | dcache_l1_2 | dcache_l2_clean_invalidate | dcache_l2_1 | dcache_l2_2.
#[global] Instance label_eq_dec : EqDecision label.
Proof. solve_decision. Defined.

(** The link-time addresses entry.S names, which are virtual. *)
Record symbols := mk_symbols {
  TCR_EL1_VALUE : Z;
  MAIR_EL1_VALUE : Z;
  SCTLR_EL1_ENABLE_MMU : Z;
  PAGE_TABLE_KERNEL_L1 : Z;
  PAGE_TABLE_KERNEL_L2_0 : Z;
  PAGE_TABLE_KERNEL_L2_1 : Z;
  _stack_top : Z;
  _bss_start : Z;
  _bss_end : Z;
  el1_vectors : Z;
  _rust_main : Z;
}.

(** [Pool n] is [.pool]: [n] doublewords, aligned. *)
Inductive item := Label (l : label) | Ins (i : instr label) | Pool (n : nat).

Section Code.
  Context (y : symbols).

Definition start_code : list item :=
  [ Label _start;
    Ins (Mrs (X 0) Sys.CPUACTLR_EL1); Ins (OrrI (X 0) (X 0) (Z.shiftl 1 24)); Ins (OrrI (X 0) (X 0) (Z.shiftl 1 44));
    Ins (Msr Sys.CPUACTLR_EL1 (X 0));
    Ins (LdrLit (X 7) 0x3FFFFFFF);
    Ins (LdrLit (X 0) (TCR_EL1_VALUE y)); Ins (And (X 0) (X 0) (X 7)); Ins (Ldr (X 0) (X 0) 0); Ins (Msr Sys.TCR_EL1 (X 0));
    Ins (LdrLit (X 0) (MAIR_EL1_VALUE y)); Ins (And (X 0) (X 0) (X 7)); Ins (Ldr (X 0) (X 0) 0); Ins (Msr Sys.MAIR_EL1 (X 0));
    Ins Barrier;
    Ins (LdrLit (X 1) (PAGE_TABLE_KERNEL_L2_0 y)); Ins (And (X 1) (X 1) (X 7)); Ins (OrrI (X 1) (X 1) 3);
    Ins (LdrLit (X 2) (PAGE_TABLE_KERNEL_L2_1 y)); Ins (And (X 2) (X 2) (X 7)); Ins (OrrI (X 2) (X 2) 3);
    Ins (LdrLit (X 0) (PAGE_TABLE_KERNEL_L1 y)); Ins (And (X 0) (X 0) (X 7));
    Ins (Str (X 1) (X 0) 0); Ins (Str (X 2) (X 0) 8); Ins Barrier;
    Ins (Msr Sys.TTBR1_EL1 (X 0)); Ins (Msr Sys.TTBR0_EL1 (X 0)); Ins Barrier;
    Ins (Mrs (X 0) Sys.SCTLR_EL1); Ins (LdrLit (X 1) (SCTLR_EL1_ENABLE_MMU y)); Ins (And (X 1) (X 1) (X 7));
    Ins (Ldr (X 1) (X 1) 0); Ins (Orr (X 0) (X 0) (X 1)); Ins (Msr Sys.SCTLR_EL1 (X 0)); Ins Barrier;
    Ins (Adr (X 16) transition_to_el1); Ins (Br (X 16));
    Label transition_to_el1;
    Ins (MrsCurrentEL (X 0)); Ins (CmpI (X 0) 8); Ins (Bcond NE el1_start);
    Ins (LdrLit (X 0) (_stack_top y)); Ins (Msr Sys.SP_EL1 (X 0));
    Ins (MovI (X 0) (Z.shiftl 1 31)); Ins (Msr Sys.HCR_EL2 (X 0));
    Ins (Mrs (X 0) Sys.CNTHCTL_EL2); Ins (OrrI (X 0) (X 0) (Z.shiftl 1 0)); Ins (OrrI (X 0) (X 0) (Z.shiftl 1 1));
    Ins (Msr Sys.CNTHCTL_EL2 (X 0)); Ins (Msr Sys.CNTVOFF_EL2 XZR);
    Ins (MovI (X 0) 5); Ins (OrrI (X 0) (X 0) (Z.shiftl 15 6)); Ins (Msr Sys.SPSR_EL2 (X 0));
    Ins (Adr (X 0) el1_start); Ins (Msr Sys.ELR_EL2 (X 0)); Ins Eret;
    Label el1_start;
    Ins (LdrLit (X 0) (_stack_top y)); Ins (Mov SP (X 0));
    Ins (Bl rt_setup);
    Ins (LdrLit (X 0) (el1_vectors y)); Ins (Msr Sys.VBAR_EL1 (X 0)); Ins Barrier;
    Ins (Mrs (X 0) Sys.CPACR_EL1); Ins (OrrI (X 0) (X 0) (Z.shiftl 3 20)); Ins (Msr Sys.CPACR_EL1 (X 0)); Ins Barrier;
    Ins (Bl icache_clean_invalidate); Ins (Bl dcache_l1_clean_invalidate); Ins (Bl dcache_l2_clean_invalidate);
    Ins (Mrs (X 0) Sys.SCTLR_EL1); Ins (OrrI (X 0) (X 0) (Z.shiftl 1 2)); Ins (OrrI (X 0) (X 0) (Z.shiftl 1 12));
    Ins (Msr Sys.SCTLR_EL1 (X 0)); Ins Barrier;
    Ins (LdrLit (X 16) (_rust_main y)); Ins (Br (X 16));
    Pool 10 ].

Definition rt_setup_code : list item :=
  [ Label rt_setup;
    Ins (LdrLit (X 0) (_bss_start y)); Ins (LdrLit (X 1) (_bss_end y)); Ins (Sub (X 2) (X 1) (X 0));
    Ins (CmpI (X 2) 0); Ins (Bcond EQ rt_setup_2);
    Label rt_setup_1;
    Ins (StrbPost XZR (X 0) 1); Ins (SubI (X 2) (X 2) 1); Ins (CmpI (X 2) 0); Ins (Bcond NE rt_setup_1);
    Label rt_setup_2;
    Ins Ret;
    Pool 2 ].

Definition icache_code : list item :=
  [ Label icache_clean_invalidate; Ins Barrier; Ins Barrier; Ins Barrier; Ins Ret; Pool 0 ].

(** After the selection of the cache the two routines are the same. *)
Definition dcache_loops (outer inner : label) : list item :=
  [ Ins (MrsCCSIDR (X 4)); Ins (AndI (X 1) (X 4) 7); Ins (AddI (X 1) (X 1) 4);
    Ins (LdrLit (X 3) 0x7FFF); Ins (AndLsr (X 2) (X 3) (X 4) 13);
    Ins (LdrLit (X 3) 0x3FF); Ins (AndLsr (X 3) (X 3) (X 4) 3);
    Ins (ClzW (X 4) (X 3)); Ins (MovI (X 5) 0);
    Label outer;
    Ins (MovI (X 6) 0);
    Label inner;
    Ins (Lsl (X 7) (X 5) (X 4)); Ins (Orr (X 7) (X 0) (X 7)); Ins (Lsl (X 8) (X 6) (X 1)); Ins (Orr (X 7) (X 7) (X 8));
    Ins Barrier;
    Ins (AddI (X 6) (X 6) 1); Ins (Cmp (X 6) (X 2)); Ins (Bcond LE inner);
    Ins (AddI (X 5) (X 5) 1); Ins (Cmp (X 5) (X 3)); Ins (Bcond LE outer);
    Ins Barrier; Ins Barrier; Ins Ret;
    Pool 2 ].

Definition dcache_l1_code : list item :=
  [ Label dcache_l1_clean_invalidate; Ins (Mov (X 0) XZR); Ins (Msr Sys.CSSELR_EL1 (X 0)) ] ++
  dcache_loops dcache_l1_1 dcache_l1_2.

Definition dcache_l2_code : list item :=
  [ Label dcache_l2_clean_invalidate; Ins (Mov (X 0) XZR); Ins (OrrI (X 0) (X 0) (Z.shiftl 1 1)); Ins (Msr Sys.CSSELR_EL1 (X 0)) ] ++
  dcache_loops dcache_l2_1 dcache_l2_2.

Definition entry_S : list item :=
  start_code ++ rt_setup_code ++ icache_code ++ dcache_l1_code ++ dcache_l2_code.
End Code.

(** ** Where it is *)

(** linker.ld puts [.text.boot] at the start of the image. *)
Definition IMAGE : Z := 0x80000.

Definition item_end (a : Z) (x : item) : Z :=
  match x with Label _ => a | Ins _ => a + 4 | Pool O => a | Pool n => (a + 7) / 8 * 8 + 8 * Z.of_nat n end.

Fixpoint find_label (a : Z) (l : label) (code : list item) : option Z :=
  match code with
  | [] => None
  | x :: code' =>
      match x with Label l' => if decide (l = l') then Some a else find_label a l code' | _ => find_label (item_end a x) l code' end
  end.
Fixpoint find_ins (a b : Z) (code : list item) : option (instr label) :=
  match code with
  | [] => None
  | x :: code' => match x with Ins i => if a =? b then Some i else find_ins (a + 4) b code' | _ => find_ins (item_end a x) b code' end
  end.

(** No label depends on the symbols. *)
Definition label_addr (l : label) : Z := default 0 (find_label IMAGE l (entry_S (mk_symbols 0 0 0 0 0 0 0 0 0 0 0))).
Definition fetch (y : symbols) (a : Z) : option (instr label) := find_ins IMAGE a (entry_S y).

(** ** The translation in force *)

(** Bits 47..30 of a level-1 block descriptor. *)
Definition BLOCK1_ADDR_MASK : Z := 2 ^ 48 - 2 ^ 30.

(** A walk that starts at level 1. *)
Definition walk (m : mem) (base va : Z) : option Z :=
  let e1 := read64 m (base + 8 * l1_index va) in
  if Z.land e1 3 =? 1 then Some (Z.land e1 BLOCK1_ADDR_MASK + va mod 2 ^ 30)
  else if Z.land e1 3 =? 3 then
    let e2 := read64 m (Z.land e1 PTE_ADDR_MASK + 8 * l2_index va) in
    if Z.land e2 3 =? 1 then Some (Z.land e2 BLOCK_ADDR_MASK + va mod 2 ^ 21)
    else if Z.land e2 3 =? 3 then
      let e3 := read64 m (Z.land e2 PTE_ADDR_MASK + 8 * l3_index va) in
      if Z.land e3 3 =? 3 then Some (Z.land e3 PTE_ADDR_MASK + va mod 2 ^ 12) else None
    else None
  else None.

(** At EL2 there is none; at EL1 it is on when SCTLR_EL1.M is set. *)
Definition tr (c : cpu) (va : Z) : option Z :=
  if (el c =? 2) || negb (Z.testbit (sys c Sys.SCTLR_EL1) 0) then Some va
  else
    let t1 := Z.land (Z.shiftr (sys c Sys.TCR_EL1) 16) 0x3F in
    let t0 := Z.land (sys c Sys.TCR_EL1) 0x3F in
    if Z.shiftr va (64 - t1) =? 2 ^ t1 - 1 then walk (cmem c) (Z.land (sys c Sys.TTBR1_EL1) PTE_ADDR_MASK) va
    else if Z.shiftr va (64 - t0) =? 0 then walk (cmem c) (Z.land (sys c Sys.TTBR0_EL1) PTE_ADDR_MASK) va
    else None.

(** ** Running it *)

Section Machine.
  Context (y : symbols) (ccsidr : Z -> Z).

Definition step (c : cpu) : option cpu := pa ← tr c (pc c); i ← fetch y pa; exec label_addr tr ccsidr i c.
Fixpoint steps (n : nat) (c : cpu) : option cpu :=
  match n with O => Some c | S n' => c' ← step c; steps n' c' end.

Definition reaches (c : cpu) (P : cpu -> Prop) : Prop := exists n c', steps n c = Some c' /\ P c'.

Lemma reaches_here c (P : cpu -> Prop) : P c -> reaches c P.
Proof. intros H. now exists O, c. Qed.

Lemma reaches_step c c1 P : step c = Some c1 -> reaches c1 P -> reaches c P.
Proof. intros H (n & c' & Hn & HP). exists (S n), c'. cbn. rewrite H. auto. Qed.

Lemma reaches_trans c P Q : reaches c P -> (forall c1, P c1 -> reaches c1 Q) -> reaches c Q.
Proof.
  intros (n & c' & Hn & HP) H. revert c Hn. induction n as [|n IH]; intros c Hn; cbn in Hn.
  - injection Hn as ->. auto.
  - destruct (step c) as [c1|] eqn:E; [|discriminate]. exact (reaches_step c c1 Q E (IH c1 Hn)).
Qed.

(** The instructions at an address, as far as the list [il] goes. *)
Definition code_at (a : Z) (il : list (instr label)) : Prop :=
  forall k i, il !! k = Some i -> fetch y (a + 4 * Z.of_nat k) = Some i.

Lemma code_at_list a il : (fun k => fetch y (a + 4 * Z.of_nat k)) <$> seq 0 (length il) = Some <$> il -> code_at a il.
Proof.
  intros H k i Hk. pose proof (lookup_lt_Some _ _ _ Hk) as Hlt.
  assert (((fun k => fetch y (a + 4 * Z.of_nat k)) <$> seq 0 (length il)) !! k = (Some <$> il) !! k) as E by now rewrite H.
  rewrite !list_lookup_fmap, lookup_seq_lt, Hk in E by exact Hlt. now injection E as E.
Qed.

(** A run of instructions under an invariant [I] that they keep. *)
Section Block.
  Context (I : cpu -> Prop) (good : instr label -> bool).
  Context (I_fetch : forall c a, I c -> IMAGE <= a < IMAGE + 0x400 -> tr c a = Some a).
  Context (I_keep : forall i c c', good i = true -> I c -> exec label_addr tr ccsidr i c = Some c' ->
    I c' /\ pc c' = add64 (pc c) 4).

Lemma one_step i c c' :
  I c -> IMAGE <= pc c < IMAGE + 0x400 -> fetch y (pc c) = Some i -> exec label_addr tr ccsidr i c = Some c' ->
  step c = Some c'.
Proof. intros HI Hpc Hf He. unfold step. rewrite (I_fetch c _ HI Hpc). cbn [mbind option_bind]. rewrite Hf. exact He. Qed.

Lemma block il c c' a (P : cpu -> Prop) :
  forallb good il = true -> I c -> pc c = a -> IMAGE <= a -> a + 4 * Z.of_nat (length il) <= IMAGE + 0x400 ->
  code_at a il -> exec_all label_addr tr ccsidr il c = Some c' ->
  (I c' -> pc c' = a + 4 * Z.of_nat (length il) -> reaches c' P) -> reaches c P.
Proof.
  revert c a. induction il as [|i il IH]; intros c a Hg HI Hpc Hlo Hhi Hc He HP; cbn [length exec_all forallb] in *.
  - injection He as ->. apply HP; [exact HI|lia].
  - apply andb_true_iff in Hg as [Hi Hg]. destruct (exec _ _ _ i c) as [c1|] eqn:E1; [|discriminate]. cbn in He.
    destruct (I_keep i c c1 Hi HI E1) as [HI1 Hpc1].
    apply (reaches_step c c1).
    { apply (one_step i); auto; [unfold IMAGE in *; lia|]. rewrite Hpc. specialize (Hc 0%nat i eq_refl). now rewrite Z.add_0_r in Hc. }
    rewrite Hpc in Hpc1. rewrite add64_small in Hpc1 by (unfold IMAGE, U64 in *; lia).
    apply (IH c1 (a + 4)); auto; try lia.
    + intros k j Hk. specialize (Hc (S k) j Hk). rewrite <- Hc. f_equal. lia.
    + intros HI' Hpc'. apply HP; [exact HI'|]. lia.
Qed.
End Block.
End Machine.
