(* ===== verification/StartSpec.v ===== *)
(** What the boot assembly of Start does: the memory it links up, the loops that
    zero the BSS and walk the caches, and the whole path from [_start] to
    [_rust_main]. *)

From Stdlib Require Import ZArith Lia.
From stdpp Require Import base strings numbers list.
From S2P Require Import Prelude Memory Frames PageTable KernelMap A64 Start.

Local Open Scope Z_scope.

(** ** What an instruction keeps *)

Definition flow (i : instr label) : bool :=
  match i with B _ | Bcond _ _ | Bl _ | Br _ | Ret | Eret => true | _ => false end.
Definition stores (i : instr label) : bool :=
  match i with Str _ _ _ | Stp _ _ _ _ | Strb _ _ _ | StrbPost _ _ _ => true | _ => false end.
Definition sets (r : Sys.sysreg) (i : instr label) : bool := match i with Msr s _ => bool_decide (s = r) | _ => false end.
Definition stack_pointer (r : Sys.sysreg) : bool := match r with Sys.SP_EL0 | Sys.SP_EL1 | Sys.SP_EL2 => true | _ => false end.

Lemma el_of_flags p a b : el_of (set_nzcv (nzcv a b) p) = el_of p /\ sp_of (set_nzcv (nzcv a b) p) = sp_of p /\
  (forall i, 0 <= i < 28 -> Z.testbit (set_nzcv (nzcv a b) p) i = Z.testbit p i).
Proof.
  assert (exists f, nzcv a b = Z.shiftl f 28) as [f Hf].
  { unfold nzcv. destruct (Z.testbit _ 63), (_ =? 0), (_ <=? _), (_ && _);
      (eexists; match goal with |- ?v = _ => let w := eval vm_compute in (v / 2 ^ 28) in instantiate (1 := w) end; reflexivity). }
  assert (forall i, 0 <= i < 28 -> Z.testbit (set_nzcv (nzcv a b) p) i = Z.testbit p i) as Hb.
  { intros i Hi. unfold set_nzcv. rewrite Hf, Z.lor_spec, Z.shiftl_spec, land_mask_low by lia.
    rewrite Z.mod_pow2_bits_low by lia. rewrite (Z.testbit_neg_r f) by lia. now rewrite orb_false_r. }
  assert (el_of (set_nzcv (nzcv a b) p) = el_of p) as He.
  { unfold el_of. change 3 with (2 ^ 2 - 1). rewrite !land_mask_low by lia. apply Z.bits_inj'. intros i Hi.
    destruct (Z.ltb_spec i 2).
    - rewrite !Z.mod_pow2_bits_low, !Z.shiftr_spec by lia. apply Hb. lia.
    - now rewrite !Z.mod_pow2_bits_high by lia. }
  split; [exact He|]. split; [|exact Hb]. unfold sp_of. now rewrite He, Hb by lia.
Qed.

Lemma put_keeps d v c :
  pc (put d v c) = pc c /\ pstate (put d v c) = pstate c /\ cmem (put d v c) = cmem c /\
  (forall r, stack_pointer r = false -> sys (put d v c) r = sys c r).
Proof.
  destruct d; cbn -[decide]; repeat split; try reflexivity. intros r Hr.
  rewrite decide_False; [reflexivity|]. intros ->. unfold sp_reg, sp_of in Hr.
  destruct (Z.testbit _ 0); [destruct (_ =? 2)|]; discriminate.
Qed.

Section Keeps.
  Context (ccsidr : Z -> Z).

(** The state after an instruction that does not branch. *)
Record kept (i : instr label) (c c' : cpu) : Prop := {
  kp_pc : pc c' = add64 (pc c) 4;
  kp_el : el c' = el c;
  kp_sp : sp_reg c' = sp_reg c;
  kp_bits : forall b, 0 <= b < 28 -> Z.testbit (pstate c') b = Z.testbit (pstate c) b;
  kp_sys : forall r, stack_pointer r = false -> sets r i = false -> sys c' r = sys c r;
  kp_mem : stores i = false -> cmem c' = cmem c;
}.

Lemma kept_put i d v c : kept i c (next (put d v c)).
Proof.
  destruct (put_keeps d v c) as (E1 & E2 & E3 & E4).
  split; unfold el, sp_reg; cbn [next set_pc pc pstate sys cmem]; rewrite ?E1, ?E2; auto.
Qed.

Lemma kept_flags i a b c : kept i c (next (set_pstate (set_nzcv (nzcv a b) (pstate c)) c)).
Proof.
  destruct (el_of_flags (pstate c) a b) as (E1 & E2 & E3).
  split; unfold el, sp_reg; cbn [next set_pc set_pstate pc pstate sys cmem]; auto.
Qed.

Lemma kept_mem i m c c' : stores i = true -> kept i (set_cmem m c) c' -> kept i c c'.
Proof. intros Hs [H1 H2 H3 H4 H5 H6]. split; auto. rewrite Hs. discriminate. Qed.

Lemma kept_store i m c : stores i = true -> kept i c (next (set_cmem m c)).
Proof. intros Hs. apply (kept_mem i m _ _ Hs). now split. Qed.

Lemma kept_msr r v n c : kept (Msr r n) c (next (set_sys r v c)).
Proof.
  split; try reflexivity. intros q _ Hq. cbn -[decide] in *. rewrite decide_False; [reflexivity|].
  intros ->. now rewrite bool_decide_eq_true_2 in Hq.
Qed.

Lemma kept_pair i d1 v1 d2 v2 c : kept i c (next (put d2 v2 (put d1 v1 c))).
Proof.
  destruct (kept_put i d2 v2 (put d1 v1 c)) as [H1 H2 H3 H4 H5 H6]. destruct (put_keeps d1 v1 c) as (E1 & E2 & E3 & E4).
  unfold el, sp_reg in *. rewrite E1 in H1. rewrite E2 in *. rewrite E3 in H6.
  split; auto. intros r Hr Hs. now rewrite H5, E4.
Qed.

Lemma exec_kept i c c' : flow i = false -> exec label_addr tr ccsidr i c = Some c' -> kept i c c'.
Proof.
  intros Hf He. destruct i; try discriminate Hf; cbn [exec] in He; unfold store64, store in He;
    repeat match type of He with (_ ← _; _) = Some _ => apply bind_Some in He as (? & ? & He) end;
    repeat match goal with H : (_ ← _; Some _) = Some _ |- _ => apply bind_Some in H as (? & ? & [= <-]) end;
    injection He as <-;
    first [ apply kept_put | apply kept_flags | apply kept_pair | apply kept_msr
          | now apply kept_store | now split
          | (eapply kept_mem; [reflexivity|]; first [apply kept_put|now apply kept_store]) ].
Qed.
End Keeps.

(** ** The image and its addresses *)

(** [x7] masks a link-time address to its physical one. *)
Definition phys (s : Z) : Z := Z.land s 0x3FFFFFFF.

Definition linked (s : Z) : Prop := KERNEL_BASE <= s < KERNEL_BASE + 2 ^ 30.

(** What linker.ld promises: constants, then the first level, then the
    second level, then the BSS. *)
Record layout_ok (y : symbols) : Prop := {
  lo_linked : Forall linked [TCR_EL1_VALUE y; MAIR_EL1_VALUE y; SCTLR_EL1_ENABLE_MMU y; PAGE_TABLE_KERNEL_L1 y;
    PAGE_TABLE_KERNEL_L2_0 y; PAGE_TABLE_KERNEL_L2_1 y; _stack_top y; _bss_start y; _bss_end y; el1_vectors y; _rust_main y];
  lo_aligned : Forall (fun s => s mod 4096 = 0) [PAGE_TABLE_KERNEL_L1 y; PAGE_TABLE_KERNEL_L2_0 y; PAGE_TABLE_KERNEL_L2_1 y];
  lo_constants : SCTLR_EL1_ENABLE_MMU y + 8 <= PAGE_TABLE_KERNEL_L1 y;
  lo_l2_0 : PAGE_TABLE_KERNEL_L1 y + 4096 <= PAGE_TABLE_KERNEL_L2_0 y /\ PAGE_TABLE_KERNEL_L2_0 y + 4096 <= _bss_start y;
  lo_l2_1 : PAGE_TABLE_KERNEL_L1 y + 4096 <= PAGE_TABLE_KERNEL_L2_1 y /\ PAGE_TABLE_KERNEL_L2_1 y + 4096 <= _bss_start y;
  lo_bss : _bss_start y <= _bss_end y;
}.

Definition table_at (m : mem) (base : Z) (t : list Z) : Prop :=
  forall i e, t !! i = Some e -> read64 m (base + 8 * Z.of_nat i) = e.

(** The statics of paging.rs as the image has them: the first level is zero. *)
Record loaded (y : symbols) (m : mem) : Prop := {
  ld_tcr : read64 m (phys (TCR_EL1_VALUE y)) = KernelMap.TCR_EL1_VALUE;
  ld_mair : read64 m (phys (MAIR_EL1_VALUE y)) = KernelMap.MAIR_EL1_VALUE;
  ld_sctlr : read64 m (phys (SCTLR_EL1_ENABLE_MMU y)) = KernelMap.SCTLR_EL1_ENABLE_MMU;
  ld_l1 : table_at m (phys (PAGE_TABLE_KERNEL_L1 y)) (replicate 512 0);
  ld_l2_0 : table_at m (phys (PAGE_TABLE_KERNEL_L2_0 y)) kernel_l2_0;
  ld_l2_1 : table_at m (phys (PAGE_TABLE_KERNEL_L2_1 y)) kernel_l2_1;
}.

(** The tables once the first level is linked up. *)
Definition linked_l1 (y : symbols) : list Z :=
  Z.lor (phys (PAGE_TABLE_KERNEL_L2_0 y)) 3 :: Z.lor (phys (PAGE_TABLE_KERNEL_L2_1 y)) 3 :: replicate 510 0.
Record tables (y : symbols) (m : mem) : Prop := {
  tb_l1 : table_at m (phys (PAGE_TABLE_KERNEL_L1 y)) (linked_l1 y);
  tb_l2_0 : table_at m (phys (PAGE_TABLE_KERNEL_L2_0 y)) kernel_l2_0;
  tb_l2_1 : table_at m (phys (PAGE_TABLE_KERNEL_L2_1 y)) kernel_l2_1;
}.

Lemma phys_linked s : linked s -> phys s = s - KERNEL_BASE /\ ttbr1_to_va (phys s) = s.
Proof.
  intros Hs. unfold linked, KERNEL_BASE in *. unfold phys. change 0x3FFFFFFF with (2 ^ 30 - 1).
  rewrite land_mask_low by lia.
  assert (s mod 2 ^ 30 = s - 0xffffff8000000000) as E
    by (symmetry; apply (Z.mod_unique_pos s (2 ^ 30) 0x3fffffe00); lia).
  rewrite E. split; [reflexivity|].
  rewrite ttbr1_to_va_add by lia. unfold KERNEL_BASE. lia.
Qed.

Ltac in_list := repeat first [apply list_elem_of_here | apply list_elem_of_further].

Lemma linked_frame y s : layout_ok y -> s ∈ [PAGE_TABLE_KERNEL_L1 y; PAGE_TABLE_KERNEL_L2_0 y; PAGE_TABLE_KERNEL_L2_1 y] ->
  linked s /\ frame_pa (phys s).
Proof.
  intros [Hl Ha _ _ _ _] Hs. rewrite Forall_forall in Hl, Ha.
  assert (linked s) as H.
  { apply Hl. do 3 apply list_elem_of_further. repeat (apply elem_of_cons in Hs as [->|Hs]; [in_list|]). now apply not_elem_of_nil in Hs. }
  split; [exact H|].
  destruct (phys_linked s H) as [-> _]. specialize (Ha s Hs). unfold linked, KERNEL_BASE in *.
  split; [lia|]. change 0xffffff8000000000 with (0xffffff8000000 * 4096).
  rewrite Zminus_mod, Z.mod_mul, Ha by lia. reflexivity.
Qed.

(** ** What the tables translate *)

Lemma l2_blocks t d i : t ∈ KernelMap.PAGE_TABLE_KERNEL_L1 -> t !! i = Some d -> Z.land d 3 = 1.
Proof.
  intros Ht Hd.
  assert (forallb (fun d => Z.land d 3 =? 1) (kernel_l2_0 ++ kernel_l2_1) = true) as H by (vm_compute; reflexivity).
  rewrite forallb_forall in H. apply Z.eqb_eq, H. apply in_or_app. apply list_elem_of_lookup_2 in Hd.
  apply list_elem_of_In in Hd. unfold KernelMap.PAGE_TABLE_KERNEL_L1 in Ht.
  apply elem_of_cons in Ht as [->|Ht]; [auto|]. apply list_elem_of_singleton in Ht as ->. auto.
Qed.

Lemma walk_tables y m va : layout_ok y -> tables y m ->
  walk m (phys (PAGE_TABLE_KERNEL_L1 y)) va =
    t ← KernelMap.PAGE_TABLE_KERNEL_L1 !! Z.to_nat (l1_index va);
    d ← t !! Z.to_nat (l2_index va);
    if Z.land d 3 =? 1 then Some (Z.land d BLOCK_ADDR_MASK + va mod 2 ^ 21) else None.
Proof.
  intros Hy [H1 H2 H3].
  destruct (linked_frame y (PAGE_TABLE_KERNEL_L2_0 y) Hy ltac:(in_list)) as [_ F0].
  destruct (linked_frame y (PAGE_TABLE_KERNEL_L2_1 y) Hy ltac:(in_list)) as [_ F1].
  pose proof (index_range _ : 0 <= l1_index va < 512) as R1. pose proof (index_range _ : 0 <= l2_index va < 512) as R2.
  unfold walk.
  assert (forall s t, frame_pa (phys s) -> table_at m (phys s) t -> length t = 512%nat -> t ∈ KernelMap.PAGE_TABLE_KERNEL_L1 ->
    let e2 := read64 m (Z.land (Z.lor (phys s) 3) PTE_ADDR_MASK + 8 * l2_index va) in
    exists d, t !! Z.to_nat (l2_index va) = Some d /\ e2 = d /\ Z.land d 3 = 1) as Hl2.
  { intros s t Hf Ht Hlen Hin. change (Z.land (Z.lor (phys s) 3) PTE_ADDR_MASK) with (entry_pa (Z.lor (phys s) 3)).
    rewrite entry_pa_lor by auto.
    destruct (lookup_lt_is_Some_2 t (Z.to_nat (l2_index va))) as [d Hd]; [lia|]. exists d. split; [exact Hd|].
    specialize (Ht _ _ Hd). rewrite Z2Nat.id in Ht by lia. split; [exact Ht|]. exact (l2_blocks t d _ Hin Hd). }
  assert (forall s, frame_pa (phys s) -> Z.land (Z.lor (phys s) 3) 3 = 3) as Hv
    by (intros s Hs; apply Z.eqb_eq; exact (entry_valid_lor (phys s) 3 Hs eq_refl)).
  destruct (lookup_lt_is_Some_2 (linked_l1 y) (Z.to_nat (l1_index va))) as [e He];
    [unfold linked_l1; cbn [length]; rewrite length_replicate; lia|].
  pose proof (H1 _ _ He) as Hr. rewrite Z2Nat.id in Hr by lia. rewrite Hr.
  destruct (Z.to_nat (l1_index va)) as [|[|n]] eqn:En; unfold linked_l1 in He; cbn [lookup list_lookup] in He.
  - injection He as <-. destruct (Hl2 _ kernel_l2_0 F0 H2 eq_refl ltac:(now left)) as (d & Hd & E2 & E3).
    change (KernelMap.PAGE_TABLE_KERNEL_L1 !! 0%nat) with (Some kernel_l2_0). cbn [mbind option_bind].
    now rewrite E2, (Hv _ F0), E3, Hd; cbn [mbind option_bind]; rewrite E3.
  - injection He as <-. destruct (Hl2 _ kernel_l2_1 F1 H3 eq_refl ltac:(right; now left)) as (d & Hd & E2 & E3).
    change (KernelMap.PAGE_TABLE_KERNEL_L1 !! 1%nat) with (Some kernel_l2_1). cbn [mbind option_bind].
    now rewrite E2, (Hv _ F1), E3, Hd; cbn [mbind option_bind]; rewrite E3.
  - apply lookup_replicate in He as [-> _]. reflexivity.
Qed.

(** ** Translation during the boot *)

(** Before SCTLR_EL1 is written no address is translated. *)
Definition mmu_off (c : cpu) : Prop := el c = 2 \/ Z.testbit (sys c Sys.SCTLR_EL1) 0 = false.

Lemma off_tr c a : mmu_off c -> tr c a = Some a.
Proof. intros [H|H]; unfold tr; rewrite H; [reflexivity|]. now rewrite orb_true_r. Qed.

(** From then on, at EL1, both halves are translated by the kernel's tables. *)
Record mapped (y : symbols) (c : cpu) : Prop := {
  mp_el : el c = 1 \/ el c = 2;
  mp_tables : tables y (cmem c);
  mp_tcr : sys c Sys.TCR_EL1 = KernelMap.TCR_EL1_VALUE;
  mp_ttbr0 : sys c Sys.TTBR0_EL1 = phys (PAGE_TABLE_KERNEL_L1 y);
  mp_ttbr1 : sys c Sys.TTBR1_EL1 = phys (PAGE_TABLE_KERNEL_L1 y);
  mp_mmu : Z.testbit (sys c Sys.SCTLR_EL1) 0 = true;
}.

Lemma upper_half va : KERNEL_BASE <= va < 2 ^ 64 -> Z.shiftr va (64 - T1SZ) = 2 ^ T1SZ - 1.
Proof.
  intros H. unfold KERNEL_BASE in H. change T1SZ with 25. rewrite Z.shiftr_div_pow2 by lia.
  symmetry. apply (Z.div_unique_pos va _ _ (va - 0xffffff8000000000)); lia.
Qed.

Section Mapped.
  Context (y : symbols) (Hy : layout_ok y) (c : cpu) (Hm : mapped y c).

Lemma root_masked : Z.land (phys (PAGE_TABLE_KERNEL_L1 y)) PTE_ADDR_MASK = phys (PAGE_TABLE_KERNEL_L1 y).
Proof. destruct (linked_frame y (PAGE_TABLE_KERNEL_L1 y) Hy ltac:(in_list)) as [_ F]. exact (entry_pa_frame _ F). Qed.

Lemma mapped_upper va : el c = 1 -> KERNEL_BASE <= va < 2 ^ 64 -> tr c va = kernel_translate va.
Proof.
  intros Hel Hva. destruct Hm as [_ H1 H2 H3 H4 H5]. unfold tr. rewrite Hel, H5, H2, H4, root_masked. cbn [Z.eqb Pos.eqb orb negb].
  change (Z.land (Z.shiftr KernelMap.TCR_EL1_VALUE 16) 0x3F) with T1SZ. unfold kernel_translate.
  rewrite upper_half, Z.eqb_refl by exact Hva. exact (walk_tables y (cmem c) va Hy H1).
Qed.

Lemma mapped_low a : 0 <= a < 2 ^ 31 -> tr c a = Some a.
Proof.
  intros Ha. destruct Hm as [[Hel|Hel] H1 H2 H3 H4 H5]; [|apply off_tr; now left].
  unfold tr. rewrite Hel, H5, H2, H3, H4, root_masked. cbn [Z.eqb Pos.eqb orb negb].
  change (Z.land (Z.shiftr KernelMap.TCR_EL1_VALUE 16) 0x3F) with 25. change (Z.land KernelMap.TCR_EL1_VALUE 0x3F) with 25.
  change (64 - 25) with 39. assert (Z.shiftr a 39 = 0) as -> by (rewrite Z.shiftr_div_pow2, Z.div_small by lia; reflexivity).
  change (0 =? 2 ^ 25 - 1) with false. change (0 =? 0) with true. cbn match.
  rewrite (walk_tables y (cmem c) a Hy H1). destruct (l2_block a Ha) as (t & d & Ht & Hd & Hb).
  assert (l1_index a = a / 2 ^ 30 /\ l2_index a = a / 2 ^ 21 mod 512) as [-> ->].
  { unfold l1_index, l2_index. change 0x1FF with (2 ^ 9 - 1). rewrite !land_mask_low, !Z.shiftr_div_pow2 by lia.
    split; [|reflexivity]. apply Z.mod_small. split; [apply Z.div_pos; lia|]. apply Z.div_lt_upper_bound; lia. }
  rewrite Ht. cbn [mbind option_bind]. rewrite Hd. cbn [mbind option_bind].
  unfold block_ok in Hb. rewrite !andb_true_iff in Hb. destruct Hb as ((((((B1 & B2) & _) & _) & _) & _) & _).
  rewrite B1. apply Z.eqb_eq in B2. rewrite B2. f_equal. pose proof (Z.div_mod a (2 ^ 21) ltac:(lia)). lia.
Qed.
End Mapped.

(** Both are kept by the instructions the boot runs in a row. *)
Definition good_off (i : instr label) : bool := negb (flow i) && negb (sets Sys.SCTLR_EL1 i).
Definition good_on (i : instr label) : bool :=
  negb (flow i) && negb (stores i) &&
  forallb (fun r => negb (sets r i)) [Sys.SCTLR_EL1; Sys.TCR_EL1; Sys.TTBR0_EL1; Sys.TTBR1_EL1].

Lemma off_keep ccsidr i c c' : good_off i = true -> mmu_off c -> exec label_addr tr ccsidr i c = Some c' ->
  mmu_off c' /\ pc c' = add64 (pc c) 4.
Proof.
  intros Hg Ho He. apply andb_true_iff in Hg as [H1 H2]. apply negb_true_iff in H1, H2.
  destruct (exec_kept ccsidr i c c' H1 He) as [K1 K2 _ _ K3 _]. split; [|exact K1].
  unfold mmu_off in *. now rewrite K2, K3.
Qed.

Lemma mapped_keep y ccsidr i c c' : good_on i = true -> mapped y c -> exec label_addr tr ccsidr i c = Some c' ->
  mapped y c' /\ pc c' = add64 (pc c) 4.
Proof.
  intros Hg [M1 M2 M3 M4 M5 M6] He. unfold good_on in Hg. cbn [forallb] in Hg. rewrite !andb_true_iff, !negb_true_iff in Hg.
  destruct Hg as ((H1 & H2) & H3 & H4 & H5 & H6 & _).
  destruct (exec_kept ccsidr i c c' H1 He) as [K1 K2 _ _ K3 K4]. split; [|exact K1].
  split; rewrite ?K2, ?K4 by exact H2; auto; now rewrite K3.
Qed.

(** The boot code in a row, before and after. *)
Lemma run_off y ccsidr il c c' a P :
  forallb good_off il = true -> mmu_off c -> pc c = a -> IMAGE <= a -> a + 4 * Z.of_nat (length il) <= IMAGE + 0x400 ->
  code_at y a il -> exec_all label_addr tr ccsidr il c = Some c' ->
  (mmu_off c' -> pc c' = a + 4 * Z.of_nat (length il) -> reaches y ccsidr c' P) -> reaches y ccsidr c P.
Proof.
  apply block; [intros; now apply off_tr|]. exact (off_keep ccsidr).
Qed.

Lemma run_on y ccsidr il c c' a P :
  layout_ok y -> forallb good_on il = true -> mapped y c -> pc c = a -> IMAGE <= a ->
  a + 4 * Z.of_nat (length il) <= IMAGE + 0x400 ->
  code_at y a il -> exec_all label_addr tr ccsidr il c = Some c' ->
  (mapped y c' -> pc c' = a + 4 * Z.of_nat (length il) -> reaches y ccsidr c' P) -> reaches y ccsidr c P.
Proof.
  intros Hy. apply block; [|exact (mapped_keep y ccsidr)].
  intros c0 b Hb Hr. apply (mapped_low y Hy c0 Hb). unfold IMAGE in Hr. lia.
Qed.

(** With no translation an address names itself. *)
Definition untranslated (c : cpu) (va : Z) : option Z := Some va.

Definition pairs (i : instr label) : bool := match i with Ldp _ _ _ _ | Stp _ _ _ _ => true | _ => false end.

Lemma exec_off ccsidr i c : mmu_off c -> pairs i = false -> exec label_addr tr ccsidr i c = exec label_addr untranslated ccsidr i c.
Proof.
  intros Ho Hp. destruct i; try reflexivity; try discriminate Hp; cbn [exec]; unfold load64, store64, store; now rewrite off_tr.
Qed.

Lemma exec_all_off ccsidr il c : forallb (fun i => good_off i && negb (pairs i)) il = true -> mmu_off c ->
  exec_all label_addr tr ccsidr il c = exec_all label_addr untranslated ccsidr il c.
Proof.
  revert c. induction il as [|i il IH]; intros c Hg Ho; [reflexivity|]. cbn [forallb exec_all] in *.
  rewrite !andb_true_iff, negb_true_iff in Hg. destruct Hg as [[H1 H2] H3].
  rewrite <- exec_off by assumption. destruct (exec _ tr _ i c) as [c1|] eqn:E; [|reflexivity]. cbn.
  apply IH; [exact H3|]. exact (proj1 (off_keep _ _ _ _ H1 Ho E)).
Qed.

(** ** The code before the MMU is on *)

Definition instructions (code : list item) : list (instr label) := omap (fun x => match x with Ins i => Some i | _ => None end) code.

Section Setup.
  Context (y : symbols) (ccsidr : Z -> Z).
  Local Abbreviation exec_flat := (exec_all label_addr untranslated ccsidr).

(** CPUACTLR_EL1, TCR_EL1 and MAIR_EL1 *)
Lemma setup_registers c : exists c', exec_flat (take 13 (instructions (start_code y))) c = Some c' /\
  gpr c' 7 = 0x3FFFFFFF /\ cmem c' = cmem c /\ pstate c' = pstate c /\
  sys c' Sys.TCR_EL1 = read64 (cmem c) (add64 (phys (TCR_EL1_VALUE y)) 0) /\
  sys c' Sys.MAIR_EL1 = read64 (cmem c) (add64 (phys (MAIR_EL1_VALUE y)) 0) /\
  (forall r, r ∉ [Sys.CPUACTLR_EL1; Sys.TCR_EL1; Sys.MAIR_EL1] -> sys c' r = sys c r).
Proof.
  destruct c as [g s p q m]. eexists. split; [reflexivity|]. do 5 (split; [reflexivity|]).
  intros r Hr. destruct r; try reflexivity; destruct Hr; in_list.
Qed.

(** The two entries of the first level *)
Lemma setup_tables c : gpr c 7 = 0x3FFFFFFF ->
  exists c', exec_flat (take 12 (drop 13 (instructions (start_code y)))) c = Some c' /\
  gpr c' 7 = 0x3FFFFFFF /\ gpr c' 0 = phys (PAGE_TABLE_KERNEL_L1 y) /\ pstate c' = pstate c /\
  (forall r, sys c' r = sys c r) /\
  cmem c' = write64 (write64 (cmem c) (add64 (phys (PAGE_TABLE_KERNEL_L1 y)) 0) (Z.lor (phys (PAGE_TABLE_KERNEL_L2_0 y)) 3))
              (add64 (phys (PAGE_TABLE_KERNEL_L1 y)) 8) (Z.lor (phys (PAGE_TABLE_KERNEL_L2_1 y)) 3).
Proof.
  destruct c as [g s p q m]. intros H7. cbn in H7. eexists. split; [reflexivity|]. cbn -[write64 add64 phys].
  unfold phys. rewrite H7. auto 10.
Qed.

(** The roots, and the value that turns the MMU on *)
Lemma setup_roots c : gpr c 7 = 0x3FFFFFFF ->
  exists c', exec_flat (take 8 (drop 25 (instructions (start_code y)))) c = Some c' /\
  gpr c' 0 = Z.lor (sys c Sys.SCTLR_EL1) (read64 (cmem c) (add64 (phys (SCTLR_EL1_ENABLE_MMU y)) 0)) /\
  sys c' Sys.TTBR0_EL1 = gpr c 0 /\ sys c' Sys.TTBR1_EL1 = gpr c 0 /\ cmem c' = cmem c /\ pstate c' = pstate c /\
  (forall r, r ∉ [Sys.TTBR0_EL1; Sys.TTBR1_EL1] -> sys c' r = sys c r).
Proof.
  destruct c as [g s p q m]. intros H7. cbn in H7. eexists. split; [reflexivity|]. cbn -[read64 add64 phys decide].
  unfold phys. rewrite H7. do 5 (split; [reflexivity|]).
  intros r Hr. destruct r; try reflexivity; destruct Hr; in_list.
Qed.
End Setup.

(** Memory once the first level is linked up. *)
Definition linked_mem (y : symbols) (m : mem) : mem :=
  write64 (write64 m (phys (PAGE_TABLE_KERNEL_L1 y)) (Z.lor (phys (PAGE_TABLE_KERNEL_L2_0 y)) 3))
    (phys (PAGE_TABLE_KERNEL_L1 y) + 8) (Z.lor (phys (PAGE_TABLE_KERNEL_L2_1 y)) 3).

Lemma phys_all y : layout_ok y ->
  Forall (fun s => phys s = s - KERNEL_BASE /\ KERNEL_BASE <= s < KERNEL_BASE + 2 ^ 30)
    [TCR_EL1_VALUE y; MAIR_EL1_VALUE y; SCTLR_EL1_ENABLE_MMU y; PAGE_TABLE_KERNEL_L1 y;
     PAGE_TABLE_KERNEL_L2_0 y; PAGE_TABLE_KERNEL_L2_1 y; _stack_top y; _bss_start y; _bss_end y; el1_vectors y; _rust_main y].
Proof. intros [H _ _ _ _ _]. eapply Forall_impl; [exact H|]. intros s Hs. split; [now apply phys_linked|exact Hs]. Qed.

(** Where everything is, for [lia]. *)
Ltac addresses Hy :=
  let H := fresh in
  pose proof (phys_all _ Hy) as H; rewrite !Forall_cons in H; destruct H as
    ((?P1 & ?Q1) & (?P2 & ?Q2) & (?P3 & ?Q3) & (?P4 & ?Q4) & (?P5 & ?Q5) & (?P6 & ?Q6) & (?P7 & ?Q7) & (?P8 & ?Q8) &
     (?P9 & ?Q9) & (?P10 & ?Q10) & (?P11 & ?Q11) & _);
  pose proof (lo_constants _ Hy); pose proof (lo_l2_0 _ Hy); pose proof (lo_l2_1 _ Hy); pose proof (lo_bss _ Hy);
  unfold KERNEL_BASE in *.

Lemma linked_mem_out y m x : ~ (phys (PAGE_TABLE_KERNEL_L1 y) <= x < phys (PAGE_TABLE_KERNEL_L1 y) + 16) -> linked_mem y m x = m x.
Proof. intros H. unfold linked_mem. rewrite !write64_out by lia. reflexivity. Qed.

Lemma table_ext m m' base t :
  (forall x, base <= x < base + 8 * Z.of_nat (length t) -> m' x = m x) -> table_at m base t -> table_at m' base t.
Proof.
  intros Hx Ht i e Hi. pose proof (lookup_lt_Some _ _ _ Hi). rewrite (read64_ext m m'); [now apply Ht|].
  intros x H'. apply Hx. lia.
Qed.

Lemma tables_ext y m m' : layout_ok y ->
  (forall x, phys (PAGE_TABLE_KERNEL_L1 y) <= x < phys (_bss_start y) -> m' x = m x) -> tables y m -> tables y m'.
Proof.
  intros Hy Hx [T1 T2 T3]. addresses Hy.
  split; (eapply table_ext; [|eassumption]); intros x Hr; apply Hx.
  - change (8 * Z.of_nat (length (linked_l1 y))) with 4096 in Hr. lia.
  - change (8 * Z.of_nat (length kernel_l2_0)) with 4096 in Hr. lia.
  - change (8 * Z.of_nat (length kernel_l2_1)) with 4096 in Hr. lia.
Qed.

Lemma descriptor_u64 s : 0 <= phys s -> is_u64 (Z.lor (phys s) 3).
Proof.
  intros H. unfold phys in *. assert (0 <= Z.lor (Z.land s 0x3FFFFFFF) 3) as H0 by (apply Z.lor_nonneg; lia).
  split; [exact H0|]. change U64 with (2 ^ 64).
  assert (0 <= Z.land s 0x3FFFFFFF < 2 ^ 30) as Hr
    by (change 0x3FFFFFFF with (2 ^ 30 - 1); rewrite land_mask_low by lia; apply Z.mod_pos_bound; lia).
  pose proof (lor_bound 30 (Z.land s 0x3FFFFFFF) 3). lia.
Qed.

Lemma tables_linked y m : layout_ok y -> loaded y m -> tables y (linked_mem y m).
Proof.
  intros Hy [_ _ _ L1 L2 L3]. addresses Hy. split.
  - intros [|[|i]] e Hi.
    + injection Hi as <-. rewrite Z.add_0_r. unfold linked_mem. rewrite read64_write64_ne by lia.
      apply read64_write64_same, descriptor_u64. lia.
    + injection Hi as <-. unfold linked_mem. change (8 * Z.of_nat 1) with 8. apply read64_write64_same, descriptor_u64. lia.
    + unfold linked_l1 in Hi. cbn [lookup list_lookup] in Hi. apply lookup_replicate in Hi as [-> Hi].
      rewrite (read64_ext m); [|intros x Hx; apply linked_mem_out; lia].
      apply L1. apply lookup_replicate. split; [reflexivity|lia].
  - eapply table_ext; [|exact L2]. intros x Hx. apply linked_mem_out. lia.
  - eapply table_ext; [|exact L3]. intros x Hx. apply linked_mem_out. lia.
Qed.

Lemma add64_phys y s o : layout_ok y -> phys s < 2 ^ 30 -> 0 <= phys s -> 0 <= o <= 8 -> add64 (phys s) o = phys s + o.
Proof. intros _ H1 H2 Ho. apply add64_small. unfold U64. lia. Qed.

(** A list of instructions in a row, whose outcome is [X]. *)
Ltac not_in := let H := fresh in intros H; repeat (apply elem_of_cons in H as [H|H]; [discriminate|]); now apply not_elem_of_nil in H.
Ltac in_range := unfold Z.le; vm_compute; discriminate.
Ltac in_a_row_off il X Hpc :=
  eapply (run_off _ _ il); [reflexivity|eassumption|exact Hpc|in_range|in_range|apply code_at_list; reflexivity
    |rewrite exec_all_off; [exact X|reflexivity|eassumption]|].

(** From [_start] to the write of SCTLR_EL1. *)
Lemma boot_mmu y ccsidr c P :
  layout_ok y -> loaded y (cmem c) -> mmu_off c -> el c = 1 \/ el c = 2 -> pc c = IMAGE ->
  (forall c1, mapped y c1 -> pc c1 = IMAGE + 0x88 -> pstate c1 = pstate c -> cmem c1 = linked_mem y (cmem c) ->
    sys c1 Sys.MAIR_EL1 = KernelMap.MAIR_EL1_VALUE -> reaches y ccsidr c1 P) ->
  reaches y ccsidr c P.
Proof.
  intros Hy Hld Ho Hel Hpc HP. addresses Hy. pose proof (tables_linked y (cmem c) Hy Hld) as Ht. destruct Hld as [D1 D2 D3 _ _ _].
  destruct (setup_registers y ccsidr c) as (c1 & X1 & G7 & M1 & Ps1 & S1 & S2 & K1).
  in_a_row_off (take 13 (instructions (start_code y))) X1 Hpc. intros Ho1 Hpc1.
  destruct (setup_tables y ccsidr c1 G7) as (c2 & X2 & G7' & G0 & Ps2 & K2 & M2).
  in_a_row_off (take 12 (drop 13 (instructions (start_code y)))) X2 Hpc1. intros Ho2 Hpc2.
  destruct (setup_roots y ccsidr c2 G7') as (c3 & X3 & G0' & R0 & R1 & M3 & Ps3 & K3).
  in_a_row_off (take 8 (drop 25 (instructions (start_code y)))) X3 Hpc2. intros Ho3 Hpc3.
  assert (fetch y (pc c3) = Some (Msr Sys.SCTLR_EL1 (X 0))) as Hf by (rewrite Hpc3; reflexivity).
  assert (cmem c3 = linked_mem y (cmem c)) as Em.
  { rewrite M3, M2, M1. unfold linked_mem. rewrite !(add64_phys y) by (auto; lia). now rewrite Z.add_0_r. }
  assert (Z.testbit (gpr c3 0%nat) 0 = true) as Hbit.
  { rewrite G0', Z.lor_spec. rewrite (add64_phys y), Z.add_0_r by (auto; lia). rewrite <- M3, Em.
    rewrite (read64_ext (cmem c)), D3 by (intros x Hx; apply linked_mem_out; lia). apply orb_true_r. }
  eapply reaches_step.
  { unfold step. rewrite off_tr by exact Ho3. cbn [mbind option_bind]. rewrite Hf. reflexivity. }
  apply HP.
  - split; [|now change (tables y (cmem c3)); rewrite Em|change (sys c3 Sys.TCR_EL1 = KernelMap.TCR_EL1_VALUE)
      |change (sys c3 Sys.TTBR0_EL1 = phys (PAGE_TABLE_KERNEL_L1 y))
      |change (sys c3 Sys.TTBR1_EL1 = phys (PAGE_TABLE_KERNEL_L1 y))|exact Hbit].
    + unfold el. cbn [pstate next set_pc set_sys]. rewrite Ps3, Ps2, Ps1. exact Hel.
    + rewrite K3, K2, S1, (add64_phys y), Z.add_0_r by (auto; try lia; not_in). exact D1.
    + now rewrite R0.
    + now rewrite R1.
  - cbn [pc next set_pc set_sys]. rewrite Hpc3. reflexivity.
  - cbn [pstate next set_pc set_sys]. now rewrite Ps3, Ps2.
  - exact Em.
  - change (sys c3 Sys.MAIR_EL1 = KernelMap.MAIR_EL1_VALUE).
    rewrite K3, K2, S2, (add64_phys y), Z.add_0_r by (auto; try lia; not_in). exact D2.
Qed.

(** ** The change to EL1 *)

Lemma step_on y ccsidr i c c' :
  layout_ok y -> mapped y c -> IMAGE <= pc c < IMAGE + 0x400 -> fetch y (pc c) = Some i ->
  exec label_addr tr ccsidr i c = Some c' -> step y ccsidr c = Some c'.
Proof.
  intros Hy Hm Hr Hf He. apply (one_step y ccsidr (mapped y) (fun c a Hc Ha => mapped_low y Hy c Hc a ltac:(unfold IMAGE in Ha; lia)) i); auto.
Qed.

Lemma flag_bits p f i : 28 <= i -> Z.testbit (set_nzcv f p) i = Z.testbit f i.
Proof.
  intros Hi. unfold set_nzcv. rewrite Z.lor_spec, land_mask_low by lia. now rewrite Z.mod_pow2_bits_high by lia.
Qed.

(** A change of the PC, the flags or the general registers keeps the mapping. *)
Lemma mapped_same y c c' :
  mapped y c -> el c' = el c -> cmem c' = cmem c ->
  (forall r, r ∈ [Sys.TCR_EL1; Sys.TTBR0_EL1; Sys.TTBR1_EL1; Sys.SCTLR_EL1] -> sys c' r = sys c r) -> mapped y c'.
Proof.
  intros [M1 M2 M3 M4 M5 M6] E1 E2 E3. split; rewrite ?E1, ?E2; auto; rewrite E3 by in_list; assumption.
Qed.

(** What EL2 leaves behind: 64-bit code at EL1, the timer for EL1, no offset of the virtual counter. *)
Record el2_done (c : cpu) : Prop := {
  e2_hcr : sys c Sys.HCR_EL2 = Z.shiftl 1 31;
  e2_timer : Z.testbit (sys c Sys.CNTHCTL_EL2) 0 = true /\ Z.testbit (sys c Sys.CNTHCTL_EL2) 1 = true;
  e2_offset : sys c Sys.CNTVOFF_EL2 = 0;
  e2_masked : forall b, 6 <= b <= 9 -> Z.testbit (pstate c) b = true;
}.

(** One instruction of the code, and several in a row that neither branch nor store. *)
Tactic Notation "step_by" constr(y) constr(ccsidr) uconstr(i) constr(Hm) constr(Hpc) :=
  eapply reaches_step;
  [ eapply (step_on y ccsidr i);
      [assumption|exact Hm|rewrite Hpc; split; [in_range|reflexivity]|rewrite Hpc; reflexivity|reflexivity] |].
Tactic Notation "in_a_row" constr(y) constr(ccsidr) uconstr(il) constr(Hpc) :=
  eapply (run_on y ccsidr il);
    [assumption|reflexivity|eassumption|exact Hpc|in_range|in_range|apply code_at_list; reflexivity|reflexivity|].

Lemma jump_to_transition y ccsidr c P :
  layout_ok y -> mapped y c -> pc c = IMAGE + 0x88 ->
  (forall c1, mapped y c1 -> pc c1 = IMAGE + 0x94 -> pstate c1 = pstate c -> cmem c1 = cmem c ->
    (forall r, sys c1 r = sys c r) -> reaches y ccsidr c1 P) -> reaches y ccsidr c P.
Proof.
  intros Hy Hm Hpc HP. destruct c as [g s p q m]. cbn [pc] in Hpc.
  in_a_row y ccsidr [Barrier; Adr (X 16) transition_to_el1] Hpc.
  intros Hm1 Hpc1. step_by y ccsidr (Br (X 16)) Hm1 Hpc1.
  apply HP; try reflexivity; cbn [pc set_pc get gpr set_gpr next put Nat.eqb].
  - now apply (mapped_same y _ _ Hm1).
  - rewrite Hpc. reflexivity.
Qed.

Lemma compare_level y ccsidr c P :
  layout_ok y -> mapped y c -> pc c = IMAGE + 0x94 ->
  (forall c1, mapped y c1 -> pc c1 = (if el c =? 2 then IMAGE + 0xA0 else IMAGE + 0xDC) -> el c1 = el c -> sp_reg c1 = sp_reg c ->
    cmem c1 = cmem c -> (forall r, sys c1 r = sys c r) -> reaches y ccsidr c1 P) -> reaches y ccsidr c P.
Proof.
  intros Hy Hm Hpc HP. destruct c as [g s p q m]. cbn [pc] in Hpc.
  in_a_row y ccsidr [MrsCurrentEL (X 0); CmpI (X 0) 8] Hpc.
  intros Hm1 Hpc1. destruct (el_of_flags p (Z.shiftl (el_of p) 2) 8) as (F1 & F2 & _).
  step_by y ccsidr (Bcond NE el1_start) Hm1 Hpc1.
  assert (holds NE (set_nzcv (nzcv (Z.shiftl (el_of p) 2) 8) p) = negb (el_of p =? 2)) as Hh.
  { unfold holds. rewrite flag_bits by lia. pose proof (mp_el _ _ Hm) as He. unfold el in He. cbn [pstate] in He.
    destruct He as [-> | ->]; reflexivity. }
  change (pstate (next (set_pstate _ _))) with (set_nzcv (nzcv (Z.shiftl (el_of p) 2) 8) p). rewrite Hh.
  unfold el, sp_reg in HP. cbn [pstate] in HP.
  destruct (el_of p =? 2); cbn [negb]; apply HP; try reflexivity; try exact F1; try exact F2;
    try (apply (mapped_same y _ _ Hm1); reflexivity).
  - cbn [next pc set_pc] in Hpc1 |- *. rewrite Hpc1. reflexivity.
  - cbn [pc set_pc]. unfold relative. rewrite Hpc1. reflexivity.
Qed.

(** The EL2 part, up to [eret]. *)
Lemma drop_to_el1 y ccsidr c P :
  layout_ok y -> mapped y c -> pc c = IMAGE + 0xA0 -> el c = 2 ->
  (forall c1, mapped y c1 -> pc c1 = IMAGE + 0xDC -> el c1 = 1 -> sp_reg c1 = Sys.SP_EL1 -> cmem c1 = cmem c ->
    sys c1 Sys.MAIR_EL1 = sys c Sys.MAIR_EL1 -> el2_done c1 -> reaches y ccsidr c1 P) -> reaches y ccsidr c P.
Proof.
  intros Hy Hm Hpc Hel HP. destruct c as [g s p q m]. cbn [pc] in Hpc. unfold el in Hel. cbn [pstate] in Hel.
  in_a_row y ccsidr (take 14 (drop 40 (instructions (start_code y)))) Hpc.
  match goal with |- mapped y ?c1 -> _ => set (d := c1) end. intros Hm1 Hpc1.
  assert (el d = 2) as Hd by exact Hel.
  assert (sys d Sys.ELR_EL2 = IMAGE + 0xDC) as Helr by (unfold d; rewrite Hpc; reflexivity).
  assert (sys d Sys.SPSR_EL2 = 0x3C5 /\ cmem d = m /\ sys d Sys.MAIR_EL1 = s Sys.MAIR_EL1 /\ sys d Sys.HCR_EL2 = Z.shiftl 1 31 /\
    sys d Sys.CNTVOFF_EL2 = 0 /\ sys d Sys.CNTHCTL_EL2 = Z.lor (Z.lor (s Sys.CNTHCTL_EL2) 1) 2) as (D1 & D2 & D3 & D4 & D5 & D6)
    by (repeat split; reflexivity).
  clearbody d. step_by y ccsidr Eret Hm1 Hpc1.
  unfold eret. rewrite Hd. cbn [Z.eqb Pos.eqb]. rewrite D1, Helr. destruct d as [gd sd pd qd md]. cbn [sys cmem set_pc set_pstate] in *.
  apply HP; cbn [sys cmem set_pc set_pstate pc]; auto.
  - destruct Hm1 as [_ T1 T2 T3 T4 T5]. split; auto.
  - split; cbn [sys pstate set_pc set_pstate]; auto.
    + rewrite D6, !Z.lor_spec. change (Z.testbit 1 0) with true. change (Z.testbit 2 1) with true. now rewrite !orb_true_r.
    + intros b Hb. assert (b = 6 \/ b = 7 \/ b = 8 \/ b = 9) as [-> | [-> | [-> | ->]]] by lia; reflexivity.
Qed.

(** ** Comparisons *)

Lemma nzcv_bits a b :
  let d := sub64 a b in
  Z.testbit (nzcv a b) 30 = (d =? 0) /\ Z.testbit (nzcv a b) 31 = Z.testbit d 63 /\
  Z.testbit (nzcv a b) 28 = negb (eqb (Z.testbit a 63) (Z.testbit b 63)) && negb (eqb (Z.testbit a 63) (Z.testbit d 63)).
Proof.
  unfold nzcv. cbn zeta.
  destruct (Z.testbit (sub64 a b) 63), (sub64 a b =? 0), (b <=? a), (Z.testbit a 63), (Z.testbit b 63); repeat split; reflexivity.
Qed.

Lemma compare_equal a b p : is_u64 a -> is_u64 b -> holds EQ (set_nzcv (nzcv a b) p) = (a =? b).
Proof.
  intros Ha Hb. unfold holds. rewrite flag_bits by lia. destruct (nzcv_bits a b) as (-> & _).
  unfold is_u64, U64, sub64, wrap64, U64 in *.
  destruct (Z.eqb_spec a b) as [->|Hne]; [now rewrite Z.sub_diag|].
  apply Z.eqb_neq. intros H. apply Hne. pose proof (Z.div_mod (a - b) (2 ^ 64) ltac:(lia)). nia.
Qed.

Lemma compare_less_equal a b p : 0 <= a < 2 ^ 62 -> 0 <= b < 2 ^ 62 -> holds LE (set_nzcv (nzcv a b) p) = (a <=? b).
Proof.
  intros Ha Hb. unfold holds. rewrite !flag_bits by lia. destruct (nzcv_bits a b) as (-> & -> & ->).
  assert (forall v, 0 <= v < 2 ^ 62 -> Z.testbit v 63 = false) as Hs
    by (intros v Hv; rewrite <- (Z.mod_small v (2 ^ 63)) by lia; apply Z.mod_pow2_bits_high; lia).
  rewrite (Hs a Ha), (Hs b Hb). cbn [eqb negb andb]. unfold sub64, wrap64, U64.
  destruct (Z.leb_spec a b) as [Hle|Hgt].
  - destruct (Z.eq_dec a b) as [->|Hne]; [now rewrite Z.sub_diag|].
    replace ((a - b) mod 2 ^ 64) with (2 ^ 63 + (2 ^ 63 + (a - b))) by (apply (Z.mod_unique_pos _ _ (-1)); lia).
    assert (Z.testbit (2 ^ 63 + (2 ^ 63 + (a - b))) 63 = true) as ->; [|now rewrite orb_true_r].
    rewrite Z.testbit_true by lia. replace ((2 ^ 63 + (2 ^ 63 + (a - b))) / 2 ^ 63) with 1; [reflexivity|].
    apply (Z.div_unique_pos _ _ _ (2 ^ 63 + (a - b))); lia.
  - rewrite Z.mod_small by lia. rewrite (Hs (a - b)) by lia. destruct (Z.eqb_spec (a - b) 0); [lia|]. reflexivity.
Qed.

(** ** Zeroing the BSS *)

Lemma upper_tr y c va : layout_ok y -> mapped y c -> el c = 1 -> linked va -> tr c va = Some (va - KERNEL_BASE).
Proof.
  intros Hy Hm Hel Hva. destruct (phys_linked va Hva) as [E1 E2]. unfold linked in Hva.
  rewrite (mapped_upper y Hy c Hm va Hel) by (unfold KERNEL_BASE in *; lia).
  rewrite <- E2, kernel_translate_linear; [|lia]. rewrite E2. now f_equal.
Qed.

(** What a subroutine leaves alone. *)
Record same_machine (c c' : cpu) : Prop := {
  sm_el : el c' = el c;
  sm_sp : sp_reg c' = sp_reg c;
  sm_link : gpr c' 30 = gpr c 30;
  sm_masked : forall b, 6 <= b <= 9 -> Z.testbit (pstate c') b = Z.testbit (pstate c) b;
  sm_sys : forall r, sys c' r = sys c r;
}.
#[global] Instance same_machine_preorder : PreOrder same_machine.
Proof.
  split; [split; reflexivity|]. intros c1 c2 c3 [A1 A2 A3 A4 A5] [B1 B2 B3 B4 B5].
  split; intros; rewrite ?B1, ?B2, ?B3, ?B4, ?B5; auto.
Qed.

Lemma same_flags c c' a b :
  pstate c' = set_nzcv (nzcv a b) (pstate c) -> gpr c' 30 = gpr c 30 -> (forall r, sys c' r = sys c r) -> same_machine c c'.
Proof.
  intros Ep Eg Es. destruct (el_of_flags (pstate c) a b) as (E1 & E2 & E3).
  split; unfold el, sp_reg; rewrite ?Ep; auto. intros i Hi. apply E3. lia.
Qed.

(** The store, as one step. *)
Lemma bss_store y ccsidr c :
  layout_ok y -> mapped y c -> el c = 1 -> pc c = IMAGE + 0x194 -> _bss_start y <= gpr c 0 < _bss_end y ->
  exists c1, step y ccsidr c = Some c1 /\ mapped y c1 /\ pc c1 = IMAGE + 0x198 /\ same_machine c c1 /\
    gpr c1 0 = gpr c 0 + 1 /\ gpr c1 2 = gpr c 2 /\
    (forall x, cmem c1 x = if x =? gpr c 0 - KERNEL_BASE then 0 else cmem c x).
Proof.
  intros Hy Hm Hel Hpc Ha. addresses Hy. assert (linked (gpr c 0)) as Hl by (unfold linked, KERNEL_BASE; lia).
  eexists. split.
  { eapply (step_on y ccsidr (StrbPost XZR (X 0) 1)); [assumption|exact Hm|rewrite Hpc; split; [in_range|reflexivity]|rewrite Hpc; reflexivity|].
    cbn [exec]. unfold store. cbn [get]. rewrite (upper_tr y c _ Hy Hm Hel Hl). reflexivity. }
  assert (forall x, write_list (cmem c) (gpr c 0%nat - KERNEL_BASE) [0] x = if x =? gpr c 0%nat - KERNEL_BASE then 0 else cmem c x) as Hw.
  { intros x. destruct (Z.eqb_spec x (gpr c 0%nat - KERNEL_BASE)) as [->|Hne].
    - rewrite write_list_in by (cbn [length]; lia). now rewrite Z.sub_diag.
    - apply write_list_out. cbn [length]. lia. }
  split; [|split; [|split; [|split; [|split]]]].
  - destruct Hm as [T1 T2 T3 T4 T5 T6]. split; auto. refine (tables_ext y (cmem c) _ Hy _ T2).
    intros x Hx. cbn [next set_pc put set_gpr set_cmem cmem]. unfold KERNEL_BASE in Hw.
    change (0 mod 256) with 0. rewrite Hw. destruct (Z.eqb_spec x (gpr c 0%nat - 0xffffff8000000000)); [lia|reflexivity].
  - cbn [next set_pc put set_gpr set_cmem pc]. rewrite Hpc. reflexivity.
  - split; reflexivity.
  - cbn [next set_pc put set_gpr set_cmem gpr get Nat.eqb]. apply add64_small. unfold U64. lia.
  - reflexivity.
  - exact Hw.
Qed.

(** The count and the branch back. *)
Lemma bss_next y ccsidr c k P :
  layout_ok y -> mapped y c -> pc c = IMAGE + 0x198 -> gpr c 2 = k -> 1 <= k < U64 ->
  (forall c1, mapped y c1 -> pc c1 = (if k =? 1 then IMAGE + 0x1A4 else IMAGE + 0x194) -> same_machine c c1 ->
    gpr c1 0 = gpr c 0 -> gpr c1 2 = k - 1 -> cmem c1 = cmem c -> reaches y ccsidr c1 P) -> reaches y ccsidr c P.
Proof.
  intros Hy Hm Hpc Hk Hr HP. destruct c as [g s p q m]. cbn [pc gpr cmem] in *. subst k.
  in_a_row y ccsidr [SubI (X 2) (X 2) 1; CmpI (X 2) 0] Hpc.
  intros Hm1 Hpc1. step_by y ccsidr (Bcond NE rt_setup_1) Hm1 Hpc1.
  assert (sub64 (g 2%nat) 1 = g 2%nat - 1) as Es by (apply sub64_small; unfold U64 in *; lia).
  assert (holds NE (set_nzcv (nzcv (sub64 (g 2%nat) 1) 0) p) = negb (g 2%nat =? 1)) as Hh.
  { change (negb (holds EQ (set_nzcv (nzcv (sub64 (g 2%nat) 1) 0) p)) = negb (g 2%nat =? 1)). rewrite compare_equal, Es.
    - f_equal. destruct (Z.eqb_spec (g 2%nat - 1) 0), (Z.eqb_spec (g 2%nat) 1); lia.
    - rewrite Es. unfold is_u64, U64 in *. lia.
    - unfold is_u64, U64. lia. }
  change (pstate (next (set_pstate _ _))) with (set_nzcv (nzcv (sub64 (g 2%nat) 1) 0) p). rewrite Hh.
  destruct (g 2%nat =? 1); cbn [negb];
    (apply HP;
      [apply (mapped_same y _ _ Hm1); reflexivity| |apply (same_flags (mk_cpu g s p q m) _ (sub64 (g 2%nat) 1) 0); reflexivity|reflexivity|exact Es|reflexivity]).
  - cbn [next pc set_pc] in Hpc1 |- *. rewrite Hpc1. reflexivity.
  - cbn [pc set_pc]. unfold relative. rewrite Hpc1. reflexivity.
Qed.

Ltac zero_cases y c x :=
  destruct (Z.leb_spec (gpr c 0%nat - KERNEL_BASE) x), (Z.ltb_spec x (_bss_end y - KERNEL_BASE)),
    (Z.eqb_spec x (gpr c 0%nat - KERNEL_BASE)); cbn [andb]; try reflexivity; lia.

Lemma bss_loop y ccsidr n : forall c P,
  layout_ok y -> mapped y c -> el c = 1 -> pc c = IMAGE + 0x194 ->
  gpr c 2 = Z.of_nat (S n) -> _bss_start y <= gpr c 0 -> gpr c 0 + Z.of_nat (S n) = _bss_end y ->
  (forall c1, mapped y c1 -> pc c1 = IMAGE + 0x1A4 -> same_machine c c1 ->
    (forall x, cmem c1 x = if (gpr c 0 - KERNEL_BASE <=? x) && (x <? _bss_end y - KERNEL_BASE) then 0 else cmem c x) ->
    reaches y ccsidr c1 P) -> reaches y ccsidr c P.
Proof.
  induction n as [|n IH]; intros c P Hy Hm Hel Hpc H2 H0 Hend HP;
    destruct (bss_store y ccsidr c Hy Hm Hel Hpc ltac:(lia)) as (c1 & Hs & Hm1 & Hpc1 & Hsame & E0 & E2 & Hw);
    apply (reaches_step _ _ _ c1 _ Hs).
  - apply (bss_next y ccsidr c1 1 _ Hy Hm1 Hpc1 ltac:(lia) ltac:(unfold U64; lia)). intros c2 Hm2 Hpc2 Hs2 F0 F2 Fm.
    apply HP; [exact Hm2|exact Hpc2|now transitivity c1|]. intros x. rewrite Fm, Hw. zero_cases y c x.
  - assert (1 <= Z.of_nat (S (S n)) < U64) as Hr by (addresses Hy; unfold U64; lia).
    apply (bss_next y ccsidr c1 (Z.of_nat (S (S n))) _ Hy Hm1 Hpc1 ltac:(lia) Hr).
    intros c2 Hm2 Hpc2 Hs2 F0 F2 Fm. rewrite (proj2 (Z.eqb_neq _ _)) in Hpc2 by lia.
    assert (el c2 = 1) as Hel2 by (rewrite (sm_el _ _ Hs2), (sm_el _ _ Hsame); exact Hel).
    apply (IH c2 P Hy Hm2 Hel2 Hpc2); [lia|lia|lia|]. intros c3 Hm3 Hpc3 Hs3 Hx.
    apply HP; [exact Hm3|exact Hpc3|now transitivity c2; [transitivity c1|]|]. intros x. rewrite Hx, Fm, Hw, F0, E0.
    destruct (Z.leb_spec (gpr c 0%nat + 1 - KERNEL_BASE) x); zero_cases y c x.
Qed.

Lemma rt_setup_enters y ccsidr c P :
  layout_ok y -> mapped y c -> pc c = IMAGE + 0x180 ->
  (forall c1, mapped y c1 -> pc c1 = (if _bss_end y - _bss_start y =? 0 then IMAGE + 0x1A4 else IMAGE + 0x194) ->
    same_machine c c1 -> gpr c1 0 = _bss_start y -> gpr c1 2 = _bss_end y - _bss_start y -> cmem c1 = cmem c ->
    reaches y ccsidr c1 P) -> reaches y ccsidr c P.
Proof.
  intros Hy Hm Hpc HP. destruct c as [g s p q m]. cbn [pc gpr cmem] in *.
  in_a_row y ccsidr [LdrLit (X 0) (_bss_start y); LdrLit (X 1) (_bss_end y); Sub (X 2) (X 1) (X 0); CmpI (X 2) 0] Hpc.
  intros Hm1 Hpc1. step_by y ccsidr (Bcond EQ rt_setup_2) Hm1 Hpc1.
  assert (sub64 (_bss_end y) (_bss_start y) = _bss_end y - _bss_start y) as Es
    by (addresses Hy; apply sub64_small; unfold U64; lia).
  assert (holds EQ (set_nzcv (nzcv (sub64 (_bss_end y) (_bss_start y)) 0) p) = (_bss_end y - _bss_start y =? 0)) as Hh.
  { rewrite compare_equal, Es; [reflexivity|rewrite Es|]; addresses Hy; unfold is_u64, U64; lia. }
  change (pstate (next (set_pstate _ _))) with (set_nzcv (nzcv (sub64 (_bss_end y) (_bss_start y)) 0) p). rewrite Hh.
  destruct (_bss_end y - _bss_start y =? 0);
    (apply HP;
      [apply (mapped_same y _ _ Hm1); reflexivity|
      |apply (same_flags (mk_cpu g s p q m) _ (sub64 (_bss_end y) (_bss_start y)) 0); reflexivity|reflexivity|exact Es|reflexivity]).
  - cbn [pc set_pc]. unfold relative. rewrite Hpc1. reflexivity.
  - cbn [next pc set_pc] in Hpc1 |- *. rewrite Hpc1. reflexivity.
Qed.

(** [bl rt_setup] *)
Lemma rt_setup_runs y ccsidr c P :
  layout_ok y -> mapped y c -> el c = 1 -> pc c = IMAGE + 0x180 ->
  (forall c1, mapped y c1 -> pc c1 = gpr c 30 -> same_machine c c1 ->
    (forall x, cmem c1 x = if (_bss_start y - KERNEL_BASE <=? x) && (x <? _bss_end y - KERNEL_BASE) then 0 else cmem c x) ->
    reaches y ccsidr c1 P) -> reaches y ccsidr c P.
Proof.
  intros Hy Hm Hel Hpc HP.
  assert (forall c1, mapped y c1 -> pc c1 = IMAGE + 0x1A4 -> same_machine c c1 ->
    (forall x, cmem c1 x = if (_bss_start y - KERNEL_BASE <=? x) && (x <? _bss_end y - KERNEL_BASE) then 0 else cmem c x) ->
    reaches y ccsidr c1 P) as Hret.
  { intros c1 Hm1 Hpc1 Hs1 Hx. step_by y ccsidr Ret Hm1 Hpc1.
    apply HP; [apply (mapped_same y _ _ Hm1); reflexivity|exact (sm_link _ _ Hs1)|transitivity c1; [exact Hs1|split; reflexivity]|exact Hx]. }
  apply (rt_setup_enters y ccsidr c P Hy Hm Hpc). intros c1 Hm1 Hpc1 Hs1 E0 E2 Em.
  pose proof (lo_bss y Hy) as Hle. destruct (Z.eqb_spec (_bss_end y - _bss_start y) 0) as [Hz|Hz].
  - apply Hret; auto. intros x. rewrite Em.
    destruct (Z.leb_spec (_bss_start y - KERNEL_BASE) x), (Z.ltb_spec x (_bss_end y - KERNEL_BASE)); try reflexivity; lia.
  - apply (bss_loop y ccsidr (Z.to_nat (_bss_end y - _bss_start y - 1)) c1 P Hy Hm1); [rewrite (sm_el _ _ Hs1)|..]; auto; try lia.
    intros c2 Hm2 Hpc2 Hs2 Hx. apply Hret; [exact Hm2|exact Hpc2|now transitivity c1|]. intros x. now rewrite Hx, E0, Em.
Qed.

(** ** The caches *)

Section Caches.
  Context (y : symbols) (ccsidr : Z -> Z) (Hy : layout_ok y) (a : Z) (outer inner : label).
  (** Where the loops are: the outer one's head is at [a]. *)
  Context (Ha : IMAGE <= a) (Ha' : a + 0x40 <= IMAGE + 0x400).
  Context (Houter : label_addr outer = a) (Hinner : label_addr inner = a + 4).
  Context (Hcode : code_at y a
    [MovI (X 6) 0; Lsl (X 7) (X 5) (X 4); Orr (X 7) (X 0) (X 7); Lsl (X 8) (X 6) (X 1); Orr (X 7) (X 7) (X 8);
     Barrier; AddI (X 6) (X 6) 1; Cmp (X 6) (X 2); Bcond LE inner;
     AddI (X 5) (X 5) 1; Cmp (X 5) (X 3); Bcond LE outer; Barrier; Barrier; Ret]).

Lemma code_part n il : (exists rest, il ++ rest = drop n
    [MovI (X 6) 0; Lsl (X 7) (X 5) (X 4); Orr (X 7) (X 0) (X 7); Lsl (X 8) (X 6) (X 1); Orr (X 7) (X 7) (X 8);
     Barrier; AddI (X 6) (X 6) 1; Cmp (X 6) (X 2); Bcond LE inner;
     AddI (X 5) (X 5) 1; Cmp (X 5) (X 3); Bcond LE outer; Barrier; Barrier; Ret]) -> code_at y (a + 4 * Z.of_nat n) il.
Proof.
  intros [rest E] k i Hk. rewrite <- Z.add_assoc, <- Z.mul_add_distr_l, <- Nat2Z.inj_add. apply Hcode.
  rewrite <- lookup_drop, <- E. now apply lookup_app_l_Some.
Qed.

Lemma low_relative l c : 0 <= pc c < 2 ^ 31 -> relative label_addr l c = label_addr l.
Proof. intros H. unfold relative. rewrite Z.mod_small by exact H. lia. Qed.

(** What the loops keep, the counters apart. *)
Record looping (c c' : cpu) : Prop := {
  lp_same : same_machine c c';
  lp_sets : gpr c' 2 = gpr c 2;
  lp_ways : gpr c' 3 = gpr c 3;
  lp_mem : cmem c' = cmem c;
}.
#[local] Instance looping_preorder : PreOrder looping.
Proof.
  split; [intros c; split; reflexivity|]. intros c1 c2 c3 [A1 A2 A3 A4] [B1 B2 B3 B4].
  split; [now transitivity c2|congruence..].
Qed.

Lemma inner_round c s n P :
  mapped y c -> pc c = a + 4 -> gpr c 6 = s -> gpr c 2 = n -> 0 <= s <= n -> n < 2 ^ 15 ->
  (forall c1, mapped y c1 -> pc c1 = (if s + 1 <=? n then a + 4 else a + 0x24) -> looping c c1 -> gpr c1 6 = s + 1 ->
    gpr c1 5 = gpr c 5 -> reaches y ccsidr c1 P) -> reaches y ccsidr c P.
Proof.
  intros Hm Hpc Hs Hn Hr Hlt HP. destruct c as [g sy p q m]. cbn [pc gpr cmem] in *. subst s n.
  eapply (run_on y ccsidr [Lsl (X 7) (X 5) (X 4); Orr (X 7) (X 0) (X 7); Lsl (X 8) (X 6) (X 1); Orr (X 7) (X 7) (X 8);
     Barrier; AddI (X 6) (X 6) 1; Cmp (X 6) (X 2)]);
    [assumption|reflexivity|eassumption|exact Hpc|lia|cbn [length]; lia|apply (code_part 1); now eexists|reflexivity|].
  intros Hm1 Hpc1. cbn [length] in Hpc1.
  assert (fetch y (a + 4 + 4 * Z.of_nat 7) = Some (Bcond LE inner)) as Hf by (rewrite <- (Hcode 8%nat) by reflexivity; f_equal; lia).
  eapply reaches_step.
  { eapply (step_on y ccsidr (Bcond LE inner)); [assumption|exact Hm1|rewrite Hpc1; lia|rewrite Hpc1; exact Hf|reflexivity]. }
  assert (add64 (g 6%nat) 1 = g 6%nat + 1) as Es by (apply add64_small; unfold U64; lia).
  match type of Hpc1 with pc ?c1 = _ => set (d := c1) in * end.
  assert (pstate d = set_nzcv (nzcv (add64 (g 6%nat) 1) (g 2%nat)) p) as Ep by reflexivity.
  assert (holds LE (pstate d) = (g 6%nat + 1 <=? g 2%nat)) as -> by (rewrite Ep, compare_less_equal, Es; [reflexivity|lia|lia]).
  assert (looping (mk_cpu g sy p q m) d) as Hl
    by (split; [apply (same_flags _ _ (add64 (g 6%nat) 1) (g 2%nat)); reflexivity|reflexivity..]).
  assert (gpr d 6 = g 6%nat + 1 /\ gpr d 5 = g 5%nat) as [E6 E5] by (split; [exact Es|reflexivity]).
  clearbody d. rewrite (low_relative inner d) by (unfold IMAGE in *; lia). rewrite Hinner.
  destruct (g 6%nat + 1 <=? g 2%nat); (apply HP; [|  |transitivity d; [exact Hl|split; [split|..]; reflexivity]|exact E6|exact E5]);
    try (apply (mapped_same y _ _ Hm1); reflexivity); cbn [next set_pc pc]; [reflexivity|].
  rewrite Hpc1. rewrite add64_small by (unfold U64, IMAGE in *; lia). lia.
Qed.

Lemma inner_loop k : forall c s n P,
  mapped y c -> pc c = a + 4 -> gpr c 6 = s -> gpr c 2 = n -> 0 <= s <= n -> n < 2 ^ 15 -> n - s = Z.of_nat k ->
  (forall c1, mapped y c1 -> pc c1 = a + 0x24 -> looping c c1 -> gpr c1 5 = gpr c 5 -> reaches y ccsidr c1 P) ->
  reaches y ccsidr c P.
Proof.
  induction k as [|k IH]; intros c s n P Hm Hpc Hs Hn Hr Hlt Hk HP;
    apply (inner_round c s n P Hm Hpc Hs Hn Hr Hlt); intros c1 Hm1 Hpc1 Hl E6 E5.
  - apply HP; [exact Hm1| |exact Hl|exact E5]. rewrite Hpc1. destruct (Z.leb_spec (s + 1) n); [lia|reflexivity].
  - assert ((s + 1 <=? n) = true) as Hle by (apply Z.leb_le; lia). rewrite Hle in Hpc1.
    apply (IH c1 (s + 1) n P Hm1 Hpc1 E6); [rewrite (lp_sets _ _ Hl); exact Hn|lia|exact Hlt|lia|].
    intros c2 Hm2 Hpc2 Hl2 E5'. apply HP; [exact Hm2|exact Hpc2|now transitivity c1|congruence].
Qed.

Lemma outer_round c w n P :
  mapped y c -> pc c = a + 0x24 -> gpr c 5 = w -> gpr c 3 = n -> 0 <= w <= n -> n < 2 ^ 10 ->
  (forall c1, mapped y c1 -> pc c1 = (if w + 1 <=? n then a else a + 0x30) -> looping c c1 -> gpr c1 5 = w + 1 ->
    reaches y ccsidr c1 P) -> reaches y ccsidr c P.
Proof.
  intros Hm Hpc Hs Hn Hr Hlt HP. destruct c as [g sy p q m]. cbn [pc gpr cmem] in *. subst w n.
  eapply (run_on y ccsidr [AddI (X 5) (X 5) 1; Cmp (X 5) (X 3)]);
    [assumption|reflexivity|eassumption|exact Hpc|lia|cbn [length]; lia|apply (code_part 9); now eexists|reflexivity|].
  intros Hm1 Hpc1. cbn [length] in Hpc1.
  assert (fetch y (a + 0x24 + 4 * Z.of_nat 2) = Some (Bcond LE outer)) as Hf by (rewrite <- (Hcode 11%nat) by reflexivity; f_equal; lia).
  eapply reaches_step.
  { eapply (step_on y ccsidr (Bcond LE outer)); [assumption|exact Hm1|rewrite Hpc1; lia|rewrite Hpc1; exact Hf|reflexivity]. }
  assert (add64 (g 5%nat) 1 = g 5%nat + 1) as Es by (apply add64_small; unfold U64; lia).
  match type of Hpc1 with pc ?c1 = _ => set (d := c1) in * end.
  assert (pstate d = set_nzcv (nzcv (add64 (g 5%nat) 1) (g 3%nat)) p) as Ep by reflexivity.
  assert (holds LE (pstate d) = (g 5%nat + 1 <=? g 3%nat)) as -> by (rewrite Ep, compare_less_equal, Es; [reflexivity|lia|lia]).
  assert (looping (mk_cpu g sy p q m) d) as Hl
    by (split; [apply (same_flags _ _ (add64 (g 5%nat) 1) (g 3%nat)); reflexivity|reflexivity..]).
  assert (gpr d 5 = g 5%nat + 1) as E5 by exact Es.
  clearbody d. rewrite (low_relative outer d) by (unfold IMAGE in *; lia). rewrite Houter.
  destruct (g 5%nat + 1 <=? g 3%nat); (apply HP; [|  |transitivity d; [exact Hl|split; [split|..]; reflexivity]|exact E5]);
    try (apply (mapped_same y _ _ Hm1); reflexivity); cbn [next set_pc pc]; [reflexivity|].
  rewrite Hpc1. rewrite add64_small by (unfold U64, IMAGE in *; lia). lia.
Qed.

Lemma outer_loop k : forall c w n P,
  mapped y c -> pc c = a -> gpr c 5 = w -> gpr c 3 = n -> 0 <= w <= n -> n < 2 ^ 10 -> n - w = Z.of_nat k ->
  0 <= gpr c 2 < 2 ^ 15 ->
  (forall c1, mapped y c1 -> pc c1 = a + 0x30 -> looping c c1 -> reaches y ccsidr c1 P) -> reaches y ccsidr c P.
Proof.
  induction k as [|k IH]; intros c w n P Hm Hpc Hw Hn Hr Hlt Hk Hsets HP.
  all: destruct c as [g sy p q m]; cbn [pc gpr cmem] in *;
    eapply (run_on y ccsidr [MovI (X 6) 0]);
    [assumption|reflexivity|eassumption|exact Hpc|lia|cbn [length]; lia|
     rewrite <- (Z.add_0_r a); apply (code_part 0); now eexists|reflexivity|];
    intros Hm1 Hpc1; cbn [length] in Hpc1;
    match type of Hpc1 with pc ?c1 = _ => set (d := c1) in * end;
    (assert (looping (mk_cpu g sy p q m) d) as Hl by (split; [split|..]; reflexivity));
    (assert (gpr d 6 = 0 /\ gpr d 5 = w) as [E6 E5] by (split; [reflexivity|exact Hw]));
    clearbody d;
    apply (inner_loop (Z.to_nat (g 2%nat)) d 0 (g 2%nat) P Hm1 Hpc1 E6 (lp_sets _ _ Hl)); [lia|lia|lia|];
    intros c2 Hm2 Hpc2 Hl2 E5'; rewrite E5 in E5';
    (assert (gpr c2 3 = n) as E3 by (rewrite (lp_ways _ _ Hl2), (lp_ways _ _ Hl); exact Hn));
    apply (outer_round c2 w n P Hm2 Hpc2 E5' E3 Hr Hlt); intros c3 Hm3 Hpc3 Hl3 E5'';
    (assert (looping (mk_cpu g sy p q m) c3) as Hl' by (transitivity d; [exact Hl|now transitivity c2])).
  - apply HP; [exact Hm3| |exact Hl']. rewrite Hpc3. destruct (Z.leb_spec (w + 1) n); [lia|reflexivity].
  - assert ((w + 1 <=? n) = true) as Hle by (apply Z.leb_le; lia). rewrite Hle in Hpc3.
    apply (IH c3 (w + 1) n P Hm3 Hpc3 E5''); [rewrite (lp_ways _ _ Hl'); exact Hn|lia|exact Hlt|lia| |].
    + rewrite (lp_sets _ _ Hl'). exact Hsets.
    + intros c4 Hm4 Hpc4 Hl4. apply HP; [exact Hm4|exact Hpc4|now transitivity c3].
Qed.

Lemma loops_return c P :
  mapped y c -> pc c = a -> gpr c 5 = 0 -> 0 <= gpr c 2 < 2 ^ 15 -> 0 <= gpr c 3 < 2 ^ 10 ->
  (forall c1, mapped y c1 -> pc c1 = gpr c 30 -> same_machine c c1 -> cmem c1 = cmem c -> reaches y ccsidr c1 P) ->
  reaches y ccsidr c P.
Proof.
  intros Hm Hpc H5 H2 H3 HP.
  apply (outer_loop (Z.to_nat (gpr c 3%nat)) c 0 (gpr c 3%nat) P Hm Hpc H5 eq_refl); [lia|lia|lia|exact H2|].
  intros c1 Hm1 Hpc1 [Hs _ _ Em]. destruct c1 as [g sy p q m]. cbn [pc] in Hpc1.
  eapply (run_on y ccsidr [Barrier; Barrier]);
    [assumption|reflexivity|eassumption|exact Hpc1|lia|cbn [length]; lia|apply (code_part 12); now eexists|reflexivity|].
  intros Hm2 Hpc2. cbn [length] in Hpc2.
  assert (fetch y (a + 0x30 + 4 * Z.of_nat 2) = Some Ret) as Hf by (rewrite <- (Hcode 14%nat) by reflexivity; f_equal; lia).
  eapply reaches_step.
  { eapply (step_on y ccsidr Ret); [assumption|exact Hm2|rewrite Hpc2; lia|rewrite Hpc2; exact Hf|reflexivity]. }
  apply HP; [apply (mapped_same y _ _ Hm2); reflexivity|exact (sm_link _ _ Hs)| |exact Em].
  transitivity (mk_cpu g sy p q m); [exact Hs|split; reflexivity].
Qed.

(** The geometry of the cache, and the loops *)
Context (Ha0 : IMAGE <= a - 36).
Context (Hhead : code_at y (a - 36)
  [MrsCCSIDR (X 4); AndI (X 1) (X 4) 7; AddI (X 1) (X 1) 4; LdrLit (X 3) 0x7FFF; AndLsr (X 2) (X 3) (X 4) 13;
   LdrLit (X 3) 0x3FF; AndLsr (X 3) (X 3) (X 4) 3; ClzW (X 4) (X 3); MovI (X 5) 0]).

Lemma dcache_runs c P :
  mapped y c -> pc c = a - 36 ->
  (forall c1, mapped y c1 -> pc c1 = gpr c 30 -> same_machine c c1 -> cmem c1 = cmem c -> reaches y ccsidr c1 P) ->
  reaches y ccsidr c P.
Proof.
  intros Hm Hpc HP. destruct c as [g sy p q m]. cbn [pc] in Hpc.
  eapply (run_on y ccsidr [MrsCCSIDR (X 4); AndI (X 1) (X 4) 7; AddI (X 1) (X 1) 4; LdrLit (X 3) 0x7FFF; AndLsr (X 2) (X 3) (X 4) 13;
     LdrLit (X 3) 0x3FF; AndLsr (X 3) (X 3) (X 4) 3; ClzW (X 4) (X 3); MovI (X 5) 0]);
    [assumption|reflexivity|eassumption|exact Hpc|lia|cbn [length]; lia|exact Hhead|reflexivity|].
  intros Hm1 Hpc1. cbn [length] in Hpc1.
  match type of Hpc1 with pc ?c1 = _ => set (d := c1) in * end.
  assert (same_machine (mk_cpu g sy p q m) d) as Hs by (split; reflexivity).
  set (v := ccsidr (sy Sys.CSSELR_EL1)).
  assert (gpr d 2 = Z.land 0x7FFF (Z.shiftr v 13) /\ gpr d 3 = Z.land 0x3FF (Z.shiftr v 3) /\ gpr d 5 = 0 /\ cmem d = m)
    as (E2 & E3 & E5 & Em) by (repeat split; reflexivity).
  clearbody d. apply (loops_return d P Hm1); [lia|exact E5| | |].
  - rewrite E2, Z.land_comm. change 0x7FFF with (2 ^ 15 - 1). rewrite land_mask_low by lia. apply Z.mod_pos_bound. lia.
  - rewrite E3, Z.land_comm. change 0x3FF with (2 ^ 10 - 1). rewrite land_mask_low by lia. apply Z.mod_pos_bound. lia.
  - intros c2 Hm2 Hpc2 Hs2 Em2. apply HP; [exact Hm2|rewrite Hpc2; exact (sm_link _ _ Hs)|now transitivity d|cbn; congruence].
Qed.
End Caches.

(** What a call may change besides: the cache selected. *)
Record same_but (S : list Sys.sysreg) (c c' : cpu) : Prop := {
  sb_el : el c' = el c;
  sb_sp : sp_reg c' = sp_reg c;
  sb_masked : forall b, 6 <= b <= 9 -> Z.testbit (pstate c') b = Z.testbit (pstate c) b;
  sb_sys : forall r, r ∉ S -> sys c' r = sys c r;
}.

Lemma same_but_mono S S' c c' : (forall r, r ∈ S -> r ∈ S') -> same_but S c c' -> same_but S' c c'.
Proof. intros Hi [H1 H2 H3 H4]. split; auto. Qed.

Lemma same_machine_but S c c' : same_machine c c' -> same_but S c c'.
Proof. intros [H1 H2 H3 H4 H5]. split; auto. Qed.

#[global] Instance same_but_preorder S : PreOrder (same_but S).
Proof.
  split; [split; reflexivity|]. intros c1 c2 c3 [A1 A2 A3 A4] [B1 B2 B3 B4].
  split; [congruence|congruence|intros b Hb; now rewrite B3, A3|intros r Hr; now rewrite B4, A4].
Qed.

Lemma dcache_l1_runs y ccsidr c P :
  layout_ok y -> mapped y c -> pc c = IMAGE + 0x1C8 ->
  (forall c1, mapped y c1 -> pc c1 = gpr c 30 -> same_but [Sys.CSSELR_EL1] c c1 -> cmem c1 = cmem c -> reaches y ccsidr c1 P) ->
  reaches y ccsidr c P.
Proof.
  intros Hy Hm Hpc HP. destruct c as [g sy p q m]. cbn [pc] in Hpc.
  in_a_row y ccsidr [Mov (X 0) XZR; Msr Sys.CSSELR_EL1 (X 0)] Hpc.
  intros Hm1 Hpc1. match type of Hpc1 with pc ?c1 = _ => set (d := c1) in * end.
  assert (same_but [Sys.CSSELR_EL1] (mk_cpu g sy p q m) d) as Hs
    by (split; try reflexivity; intros [] Hr; try reflexivity; destruct Hr; in_list).
  assert (gpr d 30 = g 30%nat /\ cmem d = m) as [E30 Em] by (split; reflexivity). clearbody d.
  apply (dcache_runs y ccsidr Hy (IMAGE + 0x1F4) dcache_l1_1 dcache_l1_2) with (c := d);
    [in_range|in_range|reflexivity|reflexivity|apply code_at_list; reflexivity|in_range|apply code_at_list; reflexivity
    |exact Hm1|exact Hpc1|].
  intros c1 Hm2 Hpc2 Hs2 Em2. apply HP; [exact Hm2|cbn; congruence|transitivity d; [exact Hs|now apply same_machine_but]|cbn; congruence].
Qed.

Lemma dcache_l2_runs y ccsidr c P :
  layout_ok y -> mapped y c -> pc c = IMAGE + 0x240 ->
  (forall c1, mapped y c1 -> pc c1 = gpr c 30 -> same_but [Sys.CSSELR_EL1] c c1 -> cmem c1 = cmem c -> reaches y ccsidr c1 P) ->
  reaches y ccsidr c P.
Proof.
  intros Hy Hm Hpc HP. destruct c as [g sy p q m]. cbn [pc] in Hpc.
  in_a_row y ccsidr [Mov (X 0) XZR; OrrI (X 0) (X 0) (Z.shiftl 1 1); Msr Sys.CSSELR_EL1 (X 0)] Hpc.
  intros Hm1 Hpc1. match type of Hpc1 with pc ?c1 = _ => set (d := c1) in * end.
  assert (same_but [Sys.CSSELR_EL1] (mk_cpu g sy p q m) d) as Hs
    by (split; try reflexivity; intros [] Hr; try reflexivity; destruct Hr; in_list).
  assert (gpr d 30 = g 30%nat /\ cmem d = m) as [E30 Em] by (split; reflexivity). clearbody d.
  apply (dcache_runs y ccsidr Hy (IMAGE + 0x270) dcache_l2_1 dcache_l2_2) with (c := d);
    [in_range|in_range|reflexivity|reflexivity|apply code_at_list; reflexivity|in_range|apply code_at_list; reflexivity
    |exact Hm1|exact Hpc1|].
  intros c1 Hm2 Hpc2 Hs2 Em2. apply HP; [exact Hm2|cbn; congruence|transitivity d; [exact Hs|now apply same_machine_but]|cbn; congruence].
Qed.

(** ** At EL1 *)

(** [bl] *)
Lemma call y ccsidr l c a P :
  layout_ok y -> mapped y c -> pc c = a -> IMAGE <= a -> a + 4 <= IMAGE + 0x400 -> fetch y a = Some (Bl l) ->
  (forall c1, mapped y c1 -> pc c1 = label_addr l -> gpr c1 30 = a + 4 -> same_but [] c c1 -> cmem c1 = cmem c ->
    reaches y ccsidr c1 P) -> reaches y ccsidr c P.
Proof.
  intros Hy Hm Hpc Hlo Hhi Hf HP. eapply reaches_step.
  { eapply (step_on y ccsidr (Bl l)); [assumption|exact Hm|rewrite Hpc; lia|rewrite Hpc; exact Hf|reflexivity]. }
  rewrite low_relative, Hpc by (rewrite Hpc; unfold IMAGE in *; lia).
  apply HP; try reflexivity; [apply (mapped_same y _ _ Hm); reflexivity| |split; reflexivity].
  cbn [set_pc set_gpr gpr Nat.eqb]. apply add64_small. unfold IMAGE, U64 in *. lia.
Qed.

Lemma icache_runs y ccsidr c P :
  layout_ok y -> mapped y c -> pc c = IMAGE + 0x1B8 ->
  (forall c1, mapped y c1 -> pc c1 = gpr c 30 -> same_but [] c c1 -> cmem c1 = cmem c -> reaches y ccsidr c1 P) ->
  reaches y ccsidr c P.
Proof.
  intros Hy Hm Hpc HP. destruct c as [g sy p q m]. cbn [pc] in Hpc.
  in_a_row y ccsidr [Barrier; Barrier; Barrier] Hpc.
  intros Hm1 Hpc1. step_by y ccsidr Ret Hm1 Hpc1.
  apply HP; try reflexivity; [apply (mapped_same y _ _ Hm1); reflexivity|split; reflexivity].
Qed.

Lemma el1_stack y ccsidr c P :
  layout_ok y -> mapped y c -> el c = 1 -> sp_reg c = Sys.SP_EL1 -> pc c = IMAGE + 0xDC ->
  (forall c1, mapped y c1 -> pc c1 = IMAGE + 0xE8 -> same_but [Sys.SP_EL1] c c1 -> sys c1 Sys.SP_EL1 = _stack_top y ->
    (forall x, cmem c1 x = if (_bss_start y - KERNEL_BASE <=? x) && (x <? _bss_end y - KERNEL_BASE) then 0 else cmem c x) ->
    reaches y ccsidr c1 P) -> reaches y ccsidr c P.
Proof.
  intros Hy Hm Hel Hsp Hpc HP. destruct c as [g sy p q m]. cbn [pc] in Hpc. unfold el, sp_reg in Hel, Hsp. cbn [pstate] in Hel, Hsp.
  in_a_row y ccsidr [LdrLit (X 0) (_stack_top y); Mov SP (X 0)] Hpc.
  intros Hm1 Hpc1. match type of Hpc1 with pc ?c1 = _ => set (d := c1) in * end.
  assert (d = mk_cpu (fun i => if Nat.eqb i 0 then _stack_top y else g i)
    (fun r => if decide (r = Sys.SP_EL1) then _stack_top y else sy r) p (add64 (add64 q 4) 4) m) as Ed
    by (unfold d; rewrite <- Hsp; reflexivity).
  assert (same_but [Sys.SP_EL1] (mk_cpu g sy p q m) d) as Hs.
  { rewrite Ed. split; try reflexivity. intros r Hr. destruct r; try reflexivity; destruct Hr; in_list. }
  assert (sys d Sys.SP_EL1 = _stack_top y /\ cmem d = m /\ el d = 1) as (E1 & E2 & E3) by (rewrite Ed; auto).
  clearbody d. clear Ed.
  eapply (call y ccsidr rt_setup d _ P Hy Hm1 Hpc1); [in_range|in_range|reflexivity|].
  intros c1 Hm2 Hpc2 Hlr Hs2 Em2.
  apply (rt_setup_runs y ccsidr c1 P Hy Hm2); [rewrite (sb_el _ _ _ Hs2); exact E3|exact Hpc2|].
  intros c2 Hm3 Hpc3 Hs3 Hx. apply HP; [exact Hm3|rewrite Hpc3, Hlr; reflexivity| | |].
  - transitivity d; [exact Hs|]. transitivity c1; [|now apply same_machine_but].
    apply (same_but_mono [] _ _ _ (fun r Hr => False_ind _ (not_elem_of_nil r Hr)) Hs2).
  - rewrite (sm_sys _ _ Hs3), (sb_sys _ _ _ Hs2), E1; [reflexivity|apply not_elem_of_nil].
  - intros x. rewrite Hx, Em2, E2. reflexivity.
Qed.

(** The vectors, the floating-point unit and the caches *)
Lemma el1_system y ccsidr c P :
  layout_ok y -> mapped y c -> pc c = IMAGE + 0xE8 ->
  (forall c1, mapped y c1 -> pc c1 = IMAGE + 0x110 -> same_but [Sys.VBAR_EL1; Sys.CPACR_EL1; Sys.CSSELR_EL1] c c1 ->
    sys c1 Sys.VBAR_EL1 = el1_vectors y -> (Z.testbit (sys c1 Sys.CPACR_EL1) 20 = true /\ Z.testbit (sys c1 Sys.CPACR_EL1) 21 = true) ->
    cmem c1 = cmem c -> reaches y ccsidr c1 P) -> reaches y ccsidr c P.
Proof.
  intros Hy Hm Hpc HP. destruct c as [g sy p q m]. cbn [pc] in Hpc.
  in_a_row y ccsidr [LdrLit (X 0) (el1_vectors y); Msr Sys.VBAR_EL1 (X 0); Barrier;
      Mrs (X 0) Sys.CPACR_EL1; OrrI (X 0) (X 0) (Z.shiftl 3 20); Msr Sys.CPACR_EL1 (X 0); Barrier] Hpc.
  intros Hm1 Hpc1. match type of Hpc1 with pc ?c1 = _ => set (d := c1) in * end.
  assert (same_but [Sys.VBAR_EL1; Sys.CPACR_EL1; Sys.CSSELR_EL1] (mk_cpu g sy p q m) d) as Hs
    by (split; try reflexivity; intros [] Hr; try reflexivity; destruct Hr; in_list).
  assert (sys d Sys.VBAR_EL1 = el1_vectors y /\ cmem d = m /\ sys d Sys.CPACR_EL1 = Z.lor (sy Sys.CPACR_EL1) (Z.shiftl 3 20))
    as (E1 & E2 & E3) by (repeat split; reflexivity).
  assert (Z.testbit (sys d Sys.CPACR_EL1) 20 = true /\ Z.testbit (sys d Sys.CPACR_EL1) 21 = true) as E4.
  { rewrite E3, !Z.lor_spec. change (Z.testbit (Z.shiftl 3 20) 20) with true. change (Z.testbit (Z.shiftl 3 20) 21) with true.
    now rewrite !orb_true_r. }
  clearbody d. assert (forall r, r ∈ ([] : list Sys.sysreg) -> r ∈ [Sys.VBAR_EL1; Sys.CPACR_EL1; Sys.CSSELR_EL1]) as Hnil
    by (intros r Hr; now apply not_elem_of_nil in Hr).
  assert (forall r, r ∈ [Sys.CSSELR_EL1] -> r ∈ [Sys.VBAR_EL1; Sys.CPACR_EL1; Sys.CSSELR_EL1]) as Hone
    by (intros r Hr; apply list_elem_of_singleton in Hr as ->; in_list).
  eapply (call y ccsidr icache_clean_invalidate d _ P Hy Hm1 Hpc1); [in_range|in_range|reflexivity|].
  intros c1 Hm2 Hpc2 Hlr2 Hs2 Em2. apply (icache_runs y ccsidr c1 P Hy Hm2 Hpc2).
  intros c2 Hm3 Hpc3 Hs3 Em3. rewrite Hlr2 in Hpc3.
  eapply (call y ccsidr dcache_l1_clean_invalidate c2 _ P Hy Hm3 Hpc3); [in_range|in_range|reflexivity|].
  intros c3 Hm4 Hpc4 Hlr4 Hs4 Em4. apply (dcache_l1_runs y ccsidr c3 P Hy Hm4 Hpc4).
  intros c4 Hm5 Hpc5 Hs5 Em5. rewrite Hlr4 in Hpc5.
  eapply (call y ccsidr dcache_l2_clean_invalidate c4 _ P Hy Hm5 Hpc5); [in_range|in_range|reflexivity|].
  intros c5 Hm6 Hpc6 Hlr6 Hs6 Em6. apply (dcache_l2_runs y ccsidr c5 P Hy Hm6 Hpc6).
  intros c6 Hm7 Hpc7 Hs7 Em7.
  assert (same_but [Sys.CSSELR_EL1] d c6) as Hall.
  { transitivity c1; [now apply (same_but_mono []); [intros r Hr; now apply not_elem_of_nil in Hr|]|].
    transitivity c2; [now apply (same_but_mono []); [intros r Hr; now apply not_elem_of_nil in Hr|]|].
    transitivity c3; [now apply (same_but_mono []); [intros r Hr; now apply not_elem_of_nil in Hr|]|].
    transitivity c4; [exact Hs5|].
    transitivity c5; [now apply (same_but_mono []); [intros r Hr; now apply not_elem_of_nil in Hr|]|exact Hs7]. }
  apply HP; [exact Hm7|rewrite Hpc7, Hlr6; reflexivity| | | |cbn; congruence].
  - transitivity d; [exact Hs|]. exact (same_but_mono _ _ _ _ Hone Hall).
  - rewrite (sb_sys _ _ _ Hall) by not_in. exact E1.
  - rewrite (sb_sys _ _ _ Hall) by not_in. exact E4.
Qed.

(** The caches on, and the jump into the upper half *)
Lemma el1_jump y ccsidr c (P : cpu -> Prop) :
  layout_ok y -> mapped y c -> pc c = IMAGE + 0x110 ->
  (forall c1, mapped y c1 -> pc c1 = _rust_main y -> same_but [Sys.SCTLR_EL1] c c1 ->
    (Z.testbit (sys c1 Sys.SCTLR_EL1) 2 = true /\ Z.testbit (sys c1 Sys.SCTLR_EL1) 12 = true) ->
    cmem c1 = cmem c -> P c1) -> reaches y ccsidr c P.
Proof.
  intros Hy Hm Hpc HP. destruct c as [g sy p q m]. cbn [pc] in Hpc.
  in_a_row y ccsidr [Mrs (X 0) Sys.SCTLR_EL1; OrrI (X 0) (X 0) (Z.shiftl 1 2); OrrI (X 0) (X 0) (Z.shiftl 1 12)] Hpc.
  intros Hm1 Hpc1. match type of Hpc1 with pc ?c1 = _ => set (d := c1) in * end.
  assert (gpr d 0 = Z.lor (Z.lor (sy Sys.SCTLR_EL1) (Z.shiftl 1 2)) (Z.shiftl 1 12)) as E0 by reflexivity.
  assert (same_but [] (mk_cpu g sy p q m) d /\ cmem d = m) as [Hs Em] by (split; [split; reflexivity|reflexivity]).
  clearbody d. step_by y ccsidr (Msr Sys.SCTLR_EL1 (X 0)) Hm1 Hpc1.
  destruct d as [gd sd pd qd md]. cbn [get gpr] in E0. cbn [cmem] in Em. cbn [pc] in Hpc1.
  match goal with |- reaches _ _ ?c1 _ => set (e := c1) in * end.
  assert (sys e Sys.SCTLR_EL1 = Z.lor (Z.lor (sy Sys.SCTLR_EL1) (Z.shiftl 1 2)) (Z.shiftl 1 12)) as Es by (exact E0).
  assert (mapped y e) as Hm2.
  { destruct Hm1 as [T1 T2 T3 T4 T5 T6]. split; auto. rewrite Es, !Z.lor_spec. pose proof (mp_mmu _ _ Hm) as Hb.
    cbn [sys] in Hb. now rewrite Hb. }
  assert (Z.testbit (sys e Sys.SCTLR_EL1) 2 = true /\ Z.testbit (sys e Sys.SCTLR_EL1) 12 = true) as Hbits.
  { rewrite Es, !Z.lor_spec. change (Z.testbit (Z.shiftl 1 2) 2) with true. change (Z.testbit (Z.shiftl 1 12) 12) with true.
    now rewrite !orb_true_r. }
  assert (same_but [Sys.SCTLR_EL1] (mk_cpu g sy p q m) e) as Hs2.
  { transitivity (mk_cpu gd sd pd qd md); [apply (same_but_mono []); [intros r Hr; now apply not_elem_of_nil in Hr|exact Hs]|].
    split; try reflexivity. intros [] Hr; try reflexivity; destruct Hr; in_list. }
  assert (pc e = IMAGE + 0x120 /\ cmem e = m) as [Hpc2 Em2] by (split; [unfold e; cbn [next set_pc pc set_sys]; rewrite Hpc1; reflexivity|exact Em]).
  clearbody e. clear dependent md. destruct e as [ge se pe qe me]. cbn [pc] in Hpc2.
  eapply (run_on y ccsidr [Barrier; LdrLit (X 16) (_rust_main y)]);
    [assumption|reflexivity|exact Hm2|exact Hpc2|in_range|in_range|apply code_at_list; reflexivity|reflexivity|].
  intros Hm3 Hpc3. step_by y ccsidr (Br (X 16)) Hm3 Hpc3.
  apply reaches_here, HP; [apply (mapped_same y _ _ Hm3); reflexivity|reflexivity| |exact Hbits|exact Em2].
  transitivity (mk_cpu ge se pe qe me); [exact Hs2|split; reflexivity].
Qed.

(** What [_rust_main] finds. *)
Record booted (y : symbols) (c0 c : cpu) : Prop := {
  bt_pc : pc c = _rust_main y;
  bt_el : el c = 1;
  bt_sp : sp_reg c = Sys.SP_EL1 /\ sys c Sys.SP_EL1 = _stack_top y;
  bt_vectors : sys c Sys.VBAR_EL1 = el1_vectors y;
  bt_mair : sys c Sys.MAIR_EL1 = KernelMap.MAIR_EL1_VALUE;
  bt_fpu : Z.testbit (sys c Sys.CPACR_EL1) 20 = true /\ Z.testbit (sys c Sys.CPACR_EL1) 21 = true;
  bt_caches : Z.testbit (sys c Sys.SCTLR_EL1) 2 = true /\ Z.testbit (sys c Sys.SCTLR_EL1) 12 = true;
  bt_upper : forall va, KERNEL_BASE <= va < 2 ^ 64 -> tr c va = kernel_translate va;
  bt_lower : forall pa, 0 <= pa < 2 ^ 31 -> tr c pa = Some pa;
  bt_memory : forall x, cmem c x =
    if (phys (_bss_start y) <=? x) && (x <? phys (_bss_end y)) then 0 else linked_mem y (cmem c0) x;
  bt_el2 : el c0 = 2 -> el2_done c;
}.

(** From the state at [el1_start] on. *)
Lemma boot_el1 y ccsidr c0 c :
  layout_ok y -> mapped y c -> el c = 1 -> sp_reg c = Sys.SP_EL1 -> pc c = IMAGE + 0xDC ->
  sys c Sys.MAIR_EL1 = KernelMap.MAIR_EL1_VALUE -> cmem c = linked_mem y (cmem c0) -> (el c0 = 2 -> el2_done c) ->
  reaches y ccsidr c (booted y c0).
Proof.
  intros Hy Hm Hel Hsp Hpc Hmair Hmem He2.
  apply (el1_stack y ccsidr c _ Hy Hm Hel Hsp Hpc). intros c1 Hm1 Hpc1 Hs1 E1 Ex1.
  apply (el1_system y ccsidr c1 _ Hy Hm1 Hpc1). intros c2 Hm2 Hpc2 Hs2 E2 E3 Em2.
  apply (el1_jump y ccsidr c2 _ Hy Hm2 Hpc2). intros c3 Hm3 Hpc3 Hs3 E4 Em3.
  assert (same_but [Sys.SP_EL1; Sys.VBAR_EL1; Sys.CPACR_EL1; Sys.CSSELR_EL1; Sys.SCTLR_EL1] c c3) as Hall.
  { transitivity c1; [|transitivity c2]; (eapply same_but_mono; [|eassumption]); intros r Hr;
      repeat (apply elem_of_cons in Hr as [->|Hr]; [in_list|]); now apply not_elem_of_nil in Hr. }
  assert (el c3 = 1) as Hel3 by (rewrite (sb_el _ _ _ Hall); exact Hel).
  assert (forall r, r ∉ [Sys.SP_EL1; Sys.VBAR_EL1; Sys.CPACR_EL1; Sys.CSSELR_EL1; Sys.SCTLR_EL1] -> sys c3 r = sys c r) as Hsys
    by (exact (sb_sys _ _ _ Hall)).
  addresses Hy. split; auto.
  - rewrite (sb_sp _ _ _ Hall), Hsp. split; [reflexivity|]. rewrite (sb_sys _ _ _ Hs3), (sb_sys _ _ _ Hs2) by not_in. exact E1.
  - rewrite (sb_sys _ _ _ Hs3) by not_in. exact E2.
  - rewrite Hsys by not_in. exact Hmair.
  - rewrite (sb_sys _ _ _ Hs3) by not_in. exact E3.
  - intros va Hva. exact (mapped_upper y Hy c3 Hm3 va Hel3 Hva).
  - exact (mapped_low y Hy c3 Hm3).
  - intros x. rewrite Em3, Em2, Ex1, Hmem. now rewrite P8, P9.
  - intros Hc0. destruct (He2 Hc0) as [B1 B2 B3 B4]. split; rewrite ?Hsys by not_in; auto.
    intros b Hb. now rewrite (sb_masked _ _ _ Hall), B4.
Qed.

(** * Properties *)

(** C7. From the firmware's jump to [_start], at EL2 or EL1 with the MMU off,
    the boot assembly ends at [_rust_main] in the upper half, for every cache
    geometry: at EL1 on the boot stack, with the kernel's vectors, the BSS zero,
    the first level linked up and no other byte of memory changed, and the
    tables in memory translating the upper half as [kernel_translate], the
    model of the linear map the rest of the kernel lives in. *)
Theorem start_reaches_rust_main y ccsidr c :
  layout_ok y -> loaded y (cmem c) -> pc c = IMAGE ->
  el c = 2 \/ (el c = 1 /\ Z.testbit (pstate c) 0 = true /\ Z.testbit (sys c Sys.SCTLR_EL1) 0 = false) ->
  exists n c', steps y ccsidr n c = Some c' /\ booted y c c'.
Proof.
  intros Hy Hld Hpc Hel. change (reaches y ccsidr c (booted y c)).
  assert (mmu_off c /\ (el c = 1 \/ el c = 2)) as [Ho Hel'] by (unfold mmu_off; intuition).
  apply (boot_mmu y ccsidr c _ Hy Hld Ho Hel' Hpc). intros c1 Hm1 Hpc1 Ep1 Em1 Emair1.
  apply (jump_to_transition y ccsidr c1 _ Hy Hm1 Hpc1). intros c2 Hm2 Hpc2 Ep2 Em2 Es2.
  assert (el c2 = el c) as El2 by (unfold el; now rewrite Ep2, Ep1).
  apply (compare_level y ccsidr c2 _ Hy Hm2 Hpc2). intros c3 Hm3 Hpc3 El3 Esp3 Em3 Es3. rewrite El2 in *.
  assert (sys c3 Sys.MAIR_EL1 = KernelMap.MAIR_EL1_VALUE) as Emair3 by (now rewrite Es3, Es2).
  assert (cmem c3 = linked_mem y (cmem c)) as Em3' by (now rewrite Em3, Em2).
  destruct Hel as [He | (He & Hp & _)]; rewrite He in Hpc3, El3; cbn [Z.eqb Pos.eqb] in Hpc3.
  - apply (drop_to_el1 y ccsidr c3 _ Hy Hm3 Hpc3 El3). intros c4 Hm4 Hpc4 El4 Esp4 Em4 Emair4 Hdone.
    apply (boot_el1 y ccsidr c c4 Hy Hm4 El4 Esp4 Hpc4); [congruence|congruence|auto].
  - apply (boot_el1 y ccsidr c c3 Hy Hm3 El3); auto; [|intros; congruence].
    rewrite Esp3. unfold sp_reg, sp_of. rewrite Ep2, Ep1, Hp. unfold el in He. now rewrite He.
Qed.

(** ** Witness *)

(** The addresses of the image in the repository, kernel8.img. *)
Definition demo_symbols : symbols :=
  mk_symbols 0xFFFFFF8000092800 0xFFFFFF80000927F0 0xFFFFFF80000927F8 0xFFFFFF80008E6000 0xFFFFFF80008E7000
    0xFFFFFF80008E8000 0xFFFFFF80008EE000 0xFFFFFF80008E9000 0xFFFFFF80008E9050 0xFFFFFF8000080800 0xFFFFFF8000088160.

(** A table in memory. *)
Definition table_mem (base : Z) (t : list Z) (m : mem) : mem := fun x =>
  if (base <=? x) && (x <? base + 8 * Z.of_nat (length t))
  then nth (Z.to_nat ((x - base) mod 8)) (le_split 8 (nth (Z.to_nat ((x - base) / 8)) t 0)) 0 else m x.

Lemma table_mem_at base t m : Forall is_u64 t -> table_at (table_mem base t m) base t.
Proof.
  intros Ht i e Hi. rewrite Forall_forall in Ht. pose proof (Ht e (list_elem_of_lookup_2 _ _ _ Hi)) as He.
  pose proof (lookup_lt_Some _ _ _ Hi) as Hlt.
  rewrite <- (read64_write64_same (table_mem base t m) (base + 8 * Z.of_nat i) e He). apply read64_ext. intros x Hx.
  unfold write64. rewrite write_list_in by (rewrite length_le_split; lia). unfold table_mem.
  replace (base <=? x) with true by (symmetry; apply Z.leb_le; lia).
  replace (x <? base + 8 * Z.of_nat (length t)) with true by (symmetry; apply Z.ltb_lt; lia). cbn [andb].
  assert ((x - base) / 8 = Z.of_nat i) as -> by (symmetry; apply (Z.div_unique_pos _ _ _ (x - base - 8 * Z.of_nat i)); lia).
  assert ((x - base) mod 8 = x - (base + 8 * Z.of_nat i)) as ->
    by (symmetry; apply (Z.mod_unique_pos _ _ (Z.of_nat i)); lia).
  now rewrite Nat2Z.id, (nth_lookup_Some _ _ _ _ Hi).
Qed.

Definition demo_memory : mem :=
  write64 (write64 (write64 (table_mem 0x8E7000 kernel_l2_0 (table_mem 0x8E8000 kernel_l2_1 (fun _ => 0)))
    0x92800 KernelMap.TCR_EL1_VALUE) 0x927F0 KernelMap.MAIR_EL1_VALUE) 0x927F8 KernelMap.SCTLR_EL1_ENABLE_MMU.

Lemma demo_loaded : loaded demo_symbols demo_memory.
Proof.
  assert (Forall is_u64 kernel_l2_0 /\ Forall is_u64 kernel_l2_1) as [F0 F1].
  { assert (forallb (fun e => (0 <=? e) && (e <? U64)) (kernel_l2_0 ++ kernel_l2_1) = true) as H by (vm_compute; reflexivity).
    rewrite forallb_forall in H. split; apply Forall_forall; intros e He; unfold is_u64;
      (assert ((0 <=? e) && (e <? U64) = true) as Hb by (apply H, in_or_app; rewrite <- !list_elem_of_In; auto)); lia. }
  unfold demo_memory. split.
  - change (phys (TCR_EL1_VALUE demo_symbols)) with 0x92800. rewrite 2 read64_write64_ne by lia.
    apply read64_write64_same. split; [discriminate|reflexivity].
  - change (phys (MAIR_EL1_VALUE demo_symbols)) with 0x927F0. rewrite read64_write64_ne by lia.
    apply read64_write64_same. split; [discriminate|reflexivity].
  - apply read64_write64_same. split; [discriminate|reflexivity].
  - intros i e Hi. apply lookup_replicate in Hi as [-> Hi].
    change (phys (PAGE_TABLE_KERNEL_L1 demo_symbols)) with 0x8E6000. rewrite !read64_write64_ne by lia.
    rewrite (read64_ext (fun _ => 0)); [reflexivity|]. intros x Hx. unfold table_mem.
    replace (0x8E7000 <=? x) with false by (symmetry; apply Z.leb_gt; lia).
    replace (0x8E8000 <=? x) with false by (symmetry; apply Z.leb_gt; lia). reflexivity.
  - change (phys (PAGE_TABLE_KERNEL_L2_0 demo_symbols)) with 0x8E7000.
    intros i e Hi. rewrite !read64_write64_ne by lia. now apply table_mem_at.
  - change (phys (PAGE_TABLE_KERNEL_L2_1 demo_symbols)) with 0x8E8000.
    intros i e Hi. pose proof (lookup_lt_Some _ _ _ Hi) as Hlt. change (length kernel_l2_1) with 512%nat in Hlt.
    rewrite !read64_write64_ne by lia. rewrite (read64_ext (table_mem 0x8E8000 kernel_l2_1 (fun _ => 0))); [now apply table_mem_at|].
    intros x Hx. unfold table_mem at 1. change (8 * Z.of_nat (length kernel_l2_0)) with 4096.
    replace (x <? 0x8E7000 + 4096) with false by (symmetry; apply Z.ltb_ge; lia). now rewrite andb_false_r.
Qed.

Lemma demo_layout : layout_ok demo_symbols.
Proof.
  split; cbn; repeat (apply Forall_cons; split); try apply Forall_nil; try exact I; unfold linked, KERNEL_BASE; cbn; try lia; reflexivity.
Qed.

(** The firmware of the board jumps at EL2h. *)
Definition demo_reset : cpu := mk_cpu (fun _ => 0) (fun _ => 0) 0x3C9 IMAGE demo_memory.

Lemma start_reaches_rust_main_witness :
  (layout_ok demo_symbols /\ loaded demo_symbols (cmem demo_reset) /\ el demo_reset = 2) /\
  exists n c', steps demo_symbols (fun _ => 0x700FE01A) n demo_reset = Some c' /\ booted demo_symbols demo_reset c'.
Proof.
  split; [split; [exact demo_layout|split; [exact demo_loaded|reflexivity]]|].
  exact (start_reaches_rust_main demo_symbols (fun _ => 0x700FE01A) demo_reset demo_layout demo_loaded eq_refl (or_introl eq_refl)).
Defined.
