(* ===== verification/KernelStack.v ===== *)
(** The kernel stacks of src/src/kernel/kernelstack.rs: a table of slots, the
    state of each, and the pages of the slot's region in the kernel's own
    translation table.

    [stacks_ok] is the component's invariant: a slot's six upper pages are
    mapped exactly while it is in use, its lowest page never is, and no process
    holds two slots. *)

From Stdlib Require Import ZArith Lia.
From stdpp Require Import base strings numbers list.
From S2P Require Import Prelude Memory Frames PageTable PageFree PagingSpec UserMem PageRange.
From S2P Require Import Isolation.

Local Open Scope Z_scope.

(** ** State *)

Definition MAX_PROCESSES : Z := 50.
Definition KERNEL_STACK_SIZE : Z := 0x7000.
Definition KERNEL_STACK_REGION_START : Z := 0xFFFFFF8080000000.

Inductive StackState :=
| Allocated (pid : Z)
| QueuedToFree (pid : Z)
| Free.

#[global] Instance StackState_eq_dec : EqDecision StackState.
Proof. solve_decision. Defined.

(** The memory, the slots, and the address of PAGE_TABLE_KERNEL_L1. *)
Record kstate := mk_kstate {
  kmem : pstate;
  KERNEL_STACKS_ALLOCATED : list StackState;
  L1_ADDR : Z;
}.

Definition set_kmem (m : pstate) (k : kstate) : kstate :=
  mk_kstate m (KERNEL_STACKS_ALLOCATED k) (L1_ADDR k).
Definition set_stacks (s : list StackState) (k : kstate) : kstate :=
  mk_kstate (kmem k) s (L1_ADDR k).

Definition mem_lens : Lens kstate pstate.
Proof. refine (mkLens _ _ kmem set_kmem _ _ _); [reflexivity|intros []; reflexivity|reflexivity]. Defined.

(** ** Operations *)

Definition get_active_stack_index (pid : Z) (k : kstate) : option nat :=
  fst <$> find_slot (fun s => bool_decide (s = Allocated pid)) (KERNEL_STACKS_ALLOCATED k).

Definition stack_start (index : nat) : Z :=
  KERNEL_STACK_REGION_START + Z.of_nat index * KERNEL_STACK_SIZE.

Definition get_stack_top (pid : Z) (k : kstate) : result Z :=
  match get_active_stack_index pid k with
  | None => RErr "[get_stack_top] Process does not have a kernel stack allocated"
  | Some index => ROk (stack_start index + KERNEL_STACK_SIZE)
  end.

Definition get_stack_usage (pid sp_el1_val : Z) (k : kstate) : result Z :=
  match get_stack_top pid k with
  | RErr e => RErr e
  | ROk stack_top =>
      if sp_el1_val >? stack_top then
        RErr "[get_stack_usage] kernel stack underflow! (how did this happen bro)"
      else ROk (sub64 stack_top sp_el1_val)
  end.

Definition queue_stack_to_free (pid : Z) : M kstate (result unit) := fun k =>
  match get_active_stack_index pid k with
  | None => Done (RErr "[queue_stack_to_free] Process does not have a kernel stack allocated") k
  | Some index =>
      Done (ROk tt) (set_stacks (<[index := QueuedToFree pid]> (KERNEL_STACKS_ALLOCATED k)) k)
  end.

(** A store through a kernel virtual address: a data abort on an unmapped one. *)
Fixpoint va_write (tr : Z -> option Z) (m : mem) (va : Z) (bs : bytes) : option mem :=
  match bs with
  | [] => Some m
  | b :: bs' => p ← tr va; va_write tr (write_list m p [b]) (va + 1) bs'
  end.
Definition va_read (tr : Z -> option Z) (m : mem) (va n : Z) : option bytes :=
  mapM (fun a => m <$> tr a) (seqZ va n).

Definition kernel_tr (k : kstate) (va : Z) : option Z :=
  ttbr0_to_pa (kmem k) va (Some (ttbr1_to_pa (L1_ADDR k))).

Definition kstore (va : Z) (bs : bytes) : M kstate unit := fun k =>
  match va_write (kernel_tr k) (ram (kmem k)) va bs with
  | Some m => Done tt (set_kmem (set_ram m (kmem k)) k)
  | None => Halt "data abort"
  end.

(** [1..total_pages]: the pages of a slot without its guard page. *)
Definition stack_pages (index : nat) : list Z :=
  (fun page_idx => stack_start index + page_idx * 4096) <$> seqZ 1 (KERNEL_STACK_SIZE / 4096 - 1).

Definition alloc_stack (pid : Z) : M kstate (result Z) := fun k =>
  match get_active_stack_index pid k with
  | Some _ => Done (RErr "[alloc_stack] Process already has a kernel stack allocated") k
  | None =>
      match find_slot (fun s => bool_decide (s = Free)) (KERNEL_STACKS_ALLOCATED k) with
      | None => Done (RErr "[alloc_stack] No available kernel stacks") k
      | Some (i, _) =>
          (modify (fun k => set_stacks (<[i := Allocated pid]> (KERNEL_STACKS_ALLOCATED k)) k) ;;
           zoom mem_lens (for_in (stack_pages i) (fun page_va =>
             alloc_page page_va (Some (ttbr1_to_pa (L1_ADDR k))) ;; skip)) ;;
           let kernel_stack_top := stack_start i + KERNEL_STACK_SIZE in
           kstore (kernel_stack_top - 0x10) (le_split 8 0x123456789ABCDEF0) ;;
           ret (ROk kernel_stack_top)) k
      end
  end.

Definition free_stack (stack_i : nat) : M kstate (result unit) := fun k =>
  match KERNEL_STACKS_ALLOCATED k !! stack_i with
  | Some (QueuedToFree pid) =>
      (let ttbr1_val := L1_ADDR k in
       zoom mem_lens (for_in (stack_pages stack_i) (fun page_va => free_page page_va (Some ttbr1_val))) ;;
       modify (fun k => set_stacks (<[stack_i := Free]> (KERNEL_STACKS_ALLOCATED k)) k) ;;
       ret (ROk tt)) k
  | Some _ => Done (RErr "[free_stack] Stack is not queued to free") k
  | None => Panic "index out of bounds"
  end.

(** [current_pid] is [Scheduler::get_current_process()]'s, asked for (and
    unwrapped) only when a queued slot is found. *)
Definition free_queued_stacks (current_pid : option Z) : M kstate unit :=
  for_in (seq 0 (Z.to_nat MAX_PROCESSES)) (fun i =>
    let* s := gets (fun k => KERNEL_STACKS_ALLOCATED k !! i) in
    match s with
    | Some (QueuedToFree pid) =>
        let* cur := expect current_pid "called `Option::unwrap()` on a `None` value" in
        if pid =? cur then skip else free_stack i ;; skip
    | _ => skip
    end).

(** [copy_nonoverlapping(src_sp_el1, dst_sp_el1, active_size)] *)
Definition kcopy (src dst n : Z) : M kstate unit := fun k =>
  match va_read (kernel_tr k) (ram (kmem k)) src n with
  | Some bs => kstore dst bs k
  | None => Halt "data abort"
  end.

Definition duplicate_stack (src_pid dest_pid src_sp_el1 : Z) : M kstate (result Z) :=
  let* r := gets (get_stack_top dest_pid) in
  let? dst_stack_top := (match r with ROk top => ret (ROk top) | RErr _ => alloc_stack dest_pid end) in
  let? active_size := gets (get_stack_usage src_pid src_sp_el1) in
  let dst_sp_el1 := sub64 dst_stack_top active_size in
  kcopy src_sp_el1 dst_sp_el1 active_size ;;
  ret (ROk dst_sp_el1).

(** ** Addresses of the slots *)

Lemma va_path_kernel x : 0 <= x < 2 ^ 39 -> va_path (KERNEL_BASE + x) = va_path x.
Proof.
  intros Hx. unfold va_path, l1_index, l2_index, l3_index, KERNEL_BASE.
  rewrite !index_div by lia. change 0xffffff8000000000 with ((2 ^ 25 - 1) * 2 ^ 39).
  replace ((2 ^ 25 - 1) * 2 ^ 39 + x) with (x + (2 ^ 25 - 1) * 2 ^ 27 * 4096) by lia.
  rewrite Z.div_add by lia.
  change (2 ^ (30 - 12)) with (2 ^ 18). change (2 ^ (21 - 12)) with (2 ^ 9).
  change (2 ^ (12 - 12)) with 1. rewrite !Z.div_1_r.
  replace ((2 ^ 25 - 1) * 2 ^ 27) with ((2 ^ 25 - 1) * 2 ^ 9 * 2 ^ 18) at 1 by lia.
  rewrite Z.div_add by lia.
  replace ((2 ^ 25 - 1) * 2 ^ 27) with ((2 ^ 25 - 1) * 2 ^ 18 * 2 ^ 9) at 1 by lia.
  rewrite Z.div_add by lia. change 512 with (2 ^ 9).
  rewrite (Z.mod_add (x / 4096 / 2 ^ 18)) by lia.
  replace ((2 ^ 25 - 1) * 2 ^ 18) with ((2 ^ 25 - 1) * 2 ^ 9 * 2 ^ 9) by lia.
  rewrite (Z.mod_add (x / 4096 / 2 ^ 9)) by lia.
  replace ((2 ^ 25 - 1) * 2 ^ 27) with ((2 ^ 25 - 1) * 2 ^ 18 * 2 ^ 9) by lia.
  rewrite (Z.mod_add (x / 4096)) by lia. reflexivity.
Qed.

Definition slot_ok (i : nat) : Prop := Z.of_nat i < MAX_PROCESSES.
Definition page_va (i : nat) (j : Z) : Z := stack_start i + j * 4096.

Lemma page_va_eq i j : page_va i j = KERNEL_BASE + (0x80000000 + (7 * Z.of_nat i + j) * 4096).
Proof.
  unfold page_va, stack_start, KERNEL_STACK_REGION_START, KERNEL_STACK_SIZE, KERNEL_BASE. lia.
Qed.

Lemma page_va_inj i j i' j' :
  slot_ok i -> slot_ok i' -> 0 <= j < 7 -> 0 <= j' < 7 ->
  va_path (page_va i j) = va_path (page_va i' j') -> i = i' /\ j = j'.
Proof.
  unfold slot_ok, MAX_PROCESSES. intros Hi Hi' Hj Hj'. rewrite !page_va_eq.
  rewrite !va_path_kernel by lia. intros H.
  apply va_path_inj in H; [|unfold VA_LIMIT; lia|unfold VA_LIMIT; lia].
  rewrite !Z.div_add in H by lia. lia.
Qed.

(** Any address of the page has the page's path. *)
Lemma in_page_path i j v :
  slot_ok i -> 0 <= j < 7 -> page_va i j <= v < page_va i j + 4096 -> va_path v = va_path (page_va i j).
Proof.
  intros Hi Hj Hv. apply va_path_page. rewrite page_va_eq in *. unfold KERNEL_BASE in *.
  set (n := 7 * Z.of_nat i + j) in *.
  replace (0xffffff8000000000 + (0x80000000 + n * 4096)) with (0 + (0xffffff8080000000 / 4096 + n) * 4096) in *
    by (change (0xffffff8080000000 / 4096) with 0xffffff8080000; lia).
  rewrite Z.div_add by lia. change (0 / 4096) with 0.
  symmetry. apply (Z.div_unique_pos _ _ _ (v - (0 + (0xffffff8080000000 / 4096 + n) * 4096))); lia.
Qed.

Lemma stack_pages_in i va : va ∈ stack_pages i <-> exists j, 1 <= j < 7 /\ va = page_va i j.
Proof.
  unfold stack_pages. change (KERNEL_STACK_SIZE / 4096 - 1) with 6. rewrite list_elem_of_fmap.
  split; intros (j & H1 & H2).
  - apply elem_of_seqZ in H2. exists j. split; [lia|exact H1].
  - exists j. split; [exact H2|]. apply elem_of_seqZ. lia.
Qed.

Lemma stack_pages_path i v :
  v ∈ (va_path <$> stack_pages i) <-> exists j, 1 <= j < 7 /\ v = va_path (page_va i j).
Proof.
  rewrite list_elem_of_fmap. split.
  - intros (va & -> & (j & Hj & ->)%stack_pages_in). eauto.
  - intros (j & Hj & ->). exists (page_va i j). split; [reflexivity|]. apply stack_pages_in. eauto.
Qed.

Lemma stack_pages_nodup i : slot_ok i -> pages_nodup (stack_pages i).
Proof.
  intros Hi. unfold pages_nodup, stack_pages. change (KERNEL_STACK_SIZE / 4096 - 1) with 6.
  rewrite <- list_fmap_compose. apply NoDup_fmap_2_strong; [|apply NoDup_seqZ].
  intros j j' Hj%elem_of_seqZ Hj'%elem_of_seqZ H. cbn in H.
  now apply (page_va_inj i j i j') in H as [_ ?]; [|assumption|assumption|lia|lia].
Qed.

Lemma length_stack_pages i : length (stack_pages i) = 6%nat.
Proof. unfold stack_pages. now rewrite length_fmap, length_seqZ. Qed.

(** ** The invariant *)

Definition k_root (k : kstate) : Z := ttbr1_to_pa (L1_ADDR k).

Definition in_use (s : StackState) : Prop := s <> Free.

Record stacks_ok (k : kstate) (l : list Z) : Prop := {
  sk_space : space_ok (kmem k) (k_root k) l;
  sk_root : L1_ADDR k = ttbr1_to_va (k_root k);
  sk_length : length (KERNEL_STACKS_ALLOCATED k) = Z.to_nat MAX_PROCESSES;
  sk_pages : forall i s j, KERNEL_STACKS_ALLOCATED k !! i = Some s -> 0 <= j < 7 ->
    mapped (kmem k) (k_root k) (page_va i j) <-> in_use s /\ 1 <= j;
  sk_unique : forall i i' pid, KERNEL_STACKS_ALLOCATED k !! i = Some (Allocated pid) ->
    KERNEL_STACKS_ALLOCATED k !! i' = Some (Allocated pid) -> i = i';
}.

Lemma slot_of_lookup k l i s :
  stacks_ok k l -> KERNEL_STACKS_ALLOCATED k !! i = Some s -> slot_ok i.
Proof.
  intros Hok Hs. apply lookup_lt_Some in Hs. rewrite (sk_length _ _ Hok) in Hs.
  unfold slot_ok, MAX_PROCESSES in *. lia.
Qed.

Lemma active_index_some k l pid i :
  stacks_ok k l ->
  get_active_stack_index pid k = Some i <-> KERNEL_STACKS_ALLOCATED k !! i = Some (Allocated pid).
Proof.
  intros Hok. unfold get_active_stack_index. split.
  - destruct (find_slot _ _) as [[j s]|] eqn:Hf; [|discriminate]. intros [= <-].
    apply find_slot_Some in Hf as (Hs & Hp & _). apply bool_decide_eq_true in Hp. now subst.
  - intros Hs. destruct (find_slot _ _) as [[j s]|] eqn:Hf.
    + apply find_slot_Some in Hf as (Hs' & Hp & _). apply bool_decide_eq_true in Hp. subst.
      cbn. f_equal. exact (sk_unique _ _ Hok _ _ _ Hs' Hs).
    + exfalso. rewrite find_slot_None in Hf.
      specialize (Hf _ (list_elem_of_lookup_2 _ _ _ Hs)). now rewrite bool_decide_eq_true_2 in Hf.
Qed.

Lemma active_index_none k pid :
  get_active_stack_index pid k = None <-> (Allocated pid ∉ KERNEL_STACKS_ALLOCATED k).
Proof.
  unfold get_active_stack_index. destruct (find_slot _ _) as [[j s]|] eqn:Hf; cbn.
  - split; [discriminate|]. intros Hn. apply find_slot_Some in Hf as (Hs' & Hp & _).
    apply bool_decide_eq_true in Hp. subst. exfalso. apply Hn. now apply list_elem_of_lookup_2 in Hs'.
  - split; [|reflexivity]. intros _ Hin. rewrite find_slot_None in Hf. specialize (Hf _ Hin).
    now rewrite bool_decide_eq_true_2 in Hf.
Qed.

(** ** Stores to the stacks *)

(** The byte the kernel sees at an address of its table. *)
Definition kread (k : kstate) (va : Z) : option Z := ram (kmem k) <$> kernel_tr k va.

(** The kernel's addresses walk its table like the low addresses below them. *)
Lemma kernel_tr_low k v :
  0 <= v < VA_LIMIT -> kernel_tr k (KERNEL_BASE + v) = ttbr0_to_pa (kmem k) v (Some (k_root k)).
Proof.
  unfold VA_LIMIT. intros Hv. unfold kernel_tr. fold (k_root k).
  rewrite !ttbr0_to_pa_walk, va_path_kernel by lia. rewrite !offset_mod. unfold KERNEL_BASE.
  replace (0xffffff8000000000 + v) with (v + 0xffffff8000000 * 4096) by lia.
  now rewrite Z.mod_add.
Qed.

Lemma kread_low k v :
  0 <= v < VA_LIMIT -> kread k (KERNEL_BASE + v) = vread (kmem k) (k_root k) v.
Proof. intros Hv. unfold kread, vread. now rewrite kernel_tr_low. Qed.

Lemma va_write_update tr root l bs st x :
  space_ok st root l -> Forall is_u8 bs -> 0 <= x -> x + Z.of_nat (length bs) <= VA_LIMIT ->
  (forall v, x <= v < x + Z.of_nat (length bs) ->
     tr (KERNEL_BASE + v) = ttbr0_to_pa st v (Some root) /\ mapped st root v) ->
  exists m', va_write tr (ram st) (KERNEL_BASE + x) bs = Some m' /\
             user_update st root l x bs (set_ram m' st).
Proof.
  revert st x. induction bs as [|b bs IH]; intros st x Hsp Hbs H0 Hlim Htr.
  - exists (ram st). split; [reflexivity|]. destruct st. now apply user_update_nil.
  - apply Forall_cons in Hbs as [Hb Hbs]. cbn [va_write length] in *.
    destruct (Htr x ltac:(lia)) as [-> Hm]. apply mapped_translate in Hm.
    destruct (ttbr0_to_pa st x (Some root)) as [p|] eqn:Hp; [|now contradiction Hm]. cbn [mbind option_bind].
    assert (user_update st root l x [b] (page_write st p [b])) as Hu.
    { pose proof (Z.mod_pos_bound x 4096 ltac:(lia)).
      apply page_write_spec; [exact Hsp|exact Hp|lia|simpl; lia|]. now constructor. }
    destruct (IH (page_write st p [b]) (x + 1)) as (m' & Hrun & Hu2); [apply Hu|exact Hbs|lia|lia| |].
    { intros v Hv. destruct (Htr v ltac:(lia)) as [Et Em]. rewrite Et. split.
      - now rewrite (user_update_translate _ _ _ _ _ _ v Hu).
      - unfold mapped. now rewrite (uu_walk _ _ _ _ _ _ Hu). }
    exists m'. rewrite <- Z.add_assoc. split; [exact Hrun|].
    change (b :: bs) with ([b] ++ bs). exact (user_update_app _ _ _ _ _ _ _ _ Hu Hu2).
Qed.

(** A store to mapped addresses of the kernel's table succeeds. *)
Lemma kstore_ok k l x bs :
  space_ok (kmem k) (k_root k) l -> Forall is_u8 bs -> 0 <= x ->
  x + Z.of_nat (length bs) <= VA_LIMIT ->
  (forall v, x <= v < x + Z.of_nat (length bs) -> mapped (kmem k) (k_root k) v) ->
  exists m', kstore (KERNEL_BASE + x) bs k = Done tt (set_kmem (set_ram m' (kmem k)) k) /\
             user_update (kmem k) (k_root k) l x bs (set_ram m' (kmem k)).
Proof.
  intros Hsp Hbs H0 Hlim Hm.
  destruct (va_write_update (kernel_tr k) (k_root k) l bs (kmem k) x) as (m' & Hrun & Hu); auto.
  - intros v Hv. split; [|auto]. apply kernel_tr_low. lia.
  - exists m'. unfold kstore. rewrite Hrun. split; [reflexivity|exact Hu].
Qed.

(** Where a slot starts among the low addresses. *)
Definition slot_low (i : nat) : Z := 0x80000000 + 7 * Z.of_nat i * 4096.

Lemma stack_start_low i : stack_start i = KERNEL_BASE + slot_low i.
Proof. unfold stack_start, slot_low, KERNEL_STACK_REGION_START, KERNEL_STACK_SIZE, KERNEL_BASE. lia. Qed.

Lemma slot_low_limit i v : slot_ok i -> 0 <= v <= slot_low i + 0x7000 -> v <= VA_LIMIT.
Proof. unfold slot_ok, slot_low, VA_LIMIT, MAX_PROCESSES. lia. Qed.

(** Every address of a slot in use, its guard page apart, is mapped. *)
Lemma slot_mapped k i v :
  slot_ok i -> (forall j, 1 <= j < 7 -> mapped (kmem k) (k_root k) (page_va i j)) ->
  slot_low i + 4096 <= v < slot_low i + 0x7000 -> mapped (kmem k) (k_root k) v.
Proof.
  intros Hi Hm Hv. unfold slot_low in Hv.
  pose proof (Z.div_mod (v - slot_low i) 4096 ltac:(lia)) as Hd. pose proof (Z.mod_pos_bound (v - slot_low i) 4096 ltac:(lia)).
  unfold slot_low in *. set (j := (v - _) / 4096) in *.
  assert (1 <= j < 7) as Hj by lia. specialize (Hm j Hj). unfold mapped in *.
  rewrite <- (va_path_kernel v) by (unfold slot_ok, MAX_PROCESSES in Hi; lia).
  rewrite (in_page_path i j); [exact Hm|exact Hi|lia|]. rewrite page_va_eq. lia.
Qed.

Lemma stack_top_low i : stack_start i + KERNEL_STACK_SIZE - 0x10 = KERNEL_BASE + (slot_low i + 0x6FF0).
Proof. rewrite stack_start_low. unfold KERNEL_STACK_SIZE. lia. Qed.

(** ** [alloc_stack] *)

(** Or the panic of [alloc_page], which is what [alloc_stack] does without memory. *)
Lemma alloc_pages_slot k l i pid :
  stacks_ok k l -> KERNEL_STACKS_ALLOCATED k !! i = Some Free ->
  (Allocated pid ∉ KERNEL_STACKS_ALLOCATED k) ->
  let k1 := set_stacks (<[i := Allocated pid]> (KERNEL_STACKS_ALLOCATED k)) k in
  (exists st' l', for_in (stack_pages i) (fun va => alloc_page va (Some (k_root k)) ;; skip) (kmem k) = Done tt st' /\
    (length l <= 18 + length l')%nat /\ stacks_ok (set_kmem st' k1) l' /\
    (forall v, mapped (kmem k) (k_root k) v ->
       walk (ram st') (k_root k) (va_path v) = walk (ram (kmem k)) (k_root k) (va_path v)) /\
    (forall v, mapped (kmem k) (k_root k) v -> vread st' (k_root k) v = vread (kmem k) (k_root k) v) /\
    pt_step 3 (k_root k) (ram (kmem k)) l (ram st') l') \/
  ((length l < 18)%nat /\ exists msg, for_in (stack_pages i) (fun va => alloc_page va (Some (k_root k)) ;; skip) (kmem k) = Panic msg).
Proof.
  intros Hok Hi Hpid k1. pose proof Hok as [H1 H2 H3 H4 H5].
  pose proof (slot_of_lookup _ _ _ _ Hok Hi) as Hslot.
  destruct (alloc_pages_cases (k_root k) (stack_pages i) (kmem k) l) as [(st' & l' & Hrun & [A1 A2 A3 A4 A5 A6 A7])|Hp];
    [assumption|now apply stack_pages_nodup| | |right; rewrite length_stack_pages in Hp; exact Hp].
  { apply Forall_forall. intros va (j & Hj & ->)%stack_pages_in. rewrite (H4 i Free j) by (auto; lia).
    intros [Hu _]. now apply Hu. }
  rewrite length_stack_pages in A6. left. exists st', l'. split; [exact Hrun|]. split; [lia|].
  split; [|split; [exact A3|split; [|exact A5]]].
  2:{ intros v Hv. unfold mapped in Hv. destruct (walk (ram (kmem k)) (k_root k) (va_path v)) as [pa|] eqn:Hw; [|now contradiction Hv].
      rewrite (vread_some _ _ _ _ Hw), (vread_some st' _ _ pa) by (rewrite A3; [exact Hw|unfold mapped; congruence]).
      f_equal. apply (A4 v pa); [exact Hw|]. pose proof (Z.mod_pos_bound v 4096 ltac:(lia)). unfold in_frame. lia. }
  unfold k1. split; cbn [kmem set_kmem k_root L1_ADDR KERNEL_STACKS_ALLOCATED set_stacks];
    [exact A1|exact H2|now rewrite length_insert| |].
  - intros i' s j Hs Hj. change (ttbr1_to_pa (L1_ADDR k)) with (k_root k). rewrite A2, stack_pages_path.
    destruct (decide (i' = i)) as [->|Hne].
    + rewrite list_lookup_insert_eq in Hs by (apply lookup_lt_Some in Hi; exact Hi).
      injection Hs as <-. rewrite (H4 i Free j) by auto. unfold in_use. split.
      * intros [[Hu _]|(j' & Hj' & Hp)]; [now contradiction Hu|]. split; [discriminate|].
        apply page_va_inj in Hp as [_ ->]; auto; lia.
      * intros [_ Hj']. right. exists j. split; [lia|reflexivity].
    + rewrite list_lookup_insert_ne in Hs by auto. rewrite (H4 i' s j) by auto. split; [|tauto].
      intros [Hc|(j' & Hj' & Hp)]; [exact Hc|].
      pose proof (slot_of_lookup _ _ _ _ Hok Hs).
      apply page_va_inj in Hp as [-> _]; auto; [congruence|lia].
  - intros i1 i2 pid' Hs1 Hs2.
    assert (forall i0, <[i:=Allocated pid]> (KERNEL_STACKS_ALLOCATED k) !! i0 = Some (Allocated pid') ->
      (i0 = i /\ pid' = pid) \/ (i0 <> i /\ KERNEL_STACKS_ALLOCATED k !! i0 = Some (Allocated pid'))) as Hc.
    { intros i0 H0. destruct (decide (i0 = i)) as [->|Hne].
      - rewrite list_lookup_insert_eq in H0 by (apply lookup_lt_Some in Hi; exact Hi).
        injection H0 as <-. auto.
      - rewrite list_lookup_insert_ne in H0 by auto. auto. }
    destruct (Hc i1 Hs1) as [[-> ->]|[Hn1 G1]], (Hc i2 Hs2) as [[-> E2]|[Hn2 G2]]; auto.
    + exfalso. apply Hpid. now apply list_elem_of_lookup_2 in G2.
    + subst. exfalso. apply Hpid. now apply list_elem_of_lookup_2 in G1.
    + eauto.
Qed.

(** The invariant after a store that keeps the walks. *)
Lemma stacks_ok_store k l m' :
  stacks_ok k l -> space_ok (set_ram m' (kmem k)) (k_root k) l ->
  (forall v, walk m' (k_root k) (va_path v) = walk (ram (kmem k)) (k_root k) (va_path v)) ->
  stacks_ok (set_kmem (set_ram m' (kmem k)) k) l.
Proof.
  intros [H1 H2 H3 H4 H5] Hsp Hw. split; auto. cbn [kmem set_kmem k_root L1_ADDR KERNEL_STACKS_ALLOCATED].
  intros i s j Hs Hj. rewrite <- (H4 i s j Hs Hj). unfold mapped. cbn [ram set_ram].
  change (ttbr1_to_pa (L1_ADDR k)) with (k_root k). now rewrite Hw.
Qed.

Lemma first_free k :
  match find_slot (fun s => bool_decide (s = Free)) (KERNEL_STACKS_ALLOCATED k) with
  | Some (i, _) => KERNEL_STACKS_ALLOCATED k !! i = Some Free /\
                   forall j, (j < i)%nat -> KERNEL_STACKS_ALLOCATED k !! j <> Some Free
  | None => Free ∉ KERNEL_STACKS_ALLOCATED k
  end.
Proof.
  destruct (find_slot _ _) as [[i s]|] eqn:Hf.
  - apply find_slot_Some in Hf as (Hs & Hp & Hmin). apply bool_decide_eq_true in Hp. subst.
    split; [exact Hs|]. intros j Hj Hc. specialize (Hmin j _ Hj Hc).
    now rewrite bool_decide_eq_true_2 in Hmin.
  - intros Hin. rewrite find_slot_None in Hf. specialize (Hf _ Hin).
    now rewrite bool_decide_eq_true_2 in Hf.
Qed.

Lemma le_split_const_u8 v : Forall is_u8 (le_split 8 v).
Proof. apply le_split_u8. Qed.

(** The slot [i] was given to the process: its pages are mapped, and nothing
    that was mapped has moved or changed. *)
Record stack_given (k : kstate) (l : list Z) (pid : Z) (i : nat) (k' : kstate) (l' : list Z) : Prop := {
  sg_ok : stacks_ok k' l';
  sg_slots : KERNEL_STACKS_ALLOCATED k' = <[i := Allocated pid]> (KERNEL_STACKS_ALLOCATED k);
  sg_addr : L1_ADDR k' = L1_ADDR k;
  sg_walk : forall v, mapped (kmem k) (k_root k) v ->
    walk (ram (kmem k')) (k_root k) (va_path v) = walk (ram (kmem k)) (k_root k) (va_path v);
  sg_read : forall v, 0 <= v < VA_LIMIT -> mapped (kmem k) (k_root k) v ->
    vread (kmem k') (k_root k) v = vread (kmem k) (k_root k) v;
  sg_step : pt_step 3 (k_root k) (ram (kmem k)) l (ram (kmem k')) l';
}.

Lemma free_slot_unmapped k l i v :
  stacks_ok k l -> KERNEL_STACKS_ALLOCATED k !! i = Some Free ->
  slot_low i <= v < slot_low i + 0x7000 -> ~ mapped (kmem k) (k_root k) v.
Proof.
  intros Hok Hi Hv Hm. pose proof (slot_of_lookup _ _ _ _ Hok Hi) as Hslot.
  pose proof (Z.div_mod (v - slot_low i) 4096 ltac:(lia)) as Hd.
  pose proof (Z.mod_pos_bound (v - slot_low i) 4096 ltac:(lia)).
  set (j := (v - slot_low i) / 4096) in *. assert (0 <= j < 7) as Hj by lia.
  destruct (proj1 (sk_pages _ _ Hok i Free j Hi Hj)) as [Hu _]; [|now apply Hu].
  unfold mapped in *. rewrite <- va_path_kernel in Hm by (unfold slot_ok, MAX_PROCESSES, slot_low in *; lia).
  rewrite (in_page_path i j) in Hm; [exact Hm|exact Hslot|exact Hj|].
  rewrite page_va_eq. unfold slot_low in *. lia.
Qed.

Lemma alloc_stack_refuses pid k :
  (Allocated pid ∈ KERNEL_STACKS_ALLOCATED k) \/ (Free ∉ KERNEL_STACKS_ALLOCATED k) ->
  exists e, alloc_stack pid k = Done (RErr e) k.
Proof.
  intros H. unfold alloc_stack. destruct (get_active_stack_index pid k) as [ix|] eqn:Hact; [eauto|].
  apply active_index_none in Hact. destruct H as [H|H]; [contradiction|].
  pose proof (first_free k) as Hff. destruct (find_slot _ _) as [[i s]|]; [|eauto].
  destruct Hff as [Hi _]. exfalso. apply H. now apply list_elem_of_lookup_2 in Hi.
Qed.

Lemma alloc_stack_cases pid k l i :
  stacks_ok k l -> (Allocated pid ∉ KERNEL_STACKS_ALLOCATED k) ->
  KERNEL_STACKS_ALLOCATED k !! i = Some Free ->
  (forall j, (j < i)%nat -> KERNEL_STACKS_ALLOCATED k !! j <> Some Free) ->
  (exists k' l', alloc_stack pid k = Done (ROk (stack_start i + KERNEL_STACK_SIZE)) k' /\
                 stack_given k l pid i k' l') \/
  ((length l < 18)%nat /\ exists msg, alloc_stack pid k = Panic msg).
Proof.
  intros Hok Hact Hi Hmin. unfold alloc_stack. rewrite (proj2 (active_index_none k pid) Hact).
  rewrite (proj2 (find_slot_Some _ _ i Free)).
  2:{ split; [exact Hi|]. split; [now apply bool_decide_eq_true_2|]. intros j y Hj Hy.
      apply bool_decide_eq_false_2. intros ->. now apply (Hmin j). }
  destruct (alloc_pages_slot k l i pid Hok Hi Hact) as [(st' & l' & Hrun & _ & Hok1 & Hkeep & Hread & Hstep)|[Hl [msg Hp]]].
  2:{ right. split; [exact Hl|]. exists msg. rewrite (bind_run _ _ _ tt (set_stacks (<[i:=Allocated pid]> (KERNEL_STACKS_ALLOCATED k)) k))
        by reflexivity. apply bind_panic, zoom_panic. exact Hp. }
  left.
  pose proof (slot_of_lookup _ _ _ _ Hok Hi) as Hslot. pose proof (lookup_lt_Some _ _ _ Hi) as Hlt.
  set (k1 := set_stacks (<[i:=Allocated pid]> (KERNEL_STACKS_ALLOCATED k)) k) in *.
  set (k2 := set_kmem st' k1) in *. rewrite stack_top_low.
  assert (zoom mem_lens (for_in (stack_pages i) (fun page_va =>
            alloc_page page_va (Some (ttbr1_to_pa (L1_ADDR k))) ;; skip)) k1 = Done tt k2) as Hz
    by (apply zoom_done; exists st'; split; [exact Hrun|reflexivity]).
  rewrite (bind_run _ _ _ tt k1) by reflexivity. rewrite (bind_run _ _ _ _ _ Hz).
  assert (KERNEL_STACKS_ALLOCATED k2 !! i = Some (Allocated pid)) as Hi2
    by (cbn; now rewrite list_lookup_insert_eq).
  destruct (kstore_ok k2 l' (slot_low i + 0x6FF0) (le_split 8 0x123456789ABCDEF0)) as (m' & Hst & Hu);
    [apply Hok1|apply le_split_u8|unfold slot_low; lia| | |].
  { apply (slot_low_limit i); [exact Hslot|]. rewrite length_le_split. unfold slot_low. lia. }
  { rewrite length_le_split. intros v Hv. apply (slot_mapped k2 i); [exact Hslot| |lia].
    intros j Hj. apply (sk_pages _ _ Hok1 i _ j Hi2); [lia|]. split; [discriminate|lia]. }
  rewrite (bind_run _ _ _ _ _ Hst). exists (set_kmem (set_ram m' (kmem k2)) k2), l'.
  split; [reflexivity|]. pose proof Hu as [U1 U2 U3 U4 U5 U6]. split.
  - exact (stacks_ok_store k2 l' m' Hok1 U1 U3).
  - reflexivity.
  - reflexivity.
  - intros v Hv. cbn [kmem set_kmem ram set_ram]. etransitivity; [apply U3|]. now apply Hkeep.
  - intros v Hv Hm. etransitivity; [apply (U4 v Hv)|]. rewrite decide_False; [now apply Hread|].
    rewrite length_le_split. intros Hr. revert Hm. apply (free_slot_unmapped k l i v Hok Hi). lia.
  - apply (pt_step_trans _ _ _ _ (ram st') l'); [exact Hstep|].
    apply (user_update_step (kmem k2) (k_root k2) l' _ _ _ Hu).
Qed.

Lemma alloc_stack_gives pid k l i :
  stacks_ok k l -> (18 <= length l)%nat -> (Allocated pid ∉ KERNEL_STACKS_ALLOCATED k) ->
  KERNEL_STACKS_ALLOCATED k !! i = Some Free ->
  (forall j, (j < i)%nat -> KERNEL_STACKS_ALLOCATED k !! j <> Some Free) ->
  exists k' l', alloc_stack pid k = Done (ROk (stack_start i + KERNEL_STACK_SIZE)) k' /\
                stack_given k l pid i k' l'.
Proof. intros H1 Hlen H2 H3 H4. destruct (alloc_stack_cases pid k l i H1 H2 H3 H4) as [H|[Hl _]]; [exact H|lia]. Qed.

(** C32. [alloc_stack] refuses a process that has a stack and a full table,
    changing nothing; otherwise it takes the first free slot for the process
    and returns the slot's top.  The table's invariant is kept: now the
    slot's six upper pages are mapped and writable, its guard page is not,
    and no page that was mapped has moved. *)
Theorem alloc_stack_spec pid k l :
  stacks_ok k l -> (18 <= length l)%nat ->
  exists r k' l', alloc_stack pid k = Done r k' /\ stacks_ok k' l' /\
    match r with
    | RErr e => k' = k /\ ((Allocated pid ∈ KERNEL_STACKS_ALLOCATED k) \/ (Free ∉ KERNEL_STACKS_ALLOCATED k))
    | ROk top => (Allocated pid ∉ KERNEL_STACKS_ALLOCATED k) /\
        exists i, KERNEL_STACKS_ALLOCATED k !! i = Some Free /\
          (forall j, (j < i)%nat -> KERNEL_STACKS_ALLOCATED k !! j <> Some Free) /\
          top = stack_start i + KERNEL_STACK_SIZE /\
          KERNEL_STACKS_ALLOCATED k' = <[i := Allocated pid]> (KERNEL_STACKS_ALLOCATED k) /\
          get_stack_top pid k' = ROk top /\
          (forall j, 0 <= j < 7 -> mapped (kmem k') (k_root k') (page_va i j) <-> 1 <= j) /\
          (forall v, mapped (kmem k) (k_root k) v ->
             kernel_tr k' v = kernel_tr k v)
    end.
Proof.
  intros Hok Hlen. destruct (decide (Allocated pid ∈ KERNEL_STACKS_ALLOCATED k)) as [Hin|Hact].
  { destruct (alloc_stack_refuses pid k) as [e He]; [auto|]. exists (RErr e), k, l. auto. }
  pose proof (first_free k) as Hff. destruct (find_slot _ _) as [[i s]|].
  2:{ destruct (alloc_stack_refuses pid k) as [e He]; [auto|]. exists (RErr e), k, l. auto. }
  destruct Hff as [Hi Hmin].
  destruct (alloc_stack_gives pid k l i) as (k' & l' & Hrun & [G1 G2 G3 G4 G5 G6]); auto.
  exists (ROk (stack_start i + KERNEL_STACK_SIZE)), k', l'. split; [exact Hrun|]. split; [exact G1|].
  split; [exact Hact|]. exists i. split; [exact Hi|]. split; [exact Hmin|].
  assert (KERNEL_STACKS_ALLOCATED k' !! i = Some (Allocated pid)) as Hi'
    by (rewrite G2; apply list_lookup_insert_eq; now apply lookup_lt_Some in Hi).
  split; [reflexivity|]. split; [exact G2|]. split; [|split].
  - unfold get_stack_top. now rewrite (proj2 (active_index_some _ l' pid i G1) Hi').
  - intros j Hj. rewrite (sk_pages _ _ G1 i _ j Hi' Hj). unfold in_use. split; [tauto|].
    intros. split; [discriminate|assumption].
  - intros v Hv. unfold kernel_tr. rewrite G3. fold (k_root k). rewrite !ttbr0_to_pa_walk. now rewrite G4.
Qed.

(** ** Duplicating *)

Lemma va_read_low k x n :
  0 <= x -> 0 <= n -> x + n <= VA_LIMIT ->
  (forall v, x <= v < x + n -> mapped (kmem k) (k_root k) v) ->
  exists bs, va_read (kernel_tr k) (ram (kmem k)) (KERNEL_BASE + x) n = Some bs /\
    length bs = Z.to_nat n /\
    forall o, 0 <= o < n -> bs !! Z.to_nat o = vread (kmem k) (k_root k) (x + o).
Proof.
  intros H0 Hn Hlim Hm. unfold va_read.
  assert (forall v, x <= v < x + n -> exists b, kread k (KERNEL_BASE + v) = Some b /\
            vread (kmem k) (k_root k) v = Some b) as Hb.
  { intros v Hv. specialize (Hm v Hv). apply mapped_translate in Hm. rewrite kread_low by lia. unfold vread.
    destruct (ttbr0_to_pa (kmem k) v (Some (k_root k))); [|now contradiction Hm]. cbn. eauto. }
  assert (exists bs, mapM (fun a => ram (kmem k) <$> kernel_tr k a) (seqZ (KERNEL_BASE + x) n) = Some bs) as [bs Hbs].
  { apply mapM_is_Some_2, Forall_forall. intros a Ha%elem_of_seqZ.
    destruct (Hb (a - KERNEL_BASE) ltac:(lia)) as (b & Hk & _). unfold kread in Hk.
    replace (KERNEL_BASE + (a - KERNEL_BASE)) with a in Hk by lia. eauto. }
  exists bs. split; [exact Hbs|]. apply mapM_Some in Hbs. split.
  - rewrite <- (Forall2_length _ _ _ Hbs). apply length_seqZ.
  - intros o Ho. destruct (Hb (x + o) ltac:(lia)) as (b & Hk & ->).
    assert (seqZ (KERNEL_BASE + x) n !! Z.to_nat o = Some (KERNEL_BASE + (x + o))) as Hl
      by (apply lookup_seqZ; lia).
    destruct (Forall2_lookup_l _ _ _ _ _ Hbs Hl) as (b' & Hb' & He). rewrite Hb'. unfold kread in Hk. congruence.
Qed.

Lemma read_u8 st root l va b : space_ok st root l -> vread st root va = Some b -> is_u8 b.
Proof.
  intros [Hf _]. unfold vread. destruct (ttbr0_to_pa _ _ _) as [p|]; [|discriminate].
  intros [= <-]. apply (ff_mem _ _ Hf).
Qed.

(** The new slot of a fork holds, below its top, what the old one holds below
    its own: the new stack pointer is as far below as the old one. *)
Lemma duplicate_stack_full src dest sp k :
  (Allocated dest ∉ KERNEL_STACKS_ALLOCATED k) ->
  find_slot (fun s => bool_decide (s = Free)) (KERNEL_STACKS_ALLOCATED k) = None ->
  duplicate_stack src dest sp k = Done (RErr "[alloc_stack] No available kernel stacks") k.
Proof.
  intros Hd%(active_index_none k dest) Hf. unfold duplicate_stack, gets, bind at 1, get_stack_top. rewrite Hd.
  unfold bind_try. rewrite (bind_run _ _ _ (RErr "[alloc_stack] No available kernel stacks") k); [reflexivity|].
  unfold alloc_stack. now rewrite Hd, Hf.
Qed.

Lemma duplicate_stack_cases src dest k l s i x :
  stacks_ok k l -> (Allocated dest ∉ KERNEL_STACKS_ALLOCATED k) ->
  KERNEL_STACKS_ALLOCATED k !! i = Some Free ->
  (forall j, (j < i)%nat -> KERNEL_STACKS_ALLOCATED k !! j <> Some Free) ->
  KERNEL_STACKS_ALLOCATED k !! s = Some (Allocated src) ->
  slot_low s + 0x1000 <= x <= slot_low s + 0x7000 ->
  let size := slot_low s + 0x7000 - x in
  let y := slot_low i + 0x7000 - size in
  (exists k' l', duplicate_stack src dest (KERNEL_BASE + x) k = Done (ROk (KERNEL_BASE + y)) k' /\
    stack_given k l dest i k' l' /\
    forall o, 0 <= o < size ->
      vread (kmem k') (k_root k) (y + o) = vread (kmem k) (k_root k) (x + o)) \/
  ((length l < 18)%nat /\ exists msg, duplicate_stack src dest (KERNEL_BASE + x) k = Panic msg).
Proof.
  intros Hok Hd Hi Hmin Hs Hx size y.
  pose proof (slot_of_lookup _ _ _ _ Hok Hi) as Hsi. pose proof (slot_of_lookup _ _ _ _ Hok Hs) as Hss.
  assert (s <> i) as Hsne by congruence.
  destruct (alloc_stack_cases dest k l i Hok Hd Hi Hmin) as [(k1 & l1 & Hal & [G1 G2 G3 G4 G5 G6])|[Hl [msg Hp]]].
  2:{ right. split; [exact Hl|]. exists msg. unfold duplicate_stack, get_stack_top at 1. unfold gets at 1, bind at 1.
      rewrite (proj2 (active_index_none k dest) Hd). now apply bind_panic. }
  left.
  assert (KERNEL_STACKS_ALLOCATED k1 !! s = Some (Allocated src)) as Hs1
    by (rewrite G2, list_lookup_insert_ne by auto; exact Hs).
  assert (KERNEL_STACKS_ALLOCATED k1 !! i = Some (Allocated dest)) as Hi1
    by (rewrite G2; apply list_lookup_insert_eq; now apply lookup_lt_Some in Hi).
  assert (k_root k1 = k_root k) as Hroot by (unfold k_root; now rewrite G3).
  assert (0 <= slot_low s) as Hs0 by (unfold slot_low; lia).
  assert (slot_low s + 0x7000 <= 2 ^ 38) as Hs38 by (unfold slot_low, slot_ok, MAX_PROCESSES in *; lia).
  assert (slot_low i + 0x7000 <= 2 ^ 38) as Hi38 by (unfold slot_low, slot_ok, MAX_PROCESSES in *; lia).
  assert (0 <= slot_low i) as Hi0 by (unfold slot_low; lia).
  unfold duplicate_stack, get_stack_top at 1. unfold gets at 1, bind at 1.
  rewrite (proj2 (active_index_none k dest) Hd). unfold bind_try at 1.
  rewrite (bind_run _ _ _ _ _ Hal). unfold bind_try, gets, bind at 1.
  unfold get_stack_usage, get_stack_top. rewrite (proj2 (active_index_some _ l1 src s G1) Hs1).
  rewrite !stack_start_low. unfold KERNEL_STACK_SIZE, KERNEL_BASE in *.
  rewrite Z.gtb_ltb. rewrite (proj2 (Z.ltb_ge _ _)) by lia.
  replace (sub64 (0xffffff8000000000 + slot_low s + 0x7000) (0xffffff8000000000 + x)) with size
    by (rewrite sub64_small by (unfold U64; lia); lia).
  replace (sub64 (0xffffff8000000000 + slot_low i + 0x7000) size) with (0xffffff8000000000 + y)
    by (rewrite sub64_small by (unfold U64; lia); lia).
  assert (forall a v w, KERNEL_STACKS_ALLOCATED k1 !! a = Some w -> w <> Free ->
    slot_low a + 0x1000 <= v < slot_low a + 0x7000 -> mapped (kmem k1) (k_root k1) v) as Hmap.
  { intros a v w Ha Hw Hv. apply (slot_mapped k1 a v); [exact (slot_of_lookup _ _ _ _ G1 Ha)| |lia].
    intros j Hj. apply (sk_pages _ _ G1 a w j Ha); [lia|]. split; [exact Hw|lia]. }
  destruct (va_read_low k1 x size) as (bs & Hrd & Hlb & Hbs); [lia|lia|unfold VA_LIMIT; lia| |].
  { intros v Hv. apply (Hmap s v (Allocated src) Hs1); [discriminate|lia]. }
  assert (Forall is_u8 bs) as Hu8.
  { apply Forall_lookup. intros o b Ho. pose proof (lookup_lt_Some _ _ _ Ho).
    specialize (Hbs (Z.of_nat o) ltac:(lia)). rewrite Nat2Z.id, Ho in Hbs. symmetry in Hbs.
    apply (read_u8 _ _ l1 _ _ (sk_space _ _ G1) Hbs). }
  destruct (kstore_ok k1 l1 y bs) as (m' & Hst & Hu); [apply G1|exact Hu8|lia|unfold VA_LIMIT; lia| |].
  { intros v Hv. apply (Hmap i v (Allocated dest) Hi1); [discriminate|lia]. }
  change 0xffffff8000000000 with KERNEL_BASE.
  assert (kcopy (KERNEL_BASE + x) (KERNEL_BASE + y) size k1 = Done tt (set_kmem (set_ram m' (kmem k1)) k1)) as Hkc
    by (unfold kcopy; now rewrite Hrd).
  rewrite (bind_run _ _ _ _ _ Hkc). exists (set_kmem (set_ram m' (kmem k1)) k1), l1.
  split; [reflexivity|]. pose proof Hu as [U1 U2 U3 U4 U5 U6].
  rewrite Hroot in *. split; [split|].
  - apply (stacks_ok_store k1 l1 m' G1); rewrite Hroot; assumption.
  - exact G2.
  - exact G3.
  - intros v Hv. cbn [kmem set_kmem ram set_ram]. etransitivity; [apply U3|]. now apply G4.
  - intros v Hv Hm. etransitivity; [apply (U4 v Hv)|]. rewrite decide_False; [now apply G5|].
    intros Hr. revert Hm. apply (free_slot_unmapped k l i v Hok Hi). lia.
  - apply (pt_step_trans _ _ _ _ (ram (kmem k1)) l1); [exact G6|].
    exact (user_update_step (kmem k1) (k_root k) l1 _ _ _ Hu).
  - intros o Ho. etransitivity; [apply (U4 (y + o)); unfold VA_LIMIT; lia|]. rewrite decide_True by lia.
    replace (y + o - y) with o by lia. rewrite Hbs by lia. apply G5; [unfold VA_LIMIT; lia|].
    apply (slot_mapped k s); [exact Hss| |lia]. intros j Hj.
    apply (sk_pages _ _ Hok s _ j Hs); [lia|]. split; [discriminate|lia].
Qed.

(** ** Freeing *)

(** [free_stack] names the kernel's table by its virtual address: the linear
    map's prefix is already there, so the walk starts at the same table. *)
Lemma free_page_root va root st :
  free_page va (Some (ttbr1_to_va root)) st = free_page va (Some root) st.
Proof.
  assert (forall i, get_entry (ttbr1_to_va root) i = get_entry root i) as Hg
    by (intros i; unfold get_entry, table_entry; now rewrite ttbr1_to_va_idemp).
  unfold free_page. run_m. cbn [translation_table]. now rewrite Hg.
Qed.

Lemma for_in_ext {S A} (l : list A) (f g : A -> M S unit) s :
  (forall x s, f x s = g x s) -> for_in l f s = for_in l g s.
Proof.
  intros H. revert s. induction l as [|x l IH]; intros s; [reflexivity|].
  cbn [for_in]. unfold bind. rewrite H. destruct (g x s); auto.
Qed.

Lemma free_stack_ok k l i pid :
  stacks_ok k l -> KERNEL_STACKS_ALLOCATED k !! i = Some (QueuedToFree pid) ->
  exists k' l', free_stack i k = Done (ROk tt) k' /\ stacks_ok k' l' /\
    KERNEL_STACKS_ALLOCATED k' = <[i := Free]> (KERNEL_STACKS_ALLOCATED k) /\
    L1_ADDR k' = L1_ADDR k /\ length l' = (6 + length l)%nat /\
    pt_step 3 (k_root k) (ram (kmem k)) l (ram (kmem k')) l'.
Proof.
  intros Hok Hi. unfold free_stack. rewrite Hi. pose proof Hok as [H1 H2 H3 H4 H5].
  pose proof (slot_of_lookup _ _ _ _ Hok Hi) as Hslot. pose proof (lookup_lt_Some _ _ _ Hi) as Hlt.
  destruct (free_pages_ok (k_root k) (stack_pages i) (kmem k) l) as (st' & l' & Hrun & [A1 A2 A3 A4 A5 ?] & Hl);
    [assumption|now apply stack_pages_nodup| |].
  { apply Forall_forall. intros va (j & Hj & ->)%stack_pages_in. apply (H4 i _ j Hi); [lia|].
    split; [discriminate|lia]. }
  assert (zoom mem_lens (for_in (stack_pages i) (fun page_va => free_page page_va (Some (L1_ADDR k)))) k
          = Done tt (set_kmem st' k)) as Hz.
  { apply zoom_done. exists st'. split; [|reflexivity]. rewrite <- Hrun. apply for_in_ext.
    intros va s. rewrite H2. apply free_page_root. }
  cbv zeta. rewrite (bind_run _ _ _ _ _ Hz).
  eexists _, l'. split; [reflexivity|]. cbn [KERNEL_STACKS_ALLOCATED set_stacks set_kmem L1_ADDR].
  rewrite length_stack_pages in Hl. split; [|auto].
  split; cbn [kmem set_kmem k_root L1_ADDR KERNEL_STACKS_ALLOCATED set_stacks];
    [exact A1|exact H2|now rewrite length_insert| |].
  - intros i' s j Hs Hj. change (ttbr1_to_pa (L1_ADDR k)) with (k_root k). rewrite A2, stack_pages_path.
    destruct (decide (i' = i)) as [->|Hne].
    + rewrite list_lookup_insert_eq in Hs by exact Hlt. injection Hs as <-.
      rewrite (H4 i _ j Hi Hj). split; [|intros [Hu _]; now contradiction Hu].
      intros [[_ Hj1] Hn]. contradiction Hn. exists j. split; [lia|reflexivity].
    + rewrite list_lookup_insert_ne in Hs by auto. rewrite (H4 i' s j Hs Hj). split; [tauto|].
      intros Hc. split; [exact Hc|]. intros (j' & Hj' & Hp).
      pose proof (slot_of_lookup _ _ _ _ Hok Hs).
      apply page_va_inj in Hp as [-> _]; auto; lia.
  - intros i1 i2 pid' Hs1 Hs2.
    assert (forall i0, <[i:=Free]> (KERNEL_STACKS_ALLOCATED k) !! i0 = Some (Allocated pid') ->
      KERNEL_STACKS_ALLOCATED k !! i0 = Some (Allocated pid')) as Hc; [|eauto].
    intros i0 H0. destruct (decide (i0 = i)) as [->|Hne].
    + rewrite list_lookup_insert_eq in H0 by exact Hlt. discriminate H0.
    + now rewrite list_lookup_insert_ne in H0.
Qed.

(** What [free_queued_stacks] makes of a slot. *)
Definition reap (cur : Z) (s : StackState) : StackState :=
  match s with QueuedToFree pid => if pid =? cur then s else Free | _ => s end.

Lemma free_queued_step k l i cur :
  stacks_ok k l -> slot_ok i ->
  exists k' l', (let* s := gets (fun k => KERNEL_STACKS_ALLOCATED k !! i) in
    match s with
    | Some (QueuedToFree pid) =>
        let* c := expect (Some cur) "called `Option::unwrap()` on a `None` value" in
        if pid =? c then skip else free_stack i ;; skip
    | _ => skip
    end) k = Done tt k' /\ stacks_ok k' l' /\ L1_ADDR k' = L1_ADDR k /\
    pt_step 3 (k_root k) (ram (kmem k)) l (ram (kmem k')) l' /\ (length l <= length l')%nat /\
    KERNEL_STACKS_ALLOCATED k' = alter (reap cur) i (KERNEL_STACKS_ALLOCATED k).
Proof.
  intros Hok Hi. assert (exists s, KERNEL_STACKS_ALLOCATED k !! i = Some s) as [s Hs].
  { apply lookup_lt_is_Some_2. rewrite (sk_length _ _ Hok). unfold slot_ok, MAX_PROCESSES in *. lia. }
  assert (alter (reap cur) i (KERNEL_STACKS_ALLOCATED k) = <[i := reap cur s]> (KERNEL_STACKS_ALLOCATED k)) as ->.
  { apply list_eq. intros j. destruct (decide (j = i)) as [->|Hne].
    - rewrite list_lookup_alter_eq, Hs, list_lookup_insert_eq by (now apply lookup_lt_Some in Hs). reflexivity.
    - now rewrite list_lookup_alter_ne, list_lookup_insert_ne. }
  unfold gets at 1, bind at 1. rewrite Hs. cbn [expect].
  destruct s as [pid|pid|]; cbn [reap].
  - exists k, l. split; [reflexivity|]. split; [exact Hok|]. split; [reflexivity|].
      split; [apply pt_step_refl|]. split; [lia|]. now rewrite list_insert_id.
  - unfold ret, bind at 1. destruct (pid =? cur).
    + exists k, l. split; [reflexivity|]. split; [exact Hok|]. split; [reflexivity|].
      split; [apply pt_step_refl|]. split; [lia|]. now rewrite list_insert_id.
    + destruct (free_stack_ok k l i pid Hok Hs) as (k' & l' & Hrun & Hok' & Hst & Hl & Hlen & Hpt).
      exists k', l'. unfold bind. rewrite Hrun. split; [reflexivity|]. split; [exact Hok'|].
      split; [exact Hl|]. split; [exact Hpt|]. split; [lia|exact Hst].
  - exists k, l. split; [reflexivity|]. split; [exact Hok|]. split; [reflexivity|].
      split; [apply pt_step_refl|]. split; [lia|]. now rewrite list_insert_id.
Qed.

Lemma free_queued_loop ixs k l cur :
  stacks_ok k l -> NoDup ixs -> Forall slot_ok ixs ->
  exists k' l', for_in ixs (fun i =>
    let* s := gets (fun k => KERNEL_STACKS_ALLOCATED k !! i) in
    match s with
    | Some (QueuedToFree pid) =>
        let* c := expect (Some cur) "called `Option::unwrap()` on a `None` value" in
        if pid =? c then skip else free_stack i ;; skip
    | _ => skip
    end) k = Done tt k' /\ stacks_ok k' l' /\ L1_ADDR k' = L1_ADDR k /\
    pt_step 3 (k_root k) (ram (kmem k)) l (ram (kmem k')) l' /\ (length l <= length l')%nat /\
    forall i, KERNEL_STACKS_ALLOCATED k' !! i =
      if decide (i ∈ ixs) then reap cur <$> KERNEL_STACKS_ALLOCATED k !! i
      else KERNEL_STACKS_ALLOCATED k !! i.
Proof.
  revert k l. induction ixs as [|i ixs IH]; intros k l Hok Hn Hf.
  { exists k, l. split; [reflexivity|]. split; [exact Hok|]. split; [reflexivity|]. split; [apply pt_step_refl|].
    split; [lia|]. intros i. now rewrite decide_False by apply not_elem_of_nil. }
  apply NoDup_cons in Hn as [Hi Hn]. apply Forall_cons in Hf as [Hfi Hf].
  destruct (free_queued_step k l i cur Hok Hfi) as (k1 & l1 & Hrun & Hok1 & Hl1 & Hp1 & Hn1 & Hst1).
  destruct (IH k1 l1 Hok1 Hn Hf) as (k2 & l2 & Hrun2 & Hok2 & Hl2 & Hp2 & Hn2 & Hst2).
  assert (k_root k1 = k_root k) as Hr1 by (unfold k_root; now rewrite Hl1). rewrite Hr1 in Hp2.
  exists k2, l2. cbn [for_in]. rewrite (bind_run _ _ _ _ _ Hrun). split; [exact Hrun2|].
  split; [exact Hok2|]. split; [congruence|]. split; [exact (pt_step_trans _ _ _ _ _ _ _ _ Hp1 Hp2)|].
  split; [lia|].  intros j. rewrite Hst2, Hst1.
  destruct (decide (j = i)) as [->|Hne].
  - rewrite decide_False by exact Hi. rewrite decide_True by now left. apply list_lookup_alter_eq.
  - rewrite list_lookup_alter_ne by auto.
    destruct (decide (j ∈ ixs)) as [H|H].
    + now rewrite decide_True by (now right).
    + rewrite decide_False; [reflexivity|]. rewrite elem_of_cons. tauto.
Qed.

Lemma free_queued_ok cur k l :
  stacks_ok k l ->
  exists k' l', free_queued_stacks (Some cur) k = Done tt k' /\ stacks_ok k' l' /\
    L1_ADDR k' = L1_ADDR k /\
    KERNEL_STACKS_ALLOCATED k' = reap cur <$> KERNEL_STACKS_ALLOCATED k /\
    pt_step 3 (k_root k) (ram (kmem k)) l (ram (kmem k')) l' /\ (length l <= length l')%nat.
Proof.
  intros Hok. unfold free_queued_stacks.
  destruct (free_queued_loop (seq 0 (Z.to_nat MAX_PROCESSES)) k l cur Hok (NoDup_seq _ _))
    as (k' & l' & Hrun & Hok' & Hl & Hp & Hlen & Hst).
  { apply Forall_forall. intros i Hi%elem_of_seq. unfold slot_ok, MAX_PROCESSES in *. lia. }
  exists k', l'. split; [exact Hrun|]. split; [exact Hok'|]. split; [exact Hl|]. split; [|auto].
  apply list_eq. intros i. rewrite Hst, list_lookup_fmap. destruct (decide _) as [|Hn]; [reflexivity|].
  rewrite lookup_ge_None_2; [reflexivity|]. rewrite (sk_length _ _ Hok). rewrite elem_of_seq in Hn. lia.
Qed.

(** Run with a current process, [free_queued_stacks] never fails: it
    frees exactly the queued stacks of other processes, unmapping their pages
    and returning the frames, leaves every other slot (the current process's
    queued one too) as it is, and keeps the table's invariant. *)
Theorem free_queued_stacks_spec cur k l :
  stacks_ok k l ->
  exists k' l', free_queued_stacks (Some cur) k = Done tt k' /\ stacks_ok k' l' /\
    L1_ADDR k' = L1_ADDR k /\
    KERNEL_STACKS_ALLOCATED k' = reap cur <$> KERNEL_STACKS_ALLOCATED k /\
    (forall i s j, KERNEL_STACKS_ALLOCATED k !! i = Some s -> 0 <= j < 7 ->
       mapped (kmem k') (k_root k') (page_va i j) <-> reap cur s <> Free /\ 1 <= j).
Proof.
  intros Hok. destruct (free_queued_ok cur k l Hok) as (k' & l' & Hrun & Hok' & Hl & Hmap & _).
  exists k', l'. split; [exact Hrun|]. split; [exact Hok'|]. split; [exact Hl|]. split; [exact Hmap|].
  intros i s j Hs Hj. apply (sk_pages _ _ Hok'); [|exact Hj].
  now rewrite Hmap, list_lookup_fmap, Hs.
Qed.

(** ** A concrete machine *)

(** The sixty-four-frame machine, with the empty tree as the kernel's table. *)
Definition demo_kstate : kstate :=
  mk_kstate demo_space (replicate (Z.to_nat MAX_PROCESSES) Free) (ttbr1_to_va demo_root).

Lemma demo_kstate_ok : stacks_ok demo_kstate demo_free.
Proof.
  assert (k_root demo_kstate = demo_root) as Hr by (vm_compute; reflexivity).
  split; rewrite ?Hr.
  - exact demo_space_ok.
  - reflexivity.
  - reflexivity.
  - intros i s j Hs Hj. apply lookup_replicate in Hs as [-> Hi]. split.
    + intros Hm. exfalso. apply Hm. destruct demo_space_empty as [Hz Hf].
      now apply walk_zero; [| |apply l1_index_ok].
    + intros [Hu _]. now contradiction Hu.
  - intros i i' pid Hs. apply lookup_replicate in Hs as [[=] _].
Qed.

Lemma alloc_stack_spec_witness :
  (stacks_ok demo_kstate demo_free /\ (18 <= length demo_free)%nat) /\
  exists r k' l', alloc_stack 1 demo_kstate = Done r k' /\ stacks_ok k' l' /\
    match r with
    | RErr e => k' = demo_kstate /\ ((Allocated 1 ∈ KERNEL_STACKS_ALLOCATED demo_kstate) \/
                                     (Free ∉ KERNEL_STACKS_ALLOCATED demo_kstate))
    | ROk top => (Allocated 1 ∉ KERNEL_STACKS_ALLOCATED demo_kstate) /\
        exists i, KERNEL_STACKS_ALLOCATED demo_kstate !! i = Some Free /\
          (forall j, (j < i)%nat -> KERNEL_STACKS_ALLOCATED demo_kstate !! j <> Some Free) /\
          top = stack_start i + KERNEL_STACK_SIZE /\
          KERNEL_STACKS_ALLOCATED k' = <[i := Allocated 1]> (KERNEL_STACKS_ALLOCATED demo_kstate) /\
          get_stack_top 1 k' = ROk top /\
          (forall j, 0 <= j < 7 -> mapped (kmem k') (k_root k') (page_va i j) <-> 1 <= j) /\
          (forall v, mapped (kmem demo_kstate) (k_root demo_kstate) v ->
             kernel_tr k' v = kernel_tr demo_kstate v)
    end.
Proof.
  assert (18 <= length demo_free)%nat as Hl by (vm_compute; lia).
  split; [split; [exact demo_kstate_ok|exact Hl]|].
  exact (alloc_stack_spec 1 demo_kstate demo_free demo_kstate_ok Hl).
Defined.

Lemma free_queued_stacks_spec_witness :
  stacks_ok demo_kstate demo_free /\
  exists k' l', free_queued_stacks (Some 1) demo_kstate = Done tt k' /\ stacks_ok k' l' /\
    L1_ADDR k' = L1_ADDR demo_kstate /\
    KERNEL_STACKS_ALLOCATED k' = reap 1 <$> KERNEL_STACKS_ALLOCATED demo_kstate /\
    (forall i s j, KERNEL_STACKS_ALLOCATED demo_kstate !! i = Some s -> 0 <= j < 7 ->
       mapped (kmem k') (k_root k') (page_va i j) <-> reap 1 s <> Free /\ 1 <= j).
Proof.
  split; [exact demo_kstate_ok|].
  exact (free_queued_stacks_spec 1 demo_kstate demo_free demo_kstate_ok).
Defined.
