(* ===== verification/Interrupts.v ===== *)
(** Interrupt masking and spinlocks: [push_off] and [pop_off] of
    src/src/kernel/interrupts.rs, the [Cpu] structure of
    src/src/kernel/processes.rs and the spinlock of
    src/src/kernel/spinlock.rs, on the machine's one core. *)

From Stdlib Require Import ZArith Lia.
From stdpp Require Import base strings numbers list.
From S2P Require Import Prelude.

Local Open Scope Z_scope.

(** ** State *)

Record Cpu := mk_Cpu {
  cid : Z;
  current_pid : option Z;
  ncli : Z;
  interrupts_enabled : bool;
}.

(** The core: the kernel's [Cpu] structure, and whether DAIF.I is clear. *)
Record core := mk_core { cpu : Cpu; irq_unmasked : bool }.

Definition set_ncli (n : Z) (c : core) : core :=
  mk_core (mk_Cpu (cid (cpu c)) (current_pid (cpu c)) n (interrupts_enabled (cpu c))) (irq_unmasked c).
Definition set_interrupts_enabled (b : bool) (c : core) : core :=
  mk_core (mk_Cpu (cid (cpu c)) (current_pid (cpu c)) (ncli (cpu c)) b) (irq_unmasked c).
Definition set_irq (b : bool) (c : core) : core := mk_core (cpu c) b.

(** [static mut CPUS]: core 0, nothing running, no lock held. *)
Definition CPUS0 : Cpu := mk_Cpu 0 None 0 false.

(** ** Interrupts *)

Definition is_irq_enabled : M core bool := gets irq_unmasked.
Definition irq_disable : M core unit := modify (set_irq false).
Definition irq_enable : M core unit := modify (set_irq true).

Definition push_off : M core unit :=
  let* enabled := is_irq_enabled in
  irq_disable ;;
  let* n := gets (fun c => ncli (cpu c)) in
  (if n =? 0 then modify (set_interrupts_enabled enabled) else skip) ;;
  modify (fun c => set_ncli (add64 (ncli (cpu c)) 1) c).

Definition pop_off : M core unit :=
  let* enabled := is_irq_enabled in
  if enabled then panic "pop_off: interrupts active when they should be masked" else
  let* n := gets (fun c => ncli (cpu c)) in
  if n <? 1 then panic "pop_off: nesting underflow!" else
  modify (set_ncli (sub64 n 1)) ;;
  let* c := gets cpu in
  if (ncli c =? 0) && interrupts_enabled c then irq_enable else skip.

(** ** Spinlocks *)

Record Spinlock := mk_Spinlock {
  sl_lock : bool;
  holding_cpuid : option Z;
  sl_name : string;
}.

Definition Spinlock_new (name : string) : Spinlock := mk_Spinlock false None name.

(** A lock and the core that works on it. *)
Definition locked_core : Type := core * Spinlock.

Definition core_lens : Lens locked_core core.
Proof. refine (mkLens _ _ fst (fun c s => (c, snd s)) _ _ _); [reflexivity|intros []; reflexivity|reflexivity]. Defined.

Definition set_lock (b : bool) (h : option Z) (s : locked_core) : locked_core :=
  (fst s, mk_Spinlock b h (sl_name (snd s))).

(** With one core nobody else can open a lock this core finds closed: the
    compare-exchange loop then never ends. *)
Definition acquire : M locked_core unit :=
  zoom core_lens push_off ;;
  let* current_cpuid := gets (fun s => cid (cpu (fst s))) in
  let* l := gets snd in
  if sl_lock l && bool_decide (holding_cpuid l = Some current_cpuid) then panic "acquire" else
  if sl_lock l then diverge else
  modify (set_lock true (Some current_cpuid)).

Definition release : M locked_core unit :=
  let* current_cpuid := gets (fun s => cid (cpu (fst s))) in
  let* l := gets snd in
  if negb (sl_lock l) then panic "release" else
  if negb (bool_decide (holding_cpuid l = Some current_cpuid)) then panic "Spinlock release error" else
  modify (set_lock false None) ;;
  zoom core_lens pop_off.

(** ** Nesting *)

(** [depth] locks are held; [was] is whether interrupts were enabled before
    the first of them. *)
Record nested (was : bool) (depth : Z) (c : core) : Prop := {
  ne_depth : ncli (cpu c) = depth;
  ne_range : 0 <= depth < U64;
  ne_irq : irq_unmasked c = bool_decide (depth = 0) && was;
  ne_saved : 0 < depth -> interrupts_enabled (cpu c) = was;
}.

(** What the two operations leave alone. *)
Definition same_proc (c c' : core) : Prop :=
  cid (cpu c') = cid (cpu c) /\ current_pid (cpu c') = current_pid (cpu c).

Lemma push_off_nested was depth c :
  nested was depth c -> depth + 1 < U64 ->
  exists c', push_off c = Done tt c' /\ nested was (depth + 1) c' /\ same_proc c c'.
Proof.
  intros [Hd Hr Hi Hs] Hlt. unfold push_off, is_irq_enabled, irq_disable. run_m. cbn [cpu set_irq].
  rewrite Hd. destruct (Z.eqb_spec depth 0) as [->|Hne]; cbn.
  - eexists. split; [reflexivity|]. split; [|split; reflexivity].
    split; cbn [cpu ncli irq_unmasked interrupts_enabled set_ncli set_interrupts_enabled set_irq];
      [now rewrite Hd|lia|reflexivity|intros _; rewrite Hi; reflexivity].
  - eexists. split; [reflexivity|]. split; [|split; reflexivity].
    split; cbn [cpu ncli irq_unmasked interrupts_enabled set_ncli set_interrupts_enabled set_irq];
      [rewrite Hd; apply add64_small; lia|lia| |intros _; apply Hs; lia].
    now rewrite bool_decide_eq_false_2 by lia.
Qed.

Lemma pop_off_nested was depth c :
  nested was depth c -> 0 < depth ->
  exists c', pop_off c = Done tt c' /\ nested was (depth - 1) c' /\ same_proc c c'.
Proof.
  intros [Hd Hr Hi Hs] Hpos. unfold pop_off, is_irq_enabled. run_m.
  rewrite Hi, bool_decide_eq_false_2 by lia. cbn [andb]. rewrite Hd.
  rewrite (proj2 (Z.ltb_ge _ _)) by lia. cbn [cpu set_ncli ncli interrupts_enabled].
  rewrite sub64_small by lia. rewrite Hs by lia.
  destruct (Z.eqb_spec (depth - 1) 0) as [H0|Hne]; cbn [andb].
  - destruct was; (eexists; split; [reflexivity|]; split; [|split; reflexivity]);
      (split; cbn [cpu ncli irq_unmasked interrupts_enabled set_ncli set_irq];
       [reflexivity|lia| |lia]).
    + now rewrite bool_decide_eq_true_2.
    + rewrite Hi. now rewrite !andb_false_r.
  - eexists. split; [reflexivity|]. split; [|split; reflexivity].
    split; cbn [cpu ncli irq_unmasked interrupts_enabled set_ncli set_irq];
      [reflexivity|lia| |intros _; apply Hs; lia].
    rewrite Hi. now rewrite !bool_decide_eq_false_2 by lia.
Qed.

Lemma pop_off_underflow was c : nested was 0 c -> exists e, pop_off c = Panic e.
Proof.
  intros [Hd _ Hi _]. unfold pop_off, is_irq_enabled. run_m.
  rewrite Hi, bool_decide_eq_true_2 by reflexivity. cbn [andb].
  destruct was; [eexists; reflexivity|]. rewrite Hd. eexists. reflexivity.
Qed.

Inductive nest_op := Push | Pop.

Definition run_nest_op (o : nest_op) : M core unit :=
  match o with Push => push_off | Pop => pop_off end.
Definition run_nest_ops (ops : list nest_op) : M core unit := for_in ops run_nest_op.

(** The depth after a sequence, when it never underflows. *)
Fixpoint depth_after (ops : list nest_op) (d : Z) : option Z :=
  match ops with
  | [] => Some d
  | Push :: ops' => depth_after ops' (d + 1)
  | Pop :: ops' => if d <? 1 then None else depth_after ops' (d - 1)
  end.

Lemma depth_after_ge ops d d' : depth_after ops d = Some d' -> 0 <= d -> 0 <= d'.
Proof.
  revert d. induction ops as [|[] ops IH]; intros d; cbn [depth_after].
  - intros [= <-]. auto.
  - intros H Hd. apply (IH (d + 1)); [assumption|lia].
  - destruct (Z.ltb_spec d 1); [intros [=]|]. intros H' Hd. apply (IH (d - 1)); [assumption|lia].
Qed.

Lemma nest_ops_ok was ops d c :
  nested was d c -> d + Z.of_nat (length ops) < U64 ->
  match depth_after ops d with
  | Some d' => exists c', run_nest_ops ops c = Done tt c' /\ nested was d' c' /\ same_proc c c'
  | None => exists e, run_nest_ops ops c = Panic e
  end.
Proof.
  revert d c. induction ops as [|o ops IH]; intros d c Hn Hlen; cbn [depth_after].
  { exists c. split; [reflexivity|]. split; [exact Hn|split; reflexivity]. }
  cbn [length] in Hlen. unfold run_nest_ops in *. cbn [for_in]. destruct o; cbn [run_nest_op].
  - destruct (push_off_nested was d c Hn ltac:(lia)) as (c1 & Hrun & Hn1 & Hp1).
    rewrite (bind_run _ _ _ _ _ Hrun). specialize (IH (d + 1) c1 Hn1 ltac:(lia)).
    destruct (depth_after ops (d + 1)); [|exact IH].
    destruct IH as (c' & H1 & H2 & H3). exists c'. split; [exact H1|]. split; [exact H2|].
    destruct Hp1, H3. split; congruence.
  - destruct (Z.ltb_spec d 1) as [Hlt|Hge].
    + assert (d = 0) as -> by (destruct Hn; lia).
      destruct (pop_off_underflow was c Hn) as [e He]. exists e. unfold bind. now rewrite He.
    + destruct (pop_off_nested was d c Hn ltac:(lia)) as (c1 & Hrun & Hn1 & Hp1).
      rewrite (bind_run _ _ _ _ _ Hrun). specialize (IH (d - 1) c1 Hn1 ltac:(lia)).
      destruct (depth_after ops (d - 1)); [|exact IH].
      destruct IH as (c' & H1 & H2 & H3). exists c'. split; [exact H1|]. split; [exact H2|].
      destruct Hp1, H3. split; congruence.
Qed.

(** C36. Calls of [push_off] and [pop_off] nest: starting with no lock held,
    any sequence in which no pop is unmatched runs without panicking and
    counts the open pushes; interrupts are masked while one is open and are
    back to what they were, enabled or not, when all are closed.  A sequence
    with an unmatched pop panics. *)
Theorem push_pop_nesting ops c :
  ncli (cpu c) = 0 -> Z.of_nat (length ops) < U64 ->
  match depth_after ops 0 with
  | Some d => exists c', run_nest_ops ops c = Done tt c' /\ ncli (cpu c') = d /\
                irq_unmasked c' = bool_decide (d = 0) && irq_unmasked c /\ same_proc c c'
  | None => exists e, run_nest_ops ops c = Panic e
  end.
Proof.
  intros H0 Hlen.
  assert (nested (irq_unmasked c) 0 c) as Hn by (split; auto; unfold U64; lia).
  pose proof (nest_ops_ok _ ops 0 c Hn Hlen) as H. destruct (depth_after ops 0) as [d|]; [|exact H].
  destruct H as (c' & Hrun & [Hd _ Hi _] & Hp). exists c'. auto.
Qed.

Definition demo_core : core := mk_core CPUS0 true.

Lemma push_pop_nesting_witness :
  (ncli (cpu demo_core) = 0 /\ Z.of_nat (length [Push; Push; Pop]) < U64) /\
  match depth_after [Push; Push; Pop] 0 with
  | Some d => exists c', run_nest_ops [Push; Push; Pop] demo_core = Done tt c' /\ ncli (cpu c') = d /\
                irq_unmasked c' = bool_decide (d = 0) && irq_unmasked demo_core /\ same_proc demo_core c'
  | None => exists e, run_nest_ops [Push; Push; Pop] demo_core = Panic e
  end.
Proof.
  split; [split; [reflexivity|unfold U64; simpl; lia]|].
  apply (push_pop_nesting [Push; Push; Pop] demo_core); [reflexivity|unfold U64; simpl; lia].
Defined.

(** ** Locks *)

(** The lock is open and [depth] other locks are held; or it is one more. *)
Definition lock_open (was : bool) (depth : Z) (s : locked_core) : Prop :=
  nested was depth (fst s) /\ sl_lock (snd s) = false.
Definition lock_held (was : bool) (depth : Z) (s : locked_core) : Prop :=
  nested was (depth + 1) (fst s) /\ sl_lock (snd s) = true /\
  holding_cpuid (snd s) = Some (cid (cpu (fst s))).

Lemma acquire_ok was depth s :
  lock_open was depth s -> depth + 1 < U64 ->
  exists s', acquire s = Done tt s' /\ lock_held was depth s' /\
             same_proc (fst s) (fst s') /\ sl_name (snd s') = sl_name (snd s).
Proof.
  intros [Hn Hl] Hlt. destruct s as [c l]. cbn in *.
  destruct (push_off_nested was depth c Hn Hlt) as (c' & Hrun & Hn' & Hp).
  unfold acquire. assert (zoom core_lens push_off (c, l) = Done tt (c', l)) as Hz.
  { apply zoom_done. exists c'. split; [exact Hrun|reflexivity]. }
  rewrite (bind_run _ _ _ _ _ Hz). run_m. cbn. rewrite Hl. cbn.
  eexists. split; [reflexivity|]. split; [split; [exact Hn'|split; reflexivity]|]. split; [exact Hp|reflexivity].
Qed.

Lemma release_ok was depth s :
  lock_held was depth s -> 0 <= depth ->
  exists s', release s = Done tt s' /\ lock_open was depth s' /\
             same_proc (fst s) (fst s') /\ sl_name (snd s') = sl_name (snd s).
Proof.
  intros (Hn & Hl & Hh) Hd. destruct s as [c l]. cbn in *.
  destruct (pop_off_nested was (depth + 1) c Hn ltac:(lia)) as (c' & Hrun & Hn' & Hp).
  unfold release. run_m. cbn. rewrite Hl. cbn. rewrite bool_decide_eq_true_2 by exact Hh. cbn [negb].
  unfold zoom. change (view core_lens _) with c. rewrite Hrun. eexists. split; [reflexivity|].
  replace (depth + 1 - 1) with depth in Hn' by lia.
  split; [split; [exact Hn'|reflexivity]|]. split; [exact Hp|reflexivity].
Qed.

(** A spinlock on the one core: taking an open lock and releasing it
    leaves the lock, the nesting depth, the interrupt mask and the running
    process as they were, with interrupts masked in between; taking a lock
    this core holds panics instead of spinning for ever, and releasing an
    open lock panics. *)
Theorem spinlock_protocol was depth s :
  lock_open was depth s -> 0 <= depth -> depth + 2 < U64 ->
  (exists s1 s2, acquire s = Done tt s1 /\ lock_held was depth s1 /\ irq_unmasked (fst s1) = false /\
     (exists e, acquire s1 = Panic e) /\
     release s1 = Done tt s2 /\ lock_open was depth s2 /\ same_proc (fst s) (fst s2)) /\
  (exists e, release s = Panic e).
Proof.
  intros Ho Hd Hlt. split.
  - destruct (acquire_ok was depth s Ho ltac:(lia)) as (s1 & Hr1 & Hh & Hp1 & _).
    destruct (release_ok was depth s1 Hh Hd) as (s2 & Hr2 & Ho2 & Hp2 & _).
    exists s1, s2. split; [exact Hr1|]. split; [exact Hh|].
    destruct Hh as (Hn & Hl & Hhold). split; [|split].
    + rewrite (ne_irq _ _ _ Hn), bool_decide_eq_false_2 by lia. reflexivity.
    + destruct s1 as [c l]. cbn in *.
      destruct (push_off_nested was (depth + 1) c Hn ltac:(lia)) as (c' & Hrun & _ & [Hc _]).
      unfold acquire. assert (zoom core_lens push_off (c, l) = Done tt (c', l)) as Hz.
      { apply zoom_done. exists c'. split; [exact Hrun|reflexivity]. }
      rewrite (bind_run _ _ _ _ _ Hz). run_m. cbn. rewrite Hl, Hc. cbn.
      rewrite bool_decide_eq_true_2 by exact Hhold. eexists. reflexivity.
    + split; [exact Hr2|]. split; [exact Ho2|]. destruct Hp1, Hp2. split; congruence.
  - destruct Ho as [_ Hl]. unfold release. run_m. rewrite Hl. eexists. reflexivity.
Qed.

Lemma spinlock_protocol_witness :
  (lock_open true 0 (demo_core, Spinlock_new "process_table") /\ 0 <= 0 /\ 0 + 2 < U64) /\
  (exists s1 s2, acquire (demo_core, Spinlock_new "process_table") = Done tt s1 /\
     lock_held true 0 s1 /\ irq_unmasked (fst s1) = false /\
     (exists e, acquire s1 = Panic e) /\
     release s1 = Done tt s2 /\ lock_open true 0 s2 /\ same_proc demo_core (fst s2)) /\
  (exists e, release (demo_core, Spinlock_new "process_table") = Panic e).
Proof.
  assert (lock_open true 0 (demo_core, Spinlock_new "process_table")) as Ho.
  { split; [split; cbn; auto; unfold U64; lia|reflexivity]. }
  assert (0 <= 0 /\ 0 + 2 < U64) as [H1 H2] by (unfold U64; lia).
  split; [auto|].
  exact (spinlock_protocol true 0 (demo_core, Spinlock_new "process_table") Ho H1 H2).
Defined.
