(* ===== verification/Devices.v ===== *)
(** The devices of src/src/kernel/peripherals.rs (mini UART, GPIO),
    src/src/kernel/timer.rs (physical timer) and the interrupt routing of
    src/src/kernel/interrupts.rs.

    A volatile register that the device changes on its own (the UART's status
    and data registers, the counter) is a stream of the values its successive
    reads give; the theorems hold for every stream.  Other registers keep what
    is written to them.  [patience] bounds the iterations of the loop that
    spins on the transmitter. *)

From Stdlib Require Import ZArith Lia.
From stdpp Require Import base strings numbers list.
From S2P Require Import Prelude Interrupts.

Local Open Scope Z_scope.

(** ** State *)

Record hw := mk_hw {
  hcore : core;
  w_lock : Spinlock;
  r_lock : Spinlock;
  mmio : Z -> Z;
  lsr : nat -> Z;       (** what the reads of AUX_MU_LSR_REG return *)
  lsr_pos : nat;
  rx : nat -> Z;        (** what the reads of AUX_MU_IO_REG return *)
  rx_pos : nat;
  tx : list Z;          (** what was written to AUX_MU_IO_REG, oldest first *)
  patience : nat;
  cntfrq : Z;           (** CNTFRQ_EL0 *)
  cntpct : nat -> Z;    (** what the reads of CNTPCT_EL0 return *)
  cnt_pos : nat;
  cntp_ctl : Z;         (** CNTP_CTL_EL0 *)
  cntp_cval : Z;        (** CNTP_CVAL_EL0 *)
}.

Definition set_core (c : core) (h : hw) : hw :=
  mk_hw c (w_lock h) (r_lock h) (mmio h) (lsr h) (lsr_pos h) (rx h) (rx_pos h) (tx h)
    (patience h) (cntfrq h) (cntpct h) (cnt_pos h) (cntp_ctl h) (cntp_cval h).
Definition set_w_lock (s : locked_core) (h : hw) : hw :=
  mk_hw (fst s) (snd s) (r_lock h) (mmio h) (lsr h) (lsr_pos h) (rx h) (rx_pos h) (tx h)
    (patience h) (cntfrq h) (cntpct h) (cnt_pos h) (cntp_ctl h) (cntp_cval h).
Definition set_r_lock (s : locked_core) (h : hw) : hw :=
  mk_hw (fst s) (w_lock h) (snd s) (mmio h) (lsr h) (lsr_pos h) (rx h) (rx_pos h) (tx h)
    (patience h) (cntfrq h) (cntpct h) (cnt_pos h) (cntp_ctl h) (cntp_cval h).
Definition set_mmio (m : Z -> Z) (h : hw) : hw :=
  mk_hw (hcore h) (w_lock h) (r_lock h) m (lsr h) (lsr_pos h) (rx h) (rx_pos h) (tx h)
    (patience h) (cntfrq h) (cntpct h) (cnt_pos h) (cntp_ctl h) (cntp_cval h).
Definition set_uart (lp rp : nat) (t : list Z) (h : hw) : hw :=
  mk_hw (hcore h) (w_lock h) (r_lock h) (mmio h) (lsr h) lp (rx h) rp t
    (patience h) (cntfrq h) (cntpct h) (cnt_pos h) (cntp_ctl h) (cntp_cval h).
Definition set_timer (p : nat) (ctl cval : Z) (h : hw) : hw :=
  mk_hw (hcore h) (w_lock h) (r_lock h) (mmio h) (lsr h) (lsr_pos h) (rx h) (rx_pos h) (tx h)
    (patience h) (cntfrq h) (cntpct h) p ctl cval.

Definition w_lens : Lens hw locked_core.
Proof. refine (mkLens _ _ (fun h => (hcore h, w_lock h)) set_w_lock _ _ _); [intros []|intros []|]; reflexivity. Defined.
Definition r_lens : Lens hw locked_core.
Proof. refine (mkLens _ _ (fun h => (hcore h, r_lock h)) set_r_lock _ _ _); [intros []|intros []|]; reflexivity. Defined.

(** ** Registers *)

Definition MMIO_BASE : Z := Z.lor 0x3F000000 0xFFFFFF8000000000.
Definition AUXENB : Z := MMIO_BASE + 0x215004.
Definition AUX_MU_IER_REG : Z := MMIO_BASE + 0x215044.
Definition AUX_MU_IIR_REG : Z := MMIO_BASE + 0x215048.
Definition AUX_MU_LCR_REG : Z := MMIO_BASE + 0x21504C.
Definition AUX_MU_CNTL_REG : Z := MMIO_BASE + 0x215060.
Definition AUX_MU_BAUD : Z := MMIO_BASE + 0x215068.
Definition GPFSEL1 : Z := MMIO_BASE + 0x200004.
Definition GPPUD : Z := MMIO_BASE + 0x200094.
Definition GPPUDCLK0 : Z := MMIO_BASE + 0x200098.
Definition QA7_BASE : Z := 0x40000000 + 0xFFFFFF8000000000.
Definition CORE_0_CNT_INT_CTL : Z := QA7_BASE + 0x40.
Definition CORE_0_IRQ_SRC : Z := QA7_BASE + 0x60.

(** [Register::read] and [Register::write]. *)
Definition reg_read (a : Z) : M hw Z := gets (fun h => mmio h a).
Definition reg_write (a v : Z) : M hw unit :=
  modify (fun h => set_mmio (fun x => if x =? a then v else mmio h x) h).

(** [AUX_MU_LSR_REG.read()], [AUX_MU_IO_REG.read()] and [.write(v)]. *)
Definition lsr_read : M hw Z := fun h =>
  Done (lsr h (lsr_pos h)) (set_uart (S (lsr_pos h)) (rx_pos h) (tx h) h).
Definition io_read : M hw Z := fun h =>
  Done (rx h (rx_pos h)) (set_uart (lsr_pos h) (S (rx_pos h)) (tx h) h).
Definition io_write (v : Z) : M hw unit := fun h =>
  Done tt (set_uart (lsr_pos h) (rx_pos h) (tx h ++ [v]) h).

(** [!x] on a [u32]. *)
Definition not32 (x : Z) : Z := 2 ^ 32 - 1 - x.

(** ** The UART *)

Definition uart_init : M hw unit :=
  zoom w_lens acquire ;;
  zoom r_lens acquire ;;
  (let* v := reg_read AUXENB in reg_write AUXENB (Z.lor v 1)) ;;
  reg_write AUX_MU_CNTL_REG 0 ;;
  reg_write AUX_MU_IER_REG 0 ;;
  reg_write AUX_MU_LCR_REG 3 ;;
  reg_write AUX_MU_IIR_REG 0x06 ;;
  reg_write AUX_MU_BAUD 270 ;;
  (let mask := Z.lor (Z.shiftl 7 12) (Z.shiftl 7 15) in
   let val := Z.lor (Z.shiftl 2 12) (Z.shiftl 2 15) in
   let* v := reg_read GPFSEL1 in
   reg_write GPFSEL1 (Z.lor (Z.land v (not32 mask)) (Z.land val mask))) ;;
  reg_write GPPUD 0 ;;
  reg_write GPPUDCLK0 (Z.lor (Z.shiftl 1 14) (Z.shiftl 1 15)) ;;
  reg_write GPPUDCLK0 0 ;;
  reg_write AUX_MU_CNTL_REG 3 ;;
  zoom r_lens release ;;
  zoom w_lens release.

(** [while (AUX_MU_LSR_REG.read() & 0x20) == 0 { spin_loop() }] *)
Fixpoint wait_tx (fuel : nat) : M hw unit :=
  let* v := lsr_read in
  if Z.land v 0x20 =? 0 then match fuel with O => diverge | S f => wait_tx f end else skip.

Definition write_byte (c : Z) : M hw unit :=
  zoom w_lens acquire ;;
  (let* p := gets patience in wait_tx p) ;;
  io_write c ;;
  zoom w_lens release.

Definition poll_byte : M hw (option Z) :=
  zoom r_lens acquire ;;
  let* v := lsr_read in
  if Z.land v 0x01 =? 0 then zoom r_lens release ;; ret None
  else
    let* d := io_read in
    let byte := Z.land d 0xFF in
    zoom r_lens release ;;
    ret (Some byte).

Definition raw_write (s : bytes) : M hw unit := for_in s io_write.

(** ** Interrupt routing *)

Inductive TimerInterruptSource := Physical | PhysicalNonSecure | Hypervisor | Virtual.
Inductive InterruptRoute := IRQ | FIQ.

Definition timer_bit (s : TimerInterruptSource) : Z :=
  match s with
  | Physical => Z.shiftl 1 0
  | PhysicalNonSecure => Z.shiftl 1 1
  | Hypervisor => Z.shiftl 1 2
  | Virtual => Z.shiftl 1 3
  end.

Definition deroute_timer_interrupt (source : TimerInterruptSource) : M hw unit :=
  let disable_bit := timer_bit source in
  let disable_bit := Z.lor disable_bit (Z.shiftl disable_bit 4) in
  let* current_val := reg_read CORE_0_CNT_INT_CTL in
  reg_write CORE_0_CNT_INT_CTL (Z.land current_val (not32 disable_bit)).

Definition route_timer_interrupt (source : TimerInterruptSource) (route : InterruptRoute)
  : M hw unit :=
  deroute_timer_interrupt source ;;
  let enable_bit := timer_bit source in
  let enable_bit := match route with IRQ => enable_bit | FIQ => Z.shiftl enable_bit 4 end in
  let* current_val := reg_read CORE_0_CNT_INT_CTL in
  reg_write CORE_0_CNT_INT_CTL (Z.lor current_val enable_bit).

Definition pending_irq : M hw Z := reg_read CORE_0_IRQ_SRC.
Definition CORE_0_FIQ_SRC : Z := QA7_BASE + 0x70.
Definition pending_fiq : M hw Z := reg_read CORE_0_FIQ_SRC.

Module Sources.
Inductive InterruptSource :=
| PhysicalSecureTimer | PhysicalNonSecureTimer | HypervisorTimer | VirtualTimer
| Mailbox0 | Mailbox1 | Mailbox2 | Mailbox3 | GPU | PMU | AXI | LocalTimer | PeripheralInterrupt.

(** [source as u32] *)
Definition source_bits (s : InterruptSource) : Z :=
  match s with
  | PhysicalSecureTimer => Z.shiftl 1 0 | PhysicalNonSecureTimer => Z.shiftl 1 1 | HypervisorTimer => Z.shiftl 1 2
  | VirtualTimer => Z.shiftl 1 3 | Mailbox0 => Z.shiftl 1 4 | Mailbox1 => Z.shiftl 1 5 | Mailbox2 => Z.shiftl 1 6
  | Mailbox3 => Z.shiftl 1 7 | GPU => Z.shiftl 1 8 | PMU => Z.shiftl 1 9 | AXI => Z.shiftl 1 10
  | LocalTimer => Z.shiftl 1 11 | PeripheralInterrupt => Z.shiftl 0x3f 12
  end.
End Sources.

Definition is_irq_pending (source : Sources.InterruptSource) : M hw bool :=
  let* p := pending_irq in ret (negb (Z.land p (Sources.source_bits source) =? 0)).
Definition is_fiq_pending (source : Sources.InterruptSource) : M hw bool :=
  let* p := pending_fiq in ret (negb (Z.land p (Sources.source_bits source) =? 0)).

(** ** The timer *)

Definition read_cnt : M hw Z := fun h =>
  Done (cntpct h (cnt_pos h)) (set_timer (S (cnt_pos h)) (cntp_ctl h) (cntp_cval h) h).
Definition read_frq : M hw Z := gets cntfrq.
Definition read_ctl : M hw Z := gets cntp_ctl.
Definition write_ctl (v : Z) : M hw unit :=
  modify (fun h => set_timer (cnt_pos h) v (cntp_cval h) h).
Definition set_cval (v : Z) : M hw unit :=
  modify (fun h => set_timer (cnt_pos h) (cntp_ctl h) v h).

(** A write of CNTP_TVAL_EL0 is relative to the counter; [new_tval] is signed. *)
Definition set_tval (new_tval : Z) : M hw unit :=
  let* now := read_cnt in set_cval (add64 now new_tval).

Definition timer_enable : M hw unit :=
  let* ctl := read_ctl in write_ctl (Z.lor ctl (Z.shiftl 1 0)).
Definition timer_disable : M hw unit :=
  let* ctl := read_ctl in write_ctl (Z.land ctl (not64 1)).
Definition mask_int : M hw unit :=
  let* ctl := read_ctl in write_ctl (Z.lor ctl (Z.shiftl 1 1)).
Definition unmask_int : M hw unit :=
  let* ctl := read_ctl in write_ctl (Z.land ctl (not64 (Z.shiftl 1 1))).
Definition timer_start : M hw unit := unmask_int ;; timer_enable.

Definition set_seconds (seconds : Z) : M hw unit :=
  let* freq := read_frq in
  let* now := read_cnt in
  let* ticks := expect (checked_mul64 freq seconds) "Physical Timer Seconds Overflow." in
  let* cval := expect (checked_add64 now ticks) "Physical Timer CVAL Overflow." in
  set_cval cval.

Definition set_milliseconds (milliseconds : Z) : M hw unit :=
  let* freq := read_frq in
  let* now := read_cnt in
  let* p := expect (checked_mul64 freq milliseconds) "Physical Timer Milliseconds Overflow." in
  let ticks := p / 1000 in
  let* cval := expect (checked_add64 now ticks) "Physical Timer CVAL Overflow." in
  set_cval cval.

(** [PhysicalTimer::init_irq] *)
Definition init_irq : M hw unit := route_timer_interrupt PhysicalNonSecure IRQ.

(** ** UART properties *)

(** The device accepts a byte again within [patience] looks at its status. *)
Definition uart_ready (h : hw) : Prop :=
  forall p, exists k, (k <= patience h)%nat /\ Z.land (lsr h (p + k)) 0x20 <> 0.

(** The UART's locks are open, with [depth] other locks held. *)
Record hw_ok (was : bool) (depth : Z) (h : hw) : Prop := {
  ho_nested : nested was depth (hcore h);
  ho_w : sl_lock (w_lock h) = false;
  ho_r : sl_lock (r_lock h) = false;
  ho_depth : depth + 4 < U64;
  ho_ready : uart_ready h;
}.

(** What using the UART leaves alone. *)
Record hw_frame (h h' : hw) : Prop := {
  hf_proc : same_proc (hcore h) (hcore h');
  hf_mmio : mmio h' = mmio h;
  hf_lsr : lsr h' = lsr h;
  hf_rx : rx h' = rx h;
  hf_patience : patience h' = patience h;
  hf_timer : cntfrq h' = cntfrq h /\ cntpct h' = cntpct h /\ cnt_pos h' = cnt_pos h /\
             cntp_ctl h' = cntp_ctl h /\ cntp_cval h' = cntp_cval h;
}.

Lemma hw_frame_refl h : hw_frame h h.
Proof. split; auto. split; reflexivity. Qed.

Lemma hw_frame_trans h1 h2 h3 : hw_frame h1 h2 -> hw_frame h2 h3 -> hw_frame h1 h3.
Proof.
  intros [[A1 A2] A3 A4 A5 A6 (A7 & A8 & A9 & A10 & A11)]
         [[B1 B2] B3 B4 B5 B6 (B7 & B8 & B9 & B10 & B11)].
  split; try split; try congruence. split_and!; congruence.
Qed.
#[export] Hint Resolve hw_frame_refl : atos.

Lemma hw_ok_frame was depth h h' :
  hw_ok was depth h -> hw_frame h h' -> nested was depth (hcore h') ->
  sl_lock (w_lock h') = false -> sl_lock (r_lock h') = false -> hw_ok was depth h'.
Proof.
  intros [_ _ _ Hd Hr] [_ _ Hl _ Hp _] Hn Hw Hrl. split; auto.
  intros p. destruct (Hr p) as (k & Hk & Hb). exists k. rewrite Hp, Hl. auto.
Qed.

(** Each lock as seen through its lens. *)
Lemma w_acquire was depth h :
  hw_ok was depth h ->
  exists h', zoom w_lens acquire h = Done tt h' /\ lock_held was depth (hcore h', w_lock h') /\
    h' = set_w_lock (hcore h', w_lock h') h /\ same_proc (hcore h) (hcore h').
Proof.
  intros [Hn Hw _ Hd _].
  destruct (acquire_ok was depth (hcore h, w_lock h)) as ([c l] & Hr & Hh & Hp & _); [split; assumption|lia|].
  exists (set_w_lock (c, l) h). split; [apply zoom_done; exists (c, l); split; [exact Hr|reflexivity]|].
  split; [exact Hh|]. split; [reflexivity|exact Hp].
Qed.

Lemma w_release was depth h :
  lock_held was depth (hcore h, w_lock h) -> 0 <= depth ->
  exists h', zoom w_lens release h = Done tt h' /\ nested was depth (hcore h') /\
    sl_lock (w_lock h') = false /\
    h' = set_w_lock (hcore h', w_lock h') h /\ same_proc (hcore h) (hcore h').
Proof.
  intros Hh Hd.
  destruct (release_ok was depth (hcore h, w_lock h) Hh Hd) as ([c l] & Hr & [Hn Hl] & Hp & _).
  exists (set_w_lock (c, l) h). split; [apply zoom_done; exists (c, l); split; [exact Hr|reflexivity]|].
  split; [exact Hn|]. split; [exact Hl|]. split; [reflexivity|exact Hp].
Qed.

Lemma r_acquire was depth h :
  hw_ok was depth h ->
  exists h', zoom r_lens acquire h = Done tt h' /\ lock_held was depth (hcore h', r_lock h') /\
    h' = set_r_lock (hcore h', r_lock h') h /\ same_proc (hcore h) (hcore h').
Proof.
  intros [Hn _ Hr0 Hd _].
  destruct (acquire_ok was depth (hcore h, r_lock h)) as ([c l] & Hr & Hh & Hp & _); [split; assumption|lia|].
  exists (set_r_lock (c, l) h). split; [apply zoom_done; exists (c, l); split; [exact Hr|reflexivity]|].
  split; [exact Hh|]. split; [reflexivity|exact Hp].
Qed.

Lemma r_release was depth h :
  lock_held was depth (hcore h, r_lock h) -> 0 <= depth ->
  exists h', zoom r_lens release h = Done tt h' /\ nested was depth (hcore h') /\
    sl_lock (r_lock h') = false /\
    h' = set_r_lock (hcore h', r_lock h') h /\ same_proc (hcore h) (hcore h').
Proof.
  intros Hh Hd.
  destruct (release_ok was depth (hcore h, r_lock h) Hh Hd) as ([c l] & Hr & [Hn Hl] & Hp & _).
  exists (set_r_lock (c, l) h). split; [apply zoom_done; exists (c, l); split; [exact Hr|reflexivity]|].
  split; [exact Hn|]. split; [exact Hl|]. split; [reflexivity|exact Hp].
Qed.

Lemma wait_tx_ok fuel h :
  (exists k, (k <= fuel)%nat /\ Z.land (lsr h (lsr_pos h + k)) 0x20 <> 0) ->
  exists p, wait_tx fuel h = Done tt (set_uart p (rx_pos h) (tx h) h) /\ (lsr_pos h <= p)%nat.
Proof.
  revert h. induction fuel as [|fuel IH]; intros h (k & Hk & Hb); cbn [wait_tx];
    unfold bind, lsr_read; cbn [set_uart].
  - replace k with O in Hb by lia. rewrite Nat.add_0_r in Hb.
    destruct (Z.eqb_spec (Z.land (lsr h (lsr_pos h)) 32) 0) as [H0|H0]; [contradiction|].
    eexists. split; [reflexivity|cbn; lia].
  - destruct (Z.eqb_spec (Z.land (lsr h (lsr_pos h)) 32) 0) as [H0|H0]; [|eexists; split; [reflexivity|cbn; lia]].
    destruct k as [|k]; [rewrite Nat.add_0_r in Hb; contradiction|].
    destruct (IH (set_uart (S (lsr_pos h)) (rx_pos h) (tx h) h)) as (p & Hp & Hle).
    { exists k. split; [lia|]. cbn. now replace (S (lsr_pos h + k)) with (lsr_pos h + S k)%nat by lia. }
    exists p. split; [exact Hp|]. cbn in Hle. lia.
Qed.

Lemma write_byte_ok was depth h c :
  hw_ok was depth h ->
  exists h', write_byte c h = Done tt h' /\ hw_ok was depth h' /\ hw_frame h h' /\
    tx h' = tx h ++ [c] /\ rx_pos h' = rx_pos h /\ (lsr_pos h <= lsr_pos h')%nat.
Proof.
  intros Hok. destruct (w_acquire was depth h Hok) as (h1 & Hr1 & Hh1 & E1 & Hp1).
  assert (0 <= depth) as Hd by (destruct Hok as [[? ?] _ _ _ _]; lia).
  unfold write_byte. rewrite (bind_run _ _ _ _ _ Hr1).
  destruct (wait_tx_ok (patience h1) h1) as (p & Hw & Hle).
  { rewrite E1. cbn. apply (ho_ready _ _ _ Hok). }
  set (h2 := set_uart p (rx_pos h1) (tx h1) h1) in *.
  assert ((let* p := gets patience in wait_tx p) h1 = Done tt h2) as Hr2 by exact Hw.
  rewrite (bind_run _ _ _ _ _ Hr2).
  set (h3 := set_uart (lsr_pos h2) (rx_pos h2) (tx h2 ++ [c]) h2).
  rewrite (bind_run _ _ _ tt h3) by reflexivity.
  destruct (w_release was depth h3 Hh1 Hd) as (h4 & Hr4 & Hn4 & Hl4 & E4 & Hp4).
  exists h4. split; [exact Hr4|].
  assert (hw_frame h h4) as Hfr.
  { rewrite E4, E1 in *. unfold h3, h2. rewrite E1. split; cbn; auto 10.
    destruct Hp1, Hp4. rewrite E4 in *. split; cbn in *; congruence. }
  split; [|split; [exact Hfr|split; [|split]]].
  - apply hw_ok_frame with h; auto. rewrite E4. unfold h3, h2. rewrite E1. cbn. apply Hok.
  - rewrite E4. unfold h3, h2. rewrite E1. reflexivity.
  - rewrite E4. unfold h3, h2. rewrite E1. reflexivity.
  - rewrite E4. unfold h3, h2. rewrite E1 in *. exact Hle.
Qed.

Lemma poll_byte_ok was depth h :
  hw_ok was depth h ->
  exists h', poll_byte h = Done (if Z.land (lsr h (lsr_pos h)) 1 =? 0 then None
                                 else Some (Z.land (rx h (rx_pos h)) 0xFF)) h' /\
    hw_ok was depth h' /\ hw_frame h h' /\ tx h' = tx h /\ lsr_pos h' = S (lsr_pos h) /\
    rx_pos h' = if Z.land (lsr h (lsr_pos h)) 1 =? 0 then rx_pos h else S (rx_pos h).
Proof.
  intros Hok. destruct (r_acquire was depth h Hok) as (h1 & Hr1 & Hh1 & E1 & Hp1).
  assert (0 <= depth) as Hd by (destruct Hok as [[? ?] _ _ _ _]; lia).
  unfold poll_byte. rewrite (bind_run _ _ _ _ _ Hr1).
  set (h2 := set_uart (S (lsr_pos h1)) (rx_pos h1) (tx h1) h1).
  rewrite (bind_run _ _ _ (lsr h1 (lsr_pos h1)) h2) by reflexivity.
  assert (lsr h1 (lsr_pos h1) = lsr h (lsr_pos h)) as -> by (rewrite E1; reflexivity).
  set (h3 := if Z.land (lsr h (lsr_pos h)) 1 =? 0 then h2
             else set_uart (lsr_pos h2) (S (rx_pos h2)) (tx h2) h2).
  assert (lock_held was depth (hcore h3, r_lock h3)) as Hh3
    by (unfold h3; destruct (_ =? 0); exact Hh1).
  destruct (r_release was depth h3 Hh3 Hd) as (h4 & Hr4 & Hn4 & Hl4 & E4 & Hp4).
  exists h4. split.
  { unfold h3 in Hr4. destruct (_ =? 0).
    - rewrite (bind_run _ _ _ _ _ Hr4). reflexivity.
    - rewrite (bind_run _ _ _ (rx h2 (rx_pos h2)) (set_uart (lsr_pos h2) (S (rx_pos h2)) (tx h2) h2)) by reflexivity.
      cbv zeta. rewrite (bind_run _ _ _ _ _ Hr4). unfold h2. rewrite E1. reflexivity. }
  assert (hw_frame h h4) as Hfr.
  { rewrite E4 in *. unfold h3, h2 in *. rewrite E1 in *.
    destruct Hp1, Hp4. destruct (_ =? 0); (split; cbn in *; auto 10; split; congruence). }
  split; [|split; [exact Hfr|]].
  - apply hw_ok_frame with h; auto. rewrite E4. unfold h3, h2. rewrite E1. destruct (_ =? 0); apply Hok.
  - rewrite E4. unfold h3, h2. rewrite E1. destruct (_ =? 0); auto.
Qed.

(** ** Timer and routing *)

(** [set_milliseconds] programs the compare register to exactly the
    counter plus [freq * ms / 1000] ticks when neither the product nor the sum
    leaves 64 bits, and panics in exactly the other cases; nothing else
    changes but the number of counter reads. *)
Theorem set_milliseconds_spec h ms :
  let now := cntpct h (cnt_pos h) in
  let target := now + cntfrq h * ms / 1000 in
  match set_milliseconds ms h with
  | Done _ h' => cntfrq h * ms < U64 /\ target < U64 /\
                 h' = set_timer (S (cnt_pos h)) (cntp_ctl h) target h
  | Panic _ => U64 <= cntfrq h * ms \/ U64 <= target
  | _ => False
  end.
Proof.
  cbv zeta. unfold set_milliseconds, read_frq, read_cnt, set_cval. run_m. unfold checked_mul64.
  destruct (Z.ltb_spec (cntfrq h * ms) U64) as [H1|H1]; cbn [expect panic ret]; [|left; exact H1].
  unfold ret, checked_add64.
  destruct (Z.ltb_spec (cntpct h (cnt_pos h) + cntfrq h * ms / 1000) U64) as [H2|H2];
    cbn [expect panic ret]; [|right; exact H2].
  unfold ret. auto.
Qed.

Lemma timer_bit_index s : exists i, 0 <= i < 4 /\ timer_bit s = 2 ^ i.
Proof. destruct s; [exists 0|exists 1|exists 2|exists 3]; split; (lia || reflexivity). Qed.

Lemma not32_bit x i : 0 <= x < 2 ^ 32 -> 0 <= i < 32 -> Z.testbit (not32 x) i = negb (Z.testbit x i).
Proof.
  intros Hx Hi. unfold not32.
  replace (2 ^ 32 - 1 - x) with (Z.ldiff (Z.ones 32) x).
  - now rewrite Z.ldiff_spec, Z.ones_spec_low by lia.
  - rewrite <- Z.sub_nocarry_ldiff; [rewrite Z.ones_equiv; lia|].
    apply Z.bits_inj'. intros n Hn. rewrite Z.ldiff_spec, Z.bits_0.
    destruct (Z.ltb_spec n 32).
    + rewrite Z.ones_spec_low by lia. apply andb_false_r.
    + rewrite <- (Z.mod_small x (2 ^ 32)) by lia. now rewrite Z.mod_pow2_bits_high by lia.
Qed.

Lemma reg_rw a v h : mmio (set_mmio (fun x => if x =? a then v else mmio h x) h) a = v.
Proof. cbn. now rewrite Z.eqb_refl. Qed.

(** The route bit of a source: the source's own bit for an IRQ, four higher
    for a FIQ. *)
Definition route_index (s : TimerInterruptSource) (r : InterruptRoute) : Z :=
  Z.log2 (timer_bit s) + match r with IRQ => 0 | FIQ => 4 end.

(** Routing a timer interrupt sets exactly the requested route bit of the
    core's control register, clears the source's other route, and keeps the
    bits of every other source. *)
Theorem route_timer_spec h s r i :
  0 <= mmio h CORE_0_CNT_INT_CTL < 2 ^ 32 -> 0 <= i < 32 ->
  exists h', route_timer_interrupt s r h = Done tt h' /\
    Z.testbit (mmio h' CORE_0_CNT_INT_CTL) i =
      if decide (i = route_index s r) then true
      else if decide (i = route_index s IRQ \/ i = route_index s FIQ) then false
      else Z.testbit (mmio h CORE_0_CNT_INT_CTL) i.
Proof.
  intros Hold Hi. unfold route_timer_interrupt, deroute_timer_interrupt, reg_read, reg_write. run_m.
  eexists. split; [reflexivity|]. cbv zeta. rewrite !reg_rw.
  rewrite Z.lor_spec, Z.land_spec. set (b := Z.testbit (mmio h _) i). clearbody b.
  assert (0 <= Z.lor (timer_bit s) (Z.shiftl (timer_bit s) 4) < 2 ^ 32) as Hb
    by (destruct s; vm_compute; split; congruence).
  rewrite not32_bit by auto.
  assert (i ∈ seqZ 0 32) as Hin by (apply elem_of_seqZ; lia).
  revert Hin. generalize i. clear Hb Hi i. apply Forall_forall.
  destruct s, r; vm_compute seqZ; repeat constructor; destruct b; reflexivity.
Qed.

Definition demo_hw : hw :=
  mk_hw demo_core (Spinlock_new "uart_write_lock") (Spinlock_new "uart_read_lock")
    (fun _ => 0xFF) (fun n => if Nat.even n then 0x21 else 0x20) 0 (fun n => 97 + Z.of_nat n) 0 []
    2 19200000 (fun n => 1000 * Z.of_nat n) 0 0 0.

Lemma route_timer_spec_witness :
  (0 <= mmio demo_hw CORE_0_CNT_INT_CTL < 2 ^ 32 /\ 0 <= 5 < 32) /\
  exists h', route_timer_interrupt PhysicalNonSecure IRQ demo_hw = Done tt h' /\
    Z.testbit (mmio h' CORE_0_CNT_INT_CTL) 5 =
      if decide (5 = route_index PhysicalNonSecure IRQ) then true
      else if decide (5 = route_index PhysicalNonSecure IRQ \/ 5 = route_index PhysicalNonSecure FIQ)
           then false
      else Z.testbit (mmio demo_hw CORE_0_CNT_INT_CTL) 5.
Proof.
  assert (0 <= mmio demo_hw CORE_0_CNT_INT_CTL < 2 ^ 32) as H1 by (cbn; lia).
  assert (0 <= 5 < 32) as H2 by lia. split; [auto|].
  exact (route_timer_spec demo_hw PhysicalNonSecure IRQ 5 H1 H2).
Defined.

Lemma demo_hw_ok : hw_ok true 0 demo_hw.
Proof.
  split; try reflexivity; [split; cbn; auto; unfold U64; lia|].
  intros p. exists O. split; [lia|]. cbn. rewrite Nat.add_0_r. destruct (Nat.even p); discriminate.
Qed.
