(* ===== verification/Processes.v ===== *)
(** Processes: the data of src/src/kernel/processes.rs and
    src/src/kernel/exceptions.rs, the state of the whole kernel, and the
    operations on the process table. *)

From Stdlib Require Import ZArith Lia.
From stdpp Require Import base strings numbers list.
From S2P Require Import Prelude Memory Frames PageTable KernelStack Interrupts Devices.

Local Open Scope Z_scope.

(** ** Data *)

Inductive ProcessState := Ready | Running | Blocked | Terminated.
#[global] Instance ProcessState_eq_dec : EqDecision ProcessState.
Proof. solve_decision. Defined.

Inductive BlockReason := WaitingForChild | ForMutex | AwaitingIO | AwaitingSleepTimeout.
#[global] Instance BlockReason_eq_dec : EqDecision BlockReason.
Proof. solve_decision. Defined.

Record ProcessContext := mk_pctx {
  x : list Z;      (** x0 to x30 *)
  elr : Z;
  spsr : Z;
  sp_el0 : Z;
  sp_el1 : Z;
  ttbr0 : Z;
}.

Inductive ExceptionType := E_SYNC | E_IRQ | E_FIQ | E_SE.
Inductive ExceptionSource := EL1t | EL1h | EL064 | EL032.
#[global] Instance ExceptionSource_eq_dec : EqDecision ExceptionSource.
Proof. solve_decision. Defined.

Record ExceptionContext := mk_ectx {
  etype : ExceptionType;
  esource : ExceptionSource;
  ex : list Z;
  eelr : Z;
  espsr : Z;
  esr : Z;
  far : Z;
  esp_el0 : Z;
  esp_el1 : Z;
  ettbr0 : Z;
}.

(** [ProcessContext::new]: the other registers are [Default::default()]. *)
Definition ProcessContext_new (entry_point user_sp kernel_sp ttbr0 : Z) : ProcessContext :=
  mk_pctx (replicate 31 0) entry_point 0 user_sp kernel_sp ttbr0.

Definition from_ectx (c : ExceptionContext) : ProcessContext :=
  mk_pctx (ex c) (eelr c) (espsr c) (esp_el0 c) (esp_el1 c) (ettbr0 c).

Definition update_from_pctx (p : ProcessContext) (c : ExceptionContext) : ExceptionContext :=
  mk_ectx (etype c) (esource c) (x p) (elr p) (spsr p) (esr c) (far c) (sp_el0 p) (sp_el1 p) (ttbr0 p).

(** [ctx.x[i] = v] and [pctx.x[i] = v] *)
Definition ectx_set_x (i : nat) (v : Z) (c : ExceptionContext) : ExceptionContext :=
  mk_ectx (etype c) (esource c) (<[i := v]> (ex c)) (eelr c) (espsr c) (esr c) (far c)
    (esp_el0 c) (esp_el1 c) (ettbr0 c).
Definition ectx_x (i : nat) (c : ExceptionContext) : Z := nth i (ex c) 0.
Definition pctx_set_x (i : nat) (v : Z) (p : ProcessContext) : ProcessContext :=
  mk_pctx (<[i := v]> (x p)) (elr p) (spsr p) (sp_el0 p) (sp_el1 p) (ttbr0 p).
Definition pctx_x (i : nat) (p : ProcessContext) : Z := nth i (x p) 0.

Record Process := mk_Process {
  pid : Z;
  name : bytes;
  state : ProcessState;
  block_reason : option BlockReason;
  parent_pid : Z;
  pctx : ProcessContext;
  chan : Z;
  exit_code : Z;      (** an [i64] *)
}.

Definition with_name (v : bytes) (p : Process) : Process :=
  mk_Process (pid p) v (state p) (block_reason p) (parent_pid p) (pctx p) (chan p) (exit_code p).
Definition set_state (v : ProcessState) (p : Process) : Process :=
  mk_Process (pid p) (name p) v (block_reason p) (parent_pid p) (pctx p) (chan p) (exit_code p).
Definition set_block_reason (v : option BlockReason) (p : Process) : Process :=
  mk_Process (pid p) (name p) (state p) v (parent_pid p) (pctx p) (chan p) (exit_code p).
Definition set_parent_pid (v : Z) (p : Process) : Process :=
  mk_Process (pid p) (name p) (state p) (block_reason p) v (pctx p) (chan p) (exit_code p).
Definition set_pctx (v : ProcessContext) (p : Process) : Process :=
  mk_Process (pid p) (name p) (state p) (block_reason p) (parent_pid p) v (chan p) (exit_code p).
Definition set_chan (v : Z) (p : Process) : Process :=
  mk_Process (pid p) (name p) (state p) (block_reason p) (parent_pid p) (pctx p) v (exit_code p).
Definition set_exit_code (v : Z) (p : Process) : Process :=
  mk_Process (pid p) (name p) (state p) (block_reason p) (parent_pid p) (pctx p) (chan p) v.

(** [Process::block] *)
Definition block (reason : BlockReason) (p : Process) : Process :=
  set_block_reason (Some reason) (set_state Blocked p).

(** ** The kernel's state *)

(** [src/src/kernel/mutex.rs]: [maddr] is the address of the mutex, which its
    waiters sleep on. *)
Record Mutex := mk_Mutex {
  mx_lock : bool;
  mx_guard : Spinlock;
  mx_pid : option Z;
  maddr : Z;
}.

(** [Mutex::new], the static being at [address]. *)
Definition Mutex_new (name : string) (address : Z) : Mutex := mk_Mutex false (Spinlock_new name) None address.

Record kernel := mk_kernel {
  stk : kstate;                            (** memory and kernel stacks *)
  dev : hw;                                (** the core and the devices *)
  PROCESS_TABLE : list (option Process);
  NEXT_PID : Z;
  CURRENT_PROCESS : nat;                   (** an index of the table *)
  PROCESS_TABLE_LOCK : Spinlock;
  io_lock : Mutex;                         (** KERNEL_IO.lock *)
  ectx : ExceptionContext;                 (** of the exception being handled *)
}.

Definition set_stk (v : kstate) (k : kernel) : kernel :=
  mk_kernel v (dev k) (PROCESS_TABLE k) (NEXT_PID k) (CURRENT_PROCESS k) (PROCESS_TABLE_LOCK k) (io_lock k) (ectx k).
Definition set_dev (v : hw) (k : kernel) : kernel :=
  mk_kernel (stk k) v (PROCESS_TABLE k) (NEXT_PID k) (CURRENT_PROCESS k) (PROCESS_TABLE_LOCK k) (io_lock k) (ectx k).
Definition set_table (v : list (option Process)) (k : kernel) : kernel :=
  mk_kernel (stk k) (dev k) v (NEXT_PID k) (CURRENT_PROCESS k) (PROCESS_TABLE_LOCK k) (io_lock k) (ectx k).
Definition set_next_pid (v : Z) (k : kernel) : kernel :=
  mk_kernel (stk k) (dev k) (PROCESS_TABLE k) v (CURRENT_PROCESS k) (PROCESS_TABLE_LOCK k) (io_lock k) (ectx k).
Definition set_current (v : nat) (k : kernel) : kernel :=
  mk_kernel (stk k) (dev k) (PROCESS_TABLE k) (NEXT_PID k) v (PROCESS_TABLE_LOCK k) (io_lock k) (ectx k).
Definition set_ptable_lock (v : Spinlock) (k : kernel) : kernel :=
  mk_kernel (stk k) (dev k) (PROCESS_TABLE k) (NEXT_PID k) (CURRENT_PROCESS k) v (io_lock k) (ectx k).
Definition set_io_lock (v : Mutex) (k : kernel) : kernel :=
  mk_kernel (stk k) (dev k) (PROCESS_TABLE k) (NEXT_PID k) (CURRENT_PROCESS k) (PROCESS_TABLE_LOCK k) v (ectx k).
Definition set_ectx (v : ExceptionContext) (k : kernel) : kernel :=
  mk_kernel (stk k) (dev k) (PROCESS_TABLE k) (NEXT_PID k) (CURRENT_PROCESS k) (PROCESS_TABLE_LOCK k) (io_lock k) v.

Definition stk_lens : Lens kernel kstate.
Proof. refine (mkLens _ _ stk set_stk _ _ _); [|intros []|]; reflexivity. Defined.
Definition dev_lens : Lens kernel hw.
Proof. refine (mkLens _ _ dev set_dev _ _ _); [|intros []|]; reflexivity. Defined.
Definition kmem_lens : Lens kernel pstate.
Proof.
  refine (mkLens _ _ (fun k => kmem (stk k)) (fun m k => set_stk (set_kmem m (stk k)) k) _ _ _);
    [|intros [[] ? ? ? ? ? ? ?]|]; reflexivity.
Defined.
(** PROCESS_TABLE_LOCK with the core. *)
Definition ptable_lock_lens : Lens kernel locked_core.
Proof.
  refine (mkLens _ _ (fun k => (hcore (dev k), PROCESS_TABLE_LOCK k))
    (fun s k => set_ptable_lock (snd s) (set_dev (set_core (fst s) (dev k)) k)) _ _ _);
    [intros []|intros [? [] ? ? ? ? ? ?]|]; reflexivity.
Defined.

(** ** The process table *)

(** [Cpu::current().set_current_process(pid)] and [clear_current_process()] *)
Definition set_cpu_pid (v : option Z) (h : hw) : hw :=
  let c := hcore h in
  set_core (mk_core (mk_Cpu (cid (cpu c)) v (ncli (cpu c)) (interrupts_enabled (cpu c)))
                    (irq_unmasked c)) h.

(** A slot that holds a process with a property, first in table order. *)
Definition slot_is (P : Process -> bool) (s : option Process) : bool :=
  match s with Some p => P p | None => false end.

(** [Process::find_by_id], as the index of the slot it points into. *)
Definition find_by_id (id : Z) (t : list (option Process)) : option nat :=
  fst <$> find_slot (slot_is (fun p => pid p =? id)) t.

(** [Process::get_current]: by the core's [current_pid]. *)
Definition get_current (k : kernel) : option nat :=
  id ← current_pid (cpu (hcore (dev k))); find_by_id id (PROCESS_TABLE k).

(** [Scheduler::get_current_process]: by the scheduler's index. *)
Definition find_by_ptable_index (index : nat) (k : kernel) : option Process :=
  if (Z.of_nat index >=? MAX_PROCESSES) then None else mjoin (PROCESS_TABLE k !! index).
Definition get_current_process (k : kernel) : option Process :=
  find_by_ptable_index (CURRENT_PROCESS k) k.

(** A write through a [&mut Process] that points into slot [i]. *)
Definition update_slot (i : nat) (f : Process -> Process) (t : list (option Process))
  : list (option Process) := alter (fmap f) i t.
Definition modify_slot (i : nat) (f : Process -> Process) : M kernel unit :=
  modify (fun k => set_table (update_slot i f (PROCESS_TABLE k)) k).

(** [for slot in PROCESS_TABLE.iter_mut() { if let Some(proc) = slot { .. } }] *)
Definition map_procs (f : Process -> Process) (t : list (option Process)) : list (option Process) :=
  (fun s : option Process => f <$> s) <$> t.

Definition add_process_to_ptable (p : Process) : M kernel (result unit) := fun k =>
  match find_slot (fun s => match s with None => true | _ => false end) (PROCESS_TABLE k) with
  | Some (i, _) => Done (ROk tt) (set_table (<[i := Some p]> (PROCESS_TABLE k)) k)
  | None => Done (RErr "Process table is full") k
  end.

Definition remove_process_from_ptable (id : Z) : M kernel (result unit) := fun k =>
  match find_by_id id (PROCESS_TABLE k) with
  | Some i => Done (ROk tt) (set_table (<[i := None]> (PROCESS_TABLE k)) k)
  | None => Done (RErr "Process not found") k
  end.

(** [reparent_children_to], of the process with pid [self]. *)
Definition reparent_children_to (self new_parent_pid : Z) : M kernel unit :=
  modify (fun k => set_table (map_procs (fun p =>
    if parent_pid p =? self then set_parent_pid new_parent_pid p else p) (PROCESS_TABLE k)) k).

(** The pid counter: [{ let pid = NEXT_PID; NEXT_PID += 1; pid }] *)
Definition fresh_pid : M kernel Z := fun k =>
  Done (NEXT_PID k) (set_next_pid (add64 (NEXT_PID k) 1) k).

(** [let mut name_bytes = [0u8; 32]; ...copy_from_slice(&bytes[..len])] *)
Definition name_field (s : bytes) : bytes :=
  let len := Nat.min (length s) 32 in take len s ++ replicate (32 - len) 0.

Definition Process_new (nm : bytes) (parent entry_point user_sp ttbr0 : Z)
  : M kernel (result Process) :=
  let* new_pid := fresh_pid in
  let? kernel_sp := zoom stk_lens (alloc_stack new_pid) in
  ret (ROk (mk_Process new_pid (name_field nm) Ready None parent
    (ProcessContext_new entry_point user_sp kernel_sp ttbr0) 0 0)).

(** [save_meta_to_ectx] *)
Definition save_meta_to_ectx (p : Process) (c : ExceptionContext) : ExceptionContext :=
  ectx_set_x 1 (parent_pid p) (ectx_set_x 0 (pid p) c).
