(* ===== verification/Scheduler.v ===== *)
(** The scheduler of src/src/kernel/scheduler.rs: round robin over the process
    table, wait channels, and the time slice.

    [schedule_next] waits in a loop when every process is blocked; its fuel
    bounds the rounds of that loop, which ends as soon as the UART has a byte
    and a process waits for it ([schedule_next_spec]). *)

From Stdlib Require Import ZArith Lia.
From stdpp Require Import base strings numbers list.
From S2P Require Import Prelude Memory Frames PageTable KernelStack Interrupts Devices Processes.

Local Open Scope Z_scope.

(** ** Definitions *)

Definition TIMESLICE_MILISECONDS : Z := 9.
Definition AWAITING_UART_READ : Z := 0xFFFFFFFFFFFFFFFF.
Definition NPROC : nat := Z.to_nat MAX_PROCESSES.

Definition is_state (s : ProcessState) (p : Process) : bool := bool_decide (state p = s).

Definition any_blocked (k : kernel) : option Process :=
  s ← find_slot (slot_is (is_state Blocked)) (PROCESS_TABLE k); snd s.

(** [(CURRENT_PROCESS + i) % MAX_PROCESSES] *)
Definition scan_index (current i : nat) : nat := ((current + i) mod NPROC)%nat.

Definition ready_at (t : list (option Process)) (idx : nat) : bool :=
  slot_is (is_state Ready) (mjoin (t !! idx)).

Definition choose_next_process : M kernel (option nat) := fun k =>
  let t := PROCESS_TABLE k in
  let current := CURRENT_PROCESS k in
  match t !! current with
  | None => Panic "index out of bounds"
  | Some s =>
      if slot_is (is_state Running) s then Done (Some current) k
      else match find_slot (fun i => ready_at t (scan_index current i)) (seq 1 NPROC) with
           | Some (_, i) => let idx := scan_index current i in Done (Some idx) (set_current idx k)
           | None => Done None k
           end
  end.

Definition load_pctx (pidx : nat) : M kernel unit := fun k =>
  match mjoin (PROCESS_TABLE k !! pidx) with
  | Some process =>
      Done tt (set_ectx (update_from_pctx (pctx process) (ectx k))
        (set_dev (set_cpu_pid (Some (pid process)) (dev k))
          (set_table (update_slot pidx (set_state Running) (PROCESS_TABLE k))
            (set_current pidx k))))
  | None => Panic "in Scheduler::load_pctx(), process not found!"
  end.

Definition wake (channel_addr : Z) (p : Process) : Process :=
  if is_state Blocked p && (chan p =? channel_addr)
  then set_chan 0 (set_block_reason None (set_state Ready p)) else p.

Definition wakeup (channel_addr : Z) : M kernel unit :=
  modify (fun k => set_table (map_procs (wake channel_addr) (PROCESS_TABLE k)) k).

Definition awake_common_chans : M kernel unit :=
  let* v := zoom dev_lens lsr_read in
  if Z.land v 0x01 =? 1 then wakeup AWAITING_UART_READ else skip.

Fixpoint schedule_next (fuel : nat) : M kernel unit :=
  let* next := choose_next_process in
  match next with
  | Some next_process => load_pctx next_process
  | None =>
      let* b := gets any_blocked in
      match b with
      | Some _ =>
          match fuel with
          | O => diverge
          | S f => awake_common_chans ;; schedule_next f
          end
      | None => halt "the_end"
      end
  end.

Definition update_last_running_pctx (new_pctx : ProcessContext) : M kernel unit := fun k =>
  match mjoin (PROCESS_TABLE k !! CURRENT_PROCESS k) with
  | Some _ => modify_slot (CURRENT_PROCESS k) (set_pctx new_pctx) k
  | None => Panic "Last running process disappeared for unaccounted reason!"
  end.

Definition reset_timer : M kernel unit :=
  zoom dev_lens (set_milliseconds TIMESLICE_MILISECONDS ;; timer_enable).

Definition timeslice_up : M kernel unit := fun k =>
  match mjoin (PROCESS_TABLE k !! CURRENT_PROCESS k) with
  | Some _ => (modify_slot (CURRENT_PROCESS k) (set_state Ready) ;; reset_timer) k
  | None => Panic "Current process disappeared for unaccounted reason!"
  end.

(** The part of [sleep] and [sleep_for_mutex] before their [svc #0]. *)
Definition sleep (channel : Z) (reason : BlockReason) : M kernel unit := fun k =>
  match mjoin (PROCESS_TABLE k !! CURRENT_PROCESS k) with
  | Some _ => modify_slot (CURRENT_PROCESS k)
                (fun p => set_block_reason (Some reason) (set_chan channel p)) k
  | None => Panic "Scheduler::sleep() was called when no process was active!"
  end.

(** ** Round robin *)

Definition table_ok (t : list (option Process)) : Prop := length t = NPROC.

(** How many slots the scan passes before it looks at [j]. *)
Definition scan_dist (current j : nat) : nat := ((j + NPROC - 1 - current) mod NPROC)%nat.

Lemma scan_at current j :
  (current < NPROC)%nat -> (j < NPROC)%nat -> scan_index current (S (scan_dist current j)) = j.
Proof.
  unfold scan_index, scan_dist, NPROC, MAX_PROCESSES. change (Z.to_nat 50) with 50%nat.
  intros Hc Hj. destruct (le_lt_dec j current) as [Hle|Hlt].
  - rewrite (Nat.mod_small (j + 50 - 1 - current)) by lia.
    replace (current + S (j + 50 - 1 - current))%nat with (j + 1 * 50)%nat by lia.
    rewrite Nat.Div0.mod_add. apply Nat.mod_small. lia.
  - replace (j + 50 - 1 - current)%nat with (j - 1 - current + 1 * 50)%nat by lia.
    rewrite Nat.Div0.mod_add, (Nat.mod_small (j - 1 - current)) by lia.
    replace (current + S (j - 1 - current))%nat with j by lia. apply Nat.mod_small. lia.
Qed.

Lemma scan_dist_lt current j : (scan_dist current j < NPROC)%nat.
Proof. unfold scan_dist. apply Nat.mod_upper_bound. discriminate. Qed.

Lemma scan_index_lt current i : (scan_index current i < NPROC)%nat.
Proof. unfold scan_index. apply Nat.mod_upper_bound. discriminate. Qed.

(** Looking from a slot the scan has passed, [j] is nearer. *)
Lemma scan_dist_step current i j :
  (current < NPROC)%nat -> (j < NPROC)%nat -> (i < scan_dist current j)%nat ->
  scan_dist (scan_index current (S i)) j = (scan_dist current j - S i)%nat.
Proof.
  unfold scan_index, scan_dist, NPROC, MAX_PROCESSES. change (Z.to_nat 50) with 50%nat.
  intros Hc Hj Hi. destruct (le_lt_dec j current) as [Hle|Hlt].
  - rewrite (Nat.mod_small (j + 50 - 1 - current)) in * by lia.
    destruct (le_lt_dec 50 (current + S i)).
    + replace (current + S i)%nat with (current + S i - 50 + 1 * 50)%nat by lia.
      rewrite Nat.Div0.mod_add, (Nat.mod_small (current + S i - 50)) by lia.
      replace (j + 50 - 1 - (current + S i - 50))%nat
        with (j + 50 - 1 - current - S i + 1 * 50)%nat by lia.
      rewrite Nat.Div0.mod_add. apply Nat.mod_small. lia.
    + rewrite (Nat.mod_small (current + S i)) by lia.
      rewrite Nat.mod_small by lia. lia.
  - replace (j + 50 - 1 - current)%nat with (j - 1 - current + 1 * 50)%nat in * by lia.
    rewrite Nat.Div0.mod_add, (Nat.mod_small (j - 1 - current)) in * by lia.
    rewrite (Nat.mod_small (current + S i)) by lia.
    replace (j + 50 - 1 - (current + S i))%nat with (j - 1 - current - S i + 1 * 50)%nat by lia.
    rewrite Nat.Div0.mod_add. apply Nat.mod_small. lia.
Qed.

(** The first ready slot in scan order, if any. *)
Lemma scan_first t current :
  (current < NPROC)%nat ->
  match find_slot (fun i => ready_at t (scan_index current i)) (seq 1 NPROC) with
  | Some (_, i) => exists n, i = S n /\ ready_at t (scan_index current i) = true /\
      (n < NPROC)%nat /\
      forall j, (j < NPROC)%nat -> ready_at t j = true -> (n <= scan_dist current j)%nat
  | None => forall j, (j < NPROC)%nat -> ready_at t j = false
  end.
Proof.
  intros Hc. destruct (find_slot _ _) as [[n i]|] eqn:Hf.
  - apply find_slot_Some in Hf as (Hs & Hr & Hmin). apply lookup_seq in Hs as [-> Hn].
    exists n. split; [lia|]. split; [exact Hr|]. split; [exact Hn|]. intros j Hj Hrj.
    destruct (le_lt_dec n (scan_dist current j)) as [|Hlt]; [assumption|].
    specialize (Hmin (scan_dist current j) (S (scan_dist current j)) Hlt).
    rewrite lookup_seq in Hmin. rewrite scan_at in Hmin by auto.
    rewrite Hmin in Hrj; [discriminate|]. split; [reflexivity|]. apply scan_dist_lt.
  - rewrite find_slot_None in Hf. intros j Hj. rewrite <- (scan_at current j Hc Hj).
    apply Hf. apply elem_of_seq. pose proof (scan_dist_lt current j). lia.
Qed.

Definition running_here (k : kernel) : Prop :=
  exists p, mjoin (PROCESS_TABLE k !! CURRENT_PROCESS k) = Some p /\ state p = Running.

Lemma choose_run k :
  table_ok (PROCESS_TABLE k) -> (CURRENT_PROCESS k < NPROC)%nat ->
  (exists p, mjoin (PROCESS_TABLE k !! CURRENT_PROCESS k) = Some p /\ state p = Running /\
     choose_next_process k = Done (Some (CURRENT_PROCESS k)) k) \/
  (~ running_here k /\
   match find_slot (fun i => ready_at (PROCESS_TABLE k) (scan_index (CURRENT_PROCESS k) i)) (seq 1 NPROC) with
   | Some (_, i) => choose_next_process k =
       Done (Some (scan_index (CURRENT_PROCESS k) i)) (set_current (scan_index (CURRENT_PROCESS k) i) k)
   | None => choose_next_process k = Done None k
   end).
Proof.
  intros Ht Hc. unfold choose_next_process, running_here.
  destruct (lookup_lt_is_Some_2 (PROCESS_TABLE k) (CURRENT_PROCESS k)) as [s Hs]; [now rewrite Ht|].
  rewrite Hs. destruct (slot_is (is_state Running) s) eqn:Hr.
  - left. destruct s as [p|]; [|discriminate]. exists p. split; [reflexivity|]. cbn in Hr.
    apply bool_decide_eq_true in Hr. auto.
  - right. split.
    + intros (p & Hp & Hst). cbn in Hp. subst s. cbn in Hr. unfold is_state in Hr.
      now rewrite bool_decide_eq_true_2 in Hr.
    + destruct (find_slot _ _) as [[n i]|]; reflexivity.
Qed.

(** [choose_next_process] keeps a process that is still running; otherwise
    it picks the first ready slot after the current one in circular order, the
    current slot last, and moves to it; it finds nothing exactly when no slot
    is ready. *)
Theorem choose_next_spec k :
  table_ok (PROCESS_TABLE k) -> (CURRENT_PROCESS k < NPROC)%nat ->
  exists r k', choose_next_process k = Done r k' /\ PROCESS_TABLE k' = PROCESS_TABLE k /\
  match r with
  | Some idx => CURRENT_PROCESS k' = idx /\ (idx < NPROC)%nat /\
      ((running_here k /\ idx = CURRENT_PROCESS k) \/
       (~ running_here k /\ ready_at (PROCESS_TABLE k) idx = true /\
        forall j, (j < NPROC)%nat -> ready_at (PROCESS_TABLE k) j = true ->
          (scan_dist (CURRENT_PROCESS k) idx <= scan_dist (CURRENT_PROCESS k) j)%nat))
  | None => k' = k /\ ~ running_here k /\
      forall j, (j < NPROC)%nat -> ready_at (PROCESS_TABLE k) j = false
  end.
Proof.
  intros Ht Hc. destruct (choose_run k Ht Hc) as [(p & Hp & Hst & Hrun)|[Hn Hrun]].
  - exists (Some (CURRENT_PROCESS k)), k. split; [exact Hrun|]. split; [reflexivity|].
    split; [reflexivity|]. split; [exact Hc|]. left. split; [exists p; auto|reflexivity].
  - pose proof (scan_first (PROCESS_TABLE k) (CURRENT_PROCESS k) Hc) as Hf.
    destruct (find_slot _ _) as [[m i]|].
    + destruct Hf as (n & -> & Hr & Hnn & Hmin).
      eexists (Some _), _. split; [exact Hrun|]. split; [reflexivity|]. split; [reflexivity|].
      split; [apply scan_index_lt|]. right. split; [exact Hn|]. split; [exact Hr|].
      intros j Hj Hrj. specialize (Hmin j Hj Hrj).
      destruct (le_lt_dec (scan_dist (CURRENT_PROCESS k) (scan_index (CURRENT_PROCESS k) (S n))) n) as [Hle|Hgt]; [lia|].
      pose proof (scan_dist_step (CURRENT_PROCESS k) n _ Hc (scan_index_lt (CURRENT_PROCESS k) (S n)) Hgt) as Hst.
      pose proof (scan_index_lt (CURRENT_PROCESS k) (S n)) as Hlt.
      set (c := scan_index (CURRENT_PROCESS k) (S n)) in *.
      assert (scan_dist c c = NPROC - 1)%nat as Hself.
      { unfold scan_dist, NPROC, MAX_PROCESSES in *. change (Z.to_nat 50) with 50%nat in *.
        replace (c + 50 - 1 - c)%nat with 49%nat by lia. reflexivity. }
      pose proof (scan_dist_lt (CURRENT_PROCESS k) c). lia.
    + exists None, k. split; [exact Hrun|]. auto.
Qed.

Lemma choose_nearer k idx k1 j :
  table_ok (PROCESS_TABLE k) -> (CURRENT_PROCESS k < NPROC)%nat -> ~ running_here k ->
  (j < NPROC)%nat -> ready_at (PROCESS_TABLE k) j = true ->
  choose_next_process k = Done (Some idx) k1 ->
  CURRENT_PROCESS k1 = idx /\ (idx = j \/ (scan_dist idx j < scan_dist (CURRENT_PROCESS k) j)%nat).
Proof.
  intros Ht Hc Hn Hj Hr Hrun. destruct (choose_run k Ht Hc) as [(p & Hp & Hst & _)|[_ Hrun2]].
  { contradiction Hn. exists p. auto. }
  pose proof (scan_first (PROCESS_TABLE k) (CURRENT_PROCESS k) Hc) as Hf.
  destruct (find_slot _ _) as [[m i]|]; rewrite Hrun in Hrun2; [|discriminate].
  injection Hrun2 as -> ->. destruct Hf as (n & -> & Hri & Hnn & Hmin). split; [reflexivity|].
  specialize (Hmin j Hj Hr). destruct (decide (n = scan_dist (CURRENT_PROCESS k) j)) as [->|Hne].
  - left. now apply scan_at.
  - right. rewrite scan_dist_step by (auto; lia). lia.
Qed.

(** ** [schedule_next] *)

(** Only the process the scheduler points at may be running. *)
Definition one_running (k : kernel) : Prop :=
  forall i p, mjoin (PROCESS_TABLE k !! i) = Some p -> state p = Running -> i = CURRENT_PROCESS k.

Record scheduled (k k' : kernel) : Prop := {
  sc_process : exists p, mjoin (PROCESS_TABLE k' !! CURRENT_PROCESS k') = Some (set_state Running p) /\
    current_pid (cpu (hcore (dev k'))) = Some (pid p) /\
    ectx k' = update_from_pctx (pctx p) (ectx k);
  sc_table : table_ok (PROCESS_TABLE k');
  sc_current : (CURRENT_PROCESS k' < NPROC)%nat;
  sc_running : one_running k -> one_running k';
}.

Lemma mjoin_update_slot i j f t :
  mjoin (update_slot i f t !! j) = if decide (j = i) then f <$> mjoin (t !! j) else mjoin (t !! j).
Proof.
  unfold update_slot. destruct (decide (j = i)) as [->|Hne].
  - rewrite list_lookup_alter_eq. now destruct (t !! i) as [[p|]|].
  - now rewrite list_lookup_alter_ne by auto.
Qed.

Lemma length_update_slot i f t : length (update_slot i f t) = length t.
Proof. apply length_alter. Qed.

Lemma load_ok k idx p :
  table_ok (PROCESS_TABLE k) -> (idx < NPROC)%nat -> mjoin (PROCESS_TABLE k !! idx) = Some p ->
  (one_running k -> forall i q, mjoin (PROCESS_TABLE k !! i) = Some q -> state q = Running -> i = idx) ->
  exists k', load_pctx idx k = Done tt k' /\ scheduled k k'.
Proof.
  intros Ht Hi Hp Hone. unfold load_pctx. rewrite Hp. eexists. split; [reflexivity|].
  split; cbn [PROCESS_TABLE CURRENT_PROCESS set_ectx set_dev set_table set_current dev ectx].
  - exists p. rewrite mjoin_update_slot, decide_True, Hp by reflexivity. auto.
  - unfold table_ok. now rewrite length_update_slot.
  - exact Hi.
  - intros H1 i q Hq Hs. cbn [PROCESS_TABLE CURRENT_PROCESS set_ectx set_dev set_table set_current] in *.
    rewrite mjoin_update_slot in Hq. destruct (decide (i = idx)); [assumption|]. eauto.
Qed.

Lemma ready_process t idx : ready_at t idx = true -> exists p, mjoin (t !! idx) = Some p /\ state p = Ready.
Proof.
  unfold ready_at. destruct (mjoin (t !! idx)) as [p|]; [|discriminate]. cbn. intros H.
  apply bool_decide_eq_true in H. eauto.
Qed.

Lemma choose_and_load k :
  table_ok (PROCESS_TABLE k) -> (CURRENT_PROCESS k < NPROC)%nat ->
  (exists idx k1 k', choose_next_process k = Done (Some idx) k1 /\ load_pctx idx k1 = Done tt k' /\ scheduled k k') \/
  (choose_next_process k = Done None k /\ ~ running_here k /\
   forall j, (j < NPROC)%nat -> ready_at (PROCESS_TABLE k) j = false).
Proof.
  intros Ht Hc. destruct (choose_run k Ht Hc) as [(p & Hp & Hst & Hrun)|[Hn Hrun]].
  - left. destruct (load_ok k (CURRENT_PROCESS k) p) as (k' & Hl & Hs); auto.
    exists (CURRENT_PROCESS k), k, k'. auto.
  - pose proof (scan_first (PROCESS_TABLE k) (CURRENT_PROCESS k) Hc) as Hf.
    destruct (find_slot _ _) as [[m i]|]; [|right; auto].
    destruct Hf as (n & -> & Hr & Hnn & Hmin). left.
    destruct (ready_process _ _ Hr) as (p & Hp & Hst).
    set (idx := scan_index (CURRENT_PROCESS k) (S n)) in *.
    destruct (load_ok (set_current idx k) idx p) as (k' & Hl & [S1 S2 S3 S4]);
      [exact Ht|apply scan_index_lt|exact Hp| |].
    { intros H1 i q Hq Hs. now apply (H1 i q). }
    exists idx, (set_current idx k), k'. split; [exact Hrun|]. split; [exact Hl|].
    split; auto. intros H1. apply S4. intros i q Hq Hs. cbn in Hq. exfalso.
    apply Hn. pose proof (H1 i q Hq Hs) as ->. exists q. auto.
Qed.

(** Somebody is blocked on the channel. *)
Definition waits_on (c : Z) (t : list (option Process)) : bool :=
  existsb (slot_is (fun p => is_state Blocked p && (chan p =? c))) t.

Lemma waits_on_true c t :
  waits_on c t = true -> exists i p, mjoin (t !! i) = Some p /\ state p = Blocked /\ chan p = c.
Proof.
  unfold waits_on. rewrite existsb_exists. intros (s & Hs & Hp).
  apply list_elem_of_In, list_elem_of_lookup in Hs as [i Hi].
  destruct s as [p|]; [|discriminate]. cbn in Hp. apply andb_prop in Hp as [H1 H2].
  apply bool_decide_eq_true in H1. apply Z.eqb_eq in H2. exists i, p. now rewrite Hi.
Qed.

Lemma map_procs_lookup f t i : mjoin (map_procs f t !! i) = f <$> mjoin (t !! i).
Proof. unfold map_procs. rewrite list_lookup_fmap. now destruct (t !! i) as [[p|]|]. Qed.

Lemma length_map_procs f t : length (map_procs f t) = length t.
Proof. apply length_fmap. Qed.

Lemma wake_none c t : waits_on c t = false -> map_procs (wake c) t = t.
Proof.
  unfold waits_on, map_procs. induction t as [|s t IH]; [reflexivity|]. cbn [existsb].
  rewrite orb_false_iff. intros [Hs Ht]. cbn. f_equal; [|now apply IH].
  destruct s as [p|]; [|reflexivity]. cbn in *. unfold wake. now rewrite Hs.
Qed.

Lemma wake_ready c t i p :
  mjoin (t !! i) = Some p -> state p = Blocked -> chan p = c ->
  ready_at (map_procs (wake c) t) i = true.
Proof.
  intros Hp Hs Hc. unfold ready_at. rewrite map_procs_lookup, Hp. cbn.
  assert (wake c p = set_chan 0 (set_block_reason None (set_state Ready p))) as ->.
  { unfold wake, is_state. rewrite bool_decide_eq_true_2 by exact Hs.
    now rewrite (proj2 (Z.eqb_eq _ _) Hc). }
  now apply bool_decide_eq_true_2.
Qed.

Lemma wake_running c p : state (wake c p) = Running -> state p = Running.
Proof. unfold wake. destruct (_ && _); [discriminate|auto]. Qed.

Lemma lookup_lt_proc (t : list (option Process)) i p :
  table_ok t -> mjoin (t !! i) = Some p -> (i < NPROC)%nat.
Proof.
  intros Ht Hp. rewrite <- Ht. apply lookup_lt_is_Some_1. destruct (t !! i); [eauto|discriminate].
Qed.

(** One look at the UART in the waiting loop. *)
Definition uart_event (k : kernel) : bool :=
  (Z.land (lsr (dev k) (lsr_pos (dev k))) 1 =? 1) && waits_on AWAITING_UART_READ (PROCESS_TABLE k).

Lemma awake_run k :
  table_ok (PROCESS_TABLE k) ->
  exists k', awake_common_chans k = Done tt k' /\ CURRENT_PROCESS k' = CURRENT_PROCESS k /\
    ectx k' = ectx k /\ lsr (dev k') = lsr (dev k) /\ lsr_pos (dev k') = S (lsr_pos (dev k)) /\
    table_ok (PROCESS_TABLE k') /\ (one_running k -> one_running k') /\
    if uart_event k then exists j, (j < NPROC)%nat /\ ready_at (PROCESS_TABLE k') j = true
    else PROCESS_TABLE k' = PROCESS_TABLE k.
Proof.
  intros Ht. unfold awake_common_chans, zoom, lsr_read, wakeup, uart_event. run_m.
  cbn [view dev_lens set]. destruct (Z.eqb_spec (Z.land (lsr (dev k) (lsr_pos (dev k))) 1) 1) as [Hb|Hb];
    (eexists; split; [reflexivity|]; cbn [CURRENT_PROCESS set_table set_dev ectx dev PROCESS_TABLE andb]);
    do 4 (split; [reflexivity|]).
  - split; [unfold table_ok; now rewrite length_map_procs|]. split.
    + intros H1 i p Hp Hs. cbn [PROCESS_TABLE set_table CURRENT_PROCESS set_dev] in *.
      rewrite map_procs_lookup in Hp. destruct (mjoin (PROCESS_TABLE k !! i)) as [q|] eqn:Hq; [|discriminate].
      injection Hp as <-. apply wake_running in Hs. eauto.
    + destruct (waits_on _ _) eqn:Hw; [|now apply wake_none].
      apply waits_on_true in Hw as (i & p & Hp & Hs & Hc). exists i.
      split; [now apply lookup_lt_proc with (PROCESS_TABLE k) p|now apply wake_ready with p].
  - split; [exact Ht|]. split; [auto|reflexivity].
Qed.

Lemma schedule_next_run fuel k :
  table_ok (PROCESS_TABLE k) -> (CURRENT_PROCESS k < NPROC)%nat ->
  match schedule_next fuel k with
  | Done _ k' => scheduled k k'
  | Halt why => why = "the_end"%string /\ any_blocked k = None /\ ~ running_here k /\
      forall j, (j < NPROC)%nat -> ready_at (PROCESS_TABLE k) j = false
  | Diverge => any_blocked k <> None /\
      forall n, (n < fuel)%nat -> Z.land (lsr (dev k) (lsr_pos (dev k) + n)) 1 <> 1 \/
                                  waits_on AWAITING_UART_READ (PROCESS_TABLE k) = false
  | Panic _ => False
  end.
Proof.
  revert k. induction fuel as [|fuel IH]; intros k Ht Hc; cbn [schedule_next];
    (destruct (choose_and_load k Ht Hc) as [(idx & k1 & k' & Hch & Hl & Hs)|(Hch & Hn & Hr)];
     rewrite (bind_run _ _ _ _ _ Hch); [rewrite Hl; exact Hs|]);
    unfold gets at 1, bind at 1; (destruct (any_blocked k) as [b|] eqn:Hb; [|cbn; auto]).
  { cbn. split; [discriminate|intros; lia]. }
  destruct (awake_run k Ht) as (k1 & Hrun & E1 & E2 & E3 & E4 & Ht1 & Hone & Hev).
  rewrite (bind_run _ _ _ _ _ Hrun). rewrite <- E1 in Hc. specialize (IH k1 Ht1 Hc).
  assert (forall k', scheduled k1 k' -> scheduled k k') as Hsch.
  { intros k' [(p & P1 & P2 & P3) I2 I3 I4]. split; auto. exists p. rewrite <- E2. auto. }
  destruct (uart_event k) eqn:Hue.
  - destruct Hev as (j & Hj & Hrj).
    destruct (choose_and_load k1 Ht1 Hc) as [(idx & k2 & k' & Hch2 & Hl2 & Hs2)|(_ & _ & Hr2)];
      [|rewrite Hr2 in Hrj by exact Hj; discriminate].
    assert (schedule_next fuel k1 = Done tt k') as ->; [|now apply Hsch].
    destruct fuel; cbn [schedule_next]; rewrite (bind_run _ _ _ _ _ Hch2); exact Hl2.
  - unfold any_blocked, running_here in *. rewrite Hev, E1 in IH.
    destruct (schedule_next fuel k1) as [[] k'|e|w|]; auto.
    + destruct IH as (-> & Ib & _). congruence.
    + destruct IH as (_ & In). split; [congruence|]. intros [|n] Hnf.
      * rewrite Nat.add_0_r. unfold uart_event in Hue. apply andb_false_iff in Hue as [Hue|Hue]; [|auto].
        left. now apply Z.eqb_neq in Hue.
      * rewrite Nat.add_succ_r, <- Nat.add_succ_l, <- E4, <- E3. apply In. lia.
Qed.

(** The waiting loop ends once the UART has a byte and somebody waits for it. *)
Lemma schedule_next_total fuel N k :
  table_ok (PROCESS_TABLE k) -> (CURRENT_PROCESS k < NPROC)%nat ->
  waits_on AWAITING_UART_READ (PROCESS_TABLE k) = true -> (N < fuel)%nat ->
  (forall n, (N <= n)%nat -> Z.land (lsr (dev k) n) 1 = 1) ->
  exists k', schedule_next fuel k = Done tt k'.
Proof.
  intros Ht Hc Hw HN Hset. pose proof (schedule_next_run fuel k Ht Hc) as H.
  destruct (schedule_next fuel k) as [[] k'|e|w|]; [eauto|contradiction| |].
  - destruct H as (_ & Hb & _). exfalso. unfold any_blocked in Hb.
    apply waits_on_true in Hw as (i & p & Hp & Hs & _).
    destruct (find_slot _ _) as [[j q]|] eqn:Hf.
    + apply find_slot_Some in Hf as (_ & Hq & _). destruct q; discriminate.
    + destruct (PROCESS_TABLE k !! i) as [s|] eqn:E; [|discriminate]. cbn in Hp. subst.
      apply list_elem_of_lookup_2 in E. rewrite find_slot_None in Hf. specialize (Hf _ E). cbn in Hf.
      unfold is_state in Hf. now rewrite bool_decide_eq_true_2 in Hf.
  - destruct H as (_ & Hd). destruct (Hd N HN) as [Hn|Hn]; [|congruence].
    contradiction Hn. apply Hset. lia.
Qed.

(** [schedule_next] never panics.  It loads the context of a process that
    was ready (or still running), marks it running, as the only one, and
    makes it the core's process; or it stops the machine, when no process is
    ready, running or blocked; or it is still waiting when its fuel is spent,
    and then each look at the UART found no byte or nobody waiting for one. *)
Theorem schedule_next_spec fuel k :
  table_ok (PROCESS_TABLE k) -> (CURRENT_PROCESS k < NPROC)%nat ->
  match schedule_next fuel k with
  | Done _ k' => scheduled k k'
  | Halt why => why = "the_end"%string /\ any_blocked k = None /\ ~ running_here k /\
      forall j, (j < NPROC)%nat -> ready_at (PROCESS_TABLE k) j = false
  | Diverge => any_blocked k <> None /\
      forall n, (n < fuel)%nat -> Z.land (lsr (dev k) (lsr_pos (dev k) + n)) 1 <> 1 \/
                                  waits_on AWAITING_UART_READ (PROCESS_TABLE k) = false
  | Panic _ => False
  end.
Proof. exact (schedule_next_run fuel k). Qed.

(** ** Invariants of the scheduler's loop *)

(** What [schedule_next] does before it loads a process keeps [I], if moving
    the index and the UART's wake-ups do. *)
Lemma schedule_next_inv (I : kernel -> Prop) fuel k k' :
  (forall k i, I k -> I (set_current i k)) ->
  (forall k k1, I k -> awake_common_chans k = Done tt k1 -> I k1) ->
  I k -> schedule_next fuel k = Done tt k' ->
  exists i k1, I k1 /\ load_pctx i k1 = Done tt k'.
Proof.
  intros Hc Ha. revert k. induction fuel as [|fuel IH]; intros k HI Hrun; cbn [schedule_next] in Hrun;
    apply bind_done in Hrun as (next & k1 & Hch & Hrun);
    (assert (I k1) as HI1;
      [unfold choose_next_process in Hch; destruct (_ !! _) as [s|]; [|discriminate];
       destruct (slot_is _ s); [injection Hch; intros; subst; exact HI|];
       destruct (find_slot _ _) as [[? ?]|]; injection Hch; intros; subst; auto|]);
    (destruct next as [i|]; [exists i, k1; auto|]);
    unfold gets, bind at 1 in Hrun; (destruct (any_blocked k1); [|discriminate Hrun]).
  - discriminate Hrun.
  - apply bind_done in Hrun as ([] & k2 & Haw & Hrun). apply (IH k2); [|exact Hrun]. eauto.
Qed.

Lemma load_run i k k' :
  load_pctx i k = Done tt k' -> exists p, mjoin (PROCESS_TABLE k !! i) = Some p /\
    k' = set_ectx (update_from_pctx (pctx p) (ectx k))
           (set_dev (set_cpu_pid (Some (pid p)) (dev k))
             (set_table (update_slot i (set_state Running) (PROCESS_TABLE k)) (set_current i k))).
Proof.
  unfold load_pctx. destruct (mjoin _) as [p|] eqn:Hp; [|discriminate]. intros [= <-]. eauto.
Qed.

Lemma awake_form k k1 :
  awake_common_chans k = Done tt k1 ->
  exists h, k1 = set_table (PROCESS_TABLE k1) (set_dev h k) /\ hcore h = hcore (dev k) /\
    w_lock h = w_lock (dev k) /\ r_lock h = r_lock (dev k) /\ lsr h = lsr (dev k) /\ rx h = rx (dev k) /\
    rx_pos h = rx_pos (dev k) /\ tx h = tx (dev k) /\ patience h = patience (dev k) /\
    (PROCESS_TABLE k1 = PROCESS_TABLE k \/
     PROCESS_TABLE k1 = map_procs (wake AWAITING_UART_READ) (PROCESS_TABLE k)).
Proof.
  unfold awake_common_chans, zoom, lsr_read, wakeup. run_m. cbn [view dev_lens set].
  destruct (_ =? 1); intros [= <-]; eexists; (split; [reflexivity|]); cbn; auto 20.
Qed.

(** Programming the timer leaves the core, the locks and the UART alone. *)
Record uart_same (h h' : hw) : Prop := {
  us_core : hcore h' = hcore h;
  us_w : w_lock h' = w_lock h;
  us_r : r_lock h' = r_lock h;
  us_lsr : lsr h' = lsr h;
  us_lsr_pos : lsr_pos h' = lsr_pos h;
  us_rx : rx h' = rx h;
  us_rx_pos : rx_pos h' = rx_pos h;
  us_tx : tx h' = tx h;
  us_patience : patience h' = patience h;
}.

Lemma reset_timer_form k k' :
  reset_timer k = Done tt k' -> exists h, k' = set_dev h k /\ uart_same (dev k) h.
Proof.
  unfold reset_timer. intros H. apply zoom_done in H as (h & H & ->). exists h. split; [reflexivity|].
  cbn [view dev_lens] in H. unfold set_milliseconds, timer_enable, read_cnt, read_frq, set_cval, write_ctl, read_ctl, expect in H.
  run_m in H. destruct (checked_mul64 _ _); [|discriminate]. destruct (checked_add64 _ _); [|discriminate].
  injection H as <-. split; reflexivity.
Qed.

(** What the scheduler's loop may change of the hardware: which process the
    core runs, and how often the UART's status was read. *)
Record looked (h h' : hw) : Prop := {
  lk_core : ncli (cpu (hcore h')) = ncli (cpu (hcore h)) /\ irq_unmasked (hcore h') = irq_unmasked (hcore h) /\
    interrupts_enabled (cpu (hcore h')) = interrupts_enabled (cpu (hcore h)) /\
    cid (cpu (hcore h')) = cid (cpu (hcore h));
  lk_locks : w_lock h' = w_lock h /\ r_lock h' = r_lock h;
  lk_lsr : lsr h' = lsr h;
  lk_lsr_pos : (lsr_pos h <= lsr_pos h')%nat;
  lk_rx : rx h' = rx h /\ rx_pos h' = rx_pos h;
  lk_tx : tx h' = tx h;
  lk_patience : patience h' = patience h;
  lk_timer : cntfrq h' = cntfrq h /\ cntpct h' = cntpct h;
}.

Lemma looked_refl h : looked h h.
Proof. split; auto. Qed.

Lemma looked_trans h1 h2 h3 : looked h1 h2 -> looked h2 h3 -> looked h1 h3.
Proof.
  intros [(A1 & A2 & A3 & A4) [A5 A6] A7 A8 [A9 A10] A11 A12 [A13 A14]]
         [(B1 & B2 & B3 & B4) [B5 B6] B7 B8 [B9 B10] B11 B12 [B13 B14]].
  split; try congruence; split_and?; try congruence. lia.
Qed.

(** The kernel around the process table and the hardware. *)
Definition same_around (k k' : kernel) : Prop :=
  stk k' = stk k /\ NEXT_PID k' = NEXT_PID k /\ PROCESS_TABLE_LOCK k' = PROCESS_TABLE_LOCK k /\
  io_lock k' = io_lock k /\ looked (dev k) (dev k').

Lemma same_around_refl k : same_around k k.
Proof. unfold same_around. auto using looked_refl. Qed.

Lemma same_around_trans k1 k2 k3 : same_around k1 k2 -> same_around k2 k3 -> same_around k1 k3.
Proof.
  intros (A1 & A2 & A3 & A4 & A5) (B1 & B2 & B3 & B4 & B5).
  split; [congruence|]. split; [congruence|]. split; [congruence|]. split; [congruence|].
  eauto using looked_trans.
Qed.

Lemma awake_around k k1 : awake_common_chans k = Done tt k1 -> same_around k k1 /\ CURRENT_PROCESS k1 = CURRENT_PROCESS k.
Proof.
  unfold awake_common_chans, zoom, lsr_read, wakeup. run_m. cbn [view dev_lens set].
  destruct (_ =? 1); intros [= <-]; (split; [|reflexivity]); unfold same_around; cbn;
    (do 4 (split; [reflexivity|])); split; cbn; auto.
Qed.

Lemma load_around i k k' : load_pctx i k = Done tt k' -> same_around k k'.
Proof.
  intros H. apply load_run in H as (p & _ & ->). unfold same_around. cbn. do 4 (split; [reflexivity|]).
  split; cbn; auto.
Qed.

Lemma schedule_next_around fuel k k' : schedule_next fuel k = Done tt k' -> same_around k k'.
Proof.
  intros H. destruct (schedule_next_inv (same_around k) fuel k k') as (i & k1 & H1 & Hl); [| | |exact H|].
  - intros k0 j H0. exact H0.
  - intros k0 k1 H0 Ha. apply awake_around in Ha as [Ha _]. eauto using same_around_trans.
  - apply same_around_refl.
  - eauto using same_around_trans, load_around.
Qed.

(** ** A concrete kernel *)

Definition demo_ectx : ExceptionContext :=
  mk_ectx E_SYNC EL064 (replicate 31 0) 0 0 0 0 0 0 0.
Definition demo_process (id parent : Z) (s : ProcessState) : Process :=
  mk_Process id (name_field (str "demo")) s None parent (ProcessContext_new 0x400000 0x420000 0 0) 0 0.

(** Init (pid 1, running) with two children, one ready and one blocked. *)
Definition demo_table : list (option Process) :=
  [Some (demo_process 1 0 Running); Some (demo_process 2 1 Ready);
   Some (set_chan AWAITING_UART_READ (demo_process 3 1 Blocked))] ++ replicate 47 None.

Definition demo_mutex : Mutex := Mutex_new "kernel_io" 0xFFFFFF8000090000.

Definition demo_kernel : kernel :=
  mk_kernel demo_kstate demo_hw demo_table 4 0 (Spinlock_new "process_table") demo_mutex demo_ectx.

(** After [timeslice_up]. *)
Definition demo_kernel_ready : kernel :=
  set_table (update_slot 0 (set_state Ready) demo_table) demo_kernel.

Lemma choose_next_spec_witness :
  (table_ok (PROCESS_TABLE demo_kernel_ready) /\ (CURRENT_PROCESS demo_kernel_ready < NPROC)%nat) /\
  exists r k', choose_next_process demo_kernel_ready = Done r k' /\
    PROCESS_TABLE k' = PROCESS_TABLE demo_kernel_ready /\
  match r with
  | Some idx => CURRENT_PROCESS k' = idx /\ (idx < NPROC)%nat /\
      ((running_here demo_kernel_ready /\ idx = CURRENT_PROCESS demo_kernel_ready) \/
       (~ running_here demo_kernel_ready /\ ready_at (PROCESS_TABLE demo_kernel_ready) idx = true /\
        forall j, (j < NPROC)%nat -> ready_at (PROCESS_TABLE demo_kernel_ready) j = true ->
          (scan_dist (CURRENT_PROCESS demo_kernel_ready) idx <=
           scan_dist (CURRENT_PROCESS demo_kernel_ready) j)%nat))
  | None => k' = demo_kernel_ready /\ ~ running_here demo_kernel_ready /\
      forall j, (j < NPROC)%nat -> ready_at (PROCESS_TABLE demo_kernel_ready) j = false
  end.
Proof.
  assert (table_ok (PROCESS_TABLE demo_kernel_ready)) as H1 by (vm_compute; reflexivity).
  assert (CURRENT_PROCESS demo_kernel_ready < NPROC)%nat as H2 by (vm_compute; lia).
  split; [auto|]. exact (choose_next_spec demo_kernel_ready H1 H2).
Defined.

Lemma schedule_next_spec_witness :
  (table_ok (PROCESS_TABLE demo_kernel_ready) /\ (CURRENT_PROCESS demo_kernel_ready < NPROC)%nat) /\
  match schedule_next 3 demo_kernel_ready with
  | Done _ k' => scheduled demo_kernel_ready k'
  | Halt why => why = "the_end"%string /\ any_blocked demo_kernel_ready = None /\
      ~ running_here demo_kernel_ready /\
      forall j, (j < NPROC)%nat -> ready_at (PROCESS_TABLE demo_kernel_ready) j = false
  | Diverge => any_blocked demo_kernel_ready <> None /\
      forall n, (n < 3)%nat ->
        Z.land (lsr (dev demo_kernel_ready) (lsr_pos (dev demo_kernel_ready) + n)) 1 <> 1 \/
        waits_on AWAITING_UART_READ (PROCESS_TABLE demo_kernel_ready) = false
  | Panic _ => False
  end.
Proof.
  assert (table_ok (PROCESS_TABLE demo_kernel_ready)) as H1 by (vm_compute; reflexivity).
  assert (CURRENT_PROCESS demo_kernel_ready < NPROC)%nat as H2 by (vm_compute; lia).
  split; [auto|]. exact (schedule_next_spec 3 demo_kernel_ready H1 H2).
Defined.
