(* ===== verification/ProcOps.v ===== *)
(** Creating, replacing and ending processes: [spawn_from_elf], [fork], [exec],
    [terminate] and [initialize_args] of src/src/kernel/processes.rs and
    [run_executable] of src/src/kernel/filesystem.rs.

    [kernel_ok] is the invariant of the whole kernel's memory and process
    table: the kernel's own space and the space of every live process own
    disjoint frames, every live process has one kernel stack, and pids are
    unique and older than NEXT_PID. *)

From Stdlib Require Import ZArith Lia.
From stdpp Require Import base strings numbers list.
From S2P Require Import Prelude Memory Frames PageTable PageFree PagingSpec UserMem PageDup.
From S2P Require Import PageRange Isolation LoadElf Args KernelStack Interrupts Devices Processes.
From S2P Require Import Scheduler.

Local Open Scope Z_scope.

(** ** Operations *)

(** The process a [&mut Process] that points into slot [i] refers to. *)
Definition slot_process (i : nat) : M kernel Process :=
  let* s := gets (fun k => mjoin (PROCESS_TABLE k !! i)) in expect s "dangling process reference".

Definition with_sp_el0 (v : Z) (p : ProcessContext) : ProcessContext :=
  mk_pctx (x p) (elr p) (spsr p) v (sp_el1 p) (ttbr0 p).

(** [initialize_args], with the process before and after it; nothing of the
    process is written when the arguments cannot be pushed. *)
Definition initialize_args (args : list bytes) (p : Process) : M kernel (result Process) :=
  let? r := zoom kmem_lens (push_args_to_stack (sp_el0 (pctx p)) (ttbr0 (pctx p)) args) in
  let '(argc, new_sp, sp_top) := r in
  let c := with_sp_el0 new_sp (pctx p) in
  ret (ROk (set_pctx (pctx_set_x 2 sp_top (pctx_set_x 1 new_sp (pctx_set_x 0 argc c))) p)).

Definition spawn_from_elf (nm : bytes) (parent_pid : Z) (b : bytes) (args : list bytes)
  : M kernel (result Z) :=
  let? r := zoom kmem_lens (load_elf b) in
  let '(entry_point, stack_top, ttbr0) := r in
  let* r := Process_new nm parent_pid entry_point stack_top ttbr0 in
  match r with
  | RErr e => zoom kmem_lens (free_page_table (Some ttbr0)) ;; ret (RErr e)
  | ROk process =>
      let? process := initialize_args args process in
      let* r := add_process_to_ptable process in
      match r with
      | RErr e => zoom kmem_lens (free_page_table (Some ttbr0)) ;; ret (RErr e)
      | ROk _ => ret (ROk (pid process))
      end
  end.

(** [run_executable]; [images] gives the bytes of the embedded programs. *)
Definition run_executable (images : bytes -> bytes) (file_name : bytes) (parent_pid : Z)
    (args : list bytes) : M kernel (result unit) :=
  match read_file images file_name with
  | Some elf_bytes =>
      let? _ := spawn_from_elf file_name parent_pid elf_bytes args in ret (ROk tt)
  | None => ret (RErr "File not found")
  end.

Definition with_ttbr0 (v : Z) (p : ProcessContext) : ProcessContext :=
  mk_pctx (x p) (elr p) (spsr p) (sp_el0 p) (sp_el1 p) v.
Definition with_sp_el1 (v : Z) (p : ProcessContext) : ProcessContext :=
  mk_pctx (x p) (elr p) (spsr p) (sp_el0 p) v (ttbr0 p).

(** [self.fork()] for the process in slot [i]. *)
Definition fork (i : nat) : M kernel (result Process) :=
  let* self := slot_process i in
  let? new_ttbr0 := zoom kmem_lens (duplicate_va_space (Some (ttbr0 (pctx self)))) in
  let* new_pid := fresh_pid in
  let? new_kernel_sp := zoom stk_lens (duplicate_stack (pid self) new_pid (sp_el1 (pctx self))) in
  let new_pctx := with_sp_el1 new_kernel_sp (with_ttbr0 new_ttbr0 (pctx self)) in
  ret (ROk (mk_Process new_pid (name self) Ready None (pid self) new_pctx 0 0)).

(** [self.exec(elf_bytes, args)] for the process in slot [i]. *)
Definition exec (i : nat) (elf_bytes : bytes) (args : list bytes) : M kernel (result unit) :=
  let? r := zoom kmem_lens (load_elf elf_bytes) in
  let '(entry_point, stack_top, new_ttbr0) := r in
  let* self := slot_process i in
  zoom kmem_lens (free_page_table (Some (ttbr0 (pctx self)))) ;;
  let? _ := zoom stk_lens (queue_stack_to_free (pid self)) in
  let? new_kernel_sp := zoom stk_lens (alloc_stack (pid self)) in
  modify_slot i (set_pctx (ProcessContext_new entry_point stack_top new_kernel_sp new_ttbr0)) ;;
  let* self := slot_process i in
  let? self := initialize_args args self in
  modify_slot i (fun _ => self) ;;
  ret (ROk tt).

(** [self.terminate(exit_code)] for the process in slot [i]. *)
Definition terminate (i : nat) (code : Z) : M kernel unit :=
  modify_slot i (set_exit_code code) ;;
  let* self := slot_process i in
  let* r := zoom stk_lens (queue_stack_to_free (pid self)) in
  unwrap r ;;
  modify_slot i (set_state Terminated) ;;
  reparent_children_to (pid self) 1 ;;
  zoom kmem_lens (free_page_table (Some (ttbr0 (pctx self)))).

(** ** The kernel's invariant *)

Definition is_live (p : Process) : bool := negb (is_state Terminated p).

(** The root of the address space a slot keeps alive. *)
Definition slot_root (s : option Process) : option Z :=
  match s with Some p => if is_live p then Some (ttbr0 (pctx p)) else None | None => None end.
Definition live_roots (t : list (option Process)) : list Z := omap slot_root t.

Definition slot_has (k : kernel) (i : nat) (p : Process) : Prop :=
  mjoin (PROCESS_TABLE k !! i) = Some p.

Definition stack_owner (s : StackState) : option Z :=
  match s with Allocated q | QueuedToFree q => Some q | Free => None end.

Section Kernel.
Context {F : Pool}.

Record kernel_ok (k : kernel) (l : list Z) : Prop := {
  ko_stacks : stacks_ok (stk k) l;
  ko_spaces : spaces (kmem (stk k)) (k_root (stk k) :: live_roots (PROCESS_TABLE k)) l;
  ko_table : table_ok (PROCESS_TABLE k);
  ko_current : (CURRENT_PROCESS k < NPROC)%nat;
  ko_pids : forall i j p q, slot_has k i p -> slot_has k j q -> pid p = pid q -> i = j;
  ko_fresh : forall i p, slot_has k i p -> 0 < pid p < NEXT_PID k;
  ko_owner : forall s q, s ∈ KERNEL_STACKS_ALLOCATED (stk k) -> stack_owner s = Some q ->
    0 < q < NEXT_PID k;
  ko_stack : forall i p, slot_has k i p -> is_live p = true ->
    Allocated (pid p) ∈ KERNEL_STACKS_ALLOCATED (stk k);
  ko_next : 0 < NEXT_PID k;
}.

(** ** Live roots *)

Lemma live_roots_insert t i s s' :
  t !! i = Some s ->
  option_list (slot_root s) ++ live_roots (<[i := s']> t) ≡ₚ
  option_list (slot_root s') ++ live_roots t.
Proof.
  intros Hi. pose proof (lookup_lt_Some _ _ _ Hi).
  rewrite insert_take_drop by assumption.
  rewrite <- (take_drop_middle t i s Hi) at 3. unfold live_roots. rewrite !omap_app. cbn [omap list_omap].
  assert (forall (o : option Z) (r : list Z), match o with Some y => y :: r | None => r end = option_list o ++ r)
    as E by (intros [?|] ?; reflexivity).
  rewrite !E, !app_assoc, (Permutation_app_comm _ (option_list (slot_root s'))), <- !app_assoc.
  rewrite (app_assoc (option_list (slot_root s))), (Permutation_app_comm (option_list (slot_root s))), <- !app_assoc.
  reflexivity.
Qed.

Lemma live_roots_map f t :
  (forall p, slot_root (Some (f p)) = slot_root (Some p)) -> live_roots (map_procs f t) = live_roots t.
Proof.
  intros Hf. unfold live_roots, map_procs. induction t as [|[p|] t IH]; [reflexivity| |exact IH].
  change (match slot_root (Some (f p)) with
          | Some y => y :: omap slot_root ((fun s : option Process => f <$> s) <$> t)
          | None => omap slot_root ((fun s : option Process => f <$> s) <$> t) end =
          match slot_root (Some p) with Some y => y :: omap slot_root t | None => omap slot_root t end).
  now rewrite Hf, IH.
Qed.

(** ** The memory of the kernel under the other components *)

Lemma stacks_ok_kept k st' l l' :
  stacks_ok k l -> space_ok st' (k_root k) l' -> space_kept (ram (kmem k)) (ram st') (k_root k) ->
  stacks_ok (set_kmem st' k) l'.
Proof.
  intros [H1 H2 H3 H4 H5] Hsp [Ho Hb]. split; auto. cbn [kmem set_kmem KERNEL_STACKS_ALLOCATED].
  change (k_root (set_kmem st' k)) with (k_root k). intros i s j Hs Hj. rewrite <- (H4 i s j Hs Hj).
  unfold mapped. destruct H1 as [_ [Hf _]]. apply Forall_app in Hf as [Hf _].
  destruct (tables_agree 3 (ram (kmem k)) (ram st') (k_root k) Hf) as (_ & _ & Hw).
  - intros p x Hp. apply Hb. now apply tables_owned.
  - rewrite (Hw (va_path (page_va i j)) ltac:(reflexivity) (va_path_ok _)). reflexivity.
Qed.

Lemma kmem_zoom {A} (m : M pstate A) k a st' :
  m (kmem (stk k)) = Done a st' -> zoom kmem_lens m k = Done a (set_stk (set_kmem st' (stk k)) k).
Proof. intros H. unfold zoom. cbn [view kmem_lens]. rewrite H. reflexivity. Qed.

Lemma stk_zoom {A} (m : M kstate A) k a s' :
  m (stk k) = Done a s' -> zoom stk_lens m k = Done a (set_stk s' k).
Proof. intros H. unfold zoom. cbn [view stk_lens]. rewrite H. reflexivity. Qed.

Lemma slot_process_run k i p : slot_has k i p -> slot_process i k = Done p k.
Proof. intros H. unfold slot_process, gets, bind. unfold slot_has in H. now rewrite H. Qed.

Lemma live_root_in t i p :
  mjoin (t !! i) = Some p -> is_live p = true -> ttbr0 (pctx p) ∈ live_roots t.
Proof.
  intros Hp Hl. unfold live_roots. apply list_elem_of_omap. exists (Some p).
  split; [|cbn; now rewrite Hl]. destruct (t !! i) as [s|] eqn:E; [|discriminate]. cbn in Hp. subst.
  now apply list_elem_of_lookup_2 in E.
Qed.

(** ** [fork] *)

Lemma duplicated_read st src st' dst l' va :
  duplicated st src st' dst l' -> vread st' dst va = vread st src va.
Proof.
  intros [_ _ _ Ht]. pose proof (dup_tree_walk 3 _ _ _ _ (va_path va) Ht eq_refl (va_path_ok va)) as Hw.
  destruct (walk (ram st) src (va_path va)) as [pa|] eqn:E.
  - destruct Hw as (pa' & Hw & Hb). rewrite (vread_some _ _ _ _ Hw), (vread_some _ _ _ _ E).
    f_equal. apply Hb. apply Z.mod_pos_bound. lia.
  - now rewrite (vread_none _ _ _ Hw), (vread_none _ _ _ E).
Qed.

(** What [fork] makes of process [p]: the child, and the memory. *)
Record forked (k : kernel) (l : list Z) (p child : Process) (k' : kernel) (l' : list Z) : Prop := {
  fk_pid : pid child = NEXT_PID k;
  fk_name : name child = name p;
  fk_state : state child = Ready;
  fk_parent : parent_pid child = pid p;
  fk_chan : chan child = 0;
  fk_regs : exists sp, pctx child = with_sp_el1 sp (with_ttbr0 (ttbr0 (pctx child)) (pctx p));
  fk_next : NEXT_PID k' = NEXT_PID k + 1;
  fk_rest : exists s', k' = set_stk s' (set_next_pid (NEXT_PID k') k);
  fk_stacks : stacks_ok (stk k') l';
  fk_slots : exists a, KERNEL_STACKS_ALLOCATED (stk k) !! a = Some Free /\
    KERNEL_STACKS_ALLOCATED (stk k') = <[a := Allocated (pid child)]> (KERNEL_STACKS_ALLOCATED (stk k));
  fk_spaces : spaces (kmem (stk k'))
    (k_root (stk k') :: ttbr0 (pctx child) :: live_roots (PROCESS_TABLE k)) l';
  fk_kept : Forall (space_kept (ram (kmem (stk k))) (ram (kmem (stk k')))) (live_roots (PROCESS_TABLE k));
  fk_read : forall va, vread (kmem (stk k')) (ttbr0 (pctx child)) va =
                       vread (kmem (stk k)) (ttbr0 (pctx p)) va;
}.

(** Once the memory is copied: the pid, the stack and the child. *)
Lemma fork_copied k i p dst st1 :
  slot_has k i p -> duplicate_va_space (Some (ttbr0 (pctx p))) (kmem (stk k)) = Done (ROk dst) st1 ->
  0 <= NEXT_PID k < U64_MAX ->
  fork i k = bind_try (zoom stk_lens (duplicate_stack (pid p) (NEXT_PID k) (sp_el1 (pctx p)))) (fun sp =>
    ret (ROk (mk_Process (NEXT_PID k) (name p) Ready None (pid p) (with_sp_el1 sp (with_ttbr0 dst (pctx p))) 0 0)))
    (set_next_pid (NEXT_PID k + 1) (set_stk (set_kmem st1 (stk k)) k)).
Proof.
  intros Hp Hrun Hn. unfold fork. rewrite (bind_run _ _ _ _ _ (slot_process_run _ _ _ Hp)). unfold bind_try at 1.
  rewrite (bind_run _ _ _ _ _ (kmem_zoom _ _ _ _ Hrun)). unfold fresh_pid, bind at 1.
  cbn [NEXT_PID set_stk]. now rewrite (add64_small (NEXT_PID k) 1) by (unfold U64_MAX, U64 in *; lia).
Qed.

(** Without room, [fork] returns no child: with no free stack or no frames for
    the copy of the memory it returns an error, and with no frames for the
    stack the allocator panics. *)
Lemma fork_cases k l i p s x :
  kernel_ok k l -> slot_has k i p -> is_live p = true -> NEXT_PID k < U64_MAX ->
  KERNEL_STACKS_ALLOCATED (stk k) !! s = Some (Allocated (pid p)) ->
  sp_el1 (pctx p) = KERNEL_BASE + x -> slot_low s + 0x1000 <= x <= slot_low s + 0x7000 ->
  (exists child k' l', fork i k = Done (ROk child) k' /\ forked k l p child k' l' /\
    forall o, 0 <= o < slot_low s + 0x7000 - x ->
      kread (stk k') (sp_el1 (pctx child) + o) = kread (stk k) (sp_el1 (pctx p) + o)) \/
  (((Free ∉ KERNEL_STACKS_ALLOCATED (stk k)) \/
    (length l < length (owned 3 (ram (kmem (stk k))) (ttbr0 (pctx p))) + 18)%nat) /\
   forall child k', fork i k <> Done (ROk child) k').
Proof.
  intros [K1 K2 K3 K4 K5 K6 K7 K8 K9] Hp Hlive Hnext Hs Hx Hrange.
  pose proof (live_root_in _ _ _ Hp Hlive) as Hin. set (src := ttbr0 (pctx p)) in *.
  assert (src ∈ k_root (stk k) :: live_roots (PROCESS_TABLE k)) as Hin' by now right.
  pose proof (spaces_space _ _ _ _ K2 Hin') as Hso.
  destruct (duplicate_run (kmem (stk k)) src l Hso) as (r & st1 & l1 & Hrun & _ & Hch & Hres).
  destruct r as [dst|e].
  2:{ destruct Hres as (_ & _ & Hc). right. split; [right; lia|]. intros child k'. unfold fork.
      rewrite (bind_run _ _ _ _ _ (slot_process_run _ _ _ Hp)). unfold bind_try at 1.
      rewrite (bind_run _ _ _ _ _ (kmem_zoom _ _ _ _ Hrun)). discriminate. }
  destruct Hres as [Hdup Hown].
  destruct (spaces_with _ _ _ _ _ _ K2 Hch (du_free _ _ _ _ _ Hdup) Hown) as [Hsp1 Hk1].
  apply Forall_cons in Hk1 as [Hkr Hk1].
  assert (length l = length (owned 3 (ram (kmem (stk k))) src) + length l1)%nat as Hlen.
  { pose proof (dup_tree_length _ _ _ _ _ (du_tree _ _ _ _ _ Hdup)) as E.
    rewrite <- Hown, length_app. lia. }
  set (s1 := set_kmem st1 (stk k)). assert (k_root s1 = k_root (stk k)) as Hroot by reflexivity.
  assert (stacks_ok s1 l1) as Hst1
    by (apply (stacks_ok_kept _ _ _ _ K1); [apply (spaces_space _ _ _ _ Hsp1); right; now left|exact Hkr]).
  assert (Allocated (NEXT_PID k) ∉ KERNEL_STACKS_ALLOCATED s1) as Hnew
    by (intros Hc; specialize (K7 _ (NEXT_PID k) Hc eq_refl); lia).
  pose proof (fork_copied k i p dst st1 Hp Hrun ltac:(lia)) as Hfork. fold s1 in Hfork.
  unfold bind_try in Hfork. rewrite Hx in Hfork.
  pose proof (first_free s1) as Hff. destruct (find_slot _ _) as [[a w]|] eqn:Hfind.
  2:{ right. split; [left; exact Hff|]. intros child k'. rewrite Hfork.
      rewrite (bind_run _ _ _ _ _ (stk_zoom _ (set_next_pid (NEXT_PID k + 1) (set_stk s1 k)) _ _
        (duplicate_stack_full (pid p) (NEXT_PID k) (KERNEL_BASE + x) s1 Hnew Hfind))). discriminate. }
  destruct Hff as [Ha Hmin].
  destruct (duplicate_stack_cases (pid p) (NEXT_PID k) s1 l1 s a x Hst1 Hnew Ha Hmin Hs Hrange)
    as [(s2 & l2 & Hrun2 & [G1 G2 G3 G4 G5 G6] & Hcopy)|[Hl1 [msg Hp1]]].
  2:{ right. split; [right; lia|]. intros child k'. rewrite Hfork.
      rewrite (bind_panic _ _ _ msg) by (now apply zoom_panic). discriminate. }
  left. rewrite Hroot in *.
  assert (k_root s2 = k_root (stk k)) as Hroot2 by (unfold k_root; now rewrite G3).
  apply (spaces_perm _ _ (k_root (stk k) :: dst :: live_roots (PROCESS_TABLE k))) in Hsp1; [|constructor].
  destruct (spaces_step st1 (kmem s2) _ _ _ _ Hsp1 G6 (so_free _ _ _ (sk_space _ _ G1))) as (Hsp2 & Hk2 & _).
  apply Forall_cons in Hk2 as [Hkd Hk2].
  assert (0 < NEXT_PID k) as Hpos by (pose proof (K6 _ _ Hp); lia).
  exists (mk_Process (NEXT_PID k) (name p) Ready None (pid p)
    (with_sp_el1 (KERNEL_BASE + (slot_low a + 0x7000 - (slot_low s + 0x7000 - x))) (with_ttbr0 dst (pctx p))) 0 0),
    (set_stk s2 (set_next_pid (NEXT_PID k + 1) k)), l2.
  split; [|split; [split|]]; try reflexivity.
  - rewrite Hfork.
    now rewrite (bind_run _ _ _ _ _ (stk_zoom _ (set_next_pid (NEXT_PID k + 1) (set_stk s1 k)) _ _ Hrun2)).
  - eexists. reflexivity.
  - eexists. reflexivity.
  - exact G1.
  - exists a. split; [exact Ha|exact G2].
  - cbn [stk set_stk set_next_pid]. rewrite Hroot2. exact Hsp2.
  - apply Forall_forall. intros q Hq. rewrite Forall_forall in Hk1, Hk2.
    now apply (space_kept_trans _ (ram st1)); [apply Hk1|apply Hk2].
  - intros va. cbn [stk set_stk set_next_pid pctx with_sp_el1 ttbr0 with_ttbr0].
    rewrite (kept_read st1 (kmem s2) _ l1 dst va Hsp1); [|right; now left|exact Hkd].
    exact (duplicated_read _ _ _ _ _ va Hdup).
  - intros o Ho. cbn [stk set_stk set_next_pid pctx with_sp_el1 sp_el1]. rewrite Hx.
    pose proof (slot_of_lookup _ _ _ _ Hst1 Ha) as Hsa. pose proof (slot_of_lookup _ _ _ _ Hst1 Hs) as Hss.
    assert (0 <= slot_low a <= 2 ^ 38 /\ 0 <= slot_low s <= 2 ^ 38) as [Hba Hbs]
      by (unfold slot_ok, slot_low, MAX_PROCESSES in *; lia).
    rewrite <- !(Z.add_assoc KERNEL_BASE), !kread_low by (unfold VA_LIMIT; lia).
    rewrite Hroot2, Hcopy by exact Ho.
    apply (kept_read (kmem (stk k)) st1 _ l _ _ K2); [now left|exact Hkr].
Qed.

Lemma fork_ok k l i p s x :
  kernel_ok k l -> slot_has k i p -> is_live p = true -> NEXT_PID k < U64_MAX ->
  KERNEL_STACKS_ALLOCATED (stk k) !! s = Some (Allocated (pid p)) ->
  sp_el1 (pctx p) = KERNEL_BASE + x -> slot_low s + 0x1000 <= x <= slot_low s + 0x7000 ->
  Free ∈ KERNEL_STACKS_ALLOCATED (stk k) ->
  (length (owned 3 (ram (kmem (stk k))) (ttbr0 (pctx p))) + 18 <= length l)%nat ->
  exists child k' l', fork i k = Done (ROk child) k' /\ forked k l p child k' l' /\
    forall o, 0 <= o < slot_low s + 0x7000 - x ->
      kread (stk k') (sp_el1 (pctx child) + o) = kread (stk k) (sp_el1 (pctx p) + o).
Proof.
  intros Hok Hp Hl Hn Hs Hx Hr Hfree Hlen. destruct (fork_cases k l i p s x Hok Hp Hl Hn Hs Hx Hr) as [H|[[H|H] _]];
    [exact H|contradiction|lia].
Qed.

Lemma slot_has_insert t i s j p k :
  t !! i <> None -> slot_has (set_table (<[i := s]> t) k) j p <->
  (j = i /\ s = Some p) \/ (j <> i /\ mjoin (t !! j) = Some p).
Proof.
  intros Hi. unfold slot_has. cbn [PROCESS_TABLE set_table].
  destruct (decide (j = i)) as [->|Hne].
  - rewrite list_lookup_insert_eq by (apply lookup_lt_is_Some_1; destruct (t !! i); [eauto|contradiction]).
    cbn. split; [auto|]. intros [[_ H]|[H _]]; [exact H|contradiction].
  - rewrite list_lookup_insert_ne by auto. split; [auto|]. intros [[H _]|[_ H]]; [contradiction|exact H].
Qed.

(** A live process with the next pid, a stack of its own and the address space
    [root], put in an empty slot: the kernel's invariant holds again. *)
Lemma kernel_ok_insert k l k' l' child j a :
  kernel_ok k l -> PROCESS_TABLE k !! j = Some None ->
  PROCESS_TABLE k' = PROCESS_TABLE k -> CURRENT_PROCESS k' = CURRENT_PROCESS k ->
  pid child = NEXT_PID k -> NEXT_PID k' = NEXT_PID k + 1 -> is_live child = true ->
  stacks_ok (stk k') l' -> KERNEL_STACKS_ALLOCATED (stk k) !! a = Some Free ->
  KERNEL_STACKS_ALLOCATED (stk k') = <[a := Allocated (pid child)]> (KERNEL_STACKS_ALLOCATED (stk k)) ->
  spaces (kmem (stk k')) (k_root (stk k') :: ttbr0 (pctx child) :: live_roots (PROCESS_TABLE k)) l' ->
  kernel_ok (set_table (<[j := Some child]> (PROCESS_TABLE k')) k') l'.
Proof.
  intros [K1 K2 K3 K4 K5 K6 K7 K8 K9] Hj Ht Hc F1 F6 Hlive F8 Fa F9 F10.
  rewrite Ht. assert (PROCESS_TABLE k !! j <> None) as Hj' by congruence.
  assert (forall i q, slot_has (set_table (<[j := Some child]> (PROCESS_TABLE k)) k') i q ->
    (i = j /\ q = child) \/ (i <> j /\ slot_has k i q)) as Hcases.
  { intros i q H. apply slot_has_insert in H; [|exact Hj'].
    destruct H as [[-> [= ->]]|H]; [now left|now right]. }
  split; cbn [stk set_table PROCESS_TABLE CURRENT_PROCESS NEXT_PID].
  - exact F8.
  - refine (spaces_perm _ _ _ _ _ F10). f_equiv.
    pose proof (live_roots_insert (PROCESS_TABLE k) j None (Some child) Hj) as E.
    cbn [slot_root option_list app] in E. rewrite Hlive in E. symmetry. exact E.
  - unfold table_ok. now rewrite length_insert.
  - now rewrite Hc.
  - intros i i' q q' [[-> ->]|[Hi Hq]]%Hcases [[-> ->]|[Hi' Hq']]%Hcases Hpid; auto.
    + apply K6 in Hq'. lia.
    + apply K6 in Hq. lia.
    + now apply (K5 i i' q q').
  - intros i q [[-> ->]|[Hi Hq]]%Hcases; [lia|]. apply K6 in Hq. lia.
  - intros w q Hw Hq. rewrite F9 in Hw. apply list_elem_of_lookup in Hw as [b Hb].
    destruct (decide (b = a)) as [->|Hne].
    + rewrite list_lookup_insert_eq in Hb by (now apply lookup_lt_Some in Fa). injection Hb as <-.
      injection Hq as <-. lia.
    + rewrite list_lookup_insert_ne in Hb by auto. apply list_elem_of_lookup_2 in Hb.
      specialize (K7 w q Hb Hq). lia.
  - intros i q [[-> ->]|[Hi Hq]]%Hcases Hl; rewrite F9.
    + apply list_elem_of_lookup_2 with a. apply list_lookup_insert_eq. now apply lookup_lt_Some in Fa.
    + specialize (K8 i q Hq Hl). apply list_elem_of_lookup in K8 as [b Hb].
      apply list_elem_of_lookup_2 with b. rewrite list_lookup_insert_ne by congruence. exact Hb.
  - lia.
Qed.

Lemma forked_added k l p child0 child k' l' j :
  kernel_ok k l -> forked k l p child0 k' l' -> PROCESS_TABLE k !! j = Some None ->
  pid child = pid child0 -> state child = state child0 -> ttbr0 (pctx child) = ttbr0 (pctx child0) ->
  kernel_ok (set_table (<[j := Some child]> (PROCESS_TABLE k')) k') l'.
Proof.
  intros Hok [F1 F2 F3 F4 F4' F5 F6 [s' F7] F8 [a [Fa F9]] F10 F11 F12] Hj Ep Es Er.
  rewrite <- Ep in F1, F9. rewrite <- Es in F3. rewrite <- Er in F10.
  apply (kernel_ok_insert k l k' l' child j a); auto; try (rewrite F7; reflexivity).
  unfold is_live, is_state. now rewrite F3.
Qed.

(** ** [terminate] *)

Lemma queue_stack_run pid s a l :
  stacks_ok s l -> KERNEL_STACKS_ALLOCATED s !! a = Some (Allocated pid) ->
  queue_stack_to_free pid s =
    Done (ROk tt) (set_stacks (<[a := QueuedToFree pid]> (KERNEL_STACKS_ALLOCATED s)) s).
Proof.
  intros Hok Ha. unfold queue_stack_to_free. now rewrite (proj2 (active_index_some _ l pid a Hok) Ha).
Qed.

(** Queuing a stack keeps its pages mapped, so the invariant. *)
Lemma stacks_ok_queue s l a pid :
  stacks_ok s l -> KERNEL_STACKS_ALLOCATED s !! a = Some (Allocated pid) ->
  stacks_ok (set_stacks (<[a := QueuedToFree pid]> (KERNEL_STACKS_ALLOCATED s)) s) l.
Proof.
  intros [H1 H2 H3 H4 H5] Ha. pose proof (lookup_lt_Some _ _ _ Ha) as Hlt.
  split; auto; cbn [kmem set_stacks KERNEL_STACKS_ALLOCATED].
  - now rewrite length_insert.
  - change (k_root (set_stacks _ s)) with (k_root s). intros i w j Hw Hj.
    destruct (decide (i = a)) as [->|Hne].
    + rewrite list_lookup_insert_eq in Hw by exact Hlt. injection Hw as <-.
      rewrite (H4 a _ j Ha Hj). unfold in_use. split; intros [_ ?]; split; auto; discriminate.
    + rewrite list_lookup_insert_ne in Hw by auto. now apply H4.
  - assert (forall i q, <[a:=QueuedToFree pid]> (KERNEL_STACKS_ALLOCATED s) !! i = Some (Allocated q) ->
      KERNEL_STACKS_ALLOCATED s !! i = Some (Allocated q)) as Hc; [|eauto].
    intros i q Hi. destruct (decide (i = a)) as [->|Hne].
    + rewrite list_lookup_insert_eq in Hi by exact Hlt. discriminate Hi.
    + now rewrite list_lookup_insert_ne in Hi.
Qed.

Lemma update_slot_insert i f t p :
  mjoin (t !! i) = Some p -> update_slot i f t = <[i := Some (f p)]> t.
Proof.
  intros Hp. unfold update_slot. destruct (t !! i) as [s|] eqn:E; [|discriminate]. cbn in Hp. subst.
  apply list_eq. intros j. destruct (decide (j = i)) as [->|Hne].
  - rewrite list_lookup_alter_eq, E, list_lookup_insert_eq by (now apply lookup_lt_Some in E). reflexivity.
  - now rewrite list_lookup_alter_ne, list_lookup_insert_ne by auto.
Qed.

Definition reparent (self new_parent : Z) (p : Process) : Process :=
  if parent_pid p =? self then set_parent_pid new_parent p else p.

Lemma reparent_id self np p : pid (reparent self np p) = pid p /\ state (reparent self np p) = state p /\
  pctx (reparent self np p) = pctx p.
Proof. unfold reparent. destruct (_ =? _); auto. Qed.

(** The process table after [terminate]. *)
Definition terminated (i : nat) (code : Z) (p : Process) (t : list (option Process)) : list (option Process) :=
  map_procs (reparent (pid p) 1) (<[i := Some (set_state Terminated (set_exit_code code p))]> t).

Lemma terminated_slot i code p t j q :
  mjoin (t !! i) = Some p -> mjoin (terminated i code p t !! j) = Some q ->
  (j = i /\ q = reparent (pid p) 1 (set_state Terminated (set_exit_code code p))) \/
  (j <> i /\ exists q0, mjoin (t !! j) = Some q0 /\ q = reparent (pid p) 1 q0).
Proof.
  intros Hp. unfold terminated. rewrite map_procs_lookup. destruct (decide (j = i)) as [->|Hne].
  - rewrite list_lookup_insert_eq by (apply lookup_lt_is_Some_1; destruct (t !! i); [eauto|discriminate]).
    cbn. intros [= <-]. now left.
  - rewrite list_lookup_insert_ne by auto. destruct (mjoin (t !! j)) as [q0|] eqn:E; [|discriminate].
    intros [= <-]. right. split; [exact Hne|]. exists q0. auto.
Qed.

Lemma terminated_roots i code p t :
  mjoin (t !! i) = Some p -> is_live p = true ->
  live_roots t ≡ₚ ttbr0 (pctx p) :: live_roots (terminated i code p t).
Proof.
  intros Hp Hl. destruct (t !! i) as [s|] eqn:E; [|discriminate]. cbn in Hp. subst.
  unfold terminated. rewrite live_roots_map.
  - pose proof (live_roots_insert t i (Some p) (Some (set_state Terminated (set_exit_code code p))) E) as H.
    cbn [slot_root option_list app] in H. rewrite Hl in H. symmetry. exact H.
  - intros q. cbn [slot_root]. unfold is_live, is_state. destruct (reparent_id (pid p) 1 q) as (_ & -> & ->). reflexivity.
Qed.

Record terminated_ok (k : kernel) (l : list Z) (i : nat) (code : Z) (p : Process) (k' : kernel)
    (l' : list Z) : Prop := {
  tm_ok : kernel_ok k' l';
  tm_table : PROCESS_TABLE k' = terminated i code p (PROCESS_TABLE k);
  tm_freed : l' = reverse (owned 3 (ram (kmem (stk k))) (ttbr0 (pctx p))) ++ l;
  tm_slots : exists a, KERNEL_STACKS_ALLOCATED (stk k) !! a = Some (Allocated (pid p)) /\
    KERNEL_STACKS_ALLOCATED (stk k') = <[a := QueuedToFree (pid p)]> (KERNEL_STACKS_ALLOCATED (stk k));
  tm_kept : Forall (space_kept (ram (kmem (stk k))) (ram (kmem (stk k')))) (live_roots (PROCESS_TABLE k'));
  tm_rest : exists s', k' = set_stk s' (set_table (PROCESS_TABLE k') k);
}.

Lemma terminate_ok k l i code p :
  kernel_ok k l -> slot_has k i p -> is_live p = true ->
  exists k' l', terminate i code k = Done tt k' /\ terminated_ok k l i code p k' l'.
Proof.
  intros [K1 K2 K3 K4 K5 K6 K7 K8 K9] Hp Hl.
  pose proof (K8 i p Hp Hl) as Ha. apply list_elem_of_lookup in Ha as [a Ha].
  set (k1 := set_table (<[i := Some (set_exit_code code p)]> (PROCESS_TABLE k)) k).
  assert (i < length (PROCESS_TABLE k))%nat as Hi
    by (rewrite K3; apply (lookup_lt_proc (PROCESS_TABLE k) i p K3 Hp)).
  assert (slot_has k1 i (set_exit_code code p)) as Hp1
    by (unfold slot_has, k1; cbn [PROCESS_TABLE set_table]; now rewrite list_lookup_insert_eq).
  set (s1 := set_stacks (<[a := QueuedToFree (pid p)]> (KERNEL_STACKS_ALLOCATED (stk k))) (stk k)).
  pose proof (stacks_ok_queue (stk k) l a (pid p) K1 Ha) as Hs1. fold s1 in Hs1.
  set (k2 := set_stk s1 k1).
  set (k3 := set_table (terminated i code p (PROCESS_TABLE k)) k2).
  pose proof (terminated_roots i code p (PROCESS_TABLE k) Hp Hl) as Hroots.
  set (root := ttbr0 (pctx p)) in *.
  assert (spaces (kmem s1) (root :: k_root s1 :: live_roots (terminated i code p (PROCESS_TABLE k))) l) as Hsp.
  { refine (spaces_perm _ _ _ _ _ K2). change (k_root s1) with (k_root (stk k)).
    rewrite Hroots. apply Permutation_swap. }
  pose proof (spaces_space _ _ _ root Hsp ltac:(now left)) as [Hfree [Hfr Hnd]].
  apply Forall_app in Hfr as [Hfr _].
  destruct (do_free_ok 2 3 1 root (kmem s1) l) as (st' & Hrun & Hst' & Hch & _); auto; try lia.
  destruct (spaces_without _ _ _ _ _ _ Hsp Hch Hst') as [Hsp' Hkept]; [now rewrite reverse_Permutation|].
  apply Forall_cons in Hkept as [Hkr Hkept].
  exists (set_stk (set_kmem st' s1) k3), (reverse (owned 3 (ram (kmem s1)) root) ++ l). split.
  { unfold terminate, modify_slot. unfold modify at 1, bind at 1.
    rewrite (update_slot_insert _ _ _ _ Hp). fold k1.
    rewrite (bind_run _ _ _ _ _ (slot_process_run _ _ _ Hp1)).
    assert (queue_stack_to_free (pid p) (stk k1) = Done (ROk tt) s1) as Hq
      by exact (queue_stack_run _ _ _ _ K1 Ha).
    rewrite (bind_run _ _ _ _ _ (stk_zoom _ k1 _ _ Hq)). cbn [unwrap]. unfold ret at 1, bind at 1.
    unfold modify at 1, bind at 1. fold k2.
    unfold reparent_children_to. unfold modify at 1, bind at 1. cbn [PROCESS_TABLE set_table k2 set_stk].
    change (PROCESS_TABLE k1) with (<[i := Some (set_exit_code code p)]> (PROCESS_TABLE k)).
    rewrite (update_slot_insert i _ _ (set_exit_code code p)) by exact Hp1. rewrite list_insert_insert_eq.
    apply (kmem_zoom _ k3). exact Hrun. }
  assert (forall j q, slot_has (set_stk (set_kmem st' s1) k3) j q -> exists q0, slot_has k j q0 /\
    pid q = pid q0 /\ (is_live q = true -> j <> i /\ is_live q0 = true)) as Hcases.
  { intros j q H. apply terminated_slot in H; [|exact Hp]. destruct H as [[-> ->]|[Hne (q0 & Hq0 & ->)]].
    - exists p. split; [exact Hp|]. destruct (reparent_id (pid p) 1 (set_state Terminated (set_exit_code code p))) as (E1 & E2 & _).
      split; [exact E1|]. unfold is_live, is_state. rewrite E2. discriminate.
    - exists q0. destruct (reparent_id (pid p) 1 q0) as (E1 & E2 & _). split; [exact Hq0|]. split; [exact E1|].
      unfold is_live, is_state. rewrite E2. auto. }
  split; [split| | | | |]; cbn [stk set_stk PROCESS_TABLE set_table k3 k2 CURRENT_PROCESS NEXT_PID k1]; auto.
  - apply (stacks_ok_kept _ _ _ _ Hs1); [|exact Hkr].
    apply (spaces_space _ _ _ _ Hsp'). now left.
  - unfold table_ok, terminated. now rewrite length_map_procs, length_insert.
  - intros j j' q q' Hq Hq' Hpid. apply Hcases in Hq as (q0 & Hq & E & _).
    apply Hcases in Hq' as (q0' & Hq' & E' & _). apply (K5 j j' q0 q0' Hq Hq'). congruence.
  - intros j q Hq. apply Hcases in Hq as (q0 & Hq & E & _). apply K6 in Hq. now rewrite E.
  - intros w q Hw Hq. cbn [KERNEL_STACKS_ALLOCATED s1 set_kmem set_stacks] in Hw.
    apply list_elem_of_lookup in Hw as [b Hb]. destruct (decide (b = a)) as [->|Hne].
    + rewrite list_lookup_insert_eq in Hb by (now apply lookup_lt_Some in Ha). injection Hb as <-.
      injection Hq as <-. exact (K6 i p Hp).
    + rewrite list_lookup_insert_ne in Hb by auto. apply list_elem_of_lookup_2 in Hb. exact (K7 w q Hb Hq).
  - intros j q Hq Hlq. apply Hcases in Hq as (q0 & Hq & E & Hlive). destruct (Hlive Hlq) as [Hne Hl0].
    pose proof (K8 j q0 Hq Hl0) as Hin. apply list_elem_of_lookup in Hin as [b Hb].
    cbn [KERNEL_STACKS_ALLOCATED s1 set_kmem set_stacks]. apply list_elem_of_lookup_2 with b. rewrite E.
    rewrite list_lookup_insert_ne; [exact Hb|]. intros <-. apply Hne. apply (K5 j i q0 p Hq Hp). congruence.
  - exists a. split; [exact Ha|reflexivity].
  - exists (set_kmem st' s1). destruct k. reflexivity.
Qed.

(** ** Changes of the table that keep the invariant *)

Lemma kernel_ok_ext k k' l :
  kernel_ok k l -> stk k' = stk k -> PROCESS_TABLE k' = PROCESS_TABLE k ->
  CURRENT_PROCESS k' = CURRENT_PROCESS k -> NEXT_PID k' = NEXT_PID k -> kernel_ok k' l.
Proof.
  intros [K1 K2 K3 K4 K5 K6 K7 K8 K9] E1 E2 E3 E4. unfold slot_has in *.
  split; unfold slot_has; rewrite ?E1, ?E2, ?E3, ?E4; auto.
Qed.

Lemma kernel_ok_table k l t :
  kernel_ok k l -> length t = length (PROCESS_TABLE k) -> live_roots t ≡ₚ live_roots (PROCESS_TABLE k) ->
  (forall i q, mjoin (t !! i) = Some q ->
     exists q0, slot_has k i q0 /\ pid q = pid q0 /\ is_live q = is_live q0) ->
  kernel_ok (set_table t k) l.
Proof.
  intros [K1 K2 K3 K4 K5 K6 K7 K8 K9] Hlen Hroots Hs.
  split; cbn [stk set_table PROCESS_TABLE CURRENT_PROCESS NEXT_PID]; auto.
  - refine (spaces_perm _ _ _ _ _ K2). now f_equiv.
  - unfold table_ok in *. congruence.
  - intros i j p q (p0 & Hp & E1 & _)%Hs (q0 & Hq & E2 & _)%Hs E. apply (K5 i j p0 q0); auto. congruence.
  - intros i p (p0 & Hp & E1 & _)%Hs. rewrite E1. eauto.
  - intros i p (p0 & Hp & E1 & E2)%Hs Hl. rewrite E1. apply (K8 i p0 Hp). congruence.
Qed.

Lemma live_roots_update i f t p :
  mjoin (t !! i) = Some p -> slot_root (Some (f p)) = slot_root (Some p) ->
  live_roots (update_slot i f t) ≡ₚ live_roots t.
Proof.
  intros Hp Hf. rewrite (update_slot_insert _ _ _ _ Hp).
  destruct (t !! i) as [s|] eqn:E; [|discriminate]. cbn in Hp. subst.
  pose proof (live_roots_insert t i (Some p) (Some (f p)) E) as H. rewrite Hf in H.
  exact (Permutation_app_inv_l _ _ _ H).
Qed.

(** A process rewritten with its pid, liveness and address space. *)
Lemma kernel_ok_slot k l i f p :
  kernel_ok k l -> slot_has k i p ->
  pid (f p) = pid p -> is_live (f p) = is_live p -> ttbr0 (pctx (f p)) = ttbr0 (pctx p) ->
  kernel_ok (set_table (update_slot i f (PROCESS_TABLE k)) k) l.
Proof.
  intros Hok Hp E1 E2 E3. apply kernel_ok_table; [exact Hok|apply length_update_slot| |].
  - apply (live_roots_update i f _ p Hp). cbn. now rewrite E2, E3.
  - intros j q Hq. rewrite mjoin_update_slot in Hq. destruct (decide (j = i)) as [->|].
    + rewrite Hp in Hq. injection Hq as <-. eauto.
    + eauto.
Qed.

(** A dead process's slot emptied. *)
Lemma kernel_ok_remove k l i p :
  kernel_ok k l -> slot_has k i p -> is_live p = false ->
  kernel_ok (set_table (<[i := None]> (PROCESS_TABLE k)) k) l.
Proof.
  intros Hok Hp Hl. assert (PROCESS_TABLE k !! i = Some (Some p)) as Hi.
  { unfold slot_has in Hp. destruct (PROCESS_TABLE k !! i); [cbn in Hp; congruence|discriminate]. }
  apply kernel_ok_table; [exact Hok|apply length_insert| |].
  - pose proof (live_roots_insert _ i (Some p) None Hi) as H. cbn [slot_root option_list app] in H.
    rewrite Hl in H. exact H.
  - intros j q Hq. destruct (decide (j = i)) as [->|Hne].
    + rewrite list_lookup_insert_eq in Hq by (now apply lookup_lt_Some in Hi). discriminate.
    + rewrite list_lookup_insert_ne in Hq by auto. eauto.
Qed.

End Kernel.
