(* ===== verification/Demo.v ===== *)
(** A small concrete kernel: one process, its address space and its kernel
    stack, on which the theorems about the whole kernel are evaluated. *)

From Stdlib Require Import ZArith Lia.
From stdpp Require Import base strings numbers list.
From S2P Require Import Prelude Memory Frames PageTable PageFree PagingSpec UserMem PageDup.
From S2P Require Import PageRange Isolation LoadElf KernelStack Interrupts Devices Processes.
From S2P Require Import Scheduler ProcOps.

Local Open Scope Z_scope.

(** What a run ended with. *)
Definition after {S A} (o : outcome S A) (s0 : S) : S := match o with Done _ s => s | _ => s0 end.
Definition result_of {S A} (o : outcome S A) : option A := match o with Done a _ => Some a | _ => None end.

Lemma clone_one {F : Pool} st root l r :
  spaces st [root] l -> result_of (run_space_op (Clone root) [root] st) = Some [r; root] ->
  exists l', spaces (after (run_space_op (Clone root) [root] st) st) [root; r] l' /\
    space_kept (ram st) (ram (after (run_space_op (Clone root) [root] st) st)) root.
Proof.
  intros Hsp Hr. destruct (run_space_op_ok (Clone root) [root] st l Hsp ltac:(now left))
    as (roots' & st' & l' & Hrun & [K1 K2 K3]).
  rewrite Hrun in *. cbn [result_of after] in *. injection Hr as ->. exists l'. split.
  - apply (spaces_perm _ [r; root]); [constructor|exact K1].
  - apply K3; [now left|discriminate].
Qed.

(** An empty user space beside the kernel's, and the stack of process 1. *)
Definition proc_root : Z := 258048.
Definition demo_two_mem : pstate := after (run_space_op (Clone demo_root) [demo_root] demo_space) demo_space.
Definition demo_two_kstate : kstate := set_kmem demo_two_mem demo_kstate.
Definition demo_one_kstate : kstate := after (alloc_stack 1 demo_two_kstate) demo_two_kstate.

Definition demo_sp : Z := KERNEL_BASE + (slot_low 0 + 0x7000).
Definition demo_proc : Process :=
  mk_Process 1 (name_field (str "init")) Running None 0 (ProcessContext_new 0x400000 0x420000 demo_sp proc_root) 0 0.

Definition kernel_with (t : list (option Process)) (c : ExceptionContext) : kernel :=
  mk_kernel demo_one_kstate demo_hw t 10 0 (Spinlock_new "process_table") demo_mutex c.

Lemma stacks_set_kmem m k : KERNEL_STACKS_ALLOCATED (set_kmem m k) = KERNEL_STACKS_ALLOCATED k.
Proof. reflexivity. Qed.
Lemma kmem_set_kmem m k : kmem (set_kmem m k) = m.
Proof. reflexivity. Qed.

Lemma demo_two_ok :
  exists (F : Pool) l, spaces (kmem demo_two_kstate) [demo_root; proc_root] l /\ stacks_ok demo_two_kstate l.
Proof.
  assert (result_of (run_space_op (Clone demo_root) [demo_root] demo_space) = Some [proc_root; demo_root])
    as Hr by (vm_compute; reflexivity).
  destruct (clone_one _ _ _ _ (spaces_one _ _ _ demo_space_ok) Hr) as (l & Hs & Hk).
  eexists _, l. unfold demo_two_kstate. rewrite kmem_set_kmem. split; [exact Hs|].
  assert (k_root demo_kstate = demo_root) as Hroot by (vm_compute; reflexivity).
  apply (stacks_ok_kept _ _ demo_free _ demo_kstate_ok); rewrite Hroot; [|exact Hk].
  apply (spaces_space _ _ _ _ Hs). now left.
Qed.

Lemma stack_one {F : Pool} k l root n :
  stacks_ok k l -> spaces (kmem k) [k_root k; root] l -> (18 <= length l)%nat ->
  KERNEL_STACKS_ALLOCATED k = replicate (S n) Free ->
  let k' := after (alloc_stack 1 k) k in
  exists l', spaces (kmem k') [k_root k'; root] l' /\ stacks_ok k' l' /\
    KERNEL_STACKS_ALLOCATED k' = Allocated 1 :: replicate n Free.
Proof.
  intros Hst Hsp Hlen Hk. destruct (alloc_stack_gives 1 k l 0 Hst Hlen) as (k' & l' & Hrun & [G1 G2 G3 G4 G5 G6]).
  - rewrite Hk. intros H%elem_of_replicate. destruct H. discriminate.
  - now rewrite Hk.
  - intros j Hj. lia.
  - rewrite Hrun. cbn [after]. exists l'.
    assert (k_root k' = k_root k) as -> by (unfold k_root; now rewrite G3).
    split; [|split; [exact G1|now rewrite G2, Hk]].
    exact (proj1 (spaces_step _ _ _ _ _ _ Hsp G6 (so_free _ _ _ (sk_space _ _ G1)))).
Qed.

Lemma demo_one_ok :
  exists (F : Pool) l, spaces (kmem demo_one_kstate) [k_root demo_one_kstate; proc_root] l /\ stacks_ok demo_one_kstate l /\
    KERNEL_STACKS_ALLOCATED demo_one_kstate = Allocated 1 :: replicate 49 Free.
Proof.
  destruct demo_two_ok as (F & l & Hsp & Hst). exists F.
  assert (k_root demo_two_kstate = demo_root) as Hroot by (vm_compute; reflexivity).
  rewrite <- Hroot in Hsp. refine (stack_one demo_two_kstate l proc_root 49 Hst Hsp _ _).
  - assert (FREE_FRAME_COUNT demo_two_mem = 62) as Hc by (vm_compute; reflexivity).
    pose proof (ff_count _ _ (so_free _ _ _ (sk_space _ _ Hst))) as E. unfold demo_two_kstate in E.
    rewrite kmem_set_kmem in E. lia.
  - unfold demo_two_kstate. rewrite stacks_set_kmem. reflexivity.
Qed.

(** A kernel whose only live process is [demo_proc], in slot 0; the others
    have terminated. *)
Lemma kernel_with_ok t c p0 :
  table_ok t -> mjoin (t !! 0%nat) = Some p0 -> pid p0 = 1 -> live_roots t = [proc_root] ->
  (forall i p, mjoin (t !! i) = Some p -> 0 < pid p < 10 /\ (is_live p = true -> i = 0%nat)) ->
  (forall i j p q, mjoin (t !! i) = Some p -> mjoin (t !! j) = Some q -> pid p = pid q -> i = j) ->
  exists (F : Pool) l, kernel_ok (kernel_with t c) l.
Proof.
  intros Ht H0 Hp0 Hroots Hp Hu. destruct demo_one_ok as (F & l & Hsp & Hst & Hslots). exists F, l.
  split; cbn [stk kernel_with PROCESS_TABLE CURRENT_PROCESS NEXT_PID]; auto; try lia.
  - rewrite Hroots. exact Hsp.
  - apply Nat.ltb_lt. reflexivity.
  - intros i p Hi. now apply Hp in Hi as [? _].
  - intros s q Hs Hq. rewrite Hslots in Hs. apply list_elem_of_lookup in Hs as [[|i] Hi].
    + injection Hi as <-. injection Hq as <-. lia.
    + apply lookup_replicate in Hi as [-> _]. discriminate.
  - intros i p Hi Hl. destruct (Hp _ _ Hi) as [_ Hz]. rewrite (Hz Hl) in Hi.
    unfold slot_has in Hi. cbn [PROCESS_TABLE kernel_with] in Hi. assert (p = p0) as -> by congruence.
    rewrite Hp0, Hslots. now left.
Qed.

(** Init running alone. *)
Definition demo_init_table : list (option Process) := Some demo_proc :: replicate 49 None.
Definition demo_init : kernel := kernel_with demo_init_table demo_ectx.

(** Init running with a terminated child, pid 2, whose exit code is 7. *)
Definition demo_zombie : Process := set_exit_code 7 (demo_process 2 1 Terminated).
Definition demo_zombie_table : list (option Process) := Some demo_proc :: Some demo_zombie :: replicate 48 None.
Definition demo_reap : kernel := kernel_with demo_zombie_table demo_ectx.

Lemma none_slots n i p : mjoin (replicate n (@None Process) !! i) = Some p -> False.
Proof. destruct (replicate n None !! i) eqn:E; [|discriminate]. apply lookup_replicate in E as [-> _]. discriminate. Qed.

Lemma demo_init_ok : exists (F : Pool) l, kernel_ok demo_init l.
Proof.
  apply (kernel_with_ok _ _ demo_proc); try reflexivity.
  - intros [|i] p Hi; [injection Hi as <-; split; [cbn; lia|auto]|contradiction (none_slots 49 i p Hi)].
  - intros [|i] [|j] p q Hi Hj _; [reflexivity|contradiction (none_slots 49 j q Hj)|contradiction (none_slots 49 i p Hi)..].
Qed.

Lemma demo_reap_ok : exists (F : Pool) l, kernel_ok demo_reap l.
Proof.
  apply (kernel_with_ok _ _ demo_proc); try reflexivity.
  - intros [|[|i]] p Hi; [injection Hi as <-; split; [cbn; lia|auto; discriminate]..|contradiction (none_slots 48 i p Hi)].
  - intros [|[|i]] [|[|j]] p q Hi Hj Hpid; try reflexivity;
      try contradiction (none_slots 48 i p Hi); try contradiction (none_slots 48 j q Hj);
      injection Hi as <-; injection Hj as <-; discriminate.
Qed.
