(* ===== verification/Sleep.v ===== *)
(** Sleeping in the kernel: the [svc #0] a kernel thread executes to give up
    the core, [Scheduler::sleep] of src/src/kernel/scheduler.rs and the EL1h case
    of the exception handler in src/src/kernel/exceptions.rs.

    While the thread sleeps the scheduler runs other processes; [resume] is
    what the machine does from the scheduler's choice until this thread's
    context is loaded again, a parameter since it depends on the programs that
    run.  [kctx] holds the registers of the thread at its [svc]; of them the
    handler looks at x0 and x1 only.  The only mutex of the kernel is
    KERNEL_IO.lock, so the guard pointer the handler gets in x1 is its guard. *)

From Stdlib Require Import ZArith Lia.
From stdpp Require Import base strings numbers list.
From S2P Require Import Prelude Memory Frames PageTable KernelStack Interrupts Devices Processes.
From S2P Require Import Scheduler.

Local Open Scope Z_scope.

(** The guard of KERNEL_IO.lock, with the core. *)
Definition guard_lens : Lens kernel locked_core.
Proof.
  refine (mkLens _ _ (fun k => (hcore (dev k), mx_guard (io_lock k)))
    (fun s k => set_io_lock (mk_Mutex (mx_lock (io_lock k)) (snd s) (mx_pid (io_lock k)) (maddr (io_lock k)))
                  (set_dev (set_core (fst s) (dev k)) k)) _ _ _);
    [intros []|intros [? [] ? ? ? ? [] ?]|]; reflexivity.
Defined.

Definition clear_current_process : M kernel unit :=
  modify (fun k => set_dev (set_cpu_pid None (dev k)) k).

(** ESR_EL1 of an [svc #0]: exception class 0x15, 32-bit instruction. *)
Definition ESR_SVC0 : Z := 0x56000000.

(** The EL1h case of [handle_sync_exception] for [svc #0]. *)
Definition handle_svc_el1 (fuel : nat) : M kernel unit :=
  let* cur := gets get_current_process in
  match cur with
  | Some _ =>
      let* c := gets ectx in
      update_last_running_pctx (from_ectx c) ;;
      (let* i := gets CURRENT_PROCESS in modify_slot i (set_state Blocked)) ;;
      clear_current_process ;;
      if ectx_x 0 c =? 0xDEAD then
        if negb (ectx_x 1 c =? 0) then zoom guard_lens release
        else panic "Mutex guard pointer is null in sleep_for_mutex!"
      else skip
  | None => skip
  end ;;
  reset_timer ;;
  schedule_next fuel.

(** The context of the exception an [svc #0] with [x0] and [x1] raises. *)
Definition svc_ectx (kctx : ExceptionContext) (x0 x1 : Z) : ExceptionContext :=
  ectx_set_x 1 x1 (ectx_set_x 0 x0
    (mk_ectx E_SYNC EL1h (ex kctx) (eelr kctx) (espsr kctx) ESR_SVC0 (far kctx)
       (esp_el0 kctx) (esp_el1 kctx) (ettbr0 kctx))).

(** [svc #0] up to the switch to another process. *)
Definition svc_enter (fuel : nat) (kctx : ExceptionContext) (x0 x1 : Z) : M kernel unit :=
  modify (set_ectx (svc_ectx kctx x0 x1)) ;;
  awake_common_chans ;;
  handle_svc_el1 fuel.

(** The whole [svc #0]: the interrupted exception's context is back when the
    thread runs again. *)
Definition svc0 (fuel : nat) (kctx : ExceptionContext) (resume : M kernel unit) (x0 x1 : Z)
  : M kernel unit :=
  let* outer := gets ectx in
  svc_enter fuel kctx x0 x1 ;;
  resume ;;
  modify (set_ectx outer).

(** [Scheduler::sleep(channel, reason)] *)
Definition sleep_on (fuel : nat) (kctx : ExceptionContext) (resume : M kernel unit)
    (channel : Z) (reason : BlockReason) : M kernel unit :=
  sleep channel reason ;;
  svc0 fuel kctx resume (ectx_x 0 kctx) (ectx_x 1 kctx).

(** ** What going to sleep does *)

(** The thread's registers are saved, it is blocked, and nobody runs. *)
Definition asleep (k : kernel) : kernel :=
  set_dev (set_cpu_pid None (dev k))
    (set_table (update_slot (CURRENT_PROCESS k) (set_state Blocked)
      (update_slot (CURRENT_PROCESS k) (set_pctx (from_ectx (ectx k))) (PROCESS_TABLE k))) k).

Lemma handle_svc_run fuel k q :
  table_ok (PROCESS_TABLE k) -> mjoin (PROCESS_TABLE k !! CURRENT_PROCESS k) = Some q ->
  ectx_x 0 (ectx k) <> 0xDEAD ->
  handle_svc_el1 fuel k = (reset_timer ;; schedule_next fuel) (asleep k).
Proof.
  intros Ht Hq Hx. pose proof (lookup_lt_proc _ _ _ Ht Hq) as Hlt. unfold NPROC in Hlt.
  assert (get_current_process k = Some q) as Hg.
  { unfold get_current_process, find_by_ptable_index.
    replace (Z.of_nat (CURRENT_PROCESS k) >=? MAX_PROCESSES) with false; [exact Hq|].
    unfold MAX_PROCESSES in *. symmetry. rewrite Z.geb_leb. apply Z.leb_gt. lia. }
  unfold handle_svc_el1, gets at 1, bind at 1. rewrite Hg.
  rewrite (bind_run _ _ _ tt (asleep k)); [reflexivity|].
  unfold update_last_running_pctx, modify_slot, clear_current_process. run_m. rewrite Hq.
  replace (ectx_x 0 (ectx k) =? 0xDEAD) with false by (symmetry; now apply Z.eqb_neq). reflexivity.
Qed.

Lemma asleep_slot k q :
  mjoin (PROCESS_TABLE k !! CURRENT_PROCESS k) = Some q ->
  mjoin (PROCESS_TABLE (asleep k) !! CURRENT_PROCESS k) = Some (set_state Blocked (set_pctx (from_ectx (ectx k)) q)).
Proof.
  intros Hq. cbn [asleep PROCESS_TABLE set_dev set_table]. rewrite !mjoin_update_slot, !decide_True, Hq by reflexivity.
  reflexivity.
Qed.

Lemma svc_ectx_x0 kctx x0 x1 : length (ex kctx) = 31%nat -> ectx_x 0 (svc_ectx kctx x0 x1) = x0.
Proof. unfold ectx_x, svc_ectx, ectx_set_x. cbn. destruct (ex kctx) as [|? [|? ?]]; [discriminate..|reflexivity]. Qed.
