(* ===== verification/Mutex.v ===== *)
(** The sleeping mutex of src/src/kernel/mutex.rs, for the kernel's one mutex
    KERNEL_IO.lock.

    [acquire_turn] is what [acquire] runs between two context switches;
    [mutex_acquire] is made of such turns ([mutex_acquire_turns]), and the
    theorem follows the turns of all processes in any order. *)

From Stdlib Require Import ZArith Lia.
From stdpp Require Import base strings numbers list relations.
From S2P Require Import Prelude Memory Frames PageTable KernelStack Interrupts Devices Processes.
From S2P Require Import Scheduler Sleep.

Local Open Scope Z_scope.

(** ** Operations *)

(** The process [Process::get_current()] points to. *)
Definition get_current_proc (k : kernel) : option Process :=
  i ← get_current k; mjoin (PROCESS_TABLE k !! i).

Definition set_mutex (b : bool) (p : option Z) : M kernel unit :=
  modify (fun k => set_io_lock (mk_Mutex b (mx_guard (io_lock k)) p (maddr (io_lock k))) k).

(** [sleep_for_mutex] before its [svc #0]. *)
Definition park : M kernel unit := fun k =>
  match mjoin (PROCESS_TABLE k !! CURRENT_PROCESS k) with
  | Some _ => modify_slot (CURRENT_PROCESS k)
      (fun p => set_chan (maddr (io_lock k)) (set_block_reason (Some ForMutex) p)) k
  | None => Panic "Scheduler::sleep_for_mutex() was called when no process was active!"
  end.

(** [acquire] after its loop. *)
Definition take_mutex : M kernel unit :=
  (let* old := gets (fun k => mx_pid (io_lock k)) in set_mutex true old) ;;
  (let* proc := gets get_current_proc in
   match proc with Some p => set_mutex true (Some (pid p)) | None => skip end) ;;
  zoom guard_lens release.

Section Mutex.
  Context (fuel : nat) (kctx : ExceptionContext) (resume : M kernel unit).
  (** The address of KERNEL_IO.lock.guard. *)
  Context (guard_ptr : Z).

(** [Scheduler::sleep_for_mutex(self, &self.guard)] *)
Definition sleep_for_mutex : M kernel unit :=
  park ;;
  svc0 fuel kctx resume 0xDEAD guard_ptr ;;
  zoom guard_lens acquire.

(** [while self.lock.get() { sleep_for_mutex }] *)
Fixpoint mutex_wait (rounds : nat) : M kernel unit :=
  let* locked := gets (fun k => mx_lock (io_lock k)) in
  if (locked : bool) then
    match rounds with
    | O => diverge
    | S n => sleep_for_mutex ;; mutex_wait n
    end
  else skip.

Definition mutex_acquire : M kernel unit :=
  zoom guard_lens acquire ;;
  mutex_wait fuel ;;
  take_mutex.
End Mutex.

Definition mutex_release : M kernel unit :=
  zoom guard_lens acquire ;;
  (let* locked := gets (fun k => mx_lock (io_lock k)) in
   if (locked : bool) then skip else panic "Mutex release error: already unlocked!") ;;
  (let* proc := gets get_current_proc in
   let* owner := gets (fun k => mx_pid (io_lock k)) in
   match proc with
   | Some p => if bool_decide (owner = Some (pid p)) then skip
               else panic "Mutex release error: owned by another process"
   | None => skip
   end) ;;
  set_mutex false None ;;
  (let* a := gets (fun k => maddr (io_lock k)) in wakeup a) ;;
  zoom guard_lens release.

Definition is_locked : M kernel bool :=
  zoom guard_lens acquire ;;
  let* locked := gets (fun k => mx_lock (io_lock k)) in
  zoom guard_lens release ;;
  ret locked.

(** ** Turns *)

(** With the guard held: take the mutex, or go to sleep, which ends with
    another process loaded. *)
Definition after_guard (fuel : nat) (kctx : ExceptionContext) (guard_ptr : Z) : M kernel bool :=
  let* locked := gets (fun k => mx_lock (io_lock k)) in
  if (locked : bool) then park ;; svc_enter fuel kctx 0xDEAD guard_ptr ;; ret false
  else take_mutex ;; ret true.

Definition acquire_turn (fuel : nat) (kctx : ExceptionContext) (guard_ptr : Z) : M kernel bool :=
  zoom guard_lens acquire ;; after_guard fuel kctx guard_ptr.

(** Turn after turn, until one takes the mutex; [n] more are allowed. *)
Fixpoint turns_until (fuel : nat) (kctx : ExceptionContext) (resume : M kernel unit) (guard_ptr : Z)
    (n : nat) : M kernel unit :=
  let* locked := gets (fun k => mx_lock (io_lock k)) in
  let* outer := gets ectx in
  match n, (locked : bool) with
  | O, true => diverge
  | _, _ =>
      let* got := after_guard fuel kctx guard_ptr in
      if (got : bool) then skip else
      match n with
      | O => diverge
      | S n' => resume ;; modify (set_ectx outer) ;; zoom guard_lens acquire ;;
                turns_until fuel kctx resume guard_ptr n'
      end
  end.

Lemma park_form k k' :
  park k = Done tt k' -> exists p, mjoin (PROCESS_TABLE k !! CURRENT_PROCESS k) = Some p /\
    k' = set_table (update_slot (CURRENT_PROCESS k)
           (fun p => set_chan (maddr (io_lock k)) (set_block_reason (Some ForMutex) p)) (PROCESS_TABLE k)) k.
Proof. unfold park. destruct (mjoin _) as [p|]; [|discriminate]. intros [= <-]. eauto. Qed.

Lemma mutex_wait_turns fuel kctx resume g n k :
  (mutex_wait fuel kctx resume g n ;; take_mutex) k = turns_until fuel kctx resume g n k.
Proof.
  revert k. induction n as [|n IH]; intros k; cbn [mutex_wait turns_until]; unfold after_guard, skip, gets, ret, bind at 1 2 3 4;
    destruct (mx_lock (io_lock k)) eqn:Hl.
  - reflexivity.
  - unfold bind. rewrite Hl. destruct (take_mutex k) as [[] ?| | |]; reflexivity.
  - unfold sleep_for_mutex, svc0, gets, bind. rewrite Hl.
    destruct (park k) as [[] k1| | |] eqn:Hp; [|reflexivity..].
    apply park_form in Hp as (p & _ & ->). cbn [ectx set_table].
    destruct (svc_enter _ _ _ _ _) as [[] k2| | |]; [|reflexivity..].
    destruct (resume k2) as [[] k3| | |]; [|reflexivity..]. unfold modify.
    destruct (zoom guard_lens acquire _) as [[] k4| | |]; [|reflexivity..]. apply IH.
  - unfold bind. rewrite Hl. destruct (take_mutex k) as [[] ?| | |]; reflexivity.
Qed.

(** [acquire] is a sequence of turns. *)
Lemma mutex_acquire_turns fuel kctx resume g k :
  mutex_acquire fuel kctx resume g k =
  (zoom guard_lens acquire ;; turns_until fuel kctx resume g fuel) k.
Proof.
  unfold mutex_acquire, bind at 1 3. destruct (zoom guard_lens acquire k) as [[] k1| | |]; [|reflexivity..].
  apply mutex_wait_turns.
Qed.

(** ** The protocol *)

(** [was] is the interrupt state outside of kernel code that holds locks;
    [owner] is the pid of the process between its acquire and its release. *)
Record mutex_base (was : bool) (owner : option Z) (k : kernel) : Prop := {
  mb_table : table_ok (PROCESS_TABLE k);
  mb_lock : mx_lock (io_lock k) = bool_decide (is_Some owner);
  mb_pid : mx_pid (io_lock k) = owner;
  mb_waiters : owner = None -> waits_on (maddr (io_lock k)) (PROCESS_TABLE k) = false;
  mb_addr : 0 < maddr (io_lock k) < AWAITING_UART_READ;
}.

Record mutex_ok (was : bool) (owner : option Z) (k : kernel) : Prop := {
  mo_base : mutex_base was owner k;
  mo_guard : lock_open was 0 (hcore (dev k), mx_guard (io_lock k));
  mo_current : exists i p, mjoin (PROCESS_TABLE k !! i) = Some p /\
    current_pid (cpu (hcore (dev k))) = Some (pid p);
}.

Lemma waits_on_false c t :
  waits_on c t = false <->
  forall i p, mjoin (t !! i) = Some p -> state p = Blocked -> chan p <> c.
Proof.
  split.
  - intros H i p Hp Hs Hc. assert (waits_on c t = true) as Ht; [|congruence].
    unfold waits_on. apply existsb_exists. exists (Some p). split.
    + apply list_elem_of_In. destruct (t !! i) as [s|] eqn:E; [|discriminate]. cbn in Hp. subst.
      now apply list_elem_of_lookup_2 in E.
    + cbn. unfold is_state. rewrite bool_decide_eq_true_2 by exact Hs. now apply Z.eqb_eq.
  - intros H. destruct (waits_on c t) eqn:E; [|reflexivity].
    apply waits_on_true in E as (i & p & Hp & Hs & Hc). now contradiction (H i p Hp Hs).
Qed.

(** A change of the table that adds no sleeper of the channel. *)
Lemma waits_on_mono c t t' :
  (forall i p, mjoin (t' !! i) = Some p -> state p = Blocked -> chan p = c ->
     exists q, mjoin (t !! i) = Some q /\ state q = Blocked /\ chan q = c) ->
  waits_on c t = false -> waits_on c t' = false.
Proof.
  rewrite !waits_on_false. intros H Hf i p Hp Hs Hc. destruct (H i p Hp Hs Hc) as (q & Hq & Hsq & Hcq).
  exact (Hf i q Hq Hsq Hcq).
Qed.

Lemma waits_on_wake c c' t : waits_on c t = false -> waits_on c (map_procs (wake c') t) = false.
Proof.
  apply waits_on_mono. intros i p Hp Hs Hc. rewrite map_procs_lookup in Hp.
  destruct (mjoin (t !! i)) as [q|]; [|discriminate]. cbn in Hp. injection Hp as <-. exists q.
  unfold wake in *. destruct (_ && _); [discriminate Hs|auto].
Qed.

(** After a wake-up of a channel nobody sleeps on it. *)
Lemma waits_on_woken c t : c <> 0 -> waits_on c (map_procs (wake c) t) = false.
Proof.
  intros Hc0. apply waits_on_false. intros i p Hp Hs Hc. rewrite map_procs_lookup in Hp.
  destruct (mjoin (t !! i)) as [q|]; [|discriminate]. cbn in Hp. injection Hp as <-.
  unfold wake in *. destruct (is_state Blocked q && (chan q =? c)) eqn:E; [discriminate Hs|].
  unfold is_state in E. rewrite bool_decide_eq_true_2, (proj2 (Z.eqb_eq _ _) Hc) in E by exact Hs. discriminate.
Qed.

Lemma waits_on_update c t i f :
  (forall p, state (f p) = Blocked -> chan (f p) = c -> state p = Blocked /\ chan p = c) ->
  waits_on c t = false -> waits_on c (update_slot i f t) = false.
Proof.
  intros Hf. apply waits_on_mono. intros j p Hp Hs Hc. rewrite mjoin_update_slot in Hp.
  destruct (decide (j = i)); [|eauto]. destruct (mjoin (t !! j)) as [q|]; [|discriminate].
  cbn in Hp. injection Hp as <-. exists q. split; [reflexivity|]. now apply Hf.
Qed.

(** The steps of the scheduler keep the protocol's invariant. *)
Lemma nested_core was d c c' :
  nested was d c -> ncli (cpu c') = ncli (cpu c) -> irq_unmasked c' = irq_unmasked c ->
  interrupts_enabled (cpu c') = interrupts_enabled (cpu c) -> nested was d c'.
Proof. intros [H1 H2 H3 H4] E1 E2 E3. split; [congruence|exact H2|congruence|]. intros. rewrite E3. auto. Qed.

Lemma mutex_base_table was owner k t :
  mutex_base was owner k -> table_ok t ->
  (waits_on (maddr (io_lock k)) (PROCESS_TABLE k) = false ->
   waits_on (maddr (io_lock k)) t = false) ->
  mutex_base was owner (set_table t k).
Proof. intros [H1 H2 H3 H4 H6] Ht Hw. split; auto. Qed.

Lemma schedule_keeps was owner fuel k k' :
  mutex_base was owner k -> lock_open was 0 (hcore (dev k), mx_guard (io_lock k)) ->
  schedule_next fuel k = Done tt k' -> mutex_ok was owner k'.
Proof.
  intros Hb Hg Hrun.
  destruct (schedule_next_inv (fun k => mutex_base was owner k /\
    lock_open was 0 (hcore (dev k), mx_guard (io_lock k))) fuel k k') as (i & k1 & [Hb1 Hg1] & Hl); auto.
  - intros k0 i [[H1 H2 H3 H4 H6] H5]. split; [split; auto|exact H5].
  - intros k0 k1 [[H1 H2 H3 H4 H6] H5] Ha. apply awake_form in Ha as (h & E & Eh & _ & _ & _ & _ & _ & _ & _ & Ht).
    rewrite E. split; [split|]; cbn [PROCESS_TABLE set_table io_lock set_dev dev]; auto.
    + destruct Ht as [-> | ->]; [exact H1|]. unfold table_ok. now rewrite length_map_procs.
    + intros Ho. destruct Ht as [-> | ->]; [auto|]. apply waits_on_wake. auto.
    + now rewrite Eh.
  - apply load_run in Hl as (p & Hp & ->). destruct Hb1 as [H1 H2 H3 H4 H5], Hg1 as [G1 G2].
    split; [split| |]; cbn [PROCESS_TABLE set_table io_lock set_dev dev set_ectx set_current]; auto.
    + unfold table_ok. now rewrite length_update_slot.
    + intros Ho. apply waits_on_update; [|auto]. intros q Hq. discriminate Hq.
    + split; [|exact G2]. refine (nested_core _ _ _ _ G1 _ _ _); reflexivity.
    + exists i, (set_state Running p). rewrite mjoin_update_slot, decide_True, Hp by reflexivity. split; reflexivity.
Qed.

(** ** One turn *)

(** What taking or releasing the guard changes. *)
Record guard_moved (k k' : kernel) : Prop := {
  gm_table : PROCESS_TABLE k' = PROCESS_TABLE k;
  gm_current : CURRENT_PROCESS k' = CURRENT_PROCESS k;
  gm_lock : mx_lock (io_lock k') = mx_lock (io_lock k);
  gm_pid : mx_pid (io_lock k') = mx_pid (io_lock k);
  gm_addr : maddr (io_lock k') = maddr (io_lock k);
  gm_core : same_proc (hcore (dev k)) (hcore (dev k'));
  gm_form : exists c m, k' = set_io_lock m (set_dev (set_core c (dev k)) k);
}.

Lemma guard_acquire_ok was k :
  lock_open was 0 (hcore (dev k), mx_guard (io_lock k)) ->
  exists k', zoom guard_lens acquire k = Done tt k' /\ guard_moved k k' /\
             lock_held was 0 (hcore (dev k'), mx_guard (io_lock k')).
Proof.
  intros H. destruct (acquire_ok was 0 _ H) as ([c g] & Hrun & Hh & Hp & _); [unfold U64; lia|].
  eexists. split; [apply zoom_done; eexists; split; [exact Hrun|reflexivity]|].
  split; [split; [reflexivity..|exact Hp|do 2 eexists; reflexivity]|exact Hh].
Qed.

Lemma guard_release_ok was k :
  lock_held was 0 (hcore (dev k), mx_guard (io_lock k)) ->
  exists k', zoom guard_lens release k = Done tt k' /\ guard_moved k k' /\
             lock_open was 0 (hcore (dev k'), mx_guard (io_lock k')).
Proof.
  intros H. destruct (release_ok was 0 _ H) as ([c g] & Hrun & Hh & Hp & _); [lia|].
  eexists. split; [apply zoom_done; eexists; split; [exact Hrun|reflexivity]|].
  split; [split; [reflexivity..|exact Hp|do 2 eexists; reflexivity]|exact Hh].
Qed.

Lemma mutex_base_moved was owner k k' :
  mutex_base was owner k -> guard_moved k k' -> mutex_base was owner k'.
Proof.
  intros [H1 H2 H3 H4 H5] [G1 G2 G3 G4 G5 G6 _]. split; rewrite ?G1, ?G3, ?G4, ?G5; auto.
Qed.

Lemma current_proc k i p :
  mjoin (PROCESS_TABLE k !! i) = Some p -> current_pid (cpu (hcore (dev k))) = Some (pid p) ->
  exists q, get_current_proc k = Some q /\ pid q = pid p.
Proof.
  intros Hp Hc. unfold get_current_proc, get_current, find_by_id. rewrite Hc. cbn [mbind option_bind].
  destruct (find_slot _ _) as [[j s]|] eqn:Hf.
  - apply find_slot_Some in Hf as (Hj & Hs & _). destruct s as [q|]; [|discriminate]. exists q.
    split; [cbn; now rewrite Hj|]. now apply Z.eqb_eq.
  - exfalso. destruct (PROCESS_TABLE k !! i) as [s|] eqn:E; [|discriminate]. cbn in Hp. subst.
    apply list_elem_of_lookup_2 in E. rewrite find_slot_None in Hf. specialize (Hf _ E). cbn in Hf.
    now rewrite Z.eqb_refl in Hf.
Qed.

Lemma current_proc_pid k q :
  get_current_proc k = Some q -> current_pid (cpu (hcore (dev k))) = Some (pid q).
Proof.
  unfold get_current_proc, get_current, find_by_id. destruct (current_pid _) as [a|]; [|discriminate].
  cbn [mbind option_bind]. destruct (find_slot _ _) as [[j s]|] eqn:Hf; [|discriminate]. cbn.
  apply find_slot_Some in Hf as (Hj & Hs & _). rewrite Hj. cbn. intros ->. cbn in Hs.
  apply Z.eqb_eq in Hs. now rewrite Hs.
Qed.

Lemma turn_free was k fuel kctx g :
  mutex_ok was None k ->
  exists k' p, acquire_turn fuel kctx g k = Done true k' /\
    current_pid (cpu (hcore (dev k))) = Some p /\ mutex_ok was (Some p) k' /\
    current_pid (cpu (hcore (dev k'))) = Some p /\
    exists c m, k' = set_io_lock m (set_dev (set_core c (dev k)) k) /\
      same_proc (hcore (dev k)) c /\ maddr m = maddr (io_lock k).
Proof.
  intros [Hb Hg (i & p & Hp & Hc)].
  destruct (guard_acquire_ok was k Hg) as (k1 & Hrun & Hm & Hh).
  pose proof (mutex_base_moved _ _ _ _ Hb Hm) as Hb1. destruct Hm as [M1 M2 M3 M4 M5 [M6 M7] (c1 & m1 & Mf)].
  unfold acquire_turn. rewrite (bind_run _ _ _ _ _ Hrun). unfold after_guard, gets at 1, bind at 1.
  rewrite (mb_lock _ _ _ Hb1). change (bool_decide (is_Some None)) with false.
  set (k2 := set_io_lock (mk_Mutex true (mx_guard (io_lock k1)) (mx_pid (io_lock k1)) (maddr (io_lock k1))) k1).
  destruct (current_proc k2 i p) as (q & Hq & Epid); [now rewrite <- Hp, <- M1|now rewrite <- Hc, <- M7|].
  set (k3 := set_io_lock (mk_Mutex true (mx_guard (io_lock k2)) (Some (pid q)) (maddr (io_lock k2))) k2).
  destruct (guard_release_ok was k3 Hh) as (k4 & Hrun4 & Hm4 & Ho4).
  assert (take_mutex k1 = Done tt k4) as Ht.
  { unfold take_mutex. rewrite (bind_run _ _ _ tt k2) by reflexivity.
    rewrite (bind_run _ _ _ tt k3); [exact Hrun4|]. unfold gets, bind. rewrite Hq. reflexivity. }
  rewrite (bind_run _ _ _ _ _ Ht). exists k4, (pid q). split; [reflexivity|].
  destruct Hm4 as [N1 N2 N3 N4 N5 [N6 N7] (c4 & m4 & Nf)]. destruct Hb1 as [B1 B2 B3 B4 B5].
  split; [congruence|]. split; [split; [split| |]|].
  - rewrite N1. exact B1.
  - now rewrite N3.
  - now rewrite N4.
  - discriminate.
  - now rewrite N5.
  - exact Ho4.
  - exists i, p. rewrite N1, N7. cbn [k3 k2 PROCESS_TABLE set_io_lock dev]. rewrite M1, M7. auto.
  - rewrite N7. change (dev k3) with (dev k1). rewrite M7. split; [congruence|].
    exists c4, m4. split; [rewrite Nf; unfold k3, k2; rewrite Mf; reflexivity|].
    rewrite Nf in N5, N6, N7. cbn in N5, N6, N7. split; [split; congruence|congruence].
Qed.

(** Going to sleep: the guard, if held, is given back, and another process is
    loaded. *)
Lemma svc_switches was owner fuel kctx x0 g k k' p :
  mutex_base was owner k ->
  (if x0 =? 0xDEAD then lock_held was 0 (hcore (dev k), mx_guard (io_lock k))
   else lock_open was 0 (hcore (dev k), mx_guard (io_lock k))) ->
  mjoin (PROCESS_TABLE k !! CURRENT_PROCESS k) = Some p ->
  (owner = None -> chan p <> maddr (io_lock k)) -> length (ex kctx) = 31%nat ->
  svc_enter fuel kctx x0 g k = Done tt k' -> mutex_ok was owner k'.
Proof.
  intros [B1 B2 B3 B4 Ha] Hh Hp Hch Hlen Hrun. unfold svc_enter in Hrun. unfold modify at 1, bind at 1 in Hrun.
  apply bind_done in Hrun as ([] & k2 & Haw & Hrun).
  apply awake_form in Haw as (h & E & Eh & _ & _ & _ & _ & _ & _ & _ & Ht).
  cbn [dev set_ectx PROCESS_TABLE] in *.
  assert (table_ok (PROCESS_TABLE k2)) as Ht2.
  { destruct Ht as [-> | ->]; [exact B1|]. unfold table_ok. now rewrite length_map_procs. }
  assert (CURRENT_PROCESS k2 = CURRENT_PROCESS k) as Hcur by (rewrite E; reflexivity).
  assert (ectx k2 = svc_ectx kctx x0 g) as Hec by (rewrite E; reflexivity).
  assert (io_lock k2 = io_lock k) as Hio by (rewrite E; reflexivity).
  assert (hcore (dev k2) = hcore (dev k)) as Hco by (rewrite E; exact Eh).
  assert (exists q, mjoin (PROCESS_TABLE k2 !! CURRENT_PROCESS k2) = Some q /\
            (owner = None -> chan q <> maddr (io_lock k))) as (q & Hq & Hqc).
  { rewrite Hcur. destruct Ht as [-> | ->]; [eauto|]. rewrite map_procs_lookup, Hp.
    eexists. split; [reflexivity|]. intros Ho. unfold wake. destruct (_ && _); [|auto]. cbn. lia. }
  assert (owner = None -> waits_on (maddr (io_lock k)) (PROCESS_TABLE k2) = false) as Hw.
  { intros Ho. destruct Ht as [-> | ->]; [auto|]. apply waits_on_wake. auto. }
  pose proof (lookup_lt_proc _ _ _ Ht2 Hq) as Hlt. unfold NPROC in Hlt.
  assert (get_current_process k2 = Some q) as Hgcp.
  { unfold get_current_process, find_by_ptable_index.
    replace (Z.of_nat (CURRENT_PROCESS k2) >=? MAX_PROCESSES) with false; [exact Hq|].
    unfold MAX_PROCESSES in *. symmetry. rewrite Z.geb_leb. apply Z.leb_gt. lia. }
  unfold handle_svc_el1, gets at 1, bind at 1 in Hrun. rewrite Hgcp in Hrun.
  apply bind_done in Hrun as ([] & k4 & Hbody & Hrun).
  unfold update_last_running_pctx, modify_slot, clear_current_process in Hbody. run_m in Hbody.
  rewrite Hq, Hec in Hbody. unfold ectx_x, svc_ectx, ectx_set_x in Hbody.
  destruct (ex kctx) as [|r0 [|r1 rs]]; [discriminate Hlen|discriminate Hlen|].
  cbn [ex nth insert list_insert] in Hbody. set (k3 := set_dev _ _) in Hbody.
  assert (io_lock k3 = io_lock k) as Hio3 by exact Hio.
  assert (mutex_base was owner k3) as Hb3.
  { split; [|now rewrite Hio3|now rewrite Hio3| |now rewrite Hio3].
    - unfold table_ok. cbn [k3 PROCESS_TABLE set_dev set_table]. now rewrite !length_update_slot.
    - intros Ho. rewrite Hio3. specialize (Hqc Ho). specialize (Hw Ho). apply waits_on_false.
      intros i p' Hp' Hs Hc. cbn [k3 PROCESS_TABLE set_dev set_table CURRENT_PROCESS] in Hp'.
      rewrite !mjoin_update_slot in Hp'. rewrite waits_on_false in Hw.
      destruct (decide (i = CURRENT_PROCESS k2)) as [->|]; [|exact (Hw i p' Hp' Hs Hc)].
      rewrite Hq in Hp'. injection Hp' as <-. now apply Hqc. }
  assert (forall P : core -> Prop, (forall c, ncli (cpu c) = ncli (cpu (hcore (dev k))) ->
    irq_unmasked c = irq_unmasked (hcore (dev k)) -> cid (cpu c) = cid (cpu (hcore (dev k))) ->
    interrupts_enabled (cpu c) = interrupts_enabled (cpu (hcore (dev k))) -> P c) -> P (hcore (dev k3))) as Hcore
    by (intros P HP; apply HP; cbn; now rewrite Hco).
  assert (exists k4', k4 = k4' /\ mutex_base was owner k4' /\
    lock_open was 0 (hcore (dev k4'), mx_guard (io_lock k4'))) as (? & <- & Hb4 & Ho4).
  { exists k4. split; [reflexivity|]. destruct (x0 =? 0xDEAD).
    - destruct (negb (g =? 0)); [|discriminate].
      assert (lock_held was 0 (hcore (dev k3), mx_guard (io_lock k3))) as Hh3.
      { destruct Hh as (G1 & G2 & G3). rewrite Hio3. cbn [fst snd] in *. apply Hcore. intros c C1 C2 C3 C4.
        split; [exact (nested_core _ _ _ _ G1 C1 C2 C4)|]. split; [exact G2|]. cbn. now rewrite C3. }
      destruct (guard_release_ok was k3 Hh3) as (k4' & Hrel & Hm & Ho). assert (k4 = k4') as -> by congruence.
      split; [exact (mutex_base_moved _ _ _ _ Hb3 Hm)|exact Ho].
    - injection Hbody as <-. split; [exact Hb3|]. destruct Hh as (G1 & G2). rewrite Hio3. cbn [fst snd] in *.
      apply Hcore. intros c C1 C2 C3 C4. split; [exact (nested_core _ _ _ _ G1 C1 C2 C4)|exact G2]. }
  apply bind_done in Hrun as ([] & k5 & Hrt & Hrun).
  apply reset_timer_form in Hrt as (h5 & -> & Hus).
  apply (schedule_keeps was owner fuel _ k') in Hrun; [exact Hrun| |].
  - destruct Hb4 as [M1 M2 M3 M4 M5]. now split.
  - cbn [dev set_dev io_lock]. now rewrite (us_core _ _ Hus).
Qed.

Lemma turn_busy was o k fuel kctx g b k' :
  mutex_ok was (Some o) k -> length (ex kctx) = 31%nat ->
  acquire_turn fuel kctx g k = Done b k' -> b = false /\ mutex_ok was (Some o) k'.
Proof.
  intros [Hb Hg Hc] Hlen Hrun. destruct (guard_acquire_ok was k Hg) as (k1 & Hr1 & Hm & Hh).
  pose proof (mutex_base_moved _ _ _ _ Hb Hm) as Hb1.
  unfold acquire_turn in Hrun. rewrite (bind_run _ _ _ _ _ Hr1) in Hrun.
  unfold after_guard, gets at 1, bind at 1 in Hrun. rewrite (mb_lock _ _ _ Hb1) in Hrun.
  change (bool_decide (is_Some (Some o))) with true in Hrun.
  apply bind_done in Hrun as ([] & k2 & Hpark & Hrun).
  apply park_form in Hpark as (p & Hp & ->). apply bind_done in Hrun as ([] & k3 & Hsvc & Hrun).
  injection Hrun as <- <-. split; [reflexivity|].
  revert Hsvc. set (k2 := set_table _ k1). intros Hsvc.
  refine (svc_switches was (Some o) fuel kctx 0xDEAD g k2 k3 (set_chan (maddr (io_lock k1))
    (set_block_reason (Some ForMutex) p)) _ Hh _ _ Hlen Hsvc).
  - destruct Hb1 as [B1 B2 B3 B4 B5]. split; [|exact B2|exact B3|discriminate|exact B5].
    unfold table_ok. cbn [k2 PROCESS_TABLE set_table]. now rewrite length_update_slot.
  - cbn [k2 PROCESS_TABLE set_table CURRENT_PROCESS]. rewrite mjoin_update_slot, decide_True, Hp by reflexivity.
    reflexivity.
  - discriminate.
Qed.

Lemma release_by_owner was o k :
  mutex_ok was (Some o) k ->
  current_pid (cpu (hcore (dev k))) = Some o ->
  exists k', mutex_release k = Done tt k' /\ mutex_ok was None k' /\
    PROCESS_TABLE k' = map_procs (wake (maddr (io_lock k))) (PROCESS_TABLE k) /\
    maddr (io_lock k') = maddr (io_lock k) /\ current_pid (cpu (hcore (dev k'))) = Some o /\
    exists c m, k' = set_table (PROCESS_TABLE k') (set_io_lock m (set_dev (set_core c (dev k)) k)) /\
      same_proc (hcore (dev k)) c.
Proof.
  intros [Hb Hg (i & p & Hp & Hc)] Ho. pose proof (mb_addr _ _ _ Hb) as Ha. destruct (guard_acquire_ok was k Hg) as (k1 & Hr1 & Hm & Hh).
  pose proof (mutex_base_moved _ _ _ _ Hb Hm) as [B1 B2 B3 B4 B5]. destruct Hm as [M1 M2 M3 M4 M5 [M6 M7] (c1 & m1 & Mf)].
  destruct (current_proc k1 i p) as (q & Hq & Epid); [now rewrite M1|now rewrite M7|].
  unfold mutex_release. rewrite (bind_run _ _ _ _ _ Hr1).
  rewrite (bind_run _ _ _ tt k1) by (unfold gets, bind; rewrite B2; reflexivity).
  rewrite (bind_run _ _ _ tt k1).
  2:{ unfold gets, bind. rewrite Hq, B3. rewrite bool_decide_eq_true_2 by congruence. reflexivity. }
  set (k2 := set_io_lock (mk_Mutex false (mx_guard (io_lock k1)) None (maddr (io_lock k1))) k1).
  rewrite (bind_run _ _ _ tt k2) by reflexivity.
  set (k3 := set_table (map_procs (wake (maddr (io_lock k1))) (PROCESS_TABLE k1)) k2).
  rewrite (bind_run _ _ _ tt k3) by reflexivity.
  destruct (guard_release_ok was k3 Hh) as (k4 & Hrun4 & [N1 N2 N3 N4 N5 [N6 N7] (c4 & m4 & Nf)] & Ho4).
  exists k4. split; [exact Hrun4|]. assert (PROCESS_TABLE k4 = map_procs (wake (maddr (io_lock k))) (PROCESS_TABLE k)) as Ht
    by (rewrite N1; cbn [k3 PROCESS_TABLE set_table]; now rewrite M1, M5).
  assert (maddr (io_lock k4) = maddr (io_lock k)) as Had by (rewrite N5; exact M5).
  split; [|split; [exact Ht|split; [exact Had|split;
    [rewrite N7; change (dev k3) with (dev k1); congruence|exists c4, m4; split;
       [rewrite Nf; unfold k3, k2; rewrite Mf; reflexivity|rewrite Nf in N6, N7; cbn in N6, N7; split; congruence]]]]].
  split; [split| |].
  - unfold table_ok. rewrite Ht, length_map_procs, <- M1. exact B1.
  - now rewrite N3.
  - now rewrite N4.
  - intros _. rewrite Ht, Had. apply waits_on_woken. lia.
  - now rewrite Had.
  - exact Ho4.
  - exists i, (wake (maddr (io_lock k)) p). rewrite Ht, map_procs_lookup, Hp. split; [reflexivity|].
    rewrite N7. change (dev k3) with (dev k1). rewrite M7, Hc. unfold wake. now destruct (_ && _).
Qed.

Lemma release_refused was owner k :
  mutex_ok was owner k -> current_pid (cpu (hcore (dev k))) <> owner -> exists e, mutex_release k = Panic e.
Proof.
  intros [Hb Hg (i & p & Hp & Hc)] Hne. destruct (guard_acquire_ok was k Hg) as (k1 & Hr1 & Hm & Hh).
  pose proof (mutex_base_moved _ _ _ _ Hb Hm) as [B1 B2 B3 B4 B5]. destruct Hm as [M1 M2 M3 M4 M5 [M6 M7] (c1 & m1 & Mf)].
  destruct (current_proc k1 i p) as (q & Hq & Epid); [now rewrite M1|now rewrite M7|].
  unfold mutex_release. rewrite (bind_run _ _ _ _ _ Hr1). destruct owner as [o|].
  - rewrite (bind_run _ _ _ tt k1) by (unfold gets, bind; rewrite B2; reflexivity).
    unfold gets, bind. rewrite Hq, B3. rewrite bool_decide_eq_false_2 by congruence. eexists. reflexivity.
  - unfold gets, bind. rewrite B2. change (bool_decide (is_Some None)) with false. eexists. reflexivity.
Qed.

(** ** Runs *)

(** What can happen to the mutex, with the pid of the process that has
    acquired and not yet released it. *)
Inductive mutex_step (fuel : nat) (g : Z) : kernel * option Z -> kernel * option Z -> Prop :=
| ms_acquired k o kctx k' p :
    length (ex kctx) = 31%nat -> acquire_turn fuel kctx g k = Done true k' ->
    current_pid (cpu (hcore (dev k))) = Some p -> mutex_step fuel g (k, o) (k', Some p)
| ms_asleep k o kctx k' :
    length (ex kctx) = 31%nat -> acquire_turn fuel kctx g k = Done false k' ->
    mutex_step fuel g (k, o) (k', o)
| ms_released k o k' :
    mutex_release k = Done tt k' -> mutex_step fuel g (k, o) (k', None)
| ms_slept k o kctx c r k' :
    length (ex kctx) = 31%nat -> c <> maddr (io_lock k) -> ectx_x 0 kctx <> 0xDEAD ->
    (sleep c r ;; svc_enter fuel kctx (ectx_x 0 kctx) (ectx_x 1 kctx)) k = Done tt k' ->
    mutex_step fuel g (k, o) (k', o)
| ms_switch k o k' :
    (timeslice_up ;; schedule_next fuel) k = Done tt k' -> mutex_step fuel g (k, o) (k', o)
| ms_wakeup k o c :
    mutex_step fuel g (k, o) (set_table (map_procs (wake c) (PROCESS_TABLE k)) k, o).

Lemma mutex_step_ok was fuel g k o k' o' :
  mutex_ok was o k -> mutex_step fuel g (k, o) (k', o') -> mutex_ok was o' k'.
Proof.
  intros Hok Hstep. inversion Hstep; subst; clear Hstep.
  - destruct o as [o|].
    + destruct (turn_busy was o k fuel kctx g true k') as [? _]; auto. discriminate.
    + destruct (turn_free was k fuel kctx g Hok) as (k1 & q & Hr & Hc & Hok1 & _). congruence.
  - destruct o' as [o|].
    + destruct (turn_busy was o k fuel kctx g false k') as [_ H]; auto.
    + destruct (turn_free was k fuel kctx g Hok) as (k1 & q & Hr & _). congruence.
  - destruct (decide (current_pid (cpu (hcore (dev k))) = o)) as [Heq|Hne].
    + destruct o as [o|].
      * destruct (release_by_owner was o k Hok Heq) as (k1 & Hr & H & _). congruence.
      * destruct (mo_current _ _ _ Hok) as (i & p & _ & Hc). congruence.
    + destruct (release_refused was o k Hok Hne) as [e He]. congruence.
  - match goal with H : (sleep _ _ ;; _) _ = _ |- _ => rename H into Hrun end.
    apply bind_done in Hrun as ([] & k1 & Hs & Hrun). unfold sleep in Hs.
    destruct (mjoin (PROCESS_TABLE k !! CURRENT_PROCESS k)) as [p|] eqn:Hp; [|discriminate]. injection Hs as <-.
    destruct Hok as [[B1 B2 B3 B4 B5] Hg Hc].
    eapply (svc_switches was o' fuel kctx (ectx_x 0 kctx)); [| | | |eassumption|exact Hrun].
    + split; auto; cbn [PROCESS_TABLE set_table io_lock].
      * unfold table_ok. now rewrite length_update_slot.
      * intros Ho. apply waits_on_update; [|auto]. intros q _ Hq. now contradiction Hq.
    + replace (ectx_x 0 kctx =? 0xDEAD) with false by (symmetry; now apply Z.eqb_neq). exact Hg.
    + cbn [PROCESS_TABLE set_table CURRENT_PROCESS]. rewrite mjoin_update_slot, decide_True, Hp by reflexivity.
      reflexivity.
    + intros _. cbn. assumption.
  - match goal with H : (timeslice_up ;; _) _ = _ |- _ => rename H into Hrun end.
    apply bind_done in Hrun as ([] & k1 & Hs & Hrun). unfold timeslice_up in Hs.
    destruct (mjoin (PROCESS_TABLE k !! CURRENT_PROCESS k)) as [p|] eqn:Hp; [|discriminate].
    unfold modify_slot, modify, bind in Hs. apply reset_timer_form in Hs as (h & -> & Hus).
    destruct Hok as [[B1 B2 B3 B4 B5] Hg Hc].
    apply (schedule_keeps was o' fuel _ k') in Hrun; [exact Hrun| |].
    + split; auto; cbn [PROCESS_TABLE set_table io_lock set_dev].
      * unfold table_ok. now rewrite length_update_slot.
      * intros Ho. apply waits_on_update; [|auto]. discriminate.
    + cbn [dev set_dev io_lock set_table]. now rewrite (us_core _ _ Hus).
  - destruct Hok as [[B1 B2 B3 B4 B5] Hg (i & p & Hp & Hc)]. split; [split; auto| |]; cbn [PROCESS_TABLE set_table].
    + unfold table_ok. now rewrite length_map_procs.
    + intros Ho. apply waits_on_wake. auto.
    + exact Hg.
    + exists i, (wake c p). rewrite map_procs_lookup, Hp. split; [reflexivity|]. cbn [dev set_table]. rewrite Hc.
      unfold wake. now destruct (_ && _).
Qed.

(** C16. The mutex excludes and never loses a wake-up.  Along any interleaving
    of acquire turns, releases, sleeps on other channels, wake-ups and context
    switches, the lock flag and the recorded pid are those of the one process
    between its acquire and its release; while there is none, nobody sleeps on
    the mutex; an acquire turn succeeds exactly when there is none; and a
    release returns only to the owner, after waking every sleeper. *)
Theorem mutex_excludes was fuel g k o k' o' :
  mutex_ok was o k -> rtc (mutex_step fuel g) (k, o) (k', o') ->
  mx_lock (io_lock k') = bool_decide (is_Some o') /\ mx_pid (io_lock k') = o' /\
  (o' = None -> waits_on (maddr (io_lock k')) (PROCESS_TABLE k') = false) /\
  (forall kctx b k2, length (ex kctx) = 31%nat -> acquire_turn fuel kctx g k' = Done b k2 ->
     b = bool_decide (o' = None)) /\
  (forall k2, mutex_release k' = Done tt k2 ->
     o' <> None /\ current_pid (cpu (hcore (dev k'))) = o' /\
     waits_on (maddr (io_lock k2)) (PROCESS_TABLE k2) = false).
Proof.
  intros Hok Hrun. assert (mutex_ok was o' k') as Hok'.
  { remember (k, o) as a eqn:Ea. remember (k', o') as b eqn:Eb. revert k o Ea Hok.
    induction Hrun as [a|a b c Hs Hrun IH]; intros k o -> Hok; [congruence|].
    destruct b as [k1 o1]. apply (IH Eb k1 o1 eq_refl). exact (mutex_step_ok _ _ _ _ _ _ _ Hok Hs). }
  pose proof Hok' as [[B1 B2 B3 B4 B5] Hg Hc]. split; [exact B2|]. split; [exact B3|]. split; [exact B4|]. split.
  - intros kctx b k2 Hlen Hturn. destruct o' as [o'|].
    + now destruct (turn_busy was o' k' fuel kctx g b k2 Hok' Hlen Hturn) as [-> _].
    + destruct (turn_free was k' fuel kctx g Hok') as (k1 & q & Hr & _). rewrite Hr in Hturn.
      injection Hturn as <- _. reflexivity.
  - intros k2 Hrel. destruct (decide (current_pid (cpu (hcore (dev k'))) = o')) as [Heq|Hne].
    + destruct o' as [o'|]; [|destruct Hc as (i & p & _ & Hc); congruence].
      destruct (release_by_owner was o' k' Hok' Heq) as (k1 & Hr & H & _).
      split; [discriminate|]. split; [exact Heq|]. assert (k1 = k2) as <- by congruence.
      now apply (mb_waiters _ _ _ (mo_base _ _ _ H)).
    + destruct (release_refused was o' k' Hok' Hne) as [e He]. congruence.
Qed.

(** Process 1 of the demonstration kernel, which runs, takes the mutex. *)
Definition demo_kernel_running : kernel :=
  set_dev (set_cpu_pid (Some 1) demo_hw) demo_kernel.

Lemma demo_mutex_ok : mutex_ok true None demo_kernel_running.
Proof.
  split; [split| |].
  - reflexivity.
  - reflexivity.
  - reflexivity.
  - intros _. vm_compute. reflexivity.
  - split; reflexivity.
  - split; [|reflexivity]. split; [reflexivity|unfold U64; simpl; lia|reflexivity|intros H; discriminate H].
  - exists 0%nat, (demo_process 1 0 Running). split; reflexivity.
Qed.

Lemma mutex_excludes_witness :
  exists k', (mutex_ok true None demo_kernel_running /\
    rtc (mutex_step 5 8) (demo_kernel_running, None) (k', Some 1)) /\
  mx_lock (io_lock k') = bool_decide (is_Some (Some 1)) /\ mx_pid (io_lock k') = Some 1 /\
  (Some 1 = None -> waits_on (maddr (io_lock k')) (PROCESS_TABLE k') = false) /\
  (forall kctx b k2, length (ex kctx) = 31%nat -> acquire_turn 5 kctx 8 k' = Done b k2 ->
     b = bool_decide (Some 1 = None)) /\
  (forall k2, mutex_release k' = Done tt k2 ->
     Some 1 <> None /\ current_pid (cpu (hcore (dev k'))) = Some 1 /\
     waits_on (maddr (io_lock k2)) (PROCESS_TABLE k2) = false).
Proof.
  destruct (turn_free true demo_kernel_running 5 demo_ectx 8 demo_mutex_ok) as (k' & p & Hr & Hc & _).
  assert (p = 1) as -> by (change (Some 1 = Some p) in Hc; congruence).
  assert (rtc (mutex_step 5 8) (demo_kernel_running, None) (k', Some 1)) as Hrtc
    by (apply rtc_once; apply ms_acquired with demo_ectx; [reflexivity|exact Hr|reflexivity]).
  exists k'. split; [exact (conj demo_mutex_ok Hrtc)|].
  exact (mutex_excludes true 5 8 demo_kernel_running None k' (Some 1) demo_mutex_ok Hrtc).
Defined.
