(* ===== verification/Io.v ===== *)
(** The console of src/src/kernel/io.rs: reading lines with echo and editing,
    polling and printing, over the UART and KERNEL_IO.lock. *)

From Stdlib Require Import ZArith Lia.
From stdpp Require Import base strings numbers list.
From S2P Require Import Prelude Memory Frames PageTable KernelStack Interrupts Devices Processes.
From S2P Require Import Scheduler Sleep Mutex.

Local Open Scope Z_scope.

Section Io.
  (** The thread that runs: see [Sleep]; [fuel] bounds each loop. *)
  Context (fuel : nat) (kctx : ExceptionContext) (resume : M kernel unit) (guard_ptr : Z).

Definition io_acquire : M kernel unit := mutex_acquire fuel kctx resume guard_ptr.
Definition device_write (c : Z) : M kernel unit := zoom dev_lens (write_byte c).

(** [KernelIO::init] *)
Definition io_init : M kernel unit :=
  io_acquire ;; zoom dev_lens uart_init ;; mutex_release.

(** The inner loop of [getch], with the lock held before and after it. *)
Fixpoint getch_poll (n : nat) : M kernel Z :=
  let* c := zoom dev_lens poll_byte in
  match c with
  | Some c => ret c
  | None =>
      mutex_release ;;
      sleep_on fuel kctx resume AWAITING_UART_READ AwaitingIO ;;
      io_acquire ;;
      match n with O => diverge | S n' => getch_poll n' end
  end.

Fixpoint getch (n : nat) : M kernel Z :=
  io_acquire ;;
  let* c := getch_poll fuel in
  if (c =? 8) || (c =? 127) then mutex_release ;; ret c
  else if c =? 13 then device_write 10 ;; mutex_release ;; ret 10
  else if c =? 10 then mutex_release ;; match n with O => diverge | S n' => getch n' end
  else device_write c ;; mutex_release ;; ret c.

(** The loop of [read]: [store i c] is [buf[i] = c], [len] is [buf.len()]. *)
Fixpoint read_loop (n : nat) (len : nat) (store : nat -> Z -> M kernel unit) (r : nat) : M kernel nat :=
  if (r <? len)%nat then
    match n with
    | O => diverge
    | S n' =>
        let* c := getch fuel in
        if (c =? 8) || (c =? 127) then
          match r with
          | O => read_loop n' len store r
          | S r' =>
              io_acquire ;;
              device_write 8 ;; device_write 32 ;; device_write 8 ;;
              mutex_release ;;
              read_loop n' len store r'
          end
        else
          store r c ;;
          if c =? 10 then ret (S r) else read_loop n' len store (S r)
    end
  else ret r.

Definition read (len : nat) (store : nat -> Z -> M kernel unit) : M kernel nat :=
  read_loop fuel len store 0.

Definition poll_char : M kernel (option Z) :=
  let* maybe_some_byte := zoom dev_lens poll_byte in
  match maybe_some_byte with
  | Some c =>
      if (c =? 8) || (c =? 127) then ret (Some c)
      else if c =? 13 then io_acquire ;; device_write 10 ;; mutex_release ;; ret (Some 10)
      else if c =? 10 then ret None
      else io_acquire ;; device_write c ;; mutex_release ;; ret (Some c)
  | None => ret None
  end.

(** The loop of [write] and of [IOWriter::write_str]. *)
Definition write_bytes (s : bytes) : M kernel unit :=
  for_in s (fun b => (if b =? 10 then device_write 13 else skip) ;; device_write b).

Definition write (buf : bytes) : M kernel unit :=
  io_acquire ;; write_bytes buf ;; mutex_release.

(** [print], with the formatted text as its bytes. *)
Definition print (s : bytes) : M kernel unit :=
  io_acquire ;; write_bytes s ;; mutex_release.
End Io.

(** ** What using the console leaves alone *)

(** Only the console's mutex, the state of the core's interrupt mask, the
    UART's locks and the UART moved: not the memory, the processes, the table's
    lock, the registers of the exception, the timer, or the other devices. *)
Record console_only (k k' : kernel) : Prop := {
  co_form : k' = set_io_lock (io_lock k') (set_dev (dev k') k);
  co_dev : hw_frame (dev k) (dev k');
  co_addr : maddr (io_lock k') = maddr (io_lock k);
}.

Lemma console_only_trans k1 k2 k3 : console_only k1 k2 -> console_only k2 k3 -> console_only k1 k3.
Proof.
  intros [A1 A2 A3] [B1 B2 B3]. split; [|exact (hw_frame_trans _ _ _ A2 B2)|congruence].
  rewrite B1, A1. reflexivity.
Qed.

Lemma console_only_refl k : console_only k k.
Proof. split; [now destruct k|apply hw_frame_refl|reflexivity]. Qed.

Lemma console_only_core k c m :
  same_proc (hcore (dev k)) c -> maddr m = maddr (io_lock k) ->
  console_only k (set_io_lock m (set_dev (set_core c (dev k)) k)).
Proof. intros Hc Hm. split; [reflexivity|split; auto; exact Hc|exact Hm]. Qed.

(** ** One thread at the console *)

Section Console.
  (** What the other processes may do to the memory while this one sleeps. *)
  Context (keeps : relation kstate) `{!PreOrder keeps}.

(** The thread of process [me] runs, the UART is idle, and [owner] holds the
    console's mutex. *)
Record io_state (was : bool) (me : Z) (owner : option Z) (k : kernel) : Prop := {
  is_mutex : mutex_ok was owner k;
  is_hw : hw_ok was 0 (dev k);
  is_me : exists p, mjoin (PROCESS_TABLE k !! CURRENT_PROCESS k) = Some p /\ pid p = me /\ state p = Running;
  is_pid : current_pid (cpu (hcore (dev k))) = Some me;
}.

(** What the thread did: [out] went out, [got] bytes were taken in. *)
Record did (k k' : kernel) (out : list Z) (got : nat) : Prop := {
  dd_stk : keeps (stk k) (stk k');
  dd_ectx : ectx k' = ectx k;
  dd_tx : tx (dev k') = tx (dev k) ++ out;
  dd_rx : rx (dev k') = rx (dev k);
  dd_rx_pos : rx_pos (dev k') = (rx_pos (dev k) + got)%nat;
  dd_lsr : lsr (dev k') = lsr (dev k);
  dd_lsr_pos : (lsr_pos (dev k) <= lsr_pos (dev k'))%nat;
  dd_patience : patience (dev k') = patience (dev k);
  dd_frq : cntfrq (dev k') = cntfrq (dev k);
  dd_cnt : cntpct (dev k') = cntpct (dev k);
}.

Lemma did_refl k : did k k [] 0.
Proof. split; auto; [reflexivity|now rewrite app_nil_r]. Qed.

Lemma did_trans k1 k2 k3 o1 o2 g1 g2 :
  did k1 k2 o1 g1 -> did k2 k3 o2 g2 -> did k1 k3 (o1 ++ o2) (g1 + g2).
Proof.
  intros [A1 A2 A3 A4 A5 A6 A7 A8 A9 A10] [B1 B2 B3 B4 B5 B6 B7 B8 B9 B10].
  split; try congruence; [now transitivity (stk k2)|now rewrite B3, A3, app_assoc|lia|lia].
Qed.

(** Nothing but the core and the mutex moved. *)
Lemma did_core k c m t : did k (set_table t (set_io_lock m (set_dev (set_core c (dev k)) k))) [] 0.
Proof. split; cbn; auto; [reflexivity|now rewrite app_nil_r]. Qed.

Lemma hw_ok_core was h c : hw_ok was 0 h -> nested was 0 c -> hw_ok was 0 (set_core c h).
Proof. intros [H1 H2 H3 H4 H5] Hn. split; auto. Qed.

Lemma io_acquire_ok fuel kctx resume g was me k :
  io_state was me None k ->
  exists k', io_acquire fuel kctx resume g k = Done tt k' /\ io_state was me (Some me) k' /\
    did k k' [] 0 /\ console_only k k'.
Proof.
  intros [H1 H2 (p & Hp & Hpid) H4].
  destruct (turn_free was k fuel kctx g H1) as (k' & q & Hrun & Hq & Hok & Hcur & c & m & E & Hsp & Hma).
  assert (q = me) as -> by congruence. exists k'. split.
  - unfold io_acquire. rewrite mutex_acquire_turns. unfold acquire_turn in Hrun.
    apply bind_done in Hrun as ([] & k1 & Hr1 & Hrun). rewrite (bind_run _ _ _ _ _ Hr1).
    pose proof Hrun as Hag. unfold after_guard, gets at 1, bind at 1 in Hrun.
    destruct (mx_lock (io_lock k1)) eqn:Hl.
    { apply bind_done in Hrun as ([] & ? & _ & Hrun). apply bind_done in Hrun as ([] & ? & _ & Hrun). discriminate. }
    destruct fuel; cbn [turns_until]; rewrite (bind_run _ _ _ false k1) by (unfold gets; now rewrite Hl);
      rewrite (bind_run _ _ _ (ectx k1) k1) by reflexivity; now rewrite (bind_run _ _ _ _ _ Hag).
  - assert (PROCESS_TABLE k' = PROCESS_TABLE k) as Ht by (rewrite E; reflexivity).
    split; [split|split; [|rewrite E; now apply console_only_core]].
    + exact Hok.
    + destruct Hok as [_ [Hn _] _]. rewrite E in *. now apply hw_ok_core.
    + exists p. rewrite Ht. replace (CURRENT_PROCESS k') with (CURRENT_PROCESS k) by (rewrite E; reflexivity). auto.
    + exact Hcur.
    + rewrite E. exact (did_core k c m (PROCESS_TABLE k)).
Qed.

Lemma io_release_ok was me k :
  io_state was me (Some me) k ->
  exists k', mutex_release k = Done tt k' /\ io_state was me None k' /\ did k k' [] 0.
Proof.
  intros [H1 H2 (p & Hp & Hpid) H4].
  destruct (release_by_owner was me k H1 H4) as (k' & Hrun & Hok & Ht & _ & Hcur & c & m & E & _).
  exists k'. split; [exact Hrun|]. split.
  - split; [exact Hok| | |].
    + destruct Hok as [_ [Hn _] _]. rewrite E in *. now apply hw_ok_core.
    + exists p. rewrite Ht, map_procs_lookup.
      replace (CURRENT_PROCESS k') with (CURRENT_PROCESS k) by (rewrite E; reflexivity). rewrite Hp.
      split; [|exact Hpid]. cbn. unfold wake, is_state. now rewrite (proj2 Hpid).
    + exact Hcur.
  - rewrite E. exact (did_core k c m (PROCESS_TABLE k')).
Qed.

(** Using the UART while holding the console. *)
Lemma io_dev_ok {A} was me o k (m : M hw A) a h' :
  io_state was me o k -> m (dev k) = Done a h' -> hw_ok was 0 h' -> hw_frame (dev k) h' ->
  zoom dev_lens m k = Done a (set_dev h' k) /\ io_state was me o (set_dev h' k).
Proof.
  intros [[[B1 B2 B3 B4 B5] [G1 G2] (i & q & Hq & Hc)] H2 H3 H4] Hrun Hok [[F1 F2] _ _ _ _ _].
  split; [apply zoom_done; eauto|]. split; [split; [split; auto|split; [apply Hok|exact G2]|]|exact Hok|exact H3|].
  - exists i, q. cbn [dev set_dev]. rewrite F2. auto.
  - cbn [dev set_dev]. now rewrite F2.
Qed.

Lemma device_write_ok was me o k c :
  io_state was me o k ->
  exists k', device_write c k = Done tt k' /\ io_state was me o k' /\ did k k' [c] 0.
Proof.
  intros H. destruct (write_byte_ok was 0 (dev k) c (is_hw _ _ _ _ H)) as (h' & Hrun & Hok & Hf & Htx & Hrx & Hle).
  destruct (io_dev_ok was me o k _ _ _ H Hrun Hok Hf) as [Hz Hs]. exists (set_dev h' k).
  split; [exact Hz|]. split; [exact Hs|]. destruct Hf as [F1 F2 F3 F4 F5 (F6 & F7 & F8 & F9 & F10)].
  split; cbn; auto; [reflexivity|lia].
Qed.

(** [b] as the console shows it. *)
Definition crlf (b : Z) : list Z := if b =? 10 then [13; 10] else [b].

Lemma write_bytes_ok was me o k s :
  io_state was me o k ->
  exists k', write_bytes s k = Done tt k' /\ io_state was me o k' /\ did k k' (s ≫= crlf) 0.
Proof.
  revert k. induction s as [|b s IH]; intros k H; cbn [write_bytes for_in mbind list_bind].
  { exists k. split; [reflexivity|]. split; [exact H|apply did_refl]. }
  assert (exists k1, (if b =? 10 then device_write 13 else skip) k = Done tt k1 /\ io_state was me o k1 /\
            did k k1 (if b =? 10 then [13] else []) 0) as (k1 & Hr1 & H1 & D1).
  { destruct (b =? 10); [now apply device_write_ok|]. exists k. split; [reflexivity|]. split; [exact H|apply did_refl]. }
  destruct (device_write_ok was me o k1 b H1) as (k2 & Hr2 & H2 & D2).
  destruct (IH k2 H2) as (k3 & Hr3 & H3 & D3). exists k3. split.
  - unfold write_bytes. cbn [for_in]. rewrite (bind_run _ _ k tt k2); [exact Hr3|].
    rewrite (bind_run _ _ _ _ _ Hr1). exact Hr2.
  - split; [exact H3|]. replace (crlf b) with ((if b =? 10 then [13] else []) ++ [b])
      by (unfold crlf; destruct (Z.eqb_spec b 10); [now subst|reflexivity]).
    exact (did_trans _ _ _ _ _ _ _ (did_trans _ _ _ _ _ _ _ D1 D2) D3).
Qed.

Lemma print_ok fuel kctx resume g was me k s :
  io_state was me None k ->
  exists k', print fuel kctx resume g s k = Done tt k' /\ io_state was me None k' /\
             did k k' (s ≫= crlf) 0.
Proof.
  intros H. destruct (io_acquire_ok fuel kctx resume g was me k H) as (k1 & Hr1 & H1 & D1 & _).
  destruct (write_bytes_ok was me (Some me) k1 s H1) as (k2 & Hr2 & H2 & D2).
  destruct (io_release_ok was me k2 H2) as (k3 & Hr3 & H3 & D3).
  exists k3. unfold print. rewrite (bind_run _ _ _ _ _ Hr1), (bind_run _ _ _ _ _ Hr2). split; [exact Hr3|].
  split; [exact H3|]. pose proof (did_trans _ _ _ _ _ _ _ (did_trans _ _ _ _ _ _ _ D1 D2) D3) as D.
  now rewrite app_nil_r in D.
Qed.

(** What printing leaves alone. *)
Lemma write_bytes_only was me o s k k' :
  io_state was me o k -> write_bytes s k = Done tt k' -> console_only k k'.
Proof.
  assert (forall c k k', io_state was me o k -> device_write c k = Done tt k' -> io_state was me o k' /\ console_only k k') as Hw.
  { intros c k0 k1 H Hrun. destruct (write_byte_ok was 0 (dev k0) c (is_hw _ _ _ _ H)) as (h & Hr & Hok & Hf & _).
    destruct (io_dev_ok was me o k0 _ _ _ H Hr Hok Hf) as [Hz Hs]. unfold device_write in Hrun. rewrite Hz in Hrun.
    injection Hrun as <-. split; [exact Hs|]. split; [now destruct k0|exact Hf|reflexivity]. }
  revert k. induction s as [|b s IH]; intros k H Hrun; [injection Hrun as <-; apply console_only_refl|].
  cbn in Hrun. apply bind_done in Hrun as ([] & k2 & Hrun & Hrest). apply bind_done in Hrun as ([] & k1 & H1 & H2).
  assert (io_state was me o k1 /\ console_only k k1) as [S1 C1].
  { destruct (b =? 10); [now apply (Hw 13)|]. injection H1 as <-. split; [exact H|apply console_only_refl]. }
  destruct (Hw b k1 k2 S1 H2) as [S2 C2].
  exact (console_only_trans _ _ _ C1 (console_only_trans _ _ _ C2 (IH k2 S2 Hrest))).
Qed.

Lemma print_only fuel kctx resume g was me k s k' :
  io_state was me None k -> print fuel kctx resume g s k = Done tt k' -> console_only k k'.
Proof.
  intros H Hrun. destruct (io_acquire_ok fuel kctx resume g was me k H) as (k1 & Hr1 & H1 & _ & C1).
  unfold print in Hrun. rewrite (bind_run _ _ _ _ _ Hr1) in Hrun. apply bind_done in Hrun as ([] & k2 & Hr2 & Hr3).
  pose proof (write_bytes_only was me _ s k1 k2 H1 Hr2) as C2. destruct (write_bytes_ok was me (Some me) k1 s H1) as (k2' & Hr2' & H2 & _).
  assert (k2' = k2) as -> by congruence. pose proof (console_only_trans _ _ _ C1 C2) as C12.
  destruct (release_by_owner was me k2 (is_mutex _ _ _ _ H2) (is_pid _ _ _ _ H2)) as (k3 & Hr3' & _ & Ht & Ha & _ & c & m & E & Hc).
  assert (k3 = k') as -> by congruence. apply (console_only_trans _ _ _ C12).
  assert (PROCESS_TABLE k2 = PROCESS_TABLE k) as Et by (rewrite (co_form _ _ C12); reflexivity).
  rewrite wake_none in Ht by (rewrite Et, (co_addr _ _ C12); apply (mb_waiters _ _ _ (mo_base _ _ _ (is_mutex _ _ _ _ H))); reflexivity).
  rewrite Ht in E. assert (maddr m = maddr (io_lock k2)) as Hm by (rewrite <- Ha, E; reflexivity).
  rewrite E. destruct (console_only_core k2 c m Hc Hm) as [D1 D2 D3]. split; [|exact D2|exact D3]. destruct k2; reflexivity.
Qed.

(** ** Sleeping for input *)

(** The timer can be programmed for a time slice at any time. *)
Definition timer_fits (h : hw) : Prop :=
  cntfrq h * TIMESLICE_MILISECONDS < U64 /\
  forall n, cntpct h n + cntfrq h * TIMESLICE_MILISECONDS / 1000 < U64.

(** From the [N]th look on the UART has a byte to read. *)
Definition uart_settles (N : nat) (h : hw) : Prop :=
  forall n, (N <= n)%nat -> Z.land (lsr h n) 1 = 1.

Lemma reset_timer_ok k :
  timer_fits (dev k) -> exists h, reset_timer k = Done tt (set_dev h k) /\ uart_same (dev k) h /\
    cntfrq h = cntfrq (dev k) /\ cntpct h = cntpct (dev k).
Proof.
  intros [H1 H2]. specialize (H2 (cnt_pos (dev k))). unfold reset_timer, zoom. cbn [view dev_lens].
  unfold set_milliseconds, timer_enable, read_cnt, read_frq, set_cval, write_ctl, read_ctl, expect, checked_mul64.
  run_m. rewrite (proj2 (Z.ltb_lt _ _) H1). cbn [cntpct set_timer cnt_pos cntfrq]. unfold checked_add64.
  rewrite (proj2 (Z.ltb_lt _ _) H2). eexists. split; [reflexivity|]. split; [split; reflexivity|]. split; reflexivity.
Qed.

Lemma wake_running_id c p : state p = Running -> wake c p = p.
Proof. intros H. unfold wake, is_state. now rewrite H. Qed.

(** The process is in the table. *)
Definition present (me : Z) (k : kernel) : Prop :=
  exists i p, mjoin (PROCESS_TABLE k !! i) = Some p /\ pid p = me.

Lemma present_slot me f j k :
  (forall p, pid (f p) = pid p) -> present me k -> present me (set_table (update_slot j f (PROCESS_TABLE k)) k).
Proof.
  intros Hf (i & p & Hp & Hpid). exists i, (if decide (i = j) then f p else p).
  cbn [PROCESS_TABLE set_table]. rewrite mjoin_update_slot. destruct (decide (i = j)); rewrite Hp; split; auto.
  now rewrite Hf.
Qed.

Lemma present_awake me k k1 : present me k -> awake_common_chans k = Done tt k1 -> present me k1.
Proof.
  intros (i & p & Hp & Hpid) Haw. unfold present.
  apply awake_form in Haw as (h & _ & _ & _ & _ & _ & _ & _ & _ & _ & [-> | ->]); [now exists i, p|].
  exists i, (wake AWAITING_UART_READ p). rewrite map_procs_lookup, Hp. split; [reflexivity|].
  unfold wake. now destruct (_ && _).
Qed.

Lemma present_schedule me fuel k k' : present me k -> schedule_next fuel k = Done tt k' -> present me k'.
Proof.
  intros H Hrun. destruct (schedule_next_inv (present me) fuel k k') as (i & k1 & H1 & Hl); [auto| |exact H|exact Hrun|].
  - intros k0 k1. apply present_awake.
  - apply load_run in Hl as (p & _ & ->). exact (present_slot me (set_state Running) i k1 (fun _ => eq_refl) H1).
Qed.

(** The thread gives up the core to wait for input, and another is loaded. *)
Lemma svc_waits fuel kctx was me k p N :
  io_state was me None k -> mjoin (PROCESS_TABLE k !! CURRENT_PROCESS k) = Some p ->
  state p = Running -> chan p = AWAITING_UART_READ ->
  length (ex kctx) = 31%nat -> ectx_x 0 kctx <> 0xDEAD ->
  timer_fits (dev k) -> uart_settles N (dev k) -> (N < fuel)%nat ->
  exists k', svc_enter fuel kctx (ectx_x 0 kctx) (ectx_x 1 kctx) k = Done tt k' /\
    mutex_ok was None k' /\ hw_ok was 0 (dev k') /\ present (pid p) k' /\ stk k' = stk k /\
    did k (set_ectx (ectx k) k') [] 0.
Proof.
  intros [Hmx Hhw _ _] Hp Hs Hc Hlen Hx0 Ht Hset HN.
  pose proof Hmx as [[B1 B2 B3 B4 B5] Hg Hcur].
  set (k0 := set_ectx (svc_ectx kctx (ectx_x 0 kctx) (ectx_x 1 kctx)) k).
  destruct (awake_run k0 B1) as (k1 & Haw & A1 & A2 & A3 & A4 & A5 & _ & _).
  pose proof (awake_form _ _ Haw) as (h & E & Eh & Ew & Er & El & Ex & Exp & Et & Ep & Htab).
  assert (mjoin (PROCESS_TABLE k1 !! CURRENT_PROCESS k1) = Some p) as Hp1.
  { rewrite A1. destruct Htab as [-> | ->]; [exact Hp|]. rewrite map_procs_lookup.
    change (PROCESS_TABLE k0) with (PROCESS_TABLE k). change (CURRENT_PROCESS k0) with (CURRENT_PROCESS k).
    rewrite Hp. cbn. now rewrite wake_running_id. }
  assert (table_ok (PROCESS_TABLE (asleep k1))) as Hta
    by (unfold table_ok; cbn [asleep PROCESS_TABLE set_dev set_table]; now rewrite !length_update_slot).
  pose proof (proj1 (awake_around _ _ Haw)) as (T1 & _ & _ & T2 & [_ [M1 M2] M3 M4 [M5 M6] M7 M8 [M9 M10]]).
  assert (timer_fits (dev (asleep k1))) as Hta2.
  { unfold timer_fits. change (cntfrq (dev (asleep k1))) with (cntfrq (dev k1)).
    change (cntpct (dev (asleep k1))) with (cntpct (dev k1)). rewrite M9, M10. exact Ht. }
  destruct (reset_timer_ok (asleep k1) Hta2) as (h2 & Hrt & [U1 U2 U3 U4 U5 U6 U7 U8 U9] & Hfr & Hct).
  destruct (schedule_next_total fuel N (set_dev h2 (asleep k1)) Hta) as (k' & Hsch).
  { cbn [CURRENT_PROCESS set_dev asleep set_table]. exact (lookup_lt_proc _ _ _ A5 Hp1). }
  { destruct (waits_on AWAITING_UART_READ _) eqn:Hw; [reflexivity|]. rewrite waits_on_false in Hw.
    exfalso. exact (Hw (CURRENT_PROCESS k1) _ (asleep_slot k1 p Hp1) eq_refl Hc). }
  { exact HN. }
  { intros n Hn. cbn [dev set_dev]. rewrite U4. cbn [asleep dev set_dev set_cpu_pid]. cbn. rewrite A3. now apply Hset. }
  assert (svc_enter fuel kctx (ectx_x 0 kctx) (ectx_x 1 kctx) k = Done tt k') as Hrun.
  { unfold svc_enter. rewrite (bind_run _ _ _ tt k0) by reflexivity. rewrite (bind_run _ _ _ _ _ Haw).
    rewrite (handle_svc_run fuel k1 p A5 Hp1); [now rewrite (bind_run _ _ _ _ _ Hrt)|].
    rewrite A2. cbn [k0 ectx set_ectx]. now rewrite svc_ectx_x0. }
  exists k'. split; [exact Hrun|].
  assert (mutex_ok was None k') as Hmx'.
  { refine (svc_switches was None fuel kctx (ectx_x 0 kctx) (ectx_x 1 kctx) k k' p _ _ Hp _ Hlen Hrun).
    - now split.
    - replace (ectx_x 0 kctx =? 0xDEAD) with false by (symmetry; now apply Z.eqb_neq). exact Hg.
    - intros _. lia. }
  split; [exact Hmx'|].
  assert (present (pid p) k') as Hpr.
  { refine (present_schedule _ _ _ _ _ Hsch).
    apply (present_slot (pid p) (set_state Blocked) (CURRENT_PROCESS k1)
             (set_table (update_slot (CURRENT_PROCESS k1) (set_pctx (from_ectx (ectx k1))) (PROCESS_TABLE k1)) k1)); [auto|].
    apply present_slot; [auto|]. now exists (CURRENT_PROCESS k1), p. }
  apply schedule_next_around in Hsch as (S1 & _ & _ & S2 & [_ [L1 L2] L3 L4 [L5 L6] L7 L8 [L9 L10]]).
  assert (looked (dev k) (set_core (hcore (dev k)) (dev k'))) as [_ [N1 N2] N3 N4 [N5 N6] N7 N8 [N9 N10]].
  { split; cbn; split_and?; auto; cbn in *; try congruence. lia. }
  cbn in N1, N2, N3, N4, N5, N6, N7, N8, N9, N10. split; [|split; [exact Hpr|split]].
  - destruct Hmx' as [_ [Hn _] _]. destruct Hhw as [V1 V2 V3 V4 V5]. split; [exact Hn| | |exact V4|].
    + now rewrite N1.
    + now rewrite N2.
    + intros q. destruct (V5 q) as (j & Hj & Hb). exists j. rewrite N8, N3. auto.
  - rewrite S1. cbn. exact T1.
  - split; cbn; [rewrite S1; cbn; rewrite T1; reflexivity|reflexivity|now rewrite N7, app_nil_r|exact N5|lia
      |exact N3|exact N4|exact N8|exact N9|exact N10].
Qed.

(** The other processes give the core back to a sleeping process of the table
    with the console idle, without having used the UART's data register. *)
Definition resumes (was : bool) (me : Z) (resume : M kernel unit) : Prop :=
  forall k1, mutex_ok was None k1 -> hw_ok was 0 (dev k1) -> present me k1 ->
    exists k2, resume k1 = Done tt k2 /\ io_state was me None k2 /\
               did k1 (set_ectx (ectx k1) k2) [] 0.

(** A thread of the kernel that may sleep for input: its registers and its
    loops' fuel are as the code needs them. *)
Record thread_ok (fuel : nat) (kctx : ExceptionContext) (N : nat) : Prop := {
  th_regs : length (ex kctx) = 31%nat;
  th_x0 : ectx_x 0 kctx <> 0xDEAD;
  th_fuel : (N < fuel)%nat;
}.

Lemma io_state_ectx was me o c k : io_state was me o k -> io_state was me o (set_ectx c k).
Proof. intros [[[B1 B2 B3 B4 B5] Hg Hc] H2 H3 H4]. split; [split; [split|..]|..]; auto. Qed.

Lemma sleep_round fuel kctx resume was me k N :
  thread_ok fuel kctx N -> resumes was me resume -> io_state was me None k ->
  timer_fits (dev k) -> uart_settles N (dev k) ->
  exists k', sleep_on fuel kctx resume AWAITING_UART_READ AwaitingIO k = Done tt k' /\
    io_state was me None k' /\ did k k' [] 0.
Proof.
  intros [T1 T2 T3] Hres Hst Ht Hset. pose proof (is_me _ _ _ _ Hst) as (p & Hp & Hpid & Hrun).
  set (f := fun p => set_block_reason (Some AwaitingIO) (set_chan AWAITING_UART_READ p)).
  set (k0 := set_table (update_slot (CURRENT_PROCESS k) f (PROCESS_TABLE k)) k).
  assert (mjoin (PROCESS_TABLE k0 !! CURRENT_PROCESS k0) = Some (f p)) as Hp0
    by (cbn [k0 PROCESS_TABLE set_table CURRENT_PROCESS]; now rewrite mjoin_update_slot, decide_True, Hp).
  assert (io_state was me None k0) as Hst0.
  { destruct Hst as [[[B1 B2 B3 B4 B5] Hg (i & q & Hq & Hc)] H2 H3 H4]. split; [split; [split|..]|..]; auto.
    - unfold table_ok. cbn [k0 PROCESS_TABLE set_table]. now rewrite length_update_slot.
    - intros _. cbn [k0 PROCESS_TABLE set_table io_lock]. apply waits_on_update; [|auto].
      intros q0 _ Hq0. cbn in Hq0. lia.
    - exists (CURRENT_PROCESS k), (f p). split; [exact Hp0|]. cbn. rewrite Hpid. exact H4.
    - exists (f p). split; [exact Hp0|]. auto. }
  destruct (svc_waits fuel kctx was me k0 (f p) N Hst0 Hp0 Hrun eq_refl T1 T2 Ht Hset T3)
    as (k1 & Hsvc & Hm1 & Hh1 & Hpr & _ & D1).
  cbn [f pid set_block_reason set_chan] in Hpr. rewrite Hpid in Hpr. destruct (Hres k1 Hm1 Hh1 Hpr) as (k2 & Hr2 & Hst2 & D2).
  exists (set_ectx (ectx k) k2). split.
  - unfold sleep_on, sleep. rewrite (bind_run _ _ _ tt k0).
    + unfold svc0. rewrite (bind_run _ _ _ (ectx k) k0) by reflexivity.
      rewrite (bind_run _ _ _ _ _ Hsvc), (bind_run _ _ _ _ _ Hr2). reflexivity.
    + rewrite Hp. reflexivity.
  - split; [now apply io_state_ectx|].
    destruct D1 as [A1 A2 A3 A4 A5 A6 A7 A8 A9 A10], D2 as [B1 B2 B3 B4 B5 B6 B7 B8 B9 B10].
    cbn in A1, A3, A4, A5, A6, A7, A8, A9, A10, B1, B3, B4, B5, B6, B7, B8, B9, B10.
    split; cbn; try congruence; [now transitivity (stk k1)| |lia|lia].
    rewrite B3, A3, !app_nil_r. reflexivity.
Qed.

(** ** Reading a character *)

(** The [j]th byte the UART will give. *)
Definition key (k : kernel) (j : nat) : Z := Z.land (rx (dev k) (rx_pos (dev k) + j)) 0xFF.

Lemma key_did k k' out got j : did k k' out got -> key k' j = key k (got + j).
Proof. intros [_ _ _ E1 E2 _ _ _ _ _]. unfold key. rewrite E1, E2. do 2 f_equal. lia. Qed.

Lemma did_settles k k' out got N : did k k' out got -> uart_settles N (dev k) -> uart_settles N (dev k').
Proof. intros [_ _ _ _ _ E _ _ _ _] H n Hn. rewrite E. auto. Qed.

Lemma did_fits k k' out got : did k k' out got -> timer_fits (dev k) -> timer_fits (dev k').
Proof. intros [_ _ _ _ _ _ _ _ E1 E2]. unfold timer_fits. now rewrite E1, E2. Qed.

Lemma poll_ok was me o k :
  io_state was me o k ->
  exists k', zoom dev_lens poll_byte k = Done (if Z.land (lsr (dev k) (lsr_pos (dev k))) 1 =? 0 then None
                                               else Some (key k 0)) k' /\
    io_state was me o k' /\ lsr_pos (dev k') = S (lsr_pos (dev k)) /\
    did k k' [] (if Z.land (lsr (dev k) (lsr_pos (dev k))) 1 =? 0 then 0 else 1).
Proof.
  intros H. destruct (poll_byte_ok was 0 (dev k) (is_hw _ _ _ _ H)) as (h' & Hrun & Hok & Hf & Htx & Hl & Hrx).
  destruct (io_dev_ok was me o k _ _ _ H Hrun Hok Hf) as [Hz Hs]. exists (set_dev h' k).
  unfold key. rewrite Nat.add_0_r. split; [exact Hz|]. split; [exact Hs|]. split; [exact Hl|].
  destruct Hf as [F1 F2 F3 F4 F5 (F6 & F7 & F8 & F9 & F10)].
  split; cbn; auto; [reflexivity|now rewrite app_nil_r|rewrite Hrx; destruct (_ =? 0); lia|lia].
Qed.

Section Reading.
  Context (fuel : nat) (kctx : ExceptionContext) (resume : M kernel unit) (g : Z).
  Context (was : bool) (me : Z) (N : nat).
  Context (Hth : thread_ok fuel kctx N) (Hres : resumes was me resume).

  (** The UART and the timer behave from here on. *)
Definition input_ok (k : kernel) : Prop := timer_fits (dev k) /\ uart_settles N (dev k).

Lemma input_did k k' out got : did k k' out got -> input_ok k -> input_ok k'.
Proof. intros H [H1 H2]. split; [eapply did_fits|eapply did_settles]; eauto. Qed.

Lemma getch_poll_ok n k :
  io_state was me (Some me) k -> input_ok k -> (N <= lsr_pos (dev k) + n)%nat ->
  exists k', getch_poll fuel kctx resume g n k = Done (key k 0) k' /\
    io_state was me (Some me) k' /\ did k k' [] 1.
Proof.
  revert k. induction n as [|n IH]; intros k Hst Hin HN;
    (destruct (poll_ok was me (Some me) k Hst) as (k1 & Hp & H1 & Hl1 & D1));
    cbn [getch_poll]; rewrite (bind_run _ _ _ _ _ Hp);
    (destruct (Z.eqb_spec (Z.land (lsr (dev k) (lsr_pos (dev k))) 1) 0) as [H0|H0];
     [|exists k1; split; [reflexivity|]; split; [exact H1|exact D1]]).
  { exfalso. destruct Hin as [_ Hset]. rewrite (Hset (lsr_pos (dev k))) in H0 by lia. discriminate. }
  destruct (io_release_ok was me k1 H1) as (k2 & Hr2 & H2 & D2). rewrite (bind_run _ _ _ _ _ Hr2).
  pose proof (did_trans _ _ _ _ _ _ _ D1 D2) as D12. pose proof (input_did _ _ _ _ D12 Hin) as [Hin1 Hin2].
  destruct (sleep_round fuel kctx resume was me k2 N Hth Hres H2 Hin1 Hin2) as (k3 & Hr3 & H3 & D3).
  rewrite (bind_run _ _ _ _ _ Hr3). pose proof (did_trans _ _ _ _ _ _ _ D12 D3) as D13.
  destruct (io_acquire_ok fuel kctx resume g was me k3 H3) as (k4 & Hr4 & H4 & D4 & _).
  rewrite (bind_run _ _ _ _ _ Hr4). pose proof (did_trans _ _ _ _ _ _ _ D13 D4) as D14.
  destruct (IH k4 H4 (input_did _ _ _ _ D14 Hin)) as (k5 & Hr5 & H5 & D5).
  { pose proof (dd_lsr_pos _ _ _ _ D2). pose proof (dd_lsr_pos _ _ _ _ D3). pose proof (dd_lsr_pos _ _ _ _ D4). lia. }
  exists k5. split; [rewrite Hr5; f_equal; exact (key_did _ _ _ _ 0 D14)|]. split; [exact H5|].
  exact (did_trans _ _ _ _ _ _ _ D14 D5).
Qed.

(** What [getch] makes of a byte, and its echo. *)
Definition cooked (b : Z) : Z := if b =? 13 then 10 else b.
Definition echo_of (b : Z) : list Z := if (b =? 8) || (b =? 127) then [] else [cooked b].

(** The end of [getch]: the echo, and the lock given back. *)
Definition emit (out : list Z) (c : Z) : M kernel Z :=
  for_in out device_write ;; mutex_release ;; ret c.

Lemma finish_ok k (out : list Z) c :
  io_state was me (Some me) k ->
  exists k', emit out c k = Done c k' /\
    io_state was me None k' /\ did k k' out 0.
Proof.
  intros H. assert (exists k1, for_in out device_write k = Done tt k1 /\ io_state was me (Some me) k1 /\ did k k1 out 0)
    as (k1 & Hr1 & H1 & D1).
  { revert k H. induction out as [|b out IH]; intros k H; [exists k; split; [reflexivity|]; split; [exact H|apply did_refl]|].
    destruct (device_write_ok was me _ k b H) as (k1 & Hr1 & H1 & D1). destruct (IH k1 H1) as (k2 & Hr2 & H2 & D2).
    exists k2. cbn [for_in]. rewrite (bind_run _ _ _ _ _ Hr1). split; [exact Hr2|]. split; [exact H2|].
    exact (did_trans _ _ _ _ _ _ _ D1 D2). }
  destruct (io_release_ok was me k1 H1) as (k2 & Hr2 & H2 & D2).
  exists k2. unfold emit. rewrite (bind_run _ _ _ _ _ Hr1), (bind_run _ _ _ _ _ Hr2). split; [reflexivity|]. split; [exact H2|].
  pose proof (did_trans _ _ _ _ _ _ _ D1 D2) as D. now rewrite app_nil_r in D.
Qed.

Lemma getch_ok m n k :
  io_state was me None k -> input_ok k -> (m <= n)%nat ->
  (forall j, (j < m)%nat -> key k j = 10) -> key k m <> 10 ->
  exists k', getch fuel kctx resume g n k = Done (cooked (key k m)) k' /\
    io_state was me None k' /\ did k k' (echo_of (key k m)) (S m).
Proof.
  revert n k. induction m as [|m IH]; intros n k Hst Hin Hn Hlf Hb;
    destruct (io_acquire_ok fuel kctx resume g was me k Hst) as (k1 & Hr1 & H1 & D1 & _);
    (destruct (getch_poll_ok fuel k1 H1 (input_did _ _ _ _ D1 Hin)) as (k2 & Hr2 & H2 & D2);
     [destruct Hth; lia|]);
    pose proof (did_trans _ _ _ _ _ _ _ D1 D2) as D12; rewrite (key_did _ _ _ _ 0 D1) in Hr2; cbn [Nat.add] in Hr2.
  - assert (forall n, getch fuel kctx resume g n k =
      emit (echo_of (key k 0)) (cooked (key k 0)) k2) as ->.
    { intros n'. destruct n'; cbn [getch]; rewrite (bind_run _ _ _ _ _ Hr1), (bind_run _ _ _ _ _ Hr2);
        unfold emit, echo_of, cooked; destruct ((key k 0 =? 8) || (key k 0 =? 127)) eqn:E1;
        (destruct (Z.eqb_spec (key k 0) 13) as [E2|E2]; [try (rewrite E2 in E1; discriminate E1)|]);
        try reflexivity; try (unfold for_in, bind; destruct (device_write _ k2) as [[] ?| | |]; reflexivity);
        (destruct (Z.eqb_spec (key k 0) 10) as [E3|E3]; [contradiction|]);
        unfold for_in, bind; destruct (device_write _ k2) as [[] ?| | |]; reflexivity. }
    destruct (finish_ok k2 (echo_of (key k 0)) (cooked (key k 0)) H2) as (k3 & Hr3 & H3 & D3).
    exists k3. split; [exact Hr3|]. split; [exact H3|]. exact (did_trans _ _ _ _ _ _ _ D12 D3).
  - destruct n as [|n]; [lia|]. cbn [getch]. rewrite (bind_run _ _ _ _ _ Hr1), (bind_run _ _ _ _ _ Hr2).
    rewrite (Hlf 0%nat) by lia. change ((10 =? 8) || (10 =? 127)) with false. change (10 =? 13) with false.
    change (10 =? 10) with true. cbv iota.
    destruct (io_release_ok was me k2 H2) as (k3 & Hr3 & H3 & D3). rewrite (bind_run _ _ _ _ _ Hr3).
    pose proof (did_trans _ _ _ _ _ _ _ D12 D3) as D13. cbn [Nat.add app] in D13.
    destruct (IH n k3 H3 (input_did _ _ _ _ D13 Hin)) as (k4 & Hr4 & H4 & D4); [lia| | |].
    + intros j Hj. rewrite (key_did _ _ _ _ j D13). apply Hlf. lia.
    + rewrite (key_did _ _ _ _ m D13). exact Hb.
    + rewrite (key_did _ _ _ _ m D13) in *. exists k4. split; [exact Hr4|]. split; [exact H4|].
      exact (did_trans _ _ _ _ _ _ _ D13 D4).
Qed.

(** ** Lines *)

(** The line editor: what typing [inp] into a field of [cap] bytes that holds
    [buf] gives, with the echo; [None] unless the last byte completes it. *)
Definition after_echo (out : list Z) (r : option (bytes * list Z)) : option (bytes * list Z) :=
  '(line, echo) ← r; Some (line, out ++ echo).

Fixpoint edit (cap : nat) (buf : bytes) (inp : list Z) : option (bytes * list Z) :=
  match inp with
  | [] => if (length buf <? cap)%nat then None else Some (buf, [])
  | b :: inp' =>
      if negb (length buf <? cap)%nat then None
      else if b =? 10 then edit cap buf inp'
      else if (b =? 8) || (b =? 127) then
        match buf with
        | [] => edit cap [] inp'
        | _ => after_echo [8; 32; 8] (edit cap (removelast buf) inp')
        end
      else if b =? 13 then match inp' with [] => Some (buf ++ [10], [10]) | _ => None end
      else after_echo [b] (edit cap (buf ++ [b]) inp')
  end.

(** A buffer of [len] cells in memory, as [read] uses it. *)
Record buffer (len : nat) (store : nat -> Z -> M kernel unit) (inv : kstate -> Prop)
    (cell : kstate -> nat -> option Z) : Prop := {
  bf_store : forall k i c, (i < len)%nat -> is_u8 c -> inv (stk k) ->
    exists s', store i c k = Done tt (set_stk s' k) /\ inv s' /\ cell s' i = Some c /\
               forall j, (j < len)%nat -> j <> i -> cell s' j = cell (stk k) j;
  bf_keeps : forall s s', keeps s s' -> inv s ->
    inv s' /\ forall i, (i < len)%nat -> cell s' i = cell s i;
}.

(** What the reading thread did, the contents of the buffer apart. *)
Definition did_io (k k' : kernel) (out : list Z) (got : nat) : Prop :=
  did (set_stk (stk k') k) k' out got.

Lemma did_io_of k k' out got : did k k' out got -> did_io k k' out got.
Proof. intros [E1 E2 E3 E4 E5 E6 E7 E8 E9 E10]. split; cbn; auto. reflexivity. Qed.

Lemma did_io_trans k1 k2 k3 o1 o2 g1 g2 :
  did_io k1 k2 o1 g1 -> did_io k2 k3 o2 g2 -> did_io k1 k3 (o1 ++ o2) (g1 + g2).
Proof.
  intros [_ A2 A3 A4 A5 A6 A7 A8 A9 A10] [_ B2 B3 B4 B5 B6 B7 B8 B9 B10]. cbn in *.
  split; cbn; try congruence; [reflexivity|now rewrite B3, A3, app_assoc|lia|lia].
Qed.

Lemma did_io_key k k' out got j : did_io k k' out got -> key k' j = key k (got + j).
Proof. intros [_ _ _ E1 E2 _ _ _ _ _]. cbn in *. unfold key. rewrite E1, E2. do 2 f_equal. lia. Qed.

Lemma did_io_input k k' out got : did_io k k' out got -> input_ok k -> input_ok k'.
Proof.
  intros [_ _ _ _ _ E1 _ _ E2 E3] [H1 H2]. cbn in *. split.
  - unfold timer_fits. now rewrite E2, E3.
  - intros n Hn. rewrite E1. auto.
Qed.

Lemma io_state_stk o k s : io_state was me o k -> io_state was me o (set_stk s k).
Proof. intros [[[B1 B2 B3 B4 B5] Hg Hc] H2 H3 H4]. split; [split; [split|..]|..]; auto. Qed.

(** Leading line feeds are skipped. *)
Lemma split_lf (inp : list Z) :
  (exists m b rest, inp = replicate m 10 ++ b :: rest /\ b <> 10) \/ exists m, inp = replicate m 10.
Proof.
  induction inp as [|b inp IH]; [right; now exists 0%nat|]. destruct (decide (b = 10)) as [->|Hb].
  - destruct IH as [(m & b & rest & -> & Hb)|[m ->]]; [left; exists (S m), b, rest; auto|right; now exists (S m)].
  - left. exists 0%nat, b, inp. auto.
Qed.

Lemma edit_lf cap buf m inp : (length buf < cap)%nat -> edit cap buf (replicate m 10 ++ inp) = edit cap buf inp.
Proof.
  intros H. induction m as [|m IH]; [reflexivity|]. cbn [replicate app edit].
  rewrite (proj2 (Nat.ltb_lt _ _) H). cbn [negb]. exact IH.
Qed.

Lemma edit_full cap buf inp line echo :
  (cap <= length buf)%nat -> edit cap buf inp = Some (line, echo) -> inp = [] /\ line = buf /\ echo = [].
Proof.
  intros H. destruct inp; cbn [edit]; rewrite (proj2 (Nat.ltb_ge _ _) H); [|discriminate].
  intros [= <- <-]. auto.
Qed.

Lemma erase_ok k :
  io_state was me None k ->
  exists k', (io_acquire fuel kctx resume g ;; device_write 8 ;; device_write 32 ;; device_write 8 ;;
              mutex_release) k = Done tt k' /\ io_state was me None k' /\ did k k' [8; 32; 8] 0.
Proof.
  intros H. destruct (io_acquire_ok fuel kctx resume g was me k H) as (k1 & Hr1 & H1 & D1 & _).
  destruct (device_write_ok was me _ k1 8 H1) as (k2 & Hr2 & H2 & D2).
  destruct (device_write_ok was me _ k2 32 H2) as (k3 & Hr3 & H3 & D3).
  destruct (device_write_ok was me _ k3 8 H3) as (k4 & Hr4 & H4 & D4).
  destruct (io_release_ok was me k4 H4) as (k5 & Hr5 & H5 & D5). exists k5.
  rewrite (bind_run _ _ _ _ _ Hr1), (bind_run _ _ _ _ _ Hr2), (bind_run _ _ _ _ _ Hr3), (bind_run _ _ _ _ _ Hr4).
  split; [exact Hr5|]. split; [exact H5|].
  exact (did_trans _ _ _ _ _ _ _ (did_trans _ _ _ _ _ _ _ (did_trans _ _ _ _ _ _ _ (did_trans _ _ _ _ _ _ _ D1 D2) D3) D4) D5).
Qed.

Context (len : nat) (store : nat -> Z -> M kernel unit) (inv : kstate -> Prop)
  (cell : kstate -> nat -> option Z) (Hbuf : buffer len store inv cell).

(** The cells hold [buf]. *)
Definition holds (s : kstate) (buf : bytes) : Prop :=
  inv s /\ forall i, (i < length buf)%nat -> cell s i = buf !! i.

Lemma holds_did k k' out got buf :
  did k k' out got -> (length buf <= len)%nat -> holds (stk k) buf -> holds (stk k') buf.
Proof.
  intros D Hl [Hi Hc]. destruct (bf_keeps _ _ _ _ Hbuf _ _ (dd_stk _ _ _ _ D) Hi) as [Hi' Hc'].
  split; [exact Hi'|]. intros i Hlt. rewrite Hc' by lia. auto.
Qed.

Lemma holds_store k buf c :
  (length buf < len)%nat -> is_u8 c -> holds (stk k) buf ->
  exists s', store (length buf) c k = Done tt (set_stk s' k) /\ holds s' (buf ++ [c]).
Proof.
  intros Hl Hc [Hi Hb]. destruct (bf_store _ _ _ _ Hbuf k (length buf) c Hl Hc Hi) as (s' & Hr & Hi' & Hcell & Hoth).
  exists s'. split; [exact Hr|]. split; [exact Hi'|]. intros i Hlt. rewrite length_app in Hlt. cbn in Hlt.
  destruct (decide (i = length buf)) as [->|Hne].
  - rewrite lookup_app_r, Nat.sub_diag by lia. exact Hcell.
  - rewrite lookup_app_l by lia. rewrite Hoth by lia. apply Hb. lia.
Qed.

Lemma holds_prefix s buf : holds s buf -> holds s (removelast buf).
Proof.
  intros [Hi Hb]. split; [exact Hi|]. destruct buf as [|b buf]; [exact Hb|].
  intros i Hlt. pose proof (app_removelast_last 0 (l := b :: buf) ltac:(discriminate)) as E.
  rewrite E in Hb. rewrite Hb by (rewrite length_app; lia). now apply lookup_app_l.
Qed.

Lemma key_u8 k j : is_u8 (key k j).
Proof.
  unfold key, is_u8. change 0xFF with (2 ^ 8 - 1). rewrite land_mask_low by lia. apply Z.mod_pos_bound. lia.
Qed.

Definition keys_are (k : kernel) (inp : list Z) : Prop :=
  forall j, (j < length inp)%nat -> inp !! j = Some (key k j).

Lemma keys_drop k k' out got (pre inp : list Z) :
  did_io k k' out got -> length pre = got -> keys_are k (pre ++ inp) -> keys_are k' inp.
Proof.
  intros D <- H j Hj. specialize (H (length pre + j)%nat). rewrite length_app, lookup_app_r in H by lia.
  replace (length pre + j - length pre)%nat with j in H by lia. rewrite (did_io_key _ _ _ _ j D). apply H. lia.
Qed.

Lemma read_loop_ok n inp buf line echo k :
  io_state was me None k -> input_ok k -> holds (stk k) buf -> (length buf <= len)%nat ->
  keys_are k inp -> edit len buf inp = Some (line, echo) ->
  (length inp <= n)%nat -> (length inp <= fuel)%nat ->
  exists k', read_loop fuel kctx resume g n len store (length buf) k = Done (length line) k' /\
    io_state was me None k' /\ did_io k k' echo (length inp) /\ holds (stk k') line.
Proof.
  revert inp buf echo k. induction n as [|n IH]; intros inp buf echo k Hst Hin Hh Hl Hk He Hn Hf;
    (destruct (le_lt_dec len (length buf)) as [Hfull|Hroom];
      [destruct (edit_full _ _ _ _ _ Hfull He) as (-> & -> & ->); cbn [read_loop];
       rewrite (proj2 (Nat.ltb_ge _ _) Hfull); exists k; split; [reflexivity|];
       split; [exact Hst|]; split; [apply did_io_of, did_refl|exact Hh]|]).
  { destruct inp; [|cbn in Hn; lia]. cbn [edit] in He. rewrite (proj2 (Nat.ltb_lt _ _) Hroom) in He. discriminate. }
  destruct (split_lf inp) as [(m & b & rest & -> & Hb)|[m ->]].
  2:{ rewrite <- (app_nil_r (replicate m 10)), edit_lf in He by exact Hroom. cbn [edit] in He.
      rewrite (proj2 (Nat.ltb_lt _ _) Hroom) in He. discriminate. }
  rewrite edit_lf in He by exact Hroom. rewrite length_app, length_replicate in Hn, Hf. cbn [length] in Hn, Hf.
  assert (key k m = b) as Ekey.
  { specialize (Hk m). rewrite length_app, length_replicate, lookup_app_r, length_replicate, Nat.sub_diag in Hk
      by (rewrite length_replicate; lia). cbn in Hk. specialize (Hk ltac:(lia)). congruence. }
  destruct (getch_ok m fuel k Hst Hin ltac:(lia)) as (k1 & Hr1 & H1 & D1).
  { intros j Hj. specialize (Hk j). rewrite length_app, length_replicate, lookup_app_l in Hk by (rewrite length_replicate; lia).
    specialize (Hk ltac:(lia)). rewrite lookup_replicate_2 in Hk by lia. congruence. }
  { congruence. }
  rewrite Ekey in *. cbn [read_loop]. rewrite (proj2 (Nat.ltb_lt _ _) Hroom). rewrite (bind_run _ _ _ _ _ Hr1).
  pose proof (holds_did _ _ _ _ _ D1 Hl Hh) as Hh1. pose proof (input_did _ _ _ _ D1 Hin) as Hin1.
  pose proof (did_io_of _ _ _ _ D1) as D1'.
  assert (length (replicate m 10 ++ [b]) = S m) as Hpre by (rewrite length_app, length_replicate; cbn; lia).
  assert (replicate m 10 ++ b :: rest = (replicate m 10 ++ [b]) ++ rest) as Happ by (now rewrite <- app_assoc).
  rewrite Happ in Hk. rewrite Happ, length_app, Hpre.
  cbn [edit] in He. rewrite (proj2 (Nat.ltb_lt _ _) Hroom), (proj2 (Z.eqb_neq _ _) Hb) in He. cbn [negb] in He.
  unfold cooked, echo_of in *. destruct ((b =? 8) || (b =? 127)) eqn:Hbs.
  - assert ((b =? 13) = false) as E13
      by (apply orb_prop in Hbs as [Hbs|Hbs]; apply Z.eqb_eq in Hbs as ->; reflexivity).
    rewrite E13, Hbs. destruct buf as [|b0 buf].
    + destruct (IH rest [] echo k1 H1 Hin1 Hh1 Hl (keys_drop _ _ _ _ _ _ D1' Hpre Hk) He ltac:(lia) ltac:(lia))
        as (k2 & Hr2 & H2 & D2 & Hh2).
      exists k2. split; [exact Hr2|]. split; [exact H2|]. split; [|exact Hh2]. exact (did_io_trans _ _ _ _ _ _ _ D1' D2).
    + destruct (edit len (removelast (b0 :: buf)) rest) as [[line' echo']|] eqn:He'; [|discriminate].
      cbn in He. injection He as <- <-. cbn [length].
      destruct (erase_ok k1 H1) as (k2 & Hr2 & H2 & D2).
      pose proof (did_trans _ _ _ _ _ _ _ D1 D2) as D12. pose proof (did_io_of _ _ _ _ D12) as D12'.
      rewrite Nat.add_0_r in D12'.
      assert (length (removelast (b0 :: buf)) = length buf) as Hrl by (rewrite removelast_firstn_len, length_firstn; cbn; lia).
      destruct (IH rest (removelast (b0 :: buf)) echo' k2 H2 (input_did _ _ _ _ D2 Hin1))
        as (k3 & Hr3 & H3 & D3 & Hh3); auto; try (rewrite ?Hrl; cbn [length] in *; lia).
      { apply holds_prefix. exact (holds_did _ _ _ _ _ D2 Hl Hh1). }
      { exact (keys_drop _ _ _ _ _ _ D12' Hpre Hk). }
      rewrite Hrl in Hr3. exists k3. split; [|split; [exact H3|split; [|exact Hh3]]].
      * revert Hr2. unfold bind at 1 2 3 4. unfold bind at 1 2 3 4 5.
        destruct (io_acquire _ _ _ _ k1) as [[] a1| | |]; [|discriminate..].
        destruct (device_write 8 a1) as [[] a2| | |]; [|discriminate..].
        destruct (device_write 32 a2) as [[] a3| | |]; [|discriminate..].
        destruct (device_write 8 a3) as [[] a4| | |]; [|discriminate..].
        intros ->. exact Hr3.
      * exact (did_io_trans _ _ _ _ _ _ _ D12' D3).
  - assert (((if b =? 13 then 10 else b) =? 8) || ((if b =? 13 then 10 else b) =? 127) = false) as ->
      by (destruct (b =? 13); [reflexivity|exact Hbs]).
    destruct (holds_store k1 buf (if b =? 13 then 10 else b) Hroom) as (s' & Hrs & Hhs); [|exact Hh1|].
    { destruct (b =? 13); [unfold is_u8; lia|]. rewrite <- Ekey. apply key_u8. }
    rewrite (bind_run _ _ _ _ _ Hrs).
    assert (did_io k (set_stk s' k1) [if b =? 13 then 10 else b] (S m)) as D2.
    { destruct D1' as [E1 E2 E3 E4 E5 E6 E7 E8 E9 E10]. split; cbn in *; auto. reflexivity. }
    destruct (Z.eqb_spec b 13) as [->|H13].
    + destruct rest as [|? ?]; [|discriminate]. injection He as <- <-. change (10 =? 10) with true. cbv iota.
      exists (set_stk s' k1). rewrite length_app. cbn [length]. replace (length buf + 1)%nat with (S (length buf)) by lia.
      split; [reflexivity|]. split; [now apply io_state_stk|]. rewrite Nat.add_0_r. split; [exact D2|exact Hhs].
    + rewrite (proj2 (Z.eqb_neq _ _) Hb).
      destruct (edit len (buf ++ [b]) rest) as [[line' echo']|] eqn:He'; [|discriminate].
      cbn in He. injection He as <- <-.
      destruct (IH rest (buf ++ [b]) echo' (set_stk s' k1) (io_state_stk _ _ _ H1) Hin1 Hhs)
        as (k3 & Hr3 & H3 & D3 & Hh3); auto; try (rewrite ?length_app; cbn [length]; lia).
      { exact (keys_drop _ _ _ _ _ _ D2 Hpre Hk). }
      rewrite length_app in Hr3. cbn [length] in Hr3. replace (length buf + 1)%nat with (S (length buf)) in Hr3 by lia.
      exists k3. split; [exact Hr3|]. split; [exact H3|]. split; [|exact Hh3].
      exact (did_io_trans _ _ _ _ _ _ _ D2 D3).
Qed.
End Reading.
End Console.
