(* ===== verification/Syscalls.v ===== *)
(** The system calls of src/src/kernel/syscalls.rs.

    The exception's context is the kernel's [ectx].  A [Result] the handler
    returns is unwrapped by [handle_syscall], so an [Err] is a kernel panic.
    Pointers from the program are used as the kernel uses them, unchecked:
    through TTBR0_EL1 below 2^39, through the kernel's own tables above.
    [images] gives the bytes of the embedded programs and [intro] the banner;
    both are made by the build. *)

From Stdlib Require Import ZArith Lia.
From stdpp Require Import base strings numbers list pretty.
From S2P Require Import Prelude Memory Frames PageTable LoadElf KernelStack Interrupts Devices.
From S2P Require Import Processes Scheduler ProcOps Sleep Mutex Io.

Local Open Scope Z_scope.

(** ** Memory accesses from the kernel *)

Definition mem_tr (k : kernel) (va : Z) : option Z :=
  if va <? 2 ^ 39 then ttbr0_to_pa (kmem (stk k)) va None
  else if va <? KERNEL_BASE then None
  else if va <? KERNEL_BASE + 2 ^ 31 then Some (va - KERNEL_BASE)
  else kernel_tr (stk k) va.

(** A load or store at an address that does not translate is a data abort,
    which [handle_sync_exception] does not handle. *)
Definition load_bytes (va n : Z) : M kernel bytes := fun k =>
  match mapM (fun i => ram (kmem (stk k)) <$> mem_tr k (add64 va i)) (seqZ 0 n) with
  | Some bs => Done bs k
  | None => Halt "unhandled exception"
  end.

Definition load_u64 (va : Z) : M kernel Z :=
  let* bs := load_bytes va 8 in ret (le_combine bs).

Definition store_byte (va b : Z) : M kernel unit := fun k =>
  match mem_tr k va with
  | Some p => Done tt (set_stk (set_kmem (set_ram (write_list (ram (kmem (stk k))) p [b]) (kmem (stk k))) (stk k)) k)
  | None => Halt "unhandled exception"
  end.

(** [ctx.x[i]] and [ctx.x[i] = v] *)
Definition arg (i : nat) : M kernel Z := gets (fun k => ectx_x i (ectx k)).
Definition set_x (i : nat) (v : Z) : M kernel unit :=
  modify (fun k => set_ectx (ectx_set_x i v (ectx k)) k).

Definition ok : result unit := ROk tt.

(** ** Calls on processes *)

Definition current_slot : M kernel (option nat) :=
  gets (fun k => match get_current_process k with Some _ => Some (CURRENT_PROCESS k) | None => None end).

(** [parent_proc.pctx.x[i] = v] *)
Definition set_pctx_x (i : nat) (v : Z) (p : Process) : Process := set_pctx (pctx_set_x i v (pctx p)) p.

(** The parent is woken, with the child's pid and exit code as what its
    [wait] returns, and the child's slot is emptied. *)
Definition wake_parent (j : nat) (child_pid exit_code : Z) : M kernel (result unit) :=
  modify_slot j (set_state Ready) ;;
  modify_slot j (set_pctx_x 0 child_pid) ;;
  modify_slot j (set_pctx_x 1 (i64_as_u64 exit_code)) ;;
  remove_process_from_ptable child_pid.

Definition sys_exit (fuel : nat) : M kernel (result unit) :=
  let* a := arg 0 in
  let exit_code := as_i64 a in
  let* cur := current_slot in
  let? _ := (match cur with
    | Some i =>
        zoom ptable_lock_lens acquire ;;
        terminate i exit_code ;;
        let* current_process := slot_process i in
        let parent := parent_pid current_process in
        let* pj := gets (fun k => find_by_id parent (PROCESS_TABLE k)) in
        let? _ := (match pj with
          | Some j =>
              let* parent_proc := slot_process j in
              if is_state Blocked parent_proc && bool_decide (block_reason parent_proc = Some WaitingForChild) then
                let awaited_child := pctx_x 0 (pctx parent_proc) in
                if (awaited_child =? 0) || (pid current_process =? awaited_child) then
                  wake_parent j (pid current_process) exit_code
                else ret ok
              else ret ok
          | None =>
              if negb (parent =? 0) then panic "[SYS_EXIT] Parent process pid not found of child" else ret ok
          end) in
        zoom ptable_lock_lens release ;;
        ret ok
    | None => ret ok
    end) in
  schedule_next fuel ;;
  ret ok.

Definition sys_fork : M kernel (result unit) :=
  let* cur := current_slot in
  match cur with
  | None => set_x 0 U64_MAX ;; ret ok
  | Some i =>
      let? child := fork i in
      let child := set_pctx_x 0 0 child in
      set_x 0 (pid child) ;;
      let? _ := add_process_to_ptable child in
      ret ok
  end.

Definition MAX_ARGS : Z := 32.
Definition MAX_ARG_LEN : Z := 256.

(** The first loop of [sys_exec]: the strings, or [None] when one is invalid. *)
Fixpoint read_strings (n : nat) (ptrs lens i : Z) : M kernel (option (list bytes)) :=
  match n with
  | O => ret (Some [])
  | S n' =>
      let* ptr := load_u64 (add64 ptrs (i * 8)) in
      let* len := load_u64 (add64 lens (i * 8)) in
      if (len >? MAX_ARG_LEN) || (negb (len =? 0) && (ptr =? 0)) then ret None
      else
        let* s := load_bytes ptr len in
        let* rest := read_strings n' ptrs lens (i + 1) in
        ret ((fun ss => s :: ss) <$> rest)
  end.

Definition sys_exec (images : bytes -> bytes) : M kernel (result unit) :=
  let* ptrs := arg 0 in
  let* lens := arg 1 in
  let* argc := arg 2 in
  if (ptrs =? 0) || (lens =? 0) || (argc =? 0) || (argc >? MAX_ARGS) then set_x 0 U64_MAX ;; ret ok
  else
    let* strings := read_strings (Z.to_nat argc) ptrs lens 0 in
    match strings with
    | None => set_x 0 U64_MAX ;; ret ok
    | Some strings =>
        if negb (forallb utf8_valid strings) then set_x 0 U64_MAX ;; ret ok
        else
          let path_str := nth 0 strings [] in
          let* cur := current_slot in
          match cur with
          | None => set_x 0 U64_MAX ;; ret ok
          | Some i =>
              match read_file images path_str with
              | None => set_x 0 U64_MAX ;; ret ok
              | Some elf_bytes =>
                  let* r := exec i elf_bytes strings in
                  match r with
                  | RErr _ => set_x 0 U64_MAX ;; ret ok
                  | ROk _ =>
                      modify_slot i (with_name (name_field path_str)) ;;
                      let* p := slot_process i in
                      modify (fun k => set_ectx (update_from_pctx (pctx p) (ectx k)) k) ;;
                      ret ok
                  end
              end
          end
    end.

(** A child of [current_pid] that [wait(target_pid)] is about. *)
Definition is_target (current_pid target_pid : Z) (p : Process) : bool :=
  (parent_pid p =? current_pid) && ((target_pid =? 0) || (pid p =? target_pid)).

Definition sys_wait (fuel : nat) : M kernel (result unit) :=
  let* target_pid := arg 0 in
  let* cur := gets get_current_process in
  match cur with
  | None => set_x 0 U64_MAX ;; ret ok
  | Some c =>
      let current_pid := pid c in
      zoom ptable_lock_lens acquire ;;
      let* zombie := gets (fun k => find_slot (slot_is (fun p =>
        is_target current_pid target_pid p && is_state Terminated p)) (PROCESS_TABLE k)) in
      match zombie with
      | Some (j, Some child) =>
          modify (fun k => set_table (<[j := None]> (PROCESS_TABLE k)) k) ;;
          zoom ptable_lock_lens release ;;
          set_x 0 (pid child) ;;
          set_x 1 (i64_as_u64 (exit_code child)) ;;
          ret ok
      | _ =>
          let* found_child := gets (fun k =>
            existsb (slot_is (is_target current_pid target_pid)) (PROCESS_TABLE k)) in
          if negb (found_child : bool) then
            zoom ptable_lock_lens release ;; set_x 0 U64_MAX ;; ret ok
          else
            let* cur := current_slot in
            match cur with
            | Some i =>
                modify_slot i (block WaitingForChild) ;;
                schedule_next fuel ;;
                zoom ptable_lock_lens release ;;
                ret ok
            | None =>
                zoom ptable_lock_lens release ;;
                ret (RErr "Where did the current process go")
            end
      end
  end.

Definition sys_p_info : M kernel (result unit) :=
  let* cur := gets get_current_process in
  match cur with
  | Some curr => modify (fun k => set_ectx (save_meta_to_ectx curr (ectx k)) k) ;; ret ok
  | None => ret (RErr "How did save info actually fail?")
  end.

(** ** The console and the clock *)

(** [while cntpct_el0 < target_ticks { spin_loop() }] *)
Fixpoint wait_ticks (fuel : nat) (target : Z) : M hw unit :=
  let* current := read_cnt in
  if current <? target then match fuel with O => diverge | S f => wait_ticks f target end else skip.

Definition sys_sleep (fuel : nat) : M kernel (result unit) :=
  let* ms := arg 0 in
  let* freq := zoom dev_lens read_frq in
  let* start_ticks := zoom dev_lens read_cnt in
  let target_ticks := add64 start_ticks (mul64 freq ms / 1000) in
  zoom dev_lens (wait_ticks fuel target_ticks) ;;
  ret ok.

Section Syscalls.
  Context (fuel : nat) (kctx : ExceptionContext) (resume : M kernel unit) (guard_ptr : Z).
  Context (images : bytes -> bytes) (intro : bytes).

Definition sys_print : M kernel (result unit) :=
  let* ptr := arg 0 in
  let* len := arg 1 in
  let* s := load_bytes ptr len in
  print fuel kctx resume guard_ptr (if utf8_valid s then s else []) ;;
  ret ok.

Definition sys_read : M kernel (result unit) :=
  let* usr_bufp := arg 0 in
  let* buf_sz := arg 1 in
  if (usr_bufp =? 0) || (buf_sz =? 0) then set_x 0 0 ;; ret ok
  else
    let* r := read fuel kctx resume guard_ptr (Z.to_nat buf_sz)
                (fun i c => store_byte (add64 usr_bufp (Z.of_nat i)) c) in
    set_x 0 (Z.of_nat r) ;;
    ret ok.

Definition sys_poll_char : M kernel (result unit) :=
  let* c := poll_char fuel kctx resume guard_ptr in
  match c with
  | Some c => set_x 0 c
  | None => set_x 0 0
  end ;;
  ret ok.

Definition sys_print_os_info : M kernel (result unit) :=
  print fuel kctx resume guard_ptr intro ;; ret ok.

(** A handler's [.unwrap()]. *)
Definition unwrapped (m : M kernel (result unit)) : M kernel unit := let* r := m in unwrap r.

Definition handle_syscall : M kernel unit :=
  let* esr_val := gets (fun k => esr (ectx k)) in
  let syscall_number := as_u16 (Z.land esr_val 0xffff) in
  match syscall_number with
  | 1 => unwrapped sys_print
  | 2 => unwrapped sys_read
  | 3 => unwrapped (sys_exit fuel)
  | 4 => unwrapped sys_fork
  | 5 => unwrapped (sys_exec images)
  | 6 => unwrapped (sys_wait fuel)
  | 7 => unwrapped sys_poll_char
  | 8 => unwrapped (sys_sleep fuel)
  | 9 => unwrapped sys_print_os_info
  | 10 => unwrapped sys_p_info
  | _ => print fuel kctx resume guard_ptr (str "Unknown syscall: " ++ str (pretty syscall_number))
  end.
End Syscalls.
