(* ===== verification/SyscallSpec.v ===== *)
(** What the process system calls of [Syscalls] do: [fork], [exit] and [wait]
    keep the kernel's invariant, and an exit code reaches the parent once. *)

From Stdlib Require Import ZArith Lia.
From stdpp Require Import base strings numbers list.
From S2P Require Import Prelude Memory Frames PageTable PageFree PagingSpec UserMem PageDup.
From S2P Require Import PageRange Isolation LoadElf KernelStack Interrupts Devices Processes.
From S2P Require Import Scheduler ProcOps Demo Sleep Mutex Io Syscalls.

Local Open Scope Z_scope.

Section Kernel.
Context {F : Pool}.

Lemma current_process_slot k l p :
  kernel_ok k l -> slot_has k (CURRENT_PROCESS k) p -> get_current_process k = Some p.
Proof.
  intros Hok Hp. pose proof (ko_current _ _ Hok) as Hc. unfold NPROC in Hc.
  unfold get_current_process, find_by_ptable_index.
  replace (Z.of_nat (CURRENT_PROCESS k) >=? MAX_PROCESSES) with false; [exact Hp|].
  unfold MAX_PROCESSES in *. symmetry. rewrite Z.geb_leb. apply Z.leb_gt. lia.
Qed.

Lemma current_slot_run k l p :
  kernel_ok k l -> slot_has k (CURRENT_PROCESS k) p -> current_slot k = Done (Some (CURRENT_PROCESS k)) k.
Proof.
  intros Hok Hp. unfold current_slot, gets. now rewrite (current_process_slot _ _ _ Hok Hp).
Qed.

Lemma add_process_run k p j :
  PROCESS_TABLE k !! j = Some None -> (forall i, (i < j)%nat -> PROCESS_TABLE k !! i <> Some None) ->
  add_process_to_ptable p k = Done (ROk tt) (set_table (<[j := Some p]> (PROCESS_TABLE k)) k).
Proof.
  intros Hj Hmin. unfold add_process_to_ptable.
  rewrite (proj2 (find_slot_Some _ _ j None)); [reflexivity|]. split; [exact Hj|]. split; [reflexivity|].
  intros i y Hi Hy. destruct y; [reflexivity|]. now contradiction (Hmin i Hi).
Qed.

(** ** [fork] *)

(** The current process is alive, with its kernel stack pointer [x] above
    KERNEL_BASE in its stack's slot [s]. *)
Record runs (k : kernel) (p : Process) (s : nat) (x : Z) : Prop := {
  rn_slot : slot_has k (CURRENT_PROCESS k) p;
  rn_live : is_live p = true;
  rn_stack : KERNEL_STACKS_ALLOCATED (stk k) !! s = Some (Allocated (pid p));
  rn_sp : sp_el1 (pctx p) = KERNEL_BASE + x;
  rn_range : slot_low s + 0x1000 <= x <= slot_low s + 0x7000;
}.

(** What a fork needs: a slot of the table, a stack, a pid, and frames. *)
Record fork_room (k : kernel) (l : list Z) (p : Process) (j : nat) : Prop := {
  fr_slot : PROCESS_TABLE k !! j = Some None;
  fr_first : forall i, (i < j)%nat -> PROCESS_TABLE k !! i <> Some None;
  fr_stack : Free ∈ KERNEL_STACKS_ALLOCATED (stk k);
  fr_pid : NEXT_PID k < U64_MAX;
  fr_frames : (length (owned 3 (ram (kmem (stk k))) (ttbr0 (pctx p))) + 18 <= length l)%nat;
}.

(** The kernel outside of its memory, process table and exception context. *)
Definition rest_same (k k' : kernel) : Prop :=
  dev k' = dev k /\ io_lock k' = io_lock k /\ PROCESS_TABLE_LOCK k' = PROCESS_TABLE_LOCK k /\
  CURRENT_PROCESS k' = CURRENT_PROCESS k.

(** What a fork of [p] that returned in [k'] has done, with the child in slot [j]. *)
Definition fork_done (k : kernel) (p : Process) (s : nat) (x : Z) (j : nat) (k' : kernel) : Prop :=
  exists child l', kernel_ok k' l' /\
    PROCESS_TABLE k' = <[j := Some child]> (PROCESS_TABLE k) /\
    ectx k' = ectx_set_x 0 (pid child) (ectx k) /\
    pid child = NEXT_PID k /\ parent_pid child = pid p /\ state child = Ready /\ name child = name p /\
    (exists sp root, pctx child = pctx_set_x 0 0 (with_sp_el1 sp (with_ttbr0 root (pctx p)))) /\
    (forall va, vread (kmem (stk k')) (ttbr0 (pctx child)) va = vread (kmem (stk k)) (ttbr0 (pctx p)) va /\
                vread (kmem (stk k')) (ttbr0 (pctx p)) va = vread (kmem (stk k)) (ttbr0 (pctx p)) va) /\
    (forall o, 0 <= o < slot_low s + 0x7000 - x ->
       kread (stk k') (sp_el1 (pctx child) + o) = kread (stk k) (sp_el1 (pctx p) + o)) /\
    Forall (space_kept (ram (kmem (stk k))) (ram (kmem (stk k')))) (live_roots (PROCESS_TABLE k)) /\
    rest_same k k' /\ chan child = 0.

Lemma sys_fork_forked k l p s x j child k1 l1 :
  kernel_ok k l -> runs k p s x ->
  PROCESS_TABLE k !! j = Some None -> (forall i, (i < j)%nat -> PROCESS_TABLE k !! i <> Some None) ->
  fork (CURRENT_PROCESS k) k = Done (ROk child) k1 -> forked k l p child k1 l1 ->
  (forall o, 0 <= o < slot_low s + 0x7000 - x ->
     kread (stk k1) (sp_el1 (pctx child) + o) = kread (stk k) (sp_el1 (pctx p) + o)) ->
  exists k', sys_fork k = Done ok k' /\ fork_done k p s x j k'.
Proof.
  intros Hok [R1 R2 R3 R4 R5] F1 F2 Hrun Hf Hst.
  pose proof Hf as [E1 E2 E3 E4 E4' [sp E5] E6 [s' E7] E8 E9 E10 E11 E12].
  set (child' := set_pctx_x 0 0 child). set (k2 := set_ectx (ectx_set_x 0 (pid child') (ectx k1)) k1).
  assert (PROCESS_TABLE k2 = PROCESS_TABLE k) as Ht by (cbn; rewrite E7; reflexivity).
  exists (set_table (<[j := Some child']> (PROCESS_TABLE k2)) k2). split.
  - unfold sys_fork. rewrite (bind_run _ _ _ _ _ (current_slot_run _ _ _ Hok R1)).
    unfold bind_try at 1. rewrite (bind_run _ _ _ _ _ Hrun).
    rewrite (bind_run _ _ _ tt k2) by reflexivity. unfold bind_try.
    rewrite (bind_run _ _ _ _ _ (add_process_run k2 child' j ltac:(now rewrite Ht) ltac:(now rewrite Ht))).
    reflexivity.
  - exists child', l1. split; [|split; [|split]].
    + assert (kernel_ok (set_table (<[j := Some child']> (PROCESS_TABLE k1)) k1) l1) as Hok'
        by (apply (forked_added k l p child child' k1 l1 j Hok Hf F1); reflexivity).
      refine (kernel_ok_ext _ _ _ Hok' _ _ _ _); reflexivity.
    + cbn [PROCESS_TABLE set_table]. now rewrite Ht.
    + cbn. rewrite E7. reflexivity.
    + split; [exact E1|]. split; [exact E4|]. split; [exact E3|]. split; [exact E2|].
      split; [|split; [|split; [exact Hst|split; [exact E11|]]]].
      * exists sp, (ttbr0 (pctx child)). unfold child', set_pctx_x. cbn [pctx set_pctx]. now rewrite <- E5.
      * intros va. split; [exact (E12 va)|]. cbn [stk set_table k2 set_ectx].
        pose proof (live_root_in _ _ _ R1 R2) as Hin. rewrite Forall_forall in E11.
        apply (kept_read _ _ _ l _ _ (ko_spaces _ _ Hok)); [now right|]. now apply E11.
      * split; [|exact E4']. unfold rest_same. cbn. rewrite E7. cbn. auto.
Qed.

Lemma sys_fork_run k l p s x j :
  kernel_ok k l -> runs k p s x -> fork_room k l p j ->
  exists child k' l', sys_fork k = Done ok k' /\ kernel_ok k' l' /\
    PROCESS_TABLE k' = <[j := Some child]> (PROCESS_TABLE k) /\
    ectx k' = ectx_set_x 0 (pid child) (ectx k) /\
    pid child = NEXT_PID k /\ parent_pid child = pid p /\ state child = Ready /\ name child = name p /\
    (exists sp root, pctx child = pctx_set_x 0 0 (with_sp_el1 sp (with_ttbr0 root (pctx p)))) /\
    (forall va, vread (kmem (stk k')) (ttbr0 (pctx child)) va = vread (kmem (stk k)) (ttbr0 (pctx p)) va /\
                vread (kmem (stk k')) (ttbr0 (pctx p)) va = vread (kmem (stk k)) (ttbr0 (pctx p)) va) /\
    (forall o, 0 <= o < slot_low s + 0x7000 - x ->
       kread (stk k') (sp_el1 (pctx child) + o) = kread (stk k) (sp_el1 (pctx p) + o)) /\
    Forall (space_kept (ram (kmem (stk k))) (ram (kmem (stk k')))) (live_roots (PROCESS_TABLE k)) /\
    rest_same k k' /\ chan child = 0.
Proof.
  intros Hok Hr [F1 F2 F3 F4 F5]. pose proof Hr as [R1 R2 R3 R4 R5].
  destruct (fork_ok k l (CURRENT_PROCESS k) p s x Hok R1 R2 F4 R3 R4 R5 F3 F5) as (child & k1 & l1 & Hrun & Hf & Hst).
  destruct (sys_fork_forked k l p s x j child k1 l1 Hok Hr F1 F2 Hrun Hf Hst) as (k' & H & c & l' & D).
  exists c, k', l'. split; [exact H|exact D].
Qed.

(** A fork that returns had room: its only other ends are a panic and an
    error, which the handler's unwrap makes a panic. *)
Lemma sys_fork_returns k l p s x k' :
  kernel_ok k l -> runs k p s x -> NEXT_PID k < U64_MAX -> sys_fork k = Done ok k' ->
  exists j, PROCESS_TABLE k !! j = Some None /\ fork_done k p s x j k'.
Proof.
  intros Hok Hr Hn Hrun. pose proof Hr as [R1 R2 R3 R4 R5]. pose proof Hrun as Hrun'. unfold sys_fork in Hrun.
  rewrite (bind_run _ _ _ _ _ (current_slot_run _ _ _ Hok R1)) in Hrun. unfold bind_try at 1 in Hrun.
  apply bind_done in Hrun as (r & k1 & H1 & Hrun). destruct r as [c|e]; [|discriminate].
  destruct (fork_cases k l (CURRENT_PROCESS k) p s x Hok R1 R2 Hn R3 R4 R5) as [(child & k1' & l1 & Hf & Hfk & Hst)|[_ Hno]];
    [|now destruct (Hno c k1)].
  rewrite H1 in Hf. injection Hf as <- <-. destruct (fk_rest _ _ _ _ _ _ Hfk) as [s' Ek1].
  destruct (find_slot (fun s => match s with None => true | _ => false end) (PROCESS_TABLE k)) as [[j w]|] eqn:Hj.
  - apply find_slot_Some in Hj as (Hj & Hw & Hmin). destruct w; [discriminate|]. exists j. split; [exact Hj|].
    assert (forall i, (i < j)%nat -> PROCESS_TABLE k !! i <> Some None) as Hfirst
      by (intros i Hi Hc; now specialize (Hmin i _ Hi Hc)).
    destruct (sys_fork_forked k l p s x j c k1 l1 Hok Hr Hj Hfirst H1 Hfk Hst) as (k2 & H2 & D).
    assert (k2 = k') as -> by congruence. exact D.
  - exfalso. assert (PROCESS_TABLE k1 = PROCESS_TABLE k) as Et by (rewrite Ek1; reflexivity). clear Ek1.
    rewrite (bind_run _ _ _ tt (set_ectx (ectx_set_x 0 (pid (set_pctx_x 0 0 c)) (ectx k1)) k1)) in Hrun by reflexivity.
    unfold bind_try, bind, add_process_to_ptable in Hrun. cbn [PROCESS_TABLE set_ectx] in Hrun.
    rewrite Et, Hj in Hrun. discriminate.
Qed.

(** [fork].  With a free slot, a free kernel stack and frames for a copy of
    the process's memory, the call returns and the kernel's invariant holds
    again: the first empty slot of the table holds a ready child of the
    caller with the next pid; the child's registers are the caller's with
    x0 = 0, its address space reads the same bytes as the caller's everywhere
    without sharing a frame with any other, and its kernel stack holds the
    caller's; the caller gets the child's pid and its memory is unchanged. *)
Theorem sys_fork_spec k l p s x j :
  kernel_ok k l -> runs k p s x -> fork_room k l p j ->
  exists child k' l', sys_fork k = Done ok k' /\ kernel_ok k' l' /\
    PROCESS_TABLE k' = <[j := Some child]> (PROCESS_TABLE k) /\
    ectx k' = ectx_set_x 0 (pid child) (ectx k) /\
    pid child = NEXT_PID k /\ parent_pid child = pid p /\ state child = Ready /\ name child = name p /\
    (exists sp root, pctx child = pctx_set_x 0 0 (with_sp_el1 sp (with_ttbr0 root (pctx p)))) /\
    (forall va, vread (kmem (stk k')) (ttbr0 (pctx child)) va = vread (kmem (stk k)) (ttbr0 (pctx p)) va /\
                vread (kmem (stk k')) (ttbr0 (pctx p)) va = vread (kmem (stk k)) (ttbr0 (pctx p)) va) /\
    (forall o, 0 <= o < slot_low s + 0x7000 - x ->
       kread (stk k') (sp_el1 (pctx child) + o) = kread (stk k) (sp_el1 (pctx p) + o)) /\
    Forall (space_kept (ram (kmem (stk k))) (ram (kmem (stk k')))) (live_roots (PROCESS_TABLE k)) /\
    rest_same k k' /\ chan child = 0.
Proof. exact (sys_fork_run k l p s x j). Qed.

(** ** [exit] *)

(** The parent sleeps in a [wait] that this child's exit ends. *)
Definition awaits (child parent : Process) : bool :=
  is_state Blocked parent && bool_decide (block_reason parent = Some WaitingForChild) &&
  ((pctx_x 0 (pctx parent) =? 0) || (pid child =? pctx_x 0 (pctx parent))).

(** What the woken parent becomes: ready, its [wait] returning the child. *)
Definition collected (child_pid code : Z) (parent : Process) : Process :=
  set_pctx_x 1 (i64_as_u64 code) (set_pctx_x 0 child_pid (set_state Ready parent)).

(** The table after an exit: [t] is the table after [terminate]. *)
Definition exit_table (i : nat) (c : Process) (code : Z) (t : list (option Process)) : list (option Process) :=
  match find_by_id (parent_pid c) t with
  | Some j =>
      match mjoin (t !! j) with
      | Some p => if awaits c p then <[i := None]> (update_slot j (collected (pid c) code) t) else t
      | None => t
      end
  | None => t
  end.

Lemma find_by_id_Some id t j :
  find_by_id id t = Some j -> exists p, mjoin (t !! j) = Some p /\ pid p = id.
Proof.
  unfold find_by_id. destruct (find_slot _ _) as [[a s]|] eqn:Hf; [|discriminate]. cbn. intros [= <-].
  apply find_slot_Some in Hf as (Hj & Hs & _). destruct s as [p|]; [|discriminate]. exists p. rewrite Hj.
  split; [reflexivity|]. now apply Z.eqb_eq.
Qed.

Lemma find_by_id_unique id t j p :
  (forall i i' q q', mjoin (t !! i) = Some q -> mjoin (t !! i') = Some q' -> pid q = pid q' -> i = i') ->
  mjoin (t !! j) = Some p -> pid p = id -> find_by_id id t = Some j.
Proof.
  intros Hu Hp Hid. destruct (find_by_id id t) as [a|] eqn:Hf.
  - apply find_by_id_Some in Hf as (q & Hq & Eq). f_equal. apply (Hu a j q p Hq Hp). congruence.
  - exfalso. unfold find_by_id in Hf. destruct (find_slot _ _) as [[a s]|] eqn:E; [discriminate|].
    destruct (t !! j) as [s|] eqn:Ej; [|discriminate]. cbn in Hp. subst s.
    apply list_elem_of_lookup_2 in Ej. rewrite find_slot_None in E. specialize (E _ Ej). cbn in E.
    rewrite Hid, Z.eqb_refl in E. discriminate.
Qed.

Lemma wake_parent_run k j i p c code :
  mjoin (PROCESS_TABLE k !! j) = Some p -> j <> i -> mjoin (PROCESS_TABLE k !! i) = Some c ->
  (forall a b q q', mjoin (PROCESS_TABLE k !! a) = Some q -> mjoin (PROCESS_TABLE k !! b) = Some q' ->
     pid q = pid q' -> a = b) ->
  wake_parent j (pid c) code k =
    Done ok (set_table (<[i := None]> (update_slot j (collected (pid c) code) (PROCESS_TABLE k))) k).
Proof.
  intros Hp Hne Hc Hu. unfold wake_parent, modify_slot, modify, bind at 1 2 3.
  cbn [PROCESS_TABLE set_table]. set (t := update_slot j _ (update_slot j _ _)).
  assert (t = update_slot j (collected (pid c) code) (PROCESS_TABLE k)) as Et.
  { unfold t. apply list_eq. intros a. unfold update_slot.
    destruct (decide (a = j)) as [->|Hn]; [|now rewrite !list_lookup_alter_ne by auto].
    rewrite !list_lookup_alter_eq. now destruct (PROCESS_TABLE k !! j) as [[?|]|]. }
  unfold remove_process_from_ptable. cbn [PROCESS_TABLE set_table]. rewrite Et.
  rewrite (find_by_id_unique (pid c) _ i c); [reflexivity| | |reflexivity].
  - intros a b q q' Ha Hb Hpid. rewrite mjoin_update_slot in Ha, Hb.
    assert (forall a q, (if decide (a = j) then collected (pid c) code <$> mjoin (PROCESS_TABLE k !! a)
       else mjoin (PROCESS_TABLE k !! a)) = Some q -> exists q0, mjoin (PROCESS_TABLE k !! a) = Some q0 /\ pid q0 = pid q) as Hx.
    { intros a0 q0 H. destruct (decide (a0 = j)); [|eauto].
      destruct (mjoin (PROCESS_TABLE k !! a0)) as [r|]; [|discriminate]. injection H as <-. eauto. }
    apply Hx in Ha as (q0 & Ha & E1). apply Hx in Hb as (q0' & Hb & E2). apply (Hu a b q0 q0' Ha Hb). congruence.
  - rewrite mjoin_update_slot, decide_False by auto. exact Hc.
Qed.

(** ** The lock of the process table *)

(** Nobody holds PROCESS_TABLE_LOCK; [depth] other locks are held, and [was]
    is whether interrupts were enabled before the first of them. *)
Definition ptable_open (was : bool) (depth : Z) (k : kernel) : Prop :=
  lock_open was depth (view ptable_lock_lens k) /\ 0 <= depth /\ depth + 1 < U64.
Definition ptable_held (was : bool) (depth : Z) (k : kernel) : Prop :=
  lock_held was depth (view ptable_lock_lens k) /\ 0 <= depth /\ depth + 1 < U64.

(** The kernel except for the lock and the core's interrupt state. *)
Definition lock_turned (k k' : kernel) : Prop :=
  exists c l, k' = set_ptable_lock l (set_dev (set_core c (dev k)) k) /\ same_proc (hcore (dev k)) c.

Lemma ptable_acquire was depth k :
  ptable_open was depth k ->
  exists k', zoom ptable_lock_lens acquire k = Done tt k' /\ ptable_held was depth k' /\ lock_turned k k'.
Proof.
  intros (Ho & H0 & H1). destruct (acquire_ok was depth _ Ho H1) as ([c s] & Hrun & Hh & Hp & _).
  exists (set ptable_lock_lens (c, s) k).
  split; [|split; [split; [exact Hh|auto]|exists c, s; split; [reflexivity|exact Hp]]].
  apply zoom_done. eauto.
Qed.

Lemma ptable_release was depth k :
  ptable_held was depth k ->
  exists k', zoom ptable_lock_lens release k = Done tt k' /\ ptable_open was depth k' /\ lock_turned k k'.
Proof.
  intros (Ho & H0 & H1). destruct (release_ok was depth _ Ho H0) as ([c s] & Hrun & Hh & Hp & _).
  exists (set ptable_lock_lens (c, s) k).
  split; [|split; [split; [exact Hh|auto]|exists c, s; split; [reflexivity|exact Hp]]].
  apply zoom_done. eauto.
Qed.

Lemma lock_turned_ok k k' l : lock_turned k k' -> kernel_ok k l -> kernel_ok k' l.
Proof. intros (c & s & -> & _) Hok. refine (kernel_ok_ext _ _ _ Hok _ _ _ _); reflexivity. Qed.

Lemma ptable_held_ext was depth k k' :
  hcore (dev k') = hcore (dev k) -> PROCESS_TABLE_LOCK k' = PROCESS_TABLE_LOCK k ->
  ptable_held was depth k -> ptable_held was depth k'.
Proof. intros E1 E2 H. unfold ptable_held, ptable_lock_lens. cbn [view]. now rewrite E1, E2. Qed.

(** The part of [sys_exit] after [terminate], for the process [c]. *)
Lemma exit_table_ok k l i c code :
  kernel_ok k l -> slot_has k i c -> state c = Terminated ->
  kernel_ok (set_table (exit_table i c code (PROCESS_TABLE k)) k) l.
Proof.
  intros Hok Hc Hs. unfold exit_table. destruct (find_by_id _ _) as [j|]; [|now destruct k].
  destruct (mjoin (PROCESS_TABLE k !! j)) as [p|] eqn:Hp; [|now destruct k].
  destruct (awaits c p) eqn:Ha; [|now destruct k].
  unfold awaits in Ha. apply andb_prop in Ha as [Ha _]. apply andb_prop in Ha as [Ha _].
  apply bool_decide_eq_true in Ha.
  pose proof (kernel_ok_slot k l j (collected (pid c) code) p Hok Hp eq_refl) as Hok1.
  refine (kernel_ok_remove _ l i c (Hok1 _ _) _ _); [|reflexivity| |].
  - unfold is_live, is_state. cbn. now rewrite Ha.
  - unfold slot_has. cbn [PROCESS_TABLE set_table]. rewrite mjoin_update_slot.
    destruct (decide (i = j)) as [->|]; [|exact Hc]. unfold slot_has in Hc. congruence.
  - unfold is_live, is_state. now rewrite Hs.
Qed.

Lemma exit_table_roots i c code t :
  mjoin (t !! i) = Some c -> state c = Terminated -> live_roots (exit_table i c code t) ≡ₚ live_roots t.
Proof.
  intros Hc Hs. unfold exit_table. destruct (find_by_id _ _) as [j|]; [|reflexivity].
  destruct (mjoin (t !! j)) as [p|] eqn:Hp; [|reflexivity]. destruct (awaits c p) eqn:Ha; [|reflexivity].
  unfold awaits in Ha. apply andb_prop in Ha as [Ha _]. apply andb_prop in Ha as [Ha _].
  apply bool_decide_eq_true in Ha.
  rewrite <- (live_roots_update j (collected (pid c) code) t p Hp);
    [|cbn; unfold is_live, is_state; cbn; now rewrite Ha].
  set (t1 := update_slot j _ t).
  assert (t1 !! i = Some (Some c)) as Hi.
  { unfold t1, update_slot. rewrite list_lookup_alter_ne by (intros ->; congruence).
    destruct (t !! i); [cbn in Hc; congruence|discriminate]. }
  pose proof (live_roots_insert t1 i (Some c) None Hi) as H. cbn [slot_root option_list app] in H.
  unfold is_live, is_state in H. rewrite Hs in H. exact H.
Qed.

Lemma find_by_id_0 k l : kernel_ok k l -> find_by_id 0 (PROCESS_TABLE k) = None.
Proof.
  intros Hok. destruct (find_by_id 0 _) as [j|] eqn:Hf; [|reflexivity].
  apply find_by_id_Some in Hf as (p & Hp & E). pose proof (ko_fresh _ _ Hok _ _ Hp). lia.
Qed.

(** Notifying the parent: the middle of [sys_exit]. *)
Definition notify_parent (c : Process) (code : Z) : M kernel (result unit) :=
  let* pj := gets (fun k => find_by_id (parent_pid c) (PROCESS_TABLE k)) in
  match pj with
  | Some j =>
      let* parent_proc := slot_process j in
      if is_state Blocked parent_proc && bool_decide (block_reason parent_proc = Some WaitingForChild) then
        let awaited_child := pctx_x 0 (pctx parent_proc) in
        if (awaited_child =? 0) || (pid c =? awaited_child) then
          wake_parent j (pid c) code
        else ret ok
      else ret ok
  | None =>
      if negb (parent_pid c =? 0) then panic "[SYS_EXIT] Parent process pid not found of child" else ret ok
  end.

Lemma notify_parent_run k l i c code :
  kernel_ok k l -> slot_has k i c -> state c = Terminated ->
  (parent_pid c = 0 \/ find_by_id (parent_pid c) (PROCESS_TABLE k) <> None) ->
  notify_parent c code k = Done ok (set_table (exit_table i c code (PROCESS_TABLE k)) k).
Proof.
  intros Hok Hc Hs Hp. unfold notify_parent, gets at 1, bind at 1. unfold exit_table.
  destruct (find_by_id _ _) as [j|] eqn:Hf.
  - apply find_by_id_Some in Hf as (p & Hpj & _). rewrite Hpj.
    rewrite (bind_run _ _ _ _ _ (slot_process_run _ _ _ Hpj)). unfold awaits.
    destruct (is_state Blocked p && _) eqn:Hb; cbn [andb]; [|now destruct k].
    cbv zeta. destruct (_ || _); [|now destruct k].
    apply wake_parent_run with p; [exact Hpj| |exact Hc|exact (ko_pids _ _ Hok)].
    intros ->. apply andb_prop in Hb as [Hb _]. apply bool_decide_eq_true in Hb.
    unfold slot_has in Hc. congruence.
  - destruct Hp as [->|]; [|contradiction]. destruct k. reflexivity.
Qed.

Lemma find_by_id_pids id t :
  find_by_id id t =
    fst <$> find_slot (fun o => bool_decide (o = Some id)) ((fun s : option Process => pid <$> s) <$> t).
Proof.
  unfold find_by_id. induction t as [|s t IH]; [reflexivity|]. cbn [find_slot fmap list_fmap].
  assert (slot_is (fun p => pid p =? id) s = bool_decide (pid <$> s = Some id)) as ->.
  { destruct s as [p|]; cbn; [|now rewrite bool_decide_eq_false_2].
    destruct (Z.eqb_spec (pid p) id) as [->|Hn]; symmetry.
    - now apply bool_decide_eq_true_2.
    - apply bool_decide_eq_false_2. congruence. }
  destruct (bool_decide _); [reflexivity|].
  destruct (find_slot _ t) as [[? ?]|], (find_slot _ (fmap _ t)) as [[? ?]|]; cbn in *; congruence.
Qed.

Lemma find_by_id_terminated id i code p t :
  mjoin (t !! i) = Some p -> find_by_id id (terminated i code p t) = find_by_id id t.
Proof.
  intros Hp. rewrite !find_by_id_pids. do 2 f_equal. unfold terminated, map_procs.
  apply list_eq. intros j. rewrite !list_lookup_fmap. destruct (decide (j = i)) as [->|Hne].
  - destruct (t !! i) as [s|] eqn:E; [|discriminate]. cbn in Hp. subst s.
    rewrite list_lookup_insert_eq by (now apply lookup_lt_Some in E). cbn.
    destruct (reparent_id (pid p) 1 (set_state Terminated (set_exit_code code p))) as [-> _]. reflexivity.
  - rewrite list_lookup_insert_ne by auto. destruct (t !! j) as [[q|]|]; [|reflexivity..]. cbn.
    now destruct (reparent_id (pid p) 1 q) as [-> _].
Qed.

(** [sys_exit] up to [schedule_next]. *)
Definition exit_process (i : nat) (code : Z) : M kernel (result unit) :=
  zoom ptable_lock_lens acquire ;;
  terminate i code ;;
  let* current_process := slot_process i in
  let? _ := notify_parent current_process code in
  zoom ptable_lock_lens release ;;
  ret ok.

Lemma sys_exit_eq fuel :
  sys_exit fuel =
    (let* a := arg 0 in
     let* cur := current_slot in
     let? _ := (match cur with Some i => exit_process i (as_i64 a) | None => ret ok end) in
     schedule_next fuel ;; ret ok).
Proof. reflexivity. Qed.

(** The process as [sys_exit] leaves it, unless its slot is emptied. *)
Definition zombie (code : Z) (p : Process) : Process := set_state Terminated (set_exit_code code p).

(** Only the core, the lock of the table, the table and the exception context
    moved. *)
Definition core_moved (k k' : kernel) : Prop :=
  exists t e c lk, same_proc (hcore (dev k)) c /\
    k' = set_ptable_lock lk (set_dev (set_core c (dev k)) (set_table t (set_ectx e k))).

Lemma same_proc_trans c1 c2 c3 : same_proc c1 c2 -> same_proc c2 c3 -> same_proc c1 c3.
Proof. intros [A1 A2] [B1 B2]. split; congruence. Qed.

Lemma sys_exit_run fuel k l p was depth :
  let i := CURRENT_PROCESS k in
  let code := as_i64 (ectx_x 0 (ectx k)) in
  kernel_ok k l -> slot_has k i p -> is_live p = true -> parent_pid p <> pid p ->
  ptable_open was depth k ->
  if (parent_pid p =? 0) || bool_decide (find_by_id (parent_pid p) (PROCESS_TABLE k) <> None) then
    exists k1, sys_exit fuel k = (schedule_next fuel ;; ret ok) k1 /\
      kernel_ok k1 (reverse (owned 3 (ram (kmem (stk k))) (ttbr0 (pctx p))) ++ l) /\
      PROCESS_TABLE k1 = exit_table i (zombie code p) code (terminated i code p (PROCESS_TABLE k)) /\
      CURRENT_PROCESS k1 = i /\ ectx k1 = ectx k /\ ptable_open was depth k1 /\
      Forall (space_kept (ram (kmem (stk k))) (ram (kmem (stk k1)))) (live_roots (PROCESS_TABLE k1)) /\
      (exists s, core_moved (set_stk s k) k1)
  else exists e, sys_exit fuel k = Panic e.
Proof.
  intros i code Hok Hp Hl Hpp Hlock.
  destruct (ptable_acquire was depth k Hlock) as (ka & Hacq & Hheld & Hta).
  pose proof (lock_turned_ok _ _ _ Hta Hok) as Hoka.
  destruct Hta as (ca & la & Eka & Hca).
  assert (slot_has ka i p) as Hpa by (rewrite Eka; exact Hp).
  destruct (terminate_ok ka l i code p Hoka Hpa Hl) as (kb & lb & Hterm & [T1 T2 T3 _ T5 [sb T6]]).
  assert (PROCESS_TABLE ka = PROCESS_TABLE k) as Eta by now rewrite Eka.
  assert (stk ka = stk k) as Esa by now rewrite Eka. rewrite Eta in T2. rewrite Esa in T3, T5.
  assert (slot_has kb i (zombie code p)) as Hz.
  { unfold slot_has. rewrite T2. unfold terminated. rewrite map_procs_lookup, list_lookup_insert_eq.
    - cbn. unfold reparent, zombie. cbn. now rewrite (proj2 (Z.eqb_neq _ _) Hpp).
    - apply lookup_lt_is_Some_1. unfold slot_has in Hp. destruct (_ !! i); [eauto|discriminate]. }
  rewrite sys_exit_eq. rewrite (bind_run (arg 0) _ k (ectx_x 0 (ectx k)) k) by reflexivity. fold code.
  rewrite (bind_run _ _ _ _ _ (current_slot_run _ _ _ Hok Hp)). fold i.
  assert (forall r, (let? _ := notify_parent (zombie code p) code in
      zoom ptable_lock_lens release ;; ret ok) kb = r -> exit_process i code k = r) as Hstart.
  { intros r Hr. unfold exit_process. rewrite (bind_run _ _ _ _ _ Hacq), (bind_run _ _ _ _ _ Hterm).
    now rewrite (bind_run _ _ _ _ _ (slot_process_run _ _ _ Hz)). }
  pose proof (find_by_id_terminated (parent_pid p) i code p (PROCESS_TABLE k) Hp) as Hfind.
  destruct (_ || _) eqn:Hc.
  - assert (parent_pid p = 0 \/ find_by_id (parent_pid p) (PROCESS_TABLE kb) <> None) as Hpar.
    { rewrite T2, Hfind. apply orb_prop in Hc as [Hc|Hc]; [left; now apply Z.eqb_eq|right].
      now apply bool_decide_eq_true in Hc. }
    pose proof (notify_parent_run kb lb i (zombie code p) code T1 Hz eq_refl Hpar) as Hn.
    set (kc := set_table _ kb) in Hn.
    destruct (ptable_release was depth kc) as (kd & Hrel & Hopen & Htd).
    { apply (ptable_held_ext was depth ka); [unfold kc; rewrite T6; reflexivity..|exact Hheld]. }
    exists kd. rewrite <- T3. pose proof (lock_turned_ok _ _ lb Htd (exit_table_ok _ _ _ _ code T1 Hz eq_refl)) as Hokd.
    destruct Htd as (cd & ld & -> & Hcd).
    assert (exit_process i code k = Done ok (set_ptable_lock ld (set_dev (set_core cd (dev kc)) kc))) as Hrun.
    { apply Hstart. unfold bind_try. rewrite (bind_run _ _ _ _ _ Hn). unfold ok at 1. cbn beta iota.
      now rewrite (bind_run _ _ _ _ _ Hrel). }
    split; [unfold bind_try; now rewrite (bind_run _ _ _ _ _ Hrun)|]. split; [exact Hokd|].
    split; [cbn; now rewrite T2|]. split; [cbn; rewrite T6, Eka; reflexivity|].
    split; [cbn; rewrite T6, Eka; reflexivity|]. split; [exact Hopen|].
    change (PROCESS_TABLE (set_ptable_lock _ _)) with (exit_table i (zombie code p) code (PROCESS_TABLE kb)).
    split; [now rewrite (exit_table_roots i (zombie code p))|].
    assert (exists t, kc = set_stk sb (set_table t ka)) as [t Ekc] by (unfold kc; rewrite T6; eexists; reflexivity).
    rewrite Ekc, Eka in *. exists sb, t, (ectx k), cd, ld. split; [|reflexivity].
    exact (same_proc_trans _ _ _ Hca Hcd).
  - exists "[SYS_EXIT] Parent process pid not found of child"%string.
    apply orb_false_iff in Hc as [H1 H2]. apply bool_decide_eq_false in H2.
    assert (exit_process i code k = Panic "[SYS_EXIT] Parent process pid not found of child") as Hrun.
    { apply Hstart. unfold bind_try. apply bind_panic.
      unfold notify_parent, gets at 1, bind at 1. cbn [parent_pid zombie set_state set_exit_code].
      assert (find_by_id (parent_pid p) (PROCESS_TABLE k) = None) as Hnone
        by (destruct (find_by_id (parent_pid p) (PROCESS_TABLE k)); [contradiction H2; discriminate|reflexivity]).
      rewrite T2, Hfind, Hnone. now rewrite H1. }
    unfold bind_try at 1. apply bind_panic. exact Hrun.
Qed.

(** C14. [exit].  The call runs [schedule_next] in a kernel that satisfies the
    invariant again and in which the process is no longer alive: every frame
    of its address space is back on the free list, its children belong to
    init, and its parent either sleeps in a [wait] for it, and then becomes
    ready with the exit code in x1 while the process's slot is emptied, or
    finds the exit code in the zombie; the lock of the table is open as
    before.  A process whose parent is not in the table makes it panic. *)
Theorem sys_exit_spec fuel k l p was depth :
  let i := CURRENT_PROCESS k in
  let code := as_i64 (ectx_x 0 (ectx k)) in
  kernel_ok k l -> slot_has k i p -> is_live p = true -> parent_pid p <> pid p ->
  ptable_open was depth k ->
  if (parent_pid p =? 0) || bool_decide (find_by_id (parent_pid p) (PROCESS_TABLE k) <> None) then
    exists k1, sys_exit fuel k = (schedule_next fuel ;; ret ok) k1 /\
      kernel_ok k1 (reverse (owned 3 (ram (kmem (stk k))) (ttbr0 (pctx p))) ++ l) /\
      PROCESS_TABLE k1 = exit_table i (zombie code p) code (terminated i code p (PROCESS_TABLE k)) /\
      CURRENT_PROCESS k1 = i /\ ectx k1 = ectx k /\ ptable_open was depth k1 /\
      Forall (space_kept (ram (kmem (stk k))) (ram (kmem (stk k1)))) (live_roots (PROCESS_TABLE k1))
  else exists e, sys_exit fuel k = Panic e.
Proof.
  intros i code Hok Hp Hl Hpp Hlock. pose proof (sys_exit_run fuel k l p was depth Hok Hp Hl Hpp Hlock) as H.
  fold i code in H. destruct (_ || _); [|exact H].
  destruct H as (k1 & H1 & H2 & H3 & H4 & H5 & H6 & H7 & _). exists k1. auto 10.
Qed.

(** ** [wait] *)

(** Process [c] in slot [j] is a child a [wait] of [p] for [target] is about. *)
Definition waited (k : kernel) (p : Process) (target : Z) (j : nat) (c : Process) : Prop :=
  slot_has k j c /\ parent_pid c = pid p /\ (target = 0 \/ pid c = target).

Lemma is_target_true cp t c :
  is_target cp t c = true <-> parent_pid c = cp /\ (t = 0 \/ pid c = t).
Proof.
  unfold is_target. rewrite andb_true_iff, orb_true_iff, !Z.eqb_eq. reflexivity.
Qed.

Lemma slot_lookup (t : list (option Process)) j c : mjoin (t !! j) = Some c <-> t !! j = Some (Some c).
Proof. destruct (t !! j) as [[q|]|]; cbn; split; congruence. Qed.

(** The scan of the table for a zombie of [p]. *)
Lemma zombie_scan k p target :
  match find_slot (slot_is (fun c => is_target (pid p) target c && is_state Terminated c)) (PROCESS_TABLE k) with
  | Some (j, Some c) => waited k p target j c /\ state c = Terminated /\
      forall j' c', (j' < j)%nat -> waited k p target j' c' -> state c' <> Terminated
  | Some (_, None) => False
  | None => forall j c, waited k p target j c -> state c <> Terminated
  end.
Proof.
  set (P := fun c => is_target (pid p) target c && is_state Terminated c).
  assert (forall j c, waited k p target j c -> state c = Terminated ->
    PROCESS_TABLE k !! j = Some (Some c) /\ P c = true) as Hw.
  { intros j c (Hj & Hc) Hs. split; [now apply slot_lookup|]. unfold P, is_state.
    rewrite (proj2 (is_target_true _ _ _) Hc), bool_decide_eq_true_2 by exact Hs. reflexivity. }
  destruct (find_slot _ _) as [[j s]|] eqn:Hf.
  - apply find_slot_Some in Hf as (Hj & HP & Hmin). destruct s as [c|]; [|discriminate]. cbn in HP.
    apply andb_prop in HP as [H1 H2]. apply bool_decide_eq_true in H2. apply is_target_true in H1.
    split; [split; [now apply slot_lookup|exact H1]|]. split; [exact H2|].
    intros j' c' Hlt Hc' Hs. destruct (Hw _ _ Hc' Hs) as [Hl HP']. specialize (Hmin j' _ Hlt Hl). cbn in Hmin.
    fold P in Hmin. congruence.
  - rewrite find_slot_None in Hf. intros j c Hc Hs. destruct (Hw _ _ Hc Hs) as [Hl HP'].
    apply list_elem_of_lookup_2 in Hl. specialize (Hf _ Hl). cbn in Hf. fold P in Hf. congruence.
Qed.

Lemma child_scan k p target :
  if existsb (slot_is (is_target (pid p) target)) (PROCESS_TABLE k)
  then exists j c, waited k p target j c else forall j c, ~ waited k p target j c.
Proof.
  destruct (existsb _ _) eqn:He.
  - apply existsb_exists in He as (s & Hin & Hs). destruct s as [c|]; [|discriminate]. cbn in Hs.
    apply list_elem_of_In, list_elem_of_lookup in Hin as [j Hj]. exists j, c.
    split; [now apply slot_lookup|now apply is_target_true].
  - intros j c [Hj Hc]. apply slot_lookup, list_elem_of_lookup_2, list_elem_of_In in Hj.
    assert (existsb (slot_is (is_target (pid p) target)) (PROCESS_TABLE k) = true) as Ht; [|congruence].
    apply existsb_exists. exists (Some c). split; [exact Hj|]. now apply is_target_true.
Qed.

Lemma ptable_held_around was depth k k' :
  same_around k k' -> ptable_held was depth k -> ptable_held was depth k'.
Proof.
  intros (_ & _ & Hl & _ & [(E1 & E2 & E3 & E4) _ _ _ _ _ _ _]) [(Hn & Hs & Hh) Hd].
  unfold ptable_held, lock_held in *. cbn [view ptable_lock_lens fst snd] in *. rewrite Hl, E4.
  split; [|exact Hd]. split; [|auto]. destruct Hn as [N1 N2 N3 N4].
  split; [congruence|exact N2|congruence|]. rewrite E3. exact N4.
Qed.

(** [sys_wait] with the lock of the table held, [zombie] being what it found. *)
Definition wait_found (fuel : nat) (current_pid target_pid : Z) (zombie : option (nat * option Process))
  : M kernel (result unit) :=
  match zombie with
  | Some (j, Some child) =>
      modify (fun k => set_table (<[j := None]> (PROCESS_TABLE k)) k) ;;
      zoom ptable_lock_lens release ;;
      set_x 0 (pid child) ;;
      set_x 1 (i64_as_u64 (exit_code child)) ;;
      ret ok
  | _ =>
      let* found_child := gets (fun k =>
        existsb (slot_is (is_target current_pid target_pid)) (PROCESS_TABLE k)) in
      if negb (found_child : bool) then
        zoom ptable_lock_lens release ;; set_x 0 U64_MAX ;; ret ok
      else
        let* cur := current_slot in
        match cur with
        | Some i =>
            modify_slot i (block WaitingForChild) ;;
            schedule_next fuel ;;
            zoom ptable_lock_lens release ;;
            ret ok
        | None =>
            zoom ptable_lock_lens release ;;
            ret (RErr "Where did the current process go")
        end
  end.

Lemma sys_wait_run fuel k l p ka :
  kernel_ok k l -> slot_has k (CURRENT_PROCESS k) p -> zoom ptable_lock_lens acquire k = Done tt ka ->
  sys_wait fuel k = wait_found fuel (pid p) (ectx_x 0 (ectx k))
    (find_slot (slot_is (fun c => is_target (pid p) (ectx_x 0 (ectx k)) c && is_state Terminated c))
       (PROCESS_TABLE ka)) ka.
Proof.
  intros Hok Hp Hacq. unfold sys_wait.
  rewrite (bind_run (arg 0) _ k (ectx_x 0 (ectx k)) k) by reflexivity.
  rewrite (bind_run (gets get_current_process) _ k (Some p) k)
    by (unfold gets; now rewrite (current_process_slot _ _ _ Hok Hp)).
  cbv beta iota zeta. rewrite (bind_run _ _ _ _ _ Hacq). reflexivity.
Qed.

(** No zombie, but a child: the caller blocks and the scheduler runs. *)
Lemma wait_blocks fuel k l p target was depth :
  kernel_ok k l -> slot_has k (CURRENT_PROCESS k) p -> is_live p = true -> ptable_held was depth k ->
  existsb (slot_is (is_target (pid p) target)) (PROCESS_TABLE k) = true ->
  let k1 := set_table (update_slot (CURRENT_PROCESS k) (block WaitingForChild) (PROCESS_TABLE k)) k in
  wait_found fuel (pid p) target None k = (schedule_next fuel ;; zoom ptable_lock_lens release ;; ret ok) k1 /\
  kernel_ok k1 l /\
  forall k2, schedule_next fuel k1 = Done tt k2 ->
    exists k3, wait_found fuel (pid p) target None k = Done ok k3 /\ ptable_open was depth k3 /\ lock_turned k2 k3.
Proof.
  intros Hok Hp Hl Hheld He k1.
  assert (wait_found fuel (pid p) target None k =
    (schedule_next fuel ;; zoom ptable_lock_lens release ;; ret ok) k1) as Hrun.
  { unfold wait_found. rewrite (bind_run (gets _) _ k true k) by (unfold gets; now rewrite He).
    cbv beta iota delta [negb]. rewrite (bind_run _ _ _ _ _ (current_slot_run _ _ _ Hok Hp)). reflexivity. }
  split; [exact Hrun|]. split; [|intros k2 Hs].
  - apply (kernel_ok_slot k l _ _ p Hok Hp); [reflexivity| |reflexivity]. rewrite Hl. reflexivity.
  - pose proof (ptable_held_around was depth k1 k2 (schedule_next_around _ _ _ Hs) Hheld) as Hh2.
    destruct (ptable_release was depth k2 Hh2) as (k3 & Hrel & Hopen & Ht3). exists k3.
    split; [|auto]. rewrite Hrun, (bind_run _ _ _ _ _ Hs), (bind_run _ _ _ _ _ Hrel). reflexivity.
Qed.

Lemma sys_wait_cases fuel k l p was depth :
  let i := CURRENT_PROCESS k in
  let target := ectx_x 0 (ectx k) in
  kernel_ok k l -> slot_has k i p -> is_live p = true -> ptable_open was depth k ->
  (exists j c k', waited k p target j c /\ state c = Terminated /\
     (forall j' c', (j' < j)%nat -> waited k p target j' c' -> state c' <> Terminated) /\
     sys_wait fuel k = Done ok k' /\ kernel_ok k' l /\ ptable_open was depth k' /\
     PROCESS_TABLE k' = <[j := None]> (PROCESS_TABLE k) /\ stk k' = stk k /\
     ectx k' = ectx_set_x 1 (i64_as_u64 (exit_code c)) (ectx_set_x 0 (pid c) (ectx k)) /\ core_moved k k') \/
  ((forall j c, ~ waited k p target j c) /\
   exists k', sys_wait fuel k = Done ok k' /\ kernel_ok k' l /\ ptable_open was depth k' /\
     PROCESS_TABLE k' = PROCESS_TABLE k /\ stk k' = stk k /\ ectx k' = ectx_set_x 0 U64_MAX (ectx k) /\
     core_moved k k') \/
  ((exists j c, waited k p target j c) /\ (forall j c, waited k p target j c -> state c <> Terminated) /\
   exists k1, sys_wait fuel k = (schedule_next fuel ;; zoom ptable_lock_lens release ;; ret ok) k1 /\
     kernel_ok k1 l /\ CURRENT_PROCESS k1 = i /\ stk k1 = stk k /\ ectx k1 = ectx k /\
     PROCESS_TABLE k1 = update_slot i (block WaitingForChild) (PROCESS_TABLE k) /\
     core_moved k k1 /\
     forall k2, schedule_next fuel k1 = Done tt k2 ->
       exists k3, sys_wait fuel k = Done ok k3 /\ ptable_open was depth k3 /\ lock_turned k2 k3).
Proof.
  intros i target Hok Hp Hl Hlock.
  destruct (ptable_acquire was depth k Hlock) as (ka & Hacq & Hheld & Hta).
  pose proof (lock_turned_ok _ _ _ Hta Hok) as Hoka. destruct Hta as (ca & la & Eka & Hca).
  assert (PROCESS_TABLE ka = PROCESS_TABLE k) as Eta by now rewrite Eka.
  assert (slot_has ka i p) as Hpa by (rewrite Eka; exact Hp).
  assert (CURRENT_PROCESS ka = i) as Eca by now rewrite Eka.
  pose proof (zombie_scan k p target) as Hz. pose proof (child_scan k p target) as Hc.
  pose proof (sys_wait_run fuel k l p ka Hok Hp Hacq) as Hrun. rewrite Eta in Hrun. fold target in Hrun.
  rewrite Hrun. clear Hrun.
  destruct (find_slot _ _) as [[j [c|]]|]; [left|contradiction|right].
  - destruct Hz as (Hw & Hs & Hmin). set (kb := set_table (<[j := None]> (PROCESS_TABLE ka)) ka).
    destruct (ptable_release was depth kb) as (kc & Hrel & Hopen & Htc); [exact Hheld|].
    assert (kernel_ok kc l) as Hokc.
    { apply (lock_turned_ok _ _ _ Htc). apply (kernel_ok_remove _ l j c Hoka).
      - destruct Hw as [Hj _]. unfold slot_has. now rewrite Eta.
      - unfold is_live, is_state. now rewrite Hs. }
    destruct Htc as (cc & lc & Ekc & Hcc).
    exists j, c, (set_ectx (ectx_set_x 1 (i64_as_u64 (exit_code c)) (ectx_set_x 0 (pid c) (ectx kc))) kc).
    split; [exact Hw|]. split; [exact Hs|]. split; [exact Hmin|]. split; [|split; [|split; [|split; [|split; [|split]]]]].
    + unfold wait_found. rewrite (bind_run _ _ ka tt kb) by reflexivity.
      rewrite (bind_run _ _ _ _ _ Hrel). reflexivity.
    + refine (kernel_ok_ext _ _ _ Hokc _ _ _ _); reflexivity.
    + exact Hopen.
    + rewrite Ekc. cbn. now rewrite Eta.
    + rewrite Ekc. cbn. now rewrite Eka.
    + rewrite Ekc. cbn. now rewrite Eka.
    + eexists _, _, cc, lc. split; [|rewrite Ekc; unfold kb; rewrite Eka; reflexivity].
      eapply same_proc_trans; [exact Hca|]. unfold kb in Hcc. rewrite Eka in Hcc. exact Hcc.
  - destruct (existsb _ _) eqn:He; [right|left].
    + split; [exact Hc|]. split; [exact Hz|].
      rewrite <- Eca in Hpa. rewrite <- Eta in He.
      destruct (wait_blocks fuel ka l p target was depth Hoka Hpa Hl Hheld He) as (Hrun & Hok1 & Hend).
      eexists. split; [exact Hrun|]. split; [exact Hok1|].
      split; [exact Eca|]. split; [now rewrite Eka|]. split; [now rewrite Eka|].
      split; [cbn; now rewrite Eca, Eta|]. split; [|exact Hend].
      eexists _, (ectx k), ca, la. split; [exact Hca|]. rewrite Eka. reflexivity.
    + split; [exact Hc|]. destruct (ptable_release was depth ka Hheld) as (kc & Hrel & Hopen & Htc).
      exists (set_ectx (ectx_set_x 0 U64_MAX (ectx kc)) kc).
      pose proof (lock_turned_ok _ _ _ Htc Hoka) as Hokc. destruct Htc as (cc & lc & Ekc & Hcc).
      split; [|split; [|split; [exact Hopen|]]].
      * unfold wait_found. rewrite (bind_run (gets _) _ ka false ka) by (unfold gets; now rewrite Eta, He).
        cbv beta iota delta [negb]. rewrite (bind_run _ _ _ _ _ Hrel). reflexivity.
      * refine (kernel_ok_ext _ _ _ Hokc _ _ _ _); reflexivity.
      * split; [rewrite Ekc; cbn; now rewrite Eka|]. split; [rewrite Ekc; cbn; now rewrite Eka|].
        split; [rewrite Ekc; cbn; now rewrite Eka|].
        eexists _, _, cc, lc. split; [|rewrite Ekc, Eka; reflexivity].
        eapply same_proc_trans; [exact Hca|]. rewrite Eka in Hcc. exact Hcc.
Qed.

(** C15. [wait(target)], 0 for any child.  It reaps the first terminated child
    it is about: the call returns that child's pid and exit code and empties
    the slot.  Without any child it is about it returns -1 and changes
    nothing.  Otherwise the caller blocks, the scheduler runs, and the lock
    of the table is open again when the call returns. *)
Theorem sys_wait_spec fuel k l p was depth :
  let i := CURRENT_PROCESS k in
  let target := ectx_x 0 (ectx k) in
  kernel_ok k l -> slot_has k i p -> is_live p = true -> ptable_open was depth k ->
  (exists j c k', waited k p target j c /\ state c = Terminated /\
     (forall j' c', (j' < j)%nat -> waited k p target j' c' -> state c' <> Terminated) /\
     sys_wait fuel k = Done ok k' /\ kernel_ok k' l /\ ptable_open was depth k' /\
     PROCESS_TABLE k' = <[j := None]> (PROCESS_TABLE k) /\ stk k' = stk k /\
     ectx k' = ectx_set_x 1 (i64_as_u64 (exit_code c)) (ectx_set_x 0 (pid c) (ectx k))) \/
  ((forall j c, ~ waited k p target j c) /\
   exists k', sys_wait fuel k = Done ok k' /\ kernel_ok k' l /\ ptable_open was depth k' /\
     PROCESS_TABLE k' = PROCESS_TABLE k /\ stk k' = stk k /\ ectx k' = ectx_set_x 0 U64_MAX (ectx k)) \/
  ((exists j c, waited k p target j c) /\ (forall j c, waited k p target j c -> state c <> Terminated) /\
   exists k1, sys_wait fuel k = (schedule_next fuel ;; zoom ptable_lock_lens release ;; ret ok) k1 /\
     kernel_ok k1 l /\ CURRENT_PROCESS k1 = i /\ stk k1 = stk k /\ ectx k1 = ectx k /\
     PROCESS_TABLE k1 = update_slot i (block WaitingForChild) (PROCESS_TABLE k) /\
     forall k2, schedule_next fuel k1 = Done tt k2 ->
       exists k3, sys_wait fuel k = Done ok k3 /\ ptable_open was depth k3 /\ lock_turned k2 k3).
Proof.
  intros i target Hok Hp Hl Hlock.
  destruct (sys_wait_cases fuel k l p was depth Hok Hp Hl Hlock)
    as [(j & c & k' & H1 & H2 & H3 & H4 & H5 & H6 & H7 & H8 & H9 & _)|
        [(H1 & k' & H2 & H3 & H4 & H5 & H6 & H7 & _)|(H1 & H2 & k1 & H3 & H4 & H5 & H6 & H7 & H8 & _ & H9)]].
  - left. exists j, c, k'. auto 12.
  - right. left. split; [exact H1|]. exists k'. auto 10.
  - right. right. split; [exact H1|]. split; [exact H2|]. exists k1. auto 10.
Qed.

End Kernel.

(** ** On a concrete kernel *)

Lemma demo_ptable_open t c : ptable_open true 0 (kernel_with t c).
Proof.
  unfold ptable_open, lock_open. cbn [view ptable_lock_lens kernel_with dev PROCESS_TABLE_LOCK fst snd].
  split; [split; [apply demo_hw_ok|reflexivity]|]. unfold U64. lia.
Qed.

Lemma enough_frames {F : Pool} k l r n :
  kernel_ok k l -> FREE_FRAME_COUNT (kmem (stk k)) = Z.of_nat n ->
  length (owned 3 (ram (kmem (stk k))) r) = 1%nat -> (19 <= n)%nat ->
  (length (owned 3 (ram (kmem (stk k))) r) + 18 <= length l)%nat.
Proof.
  intros Hok Hc -> Hn. pose proof (ff_count _ _ (so_free _ _ _ (sk_space _ _ (ko_stacks _ _ Hok)))). lia.
Qed.

Lemma demo_init_slots : KERNEL_STACKS_ALLOCATED (stk demo_init) = Allocated 1 :: replicate 49 Free.
Proof. destruct demo_one_ok as (_ & _ & _ & _ & H). exact H. Qed.

Lemma demo_runs : runs demo_init demo_proc 0 (slot_low 0 + 0x7000).
Proof. split; [reflexivity|reflexivity|rewrite demo_init_slots; reflexivity|reflexivity|lia]. Qed.

Lemma demo_room : exists (F : Pool) l, kernel_ok demo_init l /\ fork_room demo_init l demo_proc 1.
Proof.
  destruct demo_init_ok as (F & l & Hl). exists F, l. split; [exact Hl|]. split.
  - reflexivity.
  - intros [|i] Hi; [discriminate|lia].
  - rewrite demo_init_slots. right. now left.
  - reflexivity.
  - apply (enough_frames _ _ _ 54 Hl); [vm_compute; reflexivity..|lia].
Qed.

Lemma sys_fork_spec_witness :
  exists (F : Pool) l, (kernel_ok demo_init l /\ runs demo_init demo_proc 0 (slot_low 0 + 0x7000) /\
     fork_room demo_init l demo_proc 1) /\
  exists child k' l', sys_fork demo_init = Done ok k' /\ kernel_ok k' l' /\
    PROCESS_TABLE k' = <[1%nat := Some child]> (PROCESS_TABLE demo_init) /\ pid child = 10.
Proof.
  destruct demo_room as (F & l & H1 & H3). exists F, l. pose proof demo_runs as H2. split; [auto|].
  destruct (sys_fork_spec demo_init l demo_proc 0 (slot_low 0 + 0x7000) 1 H1 H2 H3)
    as (child & k' & l' & Hrun & Hok & Ht & _ & Hpid & _).
  exists child, k', l'. auto.
Defined.

Lemma sys_exit_spec_witness :
  exists (F : Pool) l, (kernel_ok demo_init l /\ slot_has demo_init 0 demo_proc /\ is_live demo_proc = true /\
    parent_pid demo_proc <> pid demo_proc /\ ptable_open true 0 demo_init) /\
  exists k1, sys_exit 3 demo_init = (schedule_next 3 ;; ret ok) k1 /\
    PROCESS_TABLE k1 = exit_table 0 (zombie 0 demo_proc) 0 (terminated 0 0 demo_proc (PROCESS_TABLE demo_init)).
Proof.
  destruct demo_init_ok as (F & l & H1). exists F, l.
  assert (slot_has demo_init 0 demo_proc) as H2 by reflexivity.
  assert (is_live demo_proc = true) as H3 by reflexivity.
  assert (parent_pid demo_proc <> pid demo_proc) as H4 by discriminate.
  pose proof (demo_ptable_open demo_init_table demo_ectx) as H5. split; [auto|].
  destruct (sys_exit_spec 3 demo_init l demo_proc true 0 H1 H2 H3 H4 H5) as (k1 & Hrun & _ & Ht & _).
  exists k1. auto.
Defined.

(** The child's exit code, 7, is what [wait] returns. *)
Lemma sys_wait_spec_witness :
  exists (F : Pool) l, (kernel_ok demo_reap l /\ slot_has demo_reap 0 demo_proc /\ is_live demo_proc = true /\
    ptable_open true 0 demo_reap) /\
  exists k', sys_wait 3 demo_reap = Done ok k' /\ ectx k' = ectx_set_x 1 7 (ectx_set_x 0 2 demo_ectx).
Proof.
  destruct demo_reap_ok as (F & l & H1). exists F, l.
  assert (slot_has demo_reap 0 demo_proc) as H2 by reflexivity.
  assert (is_live demo_proc = true) as H3 by reflexivity.
  pose proof (demo_ptable_open demo_zombie_table demo_ectx) as H4. split; [auto|].
  assert (waited demo_reap demo_proc 0 1 demo_zombie) as Hw by (split; [reflexivity|auto]).
  destruct (sys_wait_spec 3 demo_reap l demo_proc true 0 H1 H2 H3 H4)
    as [(j & c & k' & (Hj & Hc & _) & _ & _ & Hrun & _ & _ & _ & _ & He)|[[Hn _]|(_ & Hn & _)]].
  - exists k'. split; [exact Hrun|]. rewrite He. destruct j as [|[|j]].
    + injection Hj as <-. discriminate.
    + injection Hj as <-. reflexivity.
    + contradiction (none_slots 48 j c Hj).
  - contradiction (Hn _ _ Hw).
  - contradiction (Hn _ _ Hw). reflexivity.
Defined.
