(* ===== verification/SpawnSpec.v ===== *)
(** Starting a program: [run_executable], [spawn_from_elf] and [exec] of
    ProcOps.v, from the file's bytes and the argument strings to a process that
    has its program, its arguments and its stacks.

    A kernel is taken apart into its memory with the kernel stacks and the
    roots of the address spaces ([world]); each step of a spawn or an exec is
    one lemma about it. *)

From Stdlib Require Import ZArith Lia.
From stdpp Require Import base strings numbers list.
From S2P Require Import Prelude Memory Frames PageTable PageFree PagingSpec UserMem PageRange Isolation.
From S2P Require Import LoadElf LoadSpec Args KernelStack Interrupts Devices Processes Scheduler ProcOps Demo.
From S2P Require Import Syscalls SyscallSpec.

Local Open Scope Z_scope.

(** ** The memory, with the live address spaces *)

Section World.
Context {F : Pool}.

Record world (s : kstate) (roots l : list Z) : Prop := {
  wo_stacks : stacks_ok s l;
  wo_spaces : spaces (kmem s) (k_root s :: roots) l;
}.

(** From [s] to [s'] the kernel's table stays where it is, the spaces under
    [keep] are untouched, and the slots become [slots]. *)
Record world_step (s : kstate) (keep : list Z) (slots : list StackState) (s' : kstate) : Prop := {
  ws_addr : L1_ADDR s' = L1_ADDR s;
  ws_slots : KERNEL_STACKS_ALLOCATED s' = slots;
  ws_kept : Forall (space_kept (ram (kmem s)) (ram (kmem s'))) keep;
}.

Lemma kernel_world k l : kernel_ok k l -> world (stk k) (live_roots (PROCESS_TABLE k)) l.
Proof. intros []. now split. Qed.

Lemma world_perm s roots roots' l : roots ≡ₚ roots' -> world s roots l -> world s roots' l.
Proof. intros E [H1 H2]. split; [exact H1|]. refine (spaces_perm _ _ _ _ _ H2). now f_equiv. Qed.

Lemma world_space s roots l r : world s roots l -> r ∈ roots -> space_ok (kmem s) r l.
Proof. intros [_ H] Hr. apply (spaces_space _ _ _ _ H). now right. Qed.

Lemma world_kept_read s roots l s' r va :
  world s roots l -> r ∈ roots -> space_kept (ram (kmem s)) (ram (kmem s')) r ->
  vread (kmem s') r va = vread (kmem s) r va.
Proof. intros [_ H] Hr Hk. apply (kept_read _ _ _ _ _ _ H); [now right|exact Hk]. Qed.

Lemma world_kept_mapped s roots l s' r va :
  world s roots l -> r ∈ roots -> space_kept (ram (kmem s)) (ram (kmem s')) r ->
  mapped (kmem s') r va <-> mapped (kmem s) r va.
Proof.
  intros [_ H] Hr Hk. unfold mapped. rewrite (kept_walk _ _ _ _ _ va H); [reflexivity|now right|exact Hk].
Qed.

(** A step of the memory that keeps the kernel's own space. *)
Lemma world_kmem s roots l st' roots' l' keep :
  world s roots l -> spaces st' (k_root s :: roots') l' ->
  Forall (space_kept (ram (kmem s)) (ram st')) (k_root s :: keep) ->
  world (set_kmem st' s) roots' l' /\ world_step s keep (KERNEL_STACKS_ALLOCATED s) (set_kmem st' s).
Proof.
  intros [H1 H2] Hsp [Hk Hks]%Forall_cons. split; split; auto.
  apply (stacks_ok_kept _ _ _ _ H1); [|exact Hk]. apply (spaces_space _ _ _ _ Hsp). now left.
Qed.

(** ** The steps *)

(** The program is loaded into a new space. *)
Lemma world_load s roots p l b h :
  world s roots (p :: l) -> elf_ok b h -> (3 * (length (all_pages (loads b h)) + 14) <= length l)%nat ->
  exists st' l', load_elf b (kmem s) = Done (ROk (entry h, elf_stack_top b h, p)) st' /\
    world (set_kmem st' s) (p :: roots) l' /\
    world_step s roots (KERNEL_STACKS_ALLOCATED s) (set_kmem st' s) /\ elf_loaded b h p st' /\
    (length l <= 3 * (length (all_pages (loads b h)) + 14) + length l')%nat.
Proof.
  intros Hw Hb Hlen. pose proof Hw as [H1 H2].
  destruct (load_elf_ok (kmem s) p l b h (so_free _ _ _ (sk_space _ _ H1)) Hb Hlen)
    as (st' & l' & Hrun & [E1 E2 E3 E4 E5 E6]).
  exists st', l'. split; [exact Hrun|].
  destruct (spaces_with _ _ _ _ _ _ H2 E3 (so_free _ _ _ E1) E4) as [Hsp Hk].
  destruct (world_kmem s roots (p :: l) st' (p :: roots) l' roots Hw) as [Hw' Hs]; auto.
  refine (spaces_perm _ _ _ _ _ Hsp). constructor.
Qed.

(** A kernel stack is given out: the first free slot. *)
Lemma world_stack s roots l pid :
  world s roots l -> (18 <= length l)%nat -> (Allocated pid ∉ KERNEL_STACKS_ALLOCATED s) ->
  Free ∈ KERNEL_STACKS_ALLOCATED s ->
  exists i s' l', alloc_stack pid s = Done (ROk (stack_start i + KERNEL_STACK_SIZE)) s' /\
    world s' roots l' /\ KERNEL_STACKS_ALLOCATED s !! i = Some Free /\
    world_step s roots (<[i := Allocated pid]> (KERNEL_STACKS_ALLOCATED s)) s'.
Proof.
  intros [H1 H2] Hlen Hnew Hfree. pose proof (first_free s) as Hff.
  destruct (find_slot _ _) as [[i w]|]; [|contradiction]. destruct Hff as [Hi Hmin].
  destruct (alloc_stack_gives pid s l i H1 Hlen Hnew Hi Hmin) as (s' & l' & Hrun & [G1 G2 G3 G4 G5 G6]).
  exists i, s', l'. split; [exact Hrun|].
  destruct (spaces_step _ (kmem s') _ _ _ _ H2 G6 (so_free _ _ _ (sk_space _ _ G1))) as (Hsp & Hk & _).
  assert (k_root s' = k_root s) as Hr by (unfold k_root; now rewrite G3).
  split; [split; [exact G1|now rewrite Hr]|]. split; [exact Hi|]. now split.
Qed.

(** The arguments are pushed on the stack of the space [p]. *)
Lemma world_args s roots p l args top :
  world s (p :: roots) l -> Forall (Forall is_u8) args -> args_fit args -> 4096 <= top <= VA_LIMIT ->
  (forall v, top - 4096 <= v < top -> ttbr0_to_pa (kmem s) v (Some p) <> None) ->
  let sp := top - (4096 - final_sp_of args) in
  exists st', push_args_to_stack top p args (kmem s) = Done (ROk (Z.of_nat (length args), sp, top)) st' /\
    user_update (kmem s) p l sp (args_payload args) st' /\
    world (set_kmem st' s) (p :: roots) l /\
    world_step s roots (KERNEL_STACKS_ALLOCATED s) (set_kmem st' s).
Proof.
  intros Hw Hu8 Hfit Htop Hm sp.
  destruct (push_args_ok (kmem s) p l args top) as (st' & Hrun & Hu); auto.
  { apply (world_space _ _ _ _ Hw). now left. }
  exists st'. split; [exact Hrun|]. split; [exact Hu|]. pose proof Hw as [H1 H2].
  destruct (spaces_step (kmem s) st' p (k_root s :: roots) l l) as (Hsp & Hk & _).
  - refine (spaces_perm _ _ _ _ _ H2). constructor.
  - exact (user_update_step _ _ _ _ _ _ Hu).
  - apply Hu.
  - apply (world_kmem s (p :: roots) l st' (p :: roots) l roots Hw); [|exact Hk].
    refine (spaces_perm _ _ _ _ _ Hsp). constructor.
Qed.

(** An address space is freed. *)
Lemma world_free s roots p l :
  world s (p :: roots) l ->
  exists st', free_page_table (Some p) (kmem s) = Done tt st' /\
    world (set_kmem st' s) roots (reverse (owned 3 (ram (kmem s)) p) ++ l) /\
    world_step s roots (KERNEL_STACKS_ALLOCATED s) (set_kmem st' s).
Proof.
  intros Hw. pose proof Hw as [H1 H2].
  assert (spaces (kmem s) (p :: k_root s :: roots) l) as Hsp by (refine (spaces_perm _ _ _ _ _ H2); constructor).
  pose proof (spaces_space _ _ _ p Hsp ltac:(now left)) as [Hfree [Hfr Hnd]].
  apply Forall_app in Hfr as [Hfr _].
  destruct (do_free_ok 2 3 1 p (kmem s) l) as (st' & Hrun & Hst' & Hch & _); auto; try lia.
  destruct (spaces_without _ _ _ _ _ _ Hsp Hch Hst') as [Hsp' Hk]; [now rewrite reverse_Permutation|].
  exists st'. split; [exact Hrun|]. now apply (world_kmem s (p :: roots) l st' roots _ roots Hw).
Qed.

(** The stack of a process is queued. *)
Lemma world_queue s roots l a pid :
  world s roots l -> KERNEL_STACKS_ALLOCATED s !! a = Some (Allocated pid) ->
  let s' := set_stacks (<[a := QueuedToFree pid]> (KERNEL_STACKS_ALLOCATED s)) s in
  queue_stack_to_free pid s = Done (ROk tt) s' /\ world s' roots l.
Proof.
  intros [H1 H2] Ha s'. split; [exact (queue_stack_run _ _ _ _ H1 Ha)|].
  split; [exact (stacks_ok_queue _ _ _ _ H1 Ha)|exact H2].
Qed.

(** ** A program ready to start *)

(** Its registers and its address space: the macro that reads the arguments
    gets them back, and the file is in memory. *)
Record program_ready (st : pstate) (b : bytes) (h : Elf64Hdr) (args : list bytes) (c : ProcessContext)
  : Prop := {
  pr_entry : elr c = entry h;
  pr_sp : sp_el0 c = pctx_x 1 c;
  pr_top : pctx_x 2 c = elf_stack_top b h;
  pr_range : elf_stack_top b h - 4096 <= sp_el0 c <= elf_stack_top b h;
  pr_align : sp_el0 c mod 16 = 0;
  pr_args : parse_args (vread st (ttbr0 c)) (pctx_x 0 c) (pctx_x 1 c) (pctx_x 2 c) = Some args;
  pr_image : elf_loaded b h (ttbr0 c) st;
}.

Lemma elf_loaded_ext b h p st st' :
  (forall v, mapped st' p v <-> mapped st p v) ->
  (forall ph v, ph ∈ loads b h -> 0 <= v < VA_LIMIT -> v < ph_hi ph + 4096 -> vread st' p v = vread st p v) ->
  Forall (seg_ok b) (loads b h) -> elf_loaded b h p st -> elf_loaded b h p st'.
Proof.
  intros Hm Hr Hsegs [E1 E2 E3]. rewrite Forall_forall in Hsegs. split.
  - intros v. now rewrite Hm.
  - intros ph i Hph Hi. destruct (Hsegs ph Hph) as [_ [H1 _] [H2 H3] _]. unfold ph_hi in H3.
    rewrite (Hr ph); [auto|exact Hph|lia|unfold ph_hi; lia].
  - intros ph v Hph Hv Hz. rewrite (Hr ph); [now apply (E3 ph)|exact Hph|exact Hv|].
    destruct (Hsegs ph Hph) as [_ [H1 _] [H2 H3] Hfit]. destruct Hz as [Hlt Hz]. specialize (Hfit Hlt).
    unfold bss_zeroed, bss_first, bss_fits, ph_file_end, ph_hi in *.
    set (lo := virtaddr ph + filesize ph) in *.
    pose proof (Z.div_mod lo 4096 ltac:(lia)). pose proof (Z.mod_pos_bound lo 4096 ltac:(lia)). lia.
Qed.

(** The stack top is above every segment by more than the argument buffer. *)
Lemma elf_stack_top_bounds b h :
  elf_ok b h -> let top := elf_stack_top b h in
  0x15000 < top <= VA_LIMIT /\ top mod 16 = 0 /\ forall ph, ph ∈ loads b h -> ph_hi ph + 0x15000 < top.
Proof.
  intros [_ _ _ _ _ _ Htop] top. destruct (top_of_ge (loads b h) 0) as [H0 Hph].
  assert (exists z, z = top_of (loads b h) 0 + 0x16000 /\ top = z - z mod 16) as (z & Hz & E) by eauto.
  clearbody top. pose proof (Z.div_mod z 16 ltac:(lia)) as Hd.
  pose proof (Z.mod_pos_bound z 16 ltac:(lia)) as Hm. split; [lia|]. split.
  - replace top with (z / 16 * 16) by lia. now apply Z.mod_mul.
  - intros ph Hin. specialize (Hph ph Hin). lia.
Qed.

(** The argument buffer is in the two upper pages of the stack. *)
Lemma args_buffer_mapped b h p st v :
  elf_ok b h -> elf_loaded b h p st -> elf_stack_top b h - 4096 <= v < elf_stack_top b h ->
  ttbr0_to_pa st v (Some p) <> None.
Proof.
  intros Hb Hl Hv. destruct (elf_stack_top_bounds b h Hb) as [Ht _]. set (T := elf_stack_top b h) in *.
  rewrite translate_walk. apply (eo_mapped _ _ _ _ Hl v). rewrite fmap_app, elem_of_app. right.
  assert (exists i, 0 <= i < 14 /\ v / 4096 = (T - i * 4096 - 1) / 4096) as (i & Hi & Hq).
  { pose proof (Z.div_mod (T - 1) 4096 ltac:(lia)). pose proof (Z.mod_pos_bound (T - 1) 4096 ltac:(lia)).
    destruct (Z.le_gt_cases ((T - 1) / 4096 * 4096) v).
    - exists 0. split; [lia|]. symmetry. replace (T - 0 * 4096 - 1) with (T - 1) by lia.
      apply (Z.div_unique_pos v 4096 ((T - 1) / 4096) (v - (T - 1) / 4096 * 4096)); lia.
    - exists 1. split; [lia|]. replace (T - 1 * 4096 - 1) with (T - 1 + -1 * 4096) by lia.
      rewrite Z.div_add by lia. symmetry.
      apply (Z.div_unique_pos v 4096 ((T - 1) / 4096 + -1) (v - ((T - 1) / 4096 + -1) * 4096)); lia. }
  apply list_elem_of_fmap. exists (T - i * 4096 - 1). split; [now apply va_path_page|].
  unfold stack_pages_of. apply list_elem_of_fmap. exists i. split; [reflexivity|]. now apply elem_of_seqZ.
Qed.

(** The context that [initialize_args] leaves. *)
Definition started_ctx (b : bytes) (h : Elf64Hdr) (args : list bytes) (kernel_sp p : Z) : ProcessContext :=
  let top := elf_stack_top b h in
  let sp := top - (4096 - final_sp_of args) in
  pctx_set_x 2 top (pctx_set_x 1 sp (pctx_set_x 0 (Z.of_nat (length args))
    (with_sp_el0 sp (ProcessContext_new (entry h) top kernel_sp p)))).

Lemma program_started b h args ksp p st l st' :
  elf_ok b h -> elf_loaded b h p st -> args_fit args -> Forall (fun a => utf8_valid a = true) args ->
  user_update st p l (elf_stack_top b h - (4096 - final_sp_of args)) (args_payload args) st' ->
  program_ready st' b h args (started_ctx b h args ksp p).
Proof.
  intros Hb Hl Hfit Hval Hu. destruct (elf_stack_top_bounds b h Hb) as (Ht & Hm & Habove).
  unfold started_ctx. set (T := elf_stack_top b h) in *. pose proof (final_sp_bound args Hfit) as [F0 F1].
  pose proof (sp_aligned_bound args ltac:(apply Hfit)) as Hal.
  assert (0 <= args_size args) by (unfold args_size; lia).
  pose proof (length_args_payload args Hfit) as Hlen. unfold VA_LIMIT in Ht.
  set (sp := T - (4096 - final_sp_of args)) in *.
  split; cbn [elr pctx_set_x with_sp_el0 ProcessContext_new sp_el0 ttbr0 pctx_x x]; try reflexivity.
  - fold T. lia.
  - unfold sp, final_sp_of. set (q := _ / 16).
    replace (T - (4096 - q * 16)) with (T + (q - 256) * 16) by lia. now rewrite Z.mod_add by lia.
  - change (parse_args (vread st' p) (Z.of_nat (length args)) sp T = Some args).
    replace T with (sp + (4096 - final_sp_of args)) by (unfold sp; lia).
    apply parse_args_ok; auto; [unfold U64, sp; lia|]. intros k Hk.
    rewrite (uu_read _ _ _ _ _ _ Hu) by (unfold VA_LIMIT, sp in *; lia).
    rewrite decide_True by lia. f_equal. lia.
  - apply (elf_loaded_ext b h p st); [|intros ph v Hph Hv Hlt|apply Hb|exact Hl].
    + intros v. unfold mapped. now rewrite (uu_walk _ _ _ _ _ _ Hu).
    + rewrite (uu_read _ _ _ _ _ _ Hu) by exact Hv. rewrite decide_False; [reflexivity|].
      specialize (Habove ph Hph). unfold sp. lia.
Qed.

(** ** Spawning *)

(** What a program needs to be started with these arguments. *)
Record startable (b : bytes) (h : Elf64Hdr) (args : list bytes) : Prop := {
  st_elf : elf_ok b h;
  st_u8 : Forall (Forall is_u8) args;
  st_utf8 : Forall (fun a => utf8_valid a = true) args;
  st_fit : args_fit args;
}.

(** The frames for the segments and the user stack, and for the kernel stack. *)
Definition frames_for (b : bytes) (h : Elf64Hdr) : nat := 3 * (length (all_pages (loads b h)) + 14) + 18.

(** A new process needs a slot of the table ([j] is the first), a stack, a
    pid, and frames. *)
Record spawn_room (k : kernel) (l : list Z) (b : bytes) (h : Elf64Hdr) (j : nat) : Prop := {
  sr_slot : PROCESS_TABLE k !! j = Some None;
  sr_first : forall i, (i < j)%nat -> PROCESS_TABLE k !! i <> Some None;
  sr_stack : Free ∈ KERNEL_STACKS_ALLOCATED (stk k);
  sr_pid : NEXT_PID k < U64_MAX;
  sr_frames : (frames_for b h <= length l)%nat;
}.

(** The process [c] was made in slot [j], and nothing else moved. *)
Record spawned (k : kernel) (nm : bytes) (parent : Z) (b : bytes) (h : Elf64Hdr) (args : list bytes)
    (j : nat) (c : Process) (k' : kernel) : Prop := {
  sw_pid : pid c = NEXT_PID k;
  sw_name : name c = name_field nm;
  sw_state : state c = Ready;
  sw_parent : parent_pid c = parent;
  sw_chan : chan c = 0;
  sw_ready : program_ready (kmem (stk k')) b h args (pctx c);
  sw_stack : exists i, KERNEL_STACKS_ALLOCATED (stk k) !! i = Some Free /\
    sp_el1 (pctx c) = stack_start i + KERNEL_STACK_SIZE /\
    KERNEL_STACKS_ALLOCATED (stk k') = <[i := Allocated (pid c)]> (KERNEL_STACKS_ALLOCATED (stk k));
  sw_kept : Forall (space_kept (ram (kmem (stk k))) (ram (kmem (stk k')))) (live_roots (PROCESS_TABLE k));
  sw_rest : exists s', k' = set_stk s' (set_next_pid (NEXT_PID k + 1)
    (set_table (<[j := Some c]> (PROCESS_TABLE k)) k));
}.

Lemma kept_forall_trans m1 m2 m3 roots :
  Forall (space_kept m1 m2) roots -> Forall (space_kept m2 m3) roots -> Forall (space_kept m1 m3) roots.
Proof.
  intros H1 H2. apply Forall_forall. intros r Hr. rewrite Forall_forall in H1, H2.
  eapply space_kept_trans; [now apply H1|now apply H2].
Qed.

Lemma elf_loaded_kept s roots l s' b h p :
  world s roots l -> p ∈ roots -> space_kept (ram (kmem s)) (ram (kmem s')) p ->
  Forall (seg_ok b) (loads b h) -> elf_loaded b h p (kmem s) -> elf_loaded b h p (kmem s').
Proof.
  intros Hw Hp Hk Hsegs. apply elf_loaded_ext; [| |exact Hsegs].
  - intros v. exact (world_kept_mapped s roots l s' p v Hw Hp Hk).
  - intros ph v _ _ _. exact (world_kept_read s roots l s' p v Hw Hp Hk).
Qed.

(** Stack and arguments for a program that is loaded: what [spawn_from_elf]
    and [exec] have in common. *)
Lemma world_start s p roots l b h args q :
  world s (p :: roots) l -> elf_loaded b h p (kmem s) -> startable b h args -> (18 <= length l)%nat ->
  (Allocated q ∉ KERNEL_STACKS_ALLOCATED s) -> Free ∈ KERNEL_STACKS_ALLOCATED s ->
  exists i s1 st2 l2,
    let ksp := stack_start i + KERNEL_STACK_SIZE in let s2 := set_kmem st2 s1 in
    alloc_stack q s = Done (ROk ksp) s1 /\
    push_args_to_stack (elf_stack_top b h) p args (kmem s1)
      = Done (ROk (Z.of_nat (length args), elf_stack_top b h - (4096 - final_sp_of args), elf_stack_top b h)) st2 /\
    KERNEL_STACKS_ALLOCATED s !! i = Some Free /\ world s2 (p :: roots) l2 /\
    world_step s roots (<[i := Allocated q]> (KERNEL_STACKS_ALLOCATED s)) s2 /\
    program_ready st2 b h args (started_ctx b h args ksp p).
Proof.
  intros Hw Hl [Hb Hu8 Hval Hfit] Hlen Hnew Hfree.
  destruct (world_stack s (p :: roots) l q Hw Hlen Hnew Hfree) as (i & s1 & l1 & Hrun1 & Hw1 & Hi & [A1 S1 K1]).
  apply Forall_cons in K1 as [Kp K1].
  pose proof (elf_loaded_kept s _ l s1 b h p Hw ltac:(now left) Kp (el_segs _ _ Hb) Hl) as Hl1.
  destruct (elf_stack_top_bounds b h Hb) as (Ht & _ & _).
  destruct (world_args s1 roots p l1 args (elf_stack_top b h) Hw1 Hu8 Hfit) as (st2 & Hrun2 & Hu & Hw2 & [A2 S2 K2]);
    [lia|intros v; now apply args_buffer_mapped|].
  exists i, s1, st2, l1. cbv zeta. split; [exact Hrun1|]. split; [exact Hrun2|]. split; [exact Hi|].
  split; [exact Hw2|]. split; [split|].
  - congruence.
  - congruence.
  - now apply (kept_forall_trans _ (ram (kmem s1))).
  - exact (program_started b h args _ p (kmem s1) l1 st2 Hb Hl1 Hfit Hval Hu).
Qed.

Lemma Process_new_run k nm parent e sp root ksp s' :
  0 < NEXT_PID k < U64_MAX -> alloc_stack (NEXT_PID k) (stk k) = Done (ROk ksp) s' ->
  Process_new nm parent e sp root k =
  Done (ROk (mk_Process (NEXT_PID k) (name_field nm) Ready None parent (ProcessContext_new e sp ksp root) 0 0))
    (set_stk s' (set_next_pid (NEXT_PID k + 1) k)).
Proof.
  intros Hn Hrun. unfold Process_new.
  assert (fresh_pid k = Done (NEXT_PID k) (set_next_pid (NEXT_PID k + 1) k)) as Hpid
    by (unfold fresh_pid; rewrite add64_small by (unfold U64_MAX, U64 in *; lia); reflexivity).
  rewrite (bind_run _ _ _ _ _ Hpid). unfold bind_try.
  now rewrite (bind_run _ _ _ _ _ (stk_zoom _ (set_next_pid (NEXT_PID k + 1) k) _ _ Hrun)).
Qed.

Lemma initialize_args_run k args c argc sp top st' :
  push_args_to_stack (sp_el0 (pctx c)) (ttbr0 (pctx c)) args (kmem (stk k)) = Done (ROk (argc, sp, top)) st' ->
  initialize_args args c k =
  Done (ROk (set_pctx (pctx_set_x 2 top (pctx_set_x 1 sp (pctx_set_x 0 argc (with_sp_el0 sp (pctx c))))) c))
    (set_stk (set_kmem st' (stk k)) k).
Proof.
  intros Hrun. unfold initialize_args, bind_try. now rewrite (bind_run _ _ _ _ _ (kmem_zoom _ k _ _ Hrun)).
Qed.

Lemma spawn_ok k p l nm parent b h args j :
  kernel_ok k (p :: l) -> startable b h args -> spawn_room k l b h j ->
  exists c k' l', spawn_from_elf nm parent b args k = Done (ROk (pid c)) k' /\
    kernel_ok k' l' /\ spawned k nm parent b h args j c k'.
Proof.
  intros Hok Hst [R1 R2 R3 R4 R5]. unfold frames_for in R5. pose proof Hok as [_ _ _ _ _ _ K7 _ K9].
  destruct (world_load (stk k) _ p l b h (kernel_world _ _ Hok) (st_elf _ _ _ Hst) ltac:(lia))
    as (st1 & l1 & Hrun1 & Hw1 & [A1 S1 Kp1] & Hl1 & Hlen1).
  destruct (world_start _ p _ l1 b h args (NEXT_PID k) Hw1 Hl1 Hst)
    as (i & s2 & st3 & l3 & Hrun2 & Hrun3 & Hi & Hw3 & [A3 S3 Kp3] & Hready); rewrite ?S1; [lia| |exact R3|].
  { intros Hin. specialize (K7 _ (NEXT_PID k) Hin eq_refl). lia. }
  cbv zeta in *. rewrite S1 in Hi, S3. set (ksp := stack_start i + KERNEL_STACK_SIZE) in *.
  set (c := mk_Process (NEXT_PID k) (name_field nm) Ready None parent (started_ctx b h args ksp p) 0 0).
  set (k3 := set_stk (set_kmem st3 s2) (set_next_pid (NEXT_PID k + 1) k)).
  exists c, (set_table (<[j := Some c]> (PROCESS_TABLE k3)) k3), l3. split; [|split].
  - unfold spawn_from_elf, bind_try at 1. rewrite (bind_run _ _ _ _ _ (kmem_zoom _ k _ _ Hrun1)).
    set (k1 := set_stk (set_kmem st1 (stk k)) k).
    rewrite (bind_run _ _ _ _ _ (Process_new_run k1 nm parent (entry h) (elf_stack_top b h) p ksp s2
      (conj K9 R4) Hrun2)).
    set (k2 := set_stk s2 _). unfold bind_try.
    set (c0 := mk_Process _ _ _ _ _ _ _ _).
    rewrite (bind_run _ _ _ _ _ (initialize_args_run k2 args c0 _ _ _ _ Hrun3)).
    now rewrite (bind_run _ _ _ _ _ (add_process_run k3 c j R1 R2)).
  - apply (kernel_ok_insert k (p :: l) k3 l3 c j i Hok); auto; try reflexivity.
    + apply Hw3.
    + refine (spaces_perm _ _ _ _ _ (wo_spaces _ _ _ Hw3)). reflexivity.
  - split; try reflexivity.
    + exact Hready.
    + exists i. split; [exact Hi|]. split; [reflexivity|exact S3].
    + now apply (kept_forall_trans _ (ram st1)).
    + eexists. reflexivity.
Qed.

End World.

(** ** A kernel without processes *)

(** The statics as they are before the first process: no process, no stack in
    use, and the kernel's own table under [root], which maps no stack page. *)
Record boots (k : kernel) (root : Z) (l : list Z) : Prop := {
  bt_table : PROCESS_TABLE k = replicate NPROC None;
  bt_pid : NEXT_PID k = 1;
  bt_current : CURRENT_PROCESS k = 1%nat;
  bt_slots : KERNEL_STACKS_ALLOCATED (stk k) = replicate (Z.to_nat MAX_PROCESSES) Free;
  bt_addr : L1_ADDR (stk k) = ttbr1_to_va root;
  bt_frame : frame_pa root;
  bt_space : space_ok (kmem (stk k)) root l;
  bt_unmapped : forall i j, slot_ok i -> 0 <= j < 7 -> ~ mapped (kmem (stk k)) root (page_va i j);
}.

Lemma live_roots_none n : live_roots (replicate n None) = [].
Proof. unfold live_roots. induction n; [reflexivity|exact IHn]. Qed.

(** Its table and the free frames are the pool. *)
Definition boots_pool (k : kernel) (root : Z) (l : list Z) : Pool := owned 3 (ram (kmem (stk k))) root ++ l.

Lemma boots_ok k root l : boots k root l -> kernel_ok (F := boots_pool k root l) k l.
Proof.
  intros [B1 B2 B3 B4 B5 B6 B7 B8].
  assert (k_root (stk k) = root) as Hr by (unfold k_root; rewrite B5; apply ttbr1_pa_va; destruct B6; lia).
  assert (forall i p, ~ slot_has k i p) as Hno by (intros i p Hi; unfold slot_has in Hi; rewrite B1 in Hi; exact (none_slots _ i p Hi)).
  split; unfold slot_has in *; rewrite ?Hr, ?B2, ?B3, ?B4.
  - split; rewrite ?Hr, ?B4; auto; try reflexivity.
    + intros i s j Hs Hj. apply lookup_replicate in Hs as [-> Hi]. split.
      * intros Hm. exfalso. apply (B8 i j); [unfold slot_ok, MAX_PROCESSES in *; lia|exact Hj|exact Hm].
      * intros [Hu _]. now contradiction Hu.
    + intros i i' pid Hs. apply lookup_replicate in Hs as [[=] _].
  - rewrite B1, live_roots_none. now apply spaces_one.
  - unfold table_ok. now rewrite B1, length_replicate.
  - apply Nat.ltb_lt. reflexivity.
  - intros i j p q Hi. contradiction (Hno i p Hi).
  - intros i p Hi. contradiction (Hno i p Hi).
  - intros s q Hs%elem_of_replicate. destruct Hs as [-> _]. discriminate.
  - intros i p Hi. contradiction (Hno i p Hi).
  - lia.
Qed.

(** [init_frames] gives a kernel's table that lies below the first free frame
    the frames above it. *)
Lemma init_space st root p limit :
  free_frames st [] -> frame_pa p -> p <= limit <= 2 ^ 31 - 4096 ->
  Forall (fun q => frame_pa q /\ q < p) (owned 3 (ram st) root) -> NoDup (owned 3 (ram st) root) ->
  exists st', init_frames (ttbr1_to_va p) (ttbr1_to_va limit) st = Done tt st' /\
    space_ok st' root (reverse (step_range p limit PAGE_SIZE)) /\
    (forall v, mapped st' root v <-> mapped st root v) /\ owned 3 (ram st') root = owned 3 (ram st) root /\
    total_memory st' = available_memory st' /\ available_memory st' = (limit - p + 4095) / 4096 * 4096.
Proof.
  intros Hf Hp Hlim Ho Hn. destruct (init_frames_ok p limit st Hf Hp Hlim) as (st' & Hrun & Hf' & Hch & Hav).
  exists st'. split; [exact Hrun|]. set (l := reverse _) in *.
  assert (Forall (fun q => p <= q) l) as Hge.
  { apply Forall_reverse, Forall_forall. intros q Hq. unfold step_range, PAGE_SIZE in Hq.
    apply list_elem_of_fmap in Hq as (i & -> & Hi%elem_of_seqZ). lia. }
  rewrite Forall_forall in Ho, Hge.
  assert (Forall frame_pa (owned 3 (ram st) root)) as Hof by (apply Forall_forall; intros q Hq; now apply Ho).
  assert (forall q, q ∈ owned 3 (ram st) root -> q ∉ l) as Hdis.
  { intros q Hq Hl. apply Ho in Hq as [_ Hq]. apply Hge in Hl. lia. }
  assert (Forall (space_kept (ram st) (ram st')) [root]) as Hk.
  { apply (untouched _ _ _ l); [|apply Hf'| |exact Hch]; rewrite all_owned_cons, app_nil_r; auto. }
  apply Forall_cons in Hk as [[Eo Hb] _]. split; [|split; [|split; [exact Eo|exact Hav]]].
  - split; [exact Hf'|]. split; rewrite Eo; [apply Forall_app; split; [exact Hof|apply Hf']|].
    apply NoDup_app. split; [exact Hn|]. split; [exact Hdis|apply Hf'].
  - intros v. unfold mapped. destruct (tables_agree 3 (ram st) (ram st') root Hof) as (_ & _ & Hw).
    + intros q x Hq. apply Hb. now apply tables_owned.
    + rewrite (Hw (va_path v) ltac:(reflexivity) (va_path_ok v)). reflexivity.
Qed.

(** ** Properties *)

(** C13. Starting a program by name.  With a free slot, a stack, a pid and the
    frames, [run_executable] succeeds and keeps the kernel's invariant.  The
    new process has the next pid, is ready, and has its own address space with
    the file's bytes, a stack and a kernel stack; it starts at the file's entry
    point with registers from which [parse_args!] reads exactly the arguments.
    Every other address space, and the rest of the kernel, is untouched.  A
    name that is no file is an error that changes nothing. *)
Theorem run_executable_spec {F : Pool} images nm parent args k p l :
  kernel_ok k (p :: l) ->
  match read_file images nm with
  | None => run_executable images nm parent args k = Done (RErr "File not found") k
  | Some b => forall h j, startable b h args -> spawn_room k l b h j ->
      exists c k' l', run_executable images nm parent args k = Done (ROk tt) k' /\
        kernel_ok k' l' /\ spawned k nm parent b h args j c k'
  end.
Proof.
  intros Hok. unfold run_executable. destruct (read_file images nm) as [b|] eqn:Hfile; [|reflexivity].
  intros h j Hst Hroom. destruct (spawn_ok k p l nm parent b h args j Hok Hst Hroom) as (c & k' & l' & Hrun & Hok' & Hsp).
  exists c, k', l'. split; [|split; [exact Hok'|exact Hsp]]. unfold bind_try. now rewrite (bind_run _ _ _ _ _ Hrun).
Qed.

(** A machine whose kernel table is the empty frame 0x1000, before its first
    process, with the frames from 0x2000 to 0x100000. *)
Definition demo_boot_mem : pstate :=
  after (init_frames (ttbr1_to_va 0x2000) (ttbr1_to_va 0x100000) boot_pstate) boot_pstate.
Definition demo_boot_list : list Z := reverse (step_range 0x2000 0x100000 PAGE_SIZE).
Definition demo_boot : kernel :=
  mk_kernel (mk_kstate demo_boot_mem (replicate (Z.to_nat MAX_PROCESSES) Free) (ttbr1_to_va 0x1000))
    demo_hw (replicate NPROC None) 1 1 (Spinlock_new "process_table") demo_mutex demo_ectx.

(** The frame 0x1000 of an empty memory is an empty table. *)
Lemma demo_boot_root :
  frame_pa 0x1000 /\ owned 3 (ram boot_pstate) 0x1000 = [0x1000] /\ forall v, ~ mapped boot_pstate 0x1000 v.
Proof.
  assert (frame_pa 0x1000) as Hf by (split; [lia|reflexivity]).
  assert (zero_frame_at (ram boot_pstate) 0x1000) as Hz by (intros x _; reflexivity).
  split; [exact Hf|]. split; [now apply owned_zero|].
  intros v Hm. apply Hm. apply walk_zero; [exact Hf|exact Hz|apply l1_index_ok].
Qed.

Lemma demo_boot_boots : boots demo_boot 0x1000 demo_boot_list.
Proof.
  destruct demo_boot_root as (Hf & Ho & Hun).
  destruct (init_space boot_pstate 0x1000 0x2000 0x100000 boot_free_frames) as (st' & Hrun & Hsp & Hm & _ & _).
  - split; [lia|reflexivity].
  - lia.
  - rewrite Ho. apply Forall_singleton. split; [exact Hf|lia].
  - rewrite Ho. apply NoDup_singleton.
  - assert (demo_boot_mem = st') as E by (unfold demo_boot_mem; now rewrite Hrun).
    split; try reflexivity; [exact Hf| |].
    + cbn [stk demo_boot kmem]. rewrite E. exact Hsp.
    + intros i j _ _. cbn [stk demo_boot kmem]. rewrite E, Hm. apply Hun.
Qed.

Lemma demo_startable : startable demo_elf demo_elf_hdr demo_args.
Proof.
  split; [exact demo_elf_ok| | |].
  - apply (bool_decide_unpack _). vm_compute. exact I.
  - repeat constructor; vm_compute; reflexivity.
  - apply (bool_decide_unpack _). vm_compute. exact I.
Qed.

Lemma demo_boot_room :
  exists p l, demo_boot_list = p :: l /\ spawn_room demo_boot l demo_elf demo_elf_hdr 0.
Proof.
  exists 0xFF000, (tail demo_boot_list). split; [vm_compute; reflexivity|]. split.
  - reflexivity.
  - lia.
  - now left.
  - reflexivity.
  - unfold frames_for. rewrite demo_elf_loads. vm_compute. lia.
Qed.

Lemma run_executable_spec_witness :
  exists (F : Pool) c k' l', run_executable (fun _ => demo_elf) (str "init") 0 demo_args demo_boot = Done (ROk tt) k' /\
    kernel_ok k' l' /\ spawned demo_boot (str "init") 0 demo_elf demo_elf_hdr demo_args 0 c k'.
Proof.
  destruct demo_boot_room as (p & l & E & Hroom). pose proof (boots_ok _ _ _ demo_boot_boots) as Hok.
  exists (boots_pool demo_boot 0x1000 demo_boot_list). rewrite E in Hok at 2.
  exact (run_executable_spec (fun _ => demo_elf) (str "init") 0 demo_args demo_boot p l Hok
    demo_elf_hdr O demo_startable Hroom).
Defined.
