(* ===== verification/Exceptions.v ===== *)
(** Exceptions: the handlers of src/src/kernel/exceptions.rs, the timer's
    interrupt of src/src/kernel/timer.rs and [Scheduler::start].

    The handlers work on the context of the exception, the kernel's [ectx].
    An exception that nobody handles is printed and the machine stops. *)

From Stdlib Require Import ZArith Lia.
From stdpp Require Import base strings numbers list pretty.
From S2P Require Import Prelude Memory Frames PageTable PageFree PagingSpec UserMem PageDup.
From S2P Require Import PageRange Isolation LoadElf KernelStack Interrupts Devices Processes.
From S2P Require Import Scheduler ProcOps Demo Sleep Mutex Io Syscalls SyscallSpec.

Local Open Scope Z_scope.

(** ** Printing a context *)

Definition hex_digit (d : Z) : Z := if d <? 10 then 48 + d else 87 + d.

(** [{:#018x}] *)
Fixpoint hex_digits (n : nat) (v : Z) : bytes :=
  match n with
  | O => []
  | S n' => hex_digits n' (Z.shiftr v 4) ++ [hex_digit (Z.land v 0xF)]
  end.
Definition hex18 (v : Z) : bytes := str "0x" ++ hex_digits 16 v.

(** [{:#x}] of a positive [u32] *)
Fixpoint strip_zeros (s : bytes) : bytes :=
  match s with b :: s' => if b =? 48 then strip_zeros s' else s | [] => [] end.
Definition hex_u32 (v : Z) : bytes := str "0x" ++ strip_zeros (hex_digits 8 v).

(** [{:02}] *)
Definition dec02 (i : nat) : bytes := [48 + Z.of_nat i / 10; 48 + Z.of_nat i mod 10].

Definition etype_str (t : ExceptionType) : bytes :=
  match t with E_SYNC => str "SYNC" | E_IRQ => str "IRQ" | E_FIQ => str "FIQ" | E_SE => str "SError" end.
Definition esource_str (s : ExceptionSource) : bytes :=
  match s with EL1t => str "EL1t" | EL1h => str "EL1h" | EL064 => str "EL064" | EL032 => str "EL032" end.
Definition etype_u8 (t : ExceptionType) : Z :=
  match t with E_SYNC => 0 | E_IRQ => 1 | E_FIQ => 2 | E_SE => 3 end.
Definition esource_u8 (s : ExceptionSource) : Z :=
  match s with EL1t => 0 | EL1h => 1 | EL064 => 2 | EL032 => 3 end.

(** The lines [print_exception_context] prints, one [println!] each. *)
Definition context_lines (c : ExceptionContext) : list bytes :=
  [str "=== Exception Context ===";
   str "Type : " ++ etype_str (etype c) ++ str " (" ++ str (pretty (etype_u8 (etype c))) ++ str ")";
   str "Source : " ++ esource_str (esource c) ++ str " (" ++ str (pretty (esource_u8 (esource c))) ++ str ")";
   str "ELR  : " ++ hex18 (eelr c); str "SPSR : " ++ hex18 (espsr c); str "ESR  : " ++ hex18 (esr c);
   str "FAR  : " ++ hex18 (far c); str "SP_EL0 : " ++ hex18 (esp_el0 c); str "TTBR0  : " ++ hex18 (ettbr0 c);
   str "Registers:"] ++
  map (fun i => str "  x" ++ dec02 i ++ str " = " ++ hex18 (ectx_x i c)) (seq 0 31) ++
  [str "========================="].

Definition was_from_user_el0 (c : ExceptionContext) : bool :=
  bool_decide (esource c = EL064) || bool_decide (esource c = EL032).

(** [InterruptSource::PhysicalNonSecureTimer] *)
Definition PhysicalNonSecureTimer : Z := Z.shiftl 1 1.

(** [(ctx.esr >> 26) & 0x3f] *)
Definition exception_class (c : ExceptionContext) : Z := Z.land (Z.shiftr (esr c) 26) 0x3f.

Section Exceptions.
  (** See [Syscalls]; [fuel] bounds each loop. *)
  Context (fuel : nat) (kctx : ExceptionContext) (resume : M kernel unit) (guard_ptr : Z).
  Context (images : bytes -> bytes) (intro : bytes).

Definition println (s : bytes) : M kernel unit := print fuel kctx resume guard_ptr (s ++ [10]).

(** The debug prints, which the handlers are full of, are compiled out: the one
    flag is a constant, and nothing assigns the other. *)
Definition DEBUG_PRINTS_ENABLED : bool := false.
Definition DEBUG_PRINTS_ENABLED_MMU : bool := false.
Definition dprintln (s : bytes) : M kernel unit := if DEBUG_PRINTS_ENABLED then println (str "      " ++ s) else skip.
Definition mprintln (s : bytes) : M kernel unit := if DEBUG_PRINTS_ENABLED_MMU then println (str "      " ++ s) else skip.

Lemma debug_prints_off s k : dprintln s k = Done tt k /\ mprintln s k = Done tt k.
Proof. split; reflexivity. Qed.

Definition print_exception_context (c : ExceptionContext) : M kernel unit :=
  for_in (context_lines c) println.

(** [unhandled_exception!(ctx)] *)
Definition unhandled_exception : M kernel unit :=
  println (str "Unhandled exception detected!") ;;
  (let* c := gets ectx in print_exception_context c) ;;
  println (str "System halted due to unhandled exception.") ;;
  halt "unhandled exception".

Definition handle_sync_exception : M kernel unit :=
  let* ctx := gets ectx in
  match esource ctx with
  | EL1h =>
      if (exception_class ctx =? 0x15) && (Z.land (esr ctx) 0xffff =? 0) then handle_svc_el1 fuel
      else unhandled_exception
  | EL064 =>
      if exception_class ctx =? 0x15 then handle_syscall fuel kctx resume guard_ptr images intro
      else if exception_class ctx =? 0x07 then
        println (str "EXCEPTION: FP/SIMD functionality used when not enabled!")
      else unhandled_exception
  | _ => unhandled_exception
  end.

(** [PhysicalTimer::handle_irq(ctx)] *)
Definition timer_handle_irq : M kernel unit :=
  zoom dev_lens (set_seconds 1) ;;
  zoom dev_lens timer_disable ;;
  let* ctx := gets ectx in
  if was_from_user_el0 ctx then timeslice_up ;; schedule_next fuel
  else reset_timer.

Definition handle_irq_exception : M kernel unit :=
  let* irq_sources := zoom dev_lens pending_irq in
  let* rest := (if negb (Z.land irq_sources PhysicalNonSecureTimer =? 0)
                then timer_handle_irq ;; ret (Z.land irq_sources (Z.lxor 0xFFFFFFFF PhysicalNonSecureTimer))
                else ret irq_sources) in
  if rest >? 0 then
    print fuel kctx resume guard_ptr
      (str "Other Unhandled IRQ sources pending: " ++ hex_u32 rest ++ [10]) ;;
    unhandled_exception
  else skip.

Definition handle_exception_el1 : M kernel unit :=
  let* ctx := gets ectx in
  (if was_from_user_el0 ctx then
     (let* cur := gets get_current_process in
      zoom stk_lens (free_queued_stacks (pid <$> cur))) ;;
     update_last_running_pctx (from_ectx ctx)
   else skip) ;;
  awake_common_chans ;;
  match etype ctx with
  | E_SYNC => handle_sync_exception
  | E_IRQ => handle_irq_exception
  | _ => unhandled_exception
  end.

(** [Scheduler::start()]: the [svc #0] of the boot code, which does not return. *)
Definition start : M kernel unit :=
  modify (set_ectx (svc_ectx kctx (ectx_x 0 kctx) (ectx_x 1 kctx))) ;;
  handle_exception_el1.
End Exceptions.

(** ** The kernel's invariant across scheduling *)

Lemma wake_id c p : pid (wake c p) = pid p /\ is_live (wake c p) = is_live p /\ pctx (wake c p) = pctx p /\
  (state p <> Blocked -> wake c p = p).
Proof.
  unfold wake. destruct (is_state Blocked p) eqn:E; cbn [andb]; [|auto].
  destruct (chan p =? c); [|auto]. unfold is_live, is_state in *. apply bool_decide_eq_true in E.
  rewrite E. cbn. repeat split; auto. now intros H.
Qed.

Section Kernel.
Context {F : Pool}.

Lemma kernel_ok_wake k l c : kernel_ok k l -> kernel_ok (set_table (map_procs (wake c) (PROCESS_TABLE k)) k) l.
Proof.
  intros Hok. apply kernel_ok_table; [exact Hok|apply length_map_procs| |].
  - rewrite live_roots_map; [reflexivity|]. intros p. destruct (wake_id c p) as (_ & E1 & E2 & _).
    cbn [slot_root]. now rewrite E1, E2.
  - intros i q Hq. rewrite map_procs_lookup in Hq. destruct (mjoin (PROCESS_TABLE k !! i)) as [q0|] eqn:E; [|discriminate].
    injection Hq as <-. exists q0. destruct (wake_id c q0) as (E1 & E2 & _). auto.
Qed.

Lemma kernel_ok_current k l i : kernel_ok k l -> (i < NPROC)%nat -> kernel_ok (set_current i k) l.
Proof. intros [K1 K2 K3 K4 K5 K6 K7 K8 K9] Hi. split; auto. Qed.

Lemma kernel_ok_awake k k1 l : kernel_ok k l -> awake_common_chans k = Done tt k1 -> kernel_ok k1 l.
Proof.
  intros Hok Ha. pose proof (awake_around _ _ Ha) as [(E1 & E2 & _) E3].
  apply awake_form in Ha as (h & _ & _ & _ & _ & _ & _ & _ & _ & _ & Ht).
  destruct Ht as [Ht|Ht].
  - apply (kernel_ok_ext k); auto.
  - apply (kernel_ok_ext (set_table (map_procs (wake AWAITING_UART_READ) (PROCESS_TABLE k)) k)); auto.
    now apply kernel_ok_wake.
Qed.

Lemma kernel_ok_load k k' i l : kernel_ok k l -> load_pctx i k = Done tt k' ->
  (forall p, mjoin (PROCESS_TABLE k !! i) = Some p -> is_live p = true) -> kernel_ok k' l.
Proof.
  intros Hok Hl Hlive. apply load_run in Hl as (p & Hp & ->).
  assert (i < NPROC)%nat as Hi by exact (lookup_lt_proc _ _ _ (ko_table _ _ Hok) Hp).
  assert (kernel_ok (set_table (update_slot i (set_state Running) (PROCESS_TABLE k)) k) l) as Hok1.
  { apply (kernel_ok_slot k l i _ p Hok Hp); [reflexivity| |reflexivity]. now rewrite (Hlive p Hp). }
  apply (kernel_ok_ext (set_current i (set_table (update_slot i (set_state Running) (PROCESS_TABLE k)) k)));
    [now apply kernel_ok_current|reflexivity..].
Qed.

(** What is loaded was ready, or still running. *)
Lemma chosen_live k k1 i :
  choose_next_process k = Done (Some i) k1 -> PROCESS_TABLE k1 = PROCESS_TABLE k /\
  forall p, mjoin (PROCESS_TABLE k !! i) = Some p -> is_live p = true.
Proof.
  unfold choose_next_process. destruct (PROCESS_TABLE k !! CURRENT_PROCESS k) as [s|] eqn:Es; [|discriminate].
  destruct (slot_is (is_state Running) s) eqn:Hs.
  - intros [= <- <-]. split; [reflexivity|]. intros p Hp. rewrite Es in Hp. cbn in Hp. subst s. cbn in Hs.
    apply bool_decide_eq_true in Hs. unfold is_live, is_state. now rewrite Hs.
  - destruct (find_slot _ _) as [[m j]|] eqn:Hf; [|discriminate]. intros [= <- <-]. split; [reflexivity|].
    apply find_slot_Some in Hf as (_ & Hr & _). unfold ready_at in Hr. intros p Hp. rewrite Hp in Hr. cbn in Hr.
    apply bool_decide_eq_true in Hr. unfold is_live, is_state. now rewrite Hr.
Qed.

Lemma choose_kernel_ok k k1 r l : kernel_ok k l -> choose_next_process k = Done r k1 -> kernel_ok k1 l.
Proof.
  intros Hok. pose proof (choose_run k (ko_table _ _ Hok) (ko_current _ _ Hok)) as [(p & _ & _ & ->)|[_ Hc]].
  - intros [= _ <-]. exact Hok.
  - destruct (find_slot _ _) as [[m j]|]; rewrite Hc; intros [= _ <-]; [|exact Hok].
    apply kernel_ok_current; [exact Hok|apply scan_index_lt].
Qed.

Lemma schedule_kernel_ok fuel k k' l : kernel_ok k l -> schedule_next fuel k = Done tt k' -> kernel_ok k' l.
Proof.
  revert k. induction fuel as [|fuel IH]; intros k Hok Hrun; cbn [schedule_next] in Hrun;
    apply bind_done in Hrun as (next & k1 & Hch & Hrun); pose proof (choose_kernel_ok _ _ _ _ Hok Hch) as Hok1;
    (destruct next as [i|];
     [apply chosen_live in Hch as [Et Hl]; apply (kernel_ok_load k1 k' i l Hok1 Hrun); now rewrite Et|]);
    unfold gets, bind at 1 in Hrun; (destruct (any_blocked k1); [|discriminate Hrun]).
  - discriminate Hrun.
  - apply bind_done in Hrun as ([] & k2 & Haw & Hrun). apply (IH k2); [|exact Hrun].
    exact (kernel_ok_awake _ _ _ Hok1 Haw).
Qed.

(** Reaping the queued stacks of other processes. *)
Lemma reaped_ok k l cur :
  kernel_ok k l ->
  exists s' l', zoom stk_lens (free_queued_stacks (Some cur)) k = Done tt (set_stk s' k) /\
    kernel_ok (set_stk s' k) l' /\
    KERNEL_STACKS_ALLOCATED s' = reap cur <$> KERNEL_STACKS_ALLOCATED (stk k) /\
    Forall (space_kept (ram (kmem (stk k))) (ram (kmem s'))) (live_roots (PROCESS_TABLE k)) /\
    (length l <= length l')%nat.
Proof.
  intros [K1 K2 K3 K4 K5 K6 K7 K8 K9].
  destruct (free_queued_ok cur (stk k) l K1) as (s' & l' & Hrun & Hok & Hl1 & Hst & Hstep & Hlen).
  assert (k_root s' = k_root (stk k)) as Hroot by (unfold k_root; now rewrite Hl1).
  destruct (spaces_step _ _ _ _ _ _ K2 Hstep (so_free _ _ _ (sk_space _ _ Hok))) as (Hsp & Hk & _).
  exists s', l'. split; [now apply stk_zoom|].
  split; [|split; [exact Hst|split; [exact Hk|exact Hlen]]].
  split; cbn [stk set_stk PROCESS_TABLE CURRENT_PROCESS NEXT_PID]; auto.
  - now rewrite Hroot.
  - intros s q Hs Hq. rewrite Hst in Hs. apply list_elem_of_fmap in Hs as (s0 & -> & Hs0).
    apply (K7 s0 q Hs0). unfold reap in Hq. destruct s0 as [a|a|]; auto. destruct (a =? cur); [auto|discriminate].
  - intros i p Hp Hl. rewrite Hst. apply list_elem_of_fmap. exists (Allocated (pid p)).
    split; [reflexivity|exact (K8 i p Hp Hl)].
Qed.

(** ** Entering the kernel from a program *)

(** Process [p] runs in user mode and traps: the space in TTBR0_EL1 is its. *)
Record user_trap (k : kernel) (p : Process) : Prop := {
  ut_slot : slot_has k (CURRENT_PROCESS k) p;
  ut_run : state p = Running;
  ut_space : ettbr0 (ectx k) = ttbr0 (pctx p);
  ut_source : esource (ectx k) = EL064;
}.

(** The kernel once the trap's entry code is done: queued stacks of others
    are freed, the registers are saved in the table, console sleepers may be
    awake, and nothing else has changed. *)
Record entered (k : kernel) (p : Process) (k1 : kernel) (l1 : list Z) : Prop := {
  en_ok : kernel_ok k1 l1;
  en_ectx : ectx k1 = ectx k;
  en_current : CURRENT_PROCESS k1 = CURRENT_PROCESS k;
  en_slot : slot_has k1 (CURRENT_PROCESS k) (set_pctx (from_ectx (ectx k)) p);
  en_slots : forall j s, j <> CURRENT_PROCESS k -> PROCESS_TABLE k !! j = Some s ->
    PROCESS_TABLE k1 !! j = Some s \/ PROCESS_TABLE k1 !! j = Some (wake AWAITING_UART_READ <$> s);
  en_stacks : KERNEL_STACKS_ALLOCATED (stk k1) = reap (pid p) <$> KERNEL_STACKS_ALLOCATED (stk k);
  en_kept : Forall (space_kept (ram (kmem (stk k))) (ram (kmem (stk k1)))) (live_roots (PROCESS_TABLE k));
  en_dev : looked (dev k) (dev k1) /\ hcore (dev k1) = hcore (dev k) /\ mmio (dev k1) = mmio (dev k);
  en_rest : NEXT_PID k1 = NEXT_PID k /\ PROCESS_TABLE_LOCK k1 = PROCESS_TABLE_LOCK k /\ io_lock k1 = io_lock k;
}.

Lemma bind_bind {A B C} (m : M kernel A) (f : A -> M kernel B) (h : B -> M kernel C) k :
  bind m (fun a => bind (f a) h) k = bind (bind m f) h k.
Proof. unfold bind. now destruct (m k). Qed.

(** What every handler starts with. *)
Definition entry (c : ExceptionContext) : M kernel unit :=
  (if was_from_user_el0 c
   then (let* cur := gets get_current_process in zoom stk_lens (free_queued_stacks (pid <$> cur))) ;;
        update_last_running_pctx (from_ectx c)
   else skip) ;;
  awake_common_chans.

Section Entry.
  Context (fuel : nat) (kctx : ExceptionContext) (resume : M kernel unit) (g : Z).
  Context (images : bytes -> bytes) (intro : bytes).

  (** The handlers by the type of the exception. *)
Definition dispatch (t : ExceptionType) : M kernel unit :=
  match t with
  | E_SYNC => handle_sync_exception fuel kctx resume g images intro
  | E_IRQ => handle_irq_exception fuel kctx resume g
  | _ => unhandled_exception fuel kctx resume g
  end.

Lemma awake_table k k1 :
  awake_common_chans k = Done tt k1 ->
  hcore (dev k1) = hcore (dev k) /\ mmio (dev k1) = mmio (dev k) /\
  (PROCESS_TABLE k1 = PROCESS_TABLE k \/ PROCESS_TABLE k1 = map_procs (wake AWAITING_UART_READ) (PROCESS_TABLE k)).
Proof.
  intros H. assert (mmio (dev k1) = mmio (dev k)) as Hm.
  { revert H. unfold awake_common_chans, zoom, lsr_read, wakeup. run_m. cbn [view dev_lens set].
    destruct (_ =? 1); intros [= <-]; reflexivity. }
  apply awake_form in H as (h & E & Eh & _ & _ & _ & _ & _ & _ & _ & Ht).
  split; [rewrite E; exact Eh|]. split; [exact Hm|exact Ht].
Qed.

Lemma handle_entry k :
  handle_exception_el1 fuel kctx resume g images intro k =
  (entry (ectx k) ;; dispatch (etype (ectx k))) k.
Proof.
  unfold handle_exception_el1, entry. rewrite (bind_run _ _ _ (ectx k) k) by reflexivity.
  apply bind_bind.
Qed.

Lemma entry_run k l p :
  kernel_ok k l -> user_trap k p ->
  exists k1 l1, entry (ectx k) k = Done tt k1 /\
    entered k p k1 l1 /\ (length l <= length l1)%nat.
Proof.
  intros Hok [U1 U2 U3 U4]. set (i := CURRENT_PROCESS k) in *.
  destruct (reaped_ok k l (pid p) Hok) as (s' & l' & Hrun & Hok1 & Hst & Hk & Hlen).
  set (k1 := set_stk s' k) in *. set (f := set_pctx (from_ectx (ectx k))).
  assert (slot_has k1 i p) as Hp1 by exact U1.
  assert (kernel_ok (set_table (update_slot i f (PROCESS_TABLE k1)) k1) l') as Hok2.
  { apply (kernel_ok_slot k1 l' i f p Hok1 Hp1); [reflexivity|reflexivity|exact U3]. }
  set (k2 := set_table (update_slot i f (PROCESS_TABLE k1)) k1) in *.
  destruct (awake_run k2 (ko_table _ _ Hok2)) as (k3 & Haw & A1 & A2 & _).
  pose proof (kernel_ok_awake _ _ _ Hok2 Haw) as Hok3. pose proof (awake_around _ _ Haw) as [(B1 & B2 & B3 & B4 & B5) _].
  destruct (awake_table _ _ Haw) as (Ehc & Emm & Ht).
  assert (slot_has k2 i (f p)) as Hp2.
  { unfold slot_has. cbn [k2 PROCESS_TABLE set_table]. rewrite mjoin_update_slot, decide_True by reflexivity.
    unfold slot_has in Hp1. now rewrite Hp1. }
  exists k3, l'. split; [|split; [split|exact Hlen]].
  - unfold entry. assert (was_from_user_el0 (ectx k) = true) as -> by (unfold was_from_user_el0; now rewrite U4).
    rewrite (bind_run _ _ _ tt k2); [exact Haw|].
    rewrite (bind_run _ _ _ tt k1).
    + unfold update_last_running_pctx. change (CURRENT_PROCESS k1) with i. unfold slot_has in Hp1. rewrite Hp1. reflexivity.
    + rewrite (bind_run _ _ _ (Some p) k) by (unfold gets; now rewrite (current_process_slot _ _ _ Hok U1)). exact Hrun.
  - exact Hok3.
  - exact A2.
  - exact A1.
  - change (CURRENT_PROCESS k) with i. destruct Ht as [Ht|Ht]; unfold slot_has; rewrite Ht; [exact Hp2|]. rewrite map_procs_lookup.
    unfold slot_has in Hp2. rewrite Hp2. cbn [fmap option_fmap option_map]. f_equal. apply wake_running_id. exact U2.
  - intros j s Hj Hs. assert (PROCESS_TABLE k2 !! j = Some s) as Hs2
      by (cbn [k2 PROCESS_TABLE set_table]; unfold update_slot; now rewrite list_lookup_alter_ne by auto).
    destruct Ht as [Ht|Ht]; rewrite Ht; [now left|right]. unfold map_procs. now rewrite list_lookup_fmap, Hs2.
  - rewrite B1. exact Hst.
  - rewrite B1. exact Hk.
  - split; [exact B5|]. split; [exact Ehc|exact Emm].
  - auto.
Qed.

Lemma enter_kernel k l p :
  kernel_ok k l -> user_trap k p ->
  exists k1 l1, handle_exception_el1 fuel kctx resume g images intro k = dispatch (etype (ectx k)) k1 /\
    entered k p k1 l1 /\ (length l <= length l1)%nat.
Proof.
  intros Hok Hu. destruct (entry_run k l p Hok Hu) as (k1 & l1 & Hrun & He). exists k1, l1.
  split; [now rewrite handle_entry, (bind_run _ _ _ _ _ Hrun)|exact He].
Qed.

(** ** The time slice *)

(** The counter is far enough from its end to be programmed a second ahead. *)
Definition timer_good (h : hw) : Prop :=
  0 <= cntfrq h /\ cntfrq h * TIMESLICE_MILISECONDS < U64 /\ forall n, cntpct h n + cntfrq h < U64.

Lemma timer_good_fits h : timer_good h -> timer_fits h.
Proof.
  intros (H0 & H1 & H2). split; [exact H1|]. intros n. specialize (H2 n).
  assert (cntfrq h * TIMESLICE_MILISECONDS / 1000 <= cntfrq h); [|lia].
  apply Z.div_le_upper_bound; unfold TIMESLICE_MILISECONDS; lia.
Qed.

Lemma timer_quiet k :
  timer_good (dev k) ->
  exists h, zoom dev_lens (set_seconds 1) k = Done tt (set_dev h k) /\
  exists h', zoom dev_lens timer_disable (set_dev h k) = Done tt (set_dev h' k) /\
    uart_same (dev k) h' /\ cntfrq h' = cntfrq (dev k) /\ cntpct h' = cntpct (dev k).
Proof.
  intros (H0 & H1 & H2). specialize (H2 (cnt_pos (dev k))). unfold zoom at 1. cbn [view dev_lens].
  unfold set_seconds, read_frq, read_cnt, set_cval, expect, checked_mul64, checked_add64. run_m.
  rewrite Z.mul_1_r, (proj2 (Z.ltb_lt _ _)) by (unfold TIMESLICE_MILISECONDS, U64 in *; lia).
  cbn [cntpct set_timer cnt_pos cntfrq]. rewrite (proj2 (Z.ltb_lt _ _) H2).
  eexists. split; [reflexivity|]. unfold zoom, timer_disable, read_ctl, write_ctl. run_m. cbn [view dev_lens].
  eexists. split; [reflexivity|]. split; [split; reflexivity|]. split; reflexivity.
Qed.

Lemma timer_irq_run k l q :
  kernel_ok k l -> slot_has k (CURRENT_PROCESS k) q -> is_live q = true ->
  esource (ectx k) = EL064 -> timer_good (dev k) ->
  exists h k1, timer_handle_irq fuel k = schedule_next fuel k1 /\ uart_same (dev k) h /\
    k1 = set_dev h (set_table (update_slot (CURRENT_PROCESS k) (set_state Ready) (PROCESS_TABLE k)) k) /\
    kernel_ok k1 l.
Proof.
  intros Hok Hq Hl Hsrc Ht. destruct (timer_quiet k Ht) as (h1 & Hr1 & h2 & Hr2 & U & Ef & Ec).
  set (k2 := set_table (update_slot (CURRENT_PROCESS k) (set_state Ready) (PROCESS_TABLE k)) (set_dev h2 k)).
  assert (timer_fits (dev k2)) as Hfit.
  { apply timer_good_fits. unfold timer_good. cbn [k2 dev set_table set_dev]. rewrite Ef, Ec. exact Ht. }
  destruct (reset_timer_ok k2 Hfit) as (h & Hr3 & U3 & _). exists h, (set_dev h k2).
  split; [|split; [|split; [reflexivity|]]].
  - unfold timer_handle_irq. rewrite (bind_run _ _ _ _ _ Hr1), (bind_run _ _ _ _ _ Hr2).
    rewrite (bind_run _ _ _ (ectx k) (set_dev h2 k)) by reflexivity.
    assert (was_from_user_el0 (ectx k) = true) as -> by (unfold was_from_user_el0; now rewrite Hsrc).
    rewrite (bind_run _ _ _ tt (set_dev h k2)); [reflexivity|].
    unfold timeslice_up. cbn [PROCESS_TABLE set_dev CURRENT_PROCESS]. unfold slot_has in Hq. rewrite Hq. exact Hr3.
  - destruct U as [U1 U2 U4 U5 U6 U7 U8 U9 U10], U3 as [V1 V2 V4 V5 V6 V7 V8 V9 V10].
    cbn [k2 dev set_table set_dev] in *. split; congruence.
  - apply (kernel_ok_ext (set_table (update_slot (CURRENT_PROCESS k) (set_state Ready) (PROCESS_TABLE k)) k));
      [|reflexivity..].
    apply (kernel_ok_slot k l _ _ q Hok Hq); [reflexivity|now rewrite Hl|reflexivity].
Qed.

Lemma irq_timer k :
  mmio (dev k) CORE_0_IRQ_SRC = PhysicalNonSecureTimer ->
  handle_irq_exception fuel kctx resume g k = timer_handle_irq fuel k.
Proof.
  intros H. unfold handle_irq_exception. rewrite (bind_run _ _ _ PhysicalNonSecureTimer k).
  - unfold bind. change (negb (Z.land PhysicalNonSecureTimer PhysicalNonSecureTimer =? 0)) with true. cbv beta iota.
    destruct (timer_handle_irq fuel k) as [[] ?| | |]; reflexivity.
  - unfold zoom, pending_irq, reg_read, gets. cbn [view dev_lens]. rewrite H. destruct k. reflexivity.
Qed.

(** The scheduler does not touch saved registers, and loads them. *)
Lemma schedule_loads n k k' i q :
  schedule_next n k = Done tt k' -> slot_has k i q ->
  (exists q', slot_has k' i q' /\ pctx q' = pctx q) /\
  (CURRENT_PROCESS k' = i -> ectx k' = update_from_pctx (pctx q) (ectx k)).
Proof.
  intros Hrun Hq.
  destruct (schedule_next_inv (fun k0 => ectx k0 = ectx k /\ exists q0, slot_has k0 i q0 /\ pctx q0 = pctx q) n k k')
    as (j & k1 & [He (q0 & Hq0 & Ep)] & Hl); [| | |exact Hrun|].
  - auto.
  - intros k0 k1 [He (q0 & Hq0 & Ep)] Ha. apply awake_form in Ha as (h & E & _ & _ & _ & _ & _ & _ & _ & _ & Ht).
    split; [now rewrite E|]. unfold slot_has in *. destruct Ht as [-> | ->]; [eauto|].
    rewrite map_procs_lookup, Hq0. eexists. split; [reflexivity|].
    destruct (wake_id AWAITING_UART_READ q0) as (_ & _ & -> & _). exact Ep.
  - eauto.
  - apply load_run in Hl as (p & Hp & ->). split.
    + unfold slot_has in *. cbn. rewrite mjoin_update_slot. destruct (decide (i = j)) as [->|]; [|eauto].
      rewrite Hq0. eexists. split; [reflexivity|exact Ep].
    + cbn. intros ->. unfold slot_has in Hq0. rewrite He. congruence.
Qed.
End Entry.

(** ** Traps of other kinds *)

Lemma bind_no_result {A B} (m : M kernel A) (f : A -> M kernel B) k :
  (forall a k', match f a k' with Done _ _ => False | _ => True end) ->
  match bind m f k with Done _ _ => False | _ => True end.
Proof. intros H. unfold bind. destruct (m k); [apply H|exact I..]. Qed.

Lemma unhandled_no_result fuel kctx resume g k :
  match unhandled_exception fuel kctx resume g k with Done _ _ => False | _ => True end.
Proof. unfold unhandled_exception. do 3 (apply bind_no_result; intros). exact I. Qed.

(** The entry code leaves the exception's context alone. *)
Lemma entry_ectx k k1 : entry (ectx k) k = Done tt k1 -> ectx k1 = ectx k.
Proof.
  intros H. apply bind_done in H as ([] & k2 & H & Ha).
  assert (ectx k1 = ectx k2) as ->.
  { apply awake_form in Ha as (h & -> & _). reflexivity. }
  destruct (was_from_user_el0 _); [|injection H as <-; reflexivity].
  apply bind_done in H as ([] & k3 & H & Hu). apply bind_done in H as (c & k4 & Hg & Hz).
  injection Hg as _ <-. apply zoom_done in Hz as (s & _ & ->).
  unfold update_last_running_pctx in Hu. destruct (mjoin _); [|discriminate]. injection Hu as <-. reflexivity.
Qed.

(** ... and the interrupt controller. *)
Lemma entry_mmio k k1 : entry (ectx k) k = Done tt k1 -> mmio (dev k1) = mmio (dev k).
Proof.
  intros H. apply bind_done in H as ([] & k2 & H & Ha). destruct (awake_table _ _ Ha) as (_ & -> & _).
  destruct (was_from_user_el0 _); [|injection H as <-; reflexivity].
  apply bind_done in H as ([] & k3 & H & Hu). apply bind_done in H as (c & k4 & Hg & Hz).
  injection Hg as _ <-. apply zoom_done in Hz as (s & _ & ->).
  unfold update_last_running_pctx in Hu. destruct (mjoin _); [|discriminate]. injection Hu as <-. reflexivity.
Qed.

(** The sources of an interrupt other than the timer, as [handle_irq_exception]
    has them when it is done with the timer. *)
Definition other_sources (k : kernel) : Z :=
  Z.land (mmio (dev k) CORE_0_IRQ_SRC) (Z.lxor 0xFFFFFFFF PhysicalNonSecureTimer).

Lemma other_irq_no_result fuel kctx resume g k :
  0 <= mmio (dev k) CORE_0_IRQ_SRC -> 0 < other_sources k ->
  match handle_irq_exception fuel kctx resume g k with Done _ _ => False | _ => True end.
Proof.
  intros H0 Hs. unfold other_sources in Hs. unfold handle_irq_exception. set (s := mmio (dev k) CORE_0_IRQ_SRC) in *.
  rewrite (bind_run _ _ _ s k) by (unfold zoom, pending_irq, reg_read, gets; cbn [view dev_lens]; destruct k; reflexivity).
  assert (0 < s) as Hpos by (destruct (Z.eq_dec s 0) as [E|]; [rewrite E in Hs; discriminate|lia]).
  assert (forall m k1, m = s \/ m = Z.land s (Z.lxor 0xFFFFFFFF PhysicalNonSecureTimer) ->
    match (if m >? 0 then print fuel kctx resume g (str "Other Unhandled IRQ sources pending: " ++ hex_u32 m ++ [10]) ;;
             unhandled_exception fuel kctx resume g else skip) k1 with Done _ _ => False | _ => True end) as Hend.
  { intros m k1 Hm. assert ((m >? 0) = true) as -> by (apply Z.gtb_lt; destruct Hm; lia).
    apply bind_no_result. intros _ k2. apply unhandled_no_result. }
  unfold bind at 1. destruct (negb _); [|exact (Hend s k (or_introl eq_refl))].
  unfold bind at 1. destruct (timer_handle_irq fuel k) as [[] k1| | |]; [|exact I..].
  exact (Hend _ k1 (or_intror eq_refl)).
Qed.

(** C22. An exception the kernel has no answer to stops the machine.  Whatever
    the state of the kernel, a synchronous exception of a 64-bit program that
    is neither a system call nor the trapped use of floating point, any
    synchronous exception of a 32-bit program, an FIQ, an SError, and an
    interrupt with a source other than the timer pending, the timer too or
    not, never return from the handler. *)
Theorem user_fault_halts fuel kctx resume g images intro k :
  (esource (ectx k) = EL064 /\ etype (ectx k) = E_SYNC /\
     exception_class (ectx k) <> 0x15 /\ exception_class (ectx k) <> 0x07) \/
  etype (ectx k) = E_FIQ \/ etype (ectx k) = E_SE \/
  (esource (ectx k) = EL032 /\ etype (ectx k) = E_SYNC) \/
  (etype (ectx k) = E_IRQ /\ 0 <= mmio (dev k) CORE_0_IRQ_SRC /\ 0 < other_sources k) ->
  match handle_exception_el1 fuel kctx resume g images intro k with Done _ _ => False | _ => True end.
Proof.
  intros H. rewrite handle_entry. unfold bind. destruct (entry (ectx k) k) as [[] k1| | |] eqn:He; [|exact I..].
  pose proof (entry_mmio _ _ He) as Hm. apply entry_ectx in He. pose proof (unhandled_no_result fuel kctx resume g k1) as Hn.
  destruct H as [(Hs & -> & Hc1 & Hc2)|[-> |[-> |[(Hs & ->)|(-> & H0 & Hs)]]]]; cbn [dispatch]; auto.
  - unfold handle_sync_exception, gets at 1, bind at 1. rewrite He, Hs.
    now rewrite (proj2 (Z.eqb_neq _ _) Hc1), (proj2 (Z.eqb_neq _ _) Hc2).
  - unfold handle_sync_exception, gets at 1, bind at 1. now rewrite He, Hs.
  - apply other_irq_no_result; unfold other_sources; now rewrite Hm.
Qed.

(** A kernel thread's [svc #0] through the handler. *)
Lemma svc_handles fuel kctx resume g images intro x0 x1 k :
  svc_enter fuel kctx x0 x1 k =
    handle_exception_el1 fuel kctx resume g images intro (set_ectx (svc_ectx kctx x0 x1) k).
Proof.
  rewrite handle_entry. unfold svc_enter. rewrite (bind_run _ _ _ tt _) by reflexivity.
  set (k0 := set_ectx _ k). unfold bind. destruct (entry (ectx k0) k0) as [[] k1| | |] eqn:He.
  - pose proof (entry_ectx _ _ He) as Ec. change (entry (ectx k0) k0) with (awake_common_chans k0) in He. rewrite He.
    change (etype (ectx k0)) with E_SYNC. cbn [dispatch]. unfold handle_sync_exception.
    unfold gets at 1, bind at 1. rewrite Ec. reflexivity.
  - change (entry (ectx k0) k0) with (awake_common_chans k0) in He. now rewrite He.
  - change (entry (ectx k0) k0) with (awake_common_chans k0) in He. now rewrite He.
  - change (entry (ectx k0) k0) with (awake_common_chans k0) in He. now rewrite He.
Qed.

(** Sleeping is the exception it raises: what a kernel thread's [svc #0]
    does in [svc_enter] is what the handler of exceptions does with its
    context, and starting the scheduler at boot is one such [svc]. *)
Theorem svc_is_exception fuel kctx resume g images intro x0 x1 k :
  svc_enter fuel kctx x0 x1 k =
    handle_exception_el1 fuel kctx resume g images intro (set_ectx (svc_ectx kctx x0 x1) k) /\
  start fuel kctx resume g images intro k = svc_enter fuel kctx (ectx_x 0 kctx) (ectx_x 1 kctx) k.
Proof.
  split; [apply svc_handles|]. rewrite (svc_handles fuel kctx resume g images intro). reflexivity.
Qed.

(** ** [fork] from user mode *)

(** The trap of a system call. *)
Definition svc_trap (n : Z) (c : ExceptionContext) : Prop :=
  etype c = E_SYNC /\ exception_class c = 0x15 /\ Z.land (esr c) 0xffff = n.

Lemma free_reaped cur (t : list StackState) : Free ∈ t -> Free ∈ reap cur <$> t.
Proof. intros H. apply list_elem_of_fmap. exists Free. auto. Qed.

Lemma entered_none k l p k1 l1 j :
  kernel_ok k l -> entered k p k1 l1 -> slot_has k (CURRENT_PROCESS k) p ->
  (PROCESS_TABLE k1 !! j = Some None <-> PROCESS_TABLE k !! j = Some None).
Proof.
  intros Hok He Hp. destruct (decide (j = CURRENT_PROCESS k)) as [->|Hne].
  - pose proof (en_slot _ _ _ _ He) as H. apply slot_lookup in H, Hp. rewrite H, Hp. split; discriminate.
  - destruct (PROCESS_TABLE k !! j) as [s|] eqn:E.
    + destruct (en_slots _ _ _ _ He j s Hne E) as [-> | ->]; [reflexivity|].
      destruct s; cbn; split; congruence.
    + split; [|discriminate]. intros H%lookup_lt_Some. apply lookup_ge_None in E.
      pose proof (ko_table _ _ (en_ok _ _ _ _ He)) as Ht. pose proof (ko_table _ _ Hok) as Ht0.
      unfold table_ok in *. lia.
Qed.

(** C10. [fork] as a program sees it.  A process that executes the system
    call with room for a child gets the child's pid in x0 and everything else
    as it was; the child, ready in the first empty slot, will resume with the
    registers of the caller at the call, x0 = 0 apart, in an address space
    that reads the same bytes everywhere; and the kernel's invariant holds. *)
Theorem fork_trap fuel kctx resume g images intro k l p s x j :
  kernel_ok k l -> user_trap k p -> svc_trap 4 (ectx k) ->
  KERNEL_STACKS_ALLOCATED (stk k) !! s = Some (Allocated (pid p)) ->
  esp_el1 (ectx k) = KERNEL_BASE + x -> slot_low s + 0x1000 <= x <= slot_low s + 0x7000 ->
  fork_room k l p j ->
  exists child k' l', handle_exception_el1 fuel kctx resume g images intro k = Done tt k' /\ kernel_ok k' l' /\
    ectx k' = ectx_set_x 0 (pid child) (ectx k) /\ pid child = NEXT_PID k /\
    slot_has k' (CURRENT_PROCESS k) (set_pctx (from_ectx (ectx k)) p) /\
    slot_has k' j child /\ state child = Ready /\ parent_pid child = pid p /\ name child = name p /\
    (exists sp root, pctx child = pctx_set_x 0 0 (with_sp_el1 sp (with_ttbr0 root (from_ectx (ectx k))))) /\
    forall va, vread (kmem (stk k')) (ttbr0 (pctx child)) va = vread (kmem (stk k)) (ttbr0 (pctx p)) va /\
               vread (kmem (stk k')) (ttbr0 (pctx p)) va = vread (kmem (stk k)) (ttbr0 (pctx p)) va.
Proof.
  intros Hok Hu (Ht & Hcl & Hn) Hs Hx Hr [F1 F2 F3 F4 F5].
  destruct (enter_kernel fuel kctx resume g images intro k l p Hok Hu) as (k1 & l1 & Hrun & He & Hlen).
  pose proof He as [E1 E2 E3 E4 E5 E6 E7 _ (E9 & _)]. pose proof Hu as [U1 U2 U3 U4].
  set (q := set_pctx (from_ectx (ectx k)) p) in *. rewrite <- E3 in E4.
  assert (is_live p = true) as Hlive by (unfold is_live, is_state; now rewrite U2).
  assert (space_kept (ram (kmem (stk k))) (ram (kmem (stk k1))) (ttbr0 (pctx p))) as Hkept.
  { rewrite Forall_forall in E7. apply E7. exact (live_root_in _ _ _ U1 Hlive). }
  assert (runs k1 q s x) as Hruns.
  { split; [exact E4|exact Hlive|rewrite E6, list_lookup_fmap, Hs; reflexivity|exact Hx|exact Hr]. }
  assert (fork_room k1 l1 q j) as Hroom.
  { split.
    - now apply (entered_none k l p k1 l1 j Hok He U1).
    - intros i Hi H. apply (entered_none k l p k1 l1 i Hok He U1) in H. exact (F2 i Hi H).
    - rewrite E6. now apply free_reaped.
    - now rewrite E9.
    - change (ttbr0 (pctx q)) with (ettbr0 (ectx k)). rewrite U3. rewrite (proj1 Hkept). lia. }
  destruct (sys_fork_run k1 l1 q s x j E1 Hruns Hroom)
    as (child & k' & l' & Hf & Hok' & Htab & Hctx & Hpid & Hpar & Hst & Hname & Hregs & Hmem & _).
  assert (j <> CURRENT_PROCESS k) as Hj.
  { intros ->. apply slot_lookup in U1. congruence. }
  pose proof (fr_slot _ _ _ _ Hroom) as Hj1.
  exists child, k', l'. split.
  - rewrite Hrun, Ht. cbn [dispatch]. unfold handle_sync_exception, gets at 1, bind at 1. rewrite E2, U4, Hcl.
    change (21 =? 21) with true. cbv iota. unfold handle_syscall, gets at 1, bind at 1. rewrite E2, Hn.
    change (as_u16 4) with 4. cbv beta iota zeta. unfold unwrapped. now rewrite (bind_run _ _ _ _ _ Hf).
  - split; [exact Hok'|]. split; [now rewrite Hctx, E2|]. split; [now rewrite Hpid|]. split.
    { unfold slot_has. rewrite Htab, list_lookup_insert_ne by exact Hj. rewrite <- E3. exact E4. }
    split; [unfold slot_has; rewrite Htab, list_lookup_insert_eq by (now apply lookup_lt_Some in Hj1); reflexivity|].
    split; [exact Hst|]. split; [exact Hpar|]. split; [exact Hname|]. split; [exact Hregs|].
    assert (forall va, vread (kmem (stk k1)) (ttbr0 (pctx p)) va = vread (kmem (stk k)) (ttbr0 (pctx p)) va) as Hread.
    { intros va. apply (kept_read _ _ _ l _ _ (ko_spaces _ _ Hok)); [right; exact (live_root_in _ _ _ U1 Hlive)|exact Hkept]. }
    assert (ttbr0 (pctx q) = ttbr0 (pctx p)) as Hq by exact U3.
    intros va. destruct (Hmem va) as [M1 M2]. rewrite Hq in M1, M2. now rewrite M1, M2, Hread.
Qed.

End Kernel.

(** ** On a concrete kernel *)

(** The machine with its timer interrupt pending and its counter at rest. *)
Definition demo_trap_hw : hw :=
  mk_hw demo_core (Spinlock_new "uart_write_lock") (Spinlock_new "uart_read_lock")
    (fun a => if a =? CORE_0_IRQ_SRC then 2 else 0xFF) (fun _ => 0x20) 0 (fun _ => 97) 0 []
    2 19200000 (fun _ => 1000) 0 0 0.

(** Init in user mode at an exception of type [t] with syndrome [e]. *)
Definition demo_trap (t : ExceptionType) (e : Z) : kernel :=
  mk_kernel demo_one_kstate demo_trap_hw demo_init_table 10 0 (Spinlock_new "process_table") demo_mutex
    (mk_ectx t EL064 (replicate 31 0) 0x400000 0 e 0 0x420000 demo_sp proc_root).

Lemma other_machine {F : Pool} s h h' t n i a m c c' l p j :
  kernel_ok (mk_kernel s h t n i a m c) l -> fork_room (mk_kernel s h t n i a m c) l p j ->
  kernel_ok (mk_kernel s h' t n i a m c') l /\ fork_room (mk_kernel s h' t n i a m c') l p j.
Proof.
  intros Hok [F1 F2 F3 F4 F5]. split; [|split; assumption].
  refine (kernel_ok_ext _ _ _ Hok _ _ _ _); reflexivity.
Qed.

Lemma demo_trap_ok t e : (exists (F : Pool) l, kernel_ok (demo_trap t e) l /\ fork_room (demo_trap t e) l demo_proc 1) /\
  user_trap (demo_trap t e) demo_proc.
Proof.
  split; [|split; reflexivity].
  destruct demo_room as (F & l & Hok & Hr). exists F, l. exact (other_machine _ _ _ _ _ _ _ _ _ _ _ _ _ Hok Hr).
Qed.

Lemma demo_trap_stack t e :
  KERNEL_STACKS_ALLOCATED (stk (demo_trap t e)) !! 0%nat = Some (Allocated (pid demo_proc)).
Proof. destruct demo_one_ok as (_ & _ & _ & _ & H). cbn [demo_trap stk]. now rewrite H. Qed.

(** A data abort, and an interrupt of the GPU with the timer's. *)
Definition demo_irq : kernel :=
  set_dev (mk_hw demo_core (Spinlock_new "uart_write_lock") (Spinlock_new "uart_read_lock")
    (fun _ => 0x102) (fun _ => 0x20) 0 (fun _ => 97) 0 [] 2 19200000 (fun _ => 1000) 0 0 0) (demo_trap E_IRQ 0).

Lemma user_fault_halts_witness :
  ((esource (ectx (demo_trap E_SYNC 0x92000000)) = EL064 /\ etype (ectx (demo_trap E_SYNC 0x92000000)) = E_SYNC /\
    exception_class (ectx (demo_trap E_SYNC 0x92000000)) <> 0x15 /\
    exception_class (ectx (demo_trap E_SYNC 0x92000000)) <> 0x07) /\
   match handle_exception_el1 3 demo_ectx skip 0 (fun b => b) [] (demo_trap E_SYNC 0x92000000) with
   | Done _ _ => False | _ => True end) /\
  (etype (ectx demo_irq) = E_IRQ /\ other_sources demo_irq = 0x100 /\
   match handle_exception_el1 3 demo_ectx skip 0 (fun b => b) [] demo_irq with Done _ _ => False | _ => True end).
Proof.
  assert (exception_class (ectx (demo_trap E_SYNC 0x92000000)) <> 0x15) as H3 by discriminate.
  assert (exception_class (ectx (demo_trap E_SYNC 0x92000000)) <> 0x07) as H4 by discriminate.
  split; [split; [split; [reflexivity|split; [reflexivity|auto]]|]|split; [reflexivity|split; [reflexivity|]]].
  - exact (user_fault_halts 3 demo_ectx skip 0 (fun b => b) [] (demo_trap E_SYNC 0x92000000)
      (or_introl (conj eq_refl (conj eq_refl (conj H3 H4))))).
  - apply (user_fault_halts 3 demo_ectx skip 0 (fun b => b) [] demo_irq). do 4 right.
    split; [reflexivity|]. split; [discriminate|reflexivity].
Defined.

Lemma fork_trap_witness :
  exists (F : Pool) l, (kernel_ok (demo_trap E_SYNC 0x56000004) l /\ user_trap (demo_trap E_SYNC 0x56000004) demo_proc /\
    svc_trap 4 (ectx (demo_trap E_SYNC 0x56000004)) /\ fork_room (demo_trap E_SYNC 0x56000004) l demo_proc 1) /\
  exists child k', handle_exception_el1 3 demo_ectx skip 0 (fun b => b) [] (demo_trap E_SYNC 0x56000004) = Done tt k' /\
    slot_has k' 1 child /\ pid child = 10.
Proof.
  destruct (demo_trap_ok E_SYNC 0x56000004) as [(F & l & H1 & H4) H2]. exists F, l.
  assert (svc_trap 4 (ectx (demo_trap E_SYNC 0x56000004))) as H3 by (split; [reflexivity|split; reflexivity]).
  pose proof (demo_trap_stack E_SYNC 0x56000004) as H5. pose proof (rn_range _ _ _ _ demo_runs) as H6.
  split; [auto|].
  destruct (fork_trap 3 demo_ectx skip 0 (fun b => b) [] (demo_trap E_SYNC 0x56000004) l demo_proc 0
    (slot_low 0 + 0x7000) 1 H1 H2 H3 H5 eq_refl H6 H4) as (child & k' & _ & Hrun & _ & _ & Hpid & _ & Hs & _).
  exists child, k'. split; [exact Hrun|]. split; [exact Hs|exact Hpid].
Defined.

(** The handler's test for the timer is [is_irq_pending]. *)
Lemma handler_asks_timer h :
  is_irq_pending Sources.PhysicalNonSecureTimer h =
    (let* irq_sources := pending_irq in ret (negb (Z.land irq_sources PhysicalNonSecureTimer =? 0))) h.
Proof. reflexivity. Qed.
