(* ===== verification/ConsoleSpec.v ===== *)
(** What the console's system calls do for the program: [print] shows the
    bytes of its memory, [read] fills its buffer with the line the user typed,
    edited as he typed it. *)

From Stdlib Require Import ZArith Lia.
From stdpp Require Import base strings numbers list.
From S2P Require Import Prelude Memory Frames PageTable PageFree PagingSpec UserMem PageDup.
From S2P Require Import PageRange Isolation LoadElf KernelStack Interrupts Devices Processes.
From S2P Require Import Scheduler ProcOps Demo Sleep Mutex Io Syscalls.

Local Open Scope Z_scope.

(** ** The program's memory *)

(** TTBR0_EL1 names the space [root]. *)
Definition in_space (root : Z) (s : kstate) : Prop :=
  Z.land (TTBR0_EL1 (kmem s)) PTE_ADDR_MASK = root /\ exists l, space_ok (kmem s) root l.

(** What a program's space looks like to it after others ran. *)
Definition space_keeps (root : Z) (s s' : kstate) : Prop :=
  TTBR0_EL1 (kmem s') = TTBR0_EL1 (kmem s) /\
  space_kept (ram (kmem s)) (ram (kmem s')) root /\
  forall l, space_ok (kmem s) root l -> exists l', space_ok (kmem s') root l'.

#[global] Instance space_keeps_preorder root : PreOrder (space_keeps root).
Proof.
  split.
  - intros s. split; [reflexivity|]. split; [apply space_kept_refl|eauto].
  - intros s1 s2 s3 (A1 & A2 & A3) (B1 & B2 & B3). split; [congruence|].
    split; [now apply (space_kept_trans _ (ram (kmem s2)))|].
    intros l H. destruct (A3 l H) as [l' H']. eauto.
Qed.

Lemma mem_tr_user k root va :
  in_space root (stk k) -> 0 <= va < VA_LIMIT -> mem_tr k va = ttbr0_to_pa (kmem (stk k)) va (Some root).
Proof.
  intros [Hr _] Hva. unfold mem_tr, VA_LIMIT in *. rewrite (proj2 (Z.ltb_lt _ _)) by lia.
  unfold ttbr0_to_pa. cbn [translation_table]. now rewrite Hr.
Qed.

Lemma add64_user va i : 0 <= va -> 0 <= i -> va + i < VA_LIMIT -> add64 va i = va + i.
Proof. intros. apply add64_small. unfold VA_LIMIT, U64 in *. lia. Qed.

Lemma vread_ram st root va b :
  vread st root va = Some b -> ram st <$> ttbr0_to_pa st va (Some root) = Some b.
Proof. unfold vread. destruct (ttbr0_to_pa _ _ _); [auto|discriminate]. Qed.

(** Bytes the program can read, the kernel reads. *)
Lemma load_bytes_user k root va s :
  in_space root (stk k) -> 0 <= va -> va + Z.of_nat (length s) <= VA_LIMIT ->
  (forall i b, s !! i = Some b -> vread (kmem (stk k)) root (va + Z.of_nat i) = Some b) ->
  load_bytes va (Z.of_nat (length s)) k = Done s k.
Proof.
  intros Hsp H0 Hlim Hs. unfold load_bytes.
  assert (mapM (fun i => ram (kmem (stk k)) <$> mem_tr k (add64 va i)) (seqZ 0 (Z.of_nat (length s))) = Some s) as ->; [|reflexivity].
  apply mapM_Some. apply Forall2_same_length_lookup. split; [rewrite length_seqZ; lia|].
  intros i z b Hz Hb. apply lookup_seqZ in Hz as [-> Hz]. rewrite Z.add_0_l.
  rewrite add64_user by lia. rewrite (mem_tr_user k root) by (auto; lia). exact (vread_ram _ _ _ _ (Hs i b Hb)).
Qed.

(** The buffer of a [read]: [len] mapped bytes at [va]; what the program sees
    elsewhere is given by [out]. *)
Definition user_field (root va : Z) (len : nat) (out : Z -> option Z) (s : kstate) : Prop :=
  in_space root s /\
  (forall i, (i < len)%nat -> mapped (kmem s) root (va + Z.of_nat i)) /\
  forall v, 0 <= v < VA_LIMIT -> ~ va <= v < va + Z.of_nat len -> vread (kmem s) root v = out v.

Lemma kept_one st st' root l va :
  space_ok st root l -> space_kept (ram st) (ram st') root ->
  vread st' root va = vread st root va /\ (mapped st root va -> mapped st' root va).
Proof.
  intros Hsp Hk. pose proof (spaces_one _ _ _ Hsp) as Hs.
  set (F := owned 3 _ _ ++ l) in Hs. split.
  - apply (kept_read (F := F) st st' [root] l); [exact Hs|now left|exact Hk].
  - rewrite !mapped_translate, (kept_translate (F := F) st st' [root] l); [auto|exact Hs|now left|exact Hk].
Qed.

Lemma user_buffer root va len out :
  0 <= va -> va + Z.of_nat len <= VA_LIMIT ->
  buffer (space_keeps root) len (fun i c => store_byte (add64 va (Z.of_nat i)) c)
    (user_field root va len out) (fun s i => vread (kmem s) root (va + Z.of_nat i)).
Proof.
  intros H0 Hlim. split.
  - intros k i c Hi Hc ([Hr [l Hsp]] & Hm & Hout).
    pose proof (Hm i Hi) as Hmi. apply mapped_translate in Hmi.
    destruct (ttbr0_to_pa (kmem (stk k)) (va + Z.of_nat i) (Some root)) as [p|] eqn:Hp; [|now contradiction Hmi].
    assert (user_update (kmem (stk k)) root l (va + Z.of_nat i) [c] (page_write (kmem (stk k)) p [c])) as Hu.
    { pose proof (Z.mod_pos_bound (va + Z.of_nat i) 4096 ltac:(lia)).
      apply page_write_spec; [exact Hsp|exact Hp|lia|simpl; lia|]. now constructor. }
    exists (set_kmem (page_write (kmem (stk k)) p [c]) (stk k)).
    split; [|split; [split; [split|split]|split]].
    + unfold store_byte. rewrite add64_user by lia.
      rewrite (mem_tr_user k root) by (lia || (split; [exact Hr|eauto])). now rewrite Hp.
    + exact Hr.
    + exists l. apply Hu.
    + intros j Hj. unfold mapped. cbn [kmem set_kmem]. rewrite (uu_walk _ _ _ _ _ _ Hu). exact (Hm j Hj).
    + intros v Hv Hn. cbn [kmem set_kmem]. rewrite (uu_read _ _ _ _ _ _ Hu v Hv), decide_False by (simpl; lia). auto.
    + cbn [kmem set_kmem]. rewrite (uu_read _ _ _ _ _ _ Hu) by lia. rewrite decide_True by (simpl; lia).
      now replace (Z.to_nat (va + Z.of_nat i - (va + Z.of_nat i))) with 0%nat by lia.
    + intros j Hj Hne. cbn [kmem set_kmem]. rewrite (uu_read _ _ _ _ _ _ Hu) by lia.
      now rewrite decide_False by (simpl; lia).
  - intros s s' (K1 & K2 & K3) ([Hr [l Hsp]] & Hm & Hout). destruct (K3 l Hsp) as [l' Hsp'].
    pose proof (fun v => kept_one (kmem s) (kmem s') root l v Hsp K2) as Hk. split; [split; [split|split]|].
    + now rewrite K1.
    + eauto.
    + intros j Hj. apply Hk. auto.
    + intros v Hv Hn. destruct (Hk v) as [-> _]. auto.
    + intros i Hi. apply Hk.
Qed.

(** ** The system calls *)

(** C24. [print].  A program's string comes out on the console with a
    carriage return before each line feed, nothing of it if it is not UTF-8.
    The console is free again, and the kernel is otherwise the same: its
    memory, every process of the table, the running one, the next pid, the
    table's lock, the registers of the exception, and the devices but for the
    UART ([console_only]); no input was taken. *)
Theorem sys_print_spec fuel kctx resume g was me k root s :
  io_state was me None k -> in_space root (stk k) ->
  0 <= ectx_x 0 (ectx k) -> ectx_x 0 (ectx k) + Z.of_nat (length s) <= VA_LIMIT ->
  ectx_x 1 (ectx k) = Z.of_nat (length s) ->
  (forall i b, s !! i = Some b -> vread (kmem (stk k)) root (ectx_x 0 (ectx k) + Z.of_nat i) = Some b) ->
  exists k', sys_print fuel kctx resume g k = Done ok k' /\ io_state was me None k' /\
    console_only k k' /\ ectx k' = ectx k /\ stk k' = stk k /\
    tx (dev k') = tx (dev k) ++ ((if utf8_valid s then s else []) ≫= crlf) /\
    rx_pos (dev k') = rx_pos (dev k).
Proof.
  intros Hst Hsp H0 Hlim Hlen Hs.
  destruct (print_ok eq fuel kctx resume g was me k (if utf8_valid s then s else []) Hst)
    as (k' & Hrun & Hst' & [D1 D2 D3 D4 D5 D6 D7 D8 D9 D10]).
  exists k'. split; [|split; [exact Hst'|split; [exact (print_only eq _ _ _ _ _ _ _ _ _ Hst Hrun)|
    split; [exact D2|split; [congruence|split; [exact D3|lia]]]]]].
  unfold sys_print, arg. rewrite (bind_run _ _ _ (ectx_x 0 (ectx k)) k) by reflexivity.
  rewrite (bind_run _ _ _ (ectx_x 1 (ectx k)) k) by reflexivity.
  rewrite Hlen, (bind_run _ _ _ _ _ (load_bytes_user k root _ s Hsp H0 Hlim Hs)).
  now rewrite (bind_run _ _ _ _ _ Hrun).
Qed.

(** C25. [read].  When the keys the user will type are [inp] and the line
    editor [edit] makes the line [line] of them with the echo [echo], then
    the call returns the line's length in x0, the buffer in the program's
    memory holds the line, nothing else the program sees has changed, exactly
    the echo went out and exactly the keys were taken.  While no key is there
    the caller sleeps, and other processes run as [resume] says.  Without a
    buffer the call returns 0. *)
Theorem sys_read_spec fuel kctx resume g was me N k root inp line echo :
  let va := ectx_x 0 (ectx k) in
  let len := Z.to_nat (ectx_x 1 (ectx k)) in
  thread_ok fuel kctx N -> resumes (space_keeps root) was me resume ->
  io_state was me None k -> input_ok N k ->
  0 < va -> 0 < ectx_x 1 (ectx k) -> va + ectx_x 1 (ectx k) <= VA_LIMIT ->
  in_space root (stk k) -> (forall i, (i < len)%nat -> mapped (kmem (stk k)) root (va + Z.of_nat i)) ->
  keys_are k inp -> edit len [] inp = Some (line, echo) -> (length inp <= fuel)%nat ->
  exists k', sys_read fuel kctx resume g k = Done ok k' /\ io_state was me None k' /\
    ectx k' = ectx_set_x 0 (Z.of_nat (length line)) (ectx k) /\
    (forall i, (i < length line)%nat -> vread (kmem (stk k')) root (va + Z.of_nat i) = line !! i) /\
    (forall v, 0 <= v < VA_LIMIT -> ~ va <= v < va + ectx_x 1 (ectx k) ->
       vread (kmem (stk k')) root v = vread (kmem (stk k)) root v) /\
    tx (dev k') = tx (dev k) ++ echo /\ rx_pos (dev k') = (rx_pos (dev k) + length inp)%nat.
Proof.
  intros va len Hth Hres Hst Hin Hva Hlen Hlim Hsp Hm Hk He Hf.
  set (out := fun v => vread (kmem (stk k)) root v).
  pose proof (user_buffer root va len out ltac:(lia) ltac:(lia)) as Hbuf.
  assert (holds (user_field root va len out) (fun s i => vread (kmem s) root (va + Z.of_nat i)) (stk k) []) as Hh.
  { split; [|intros i Hi; simpl in Hi; lia]. split; [exact Hsp|]. split; [exact Hm|reflexivity]. }
  destruct (read_loop_ok (space_keeps root) fuel kctx resume g was me N Hth Hres len _ _ _ Hbuf fuel inp [] line echo k
    Hst Hin Hh ltac:(simpl; lia) Hk He Hf Hf) as (k' & Hrun & Hst' & [_ D2 D3 _ D5 _ _ _ _ _] & [(_ & _ & Hout) Hcell]).
  cbn in D2, D3, D5. exists (set_ectx (ectx_set_x 0 (Z.of_nat (length line)) (ectx k')) k').
  split; [|split; [now apply io_state_ectx|]].
  - unfold sys_read, arg. rewrite (bind_run _ _ _ va k) by reflexivity.
    rewrite (bind_run _ _ _ (ectx_x 1 (ectx k)) k) by reflexivity.
    rewrite !(proj2 (Z.eqb_neq _ _)) by lia. cbn [orb]. fold len. unfold read.
    rewrite (bind_run _ _ _ _ _ Hrun). reflexivity.
  - cbn [ectx set_ectx stk dev]. rewrite D2. split; [reflexivity|]. split; [exact Hcell|].
    split; [intros v Hv Hn; apply Hout; [exact Hv|lia]|]. split; [exact D3|lia].
Qed.

(** ** On a concrete kernel *)

Definition set_ttbr0 (r : Z) (st : pstate) : pstate :=
  mk_pstate (ram st) (FREE_FRAME_LIST st) (FREE_FRAME_COUNT st) (TOTAL_FRAME_COUNT st) r.

Lemma space_ok_ttbr0 r st root l : space_ok st root l -> space_ok (set_ttbr0 r st) root l.
Proof. intros [[F1 F2 F3 F4 F5] Hi]. split; [split; assumption|exact Hi]. Qed.

(** Init, with a page at 0x400000, in a system call; the user keeps hitting
    the return key. *)
Definition demo_console_hw : hw :=
  mk_hw (mk_core (mk_Cpu 0 (Some 1) 0 false) true) (Spinlock_new "uart_write_lock") (Spinlock_new "uart_read_lock")
    (fun _ => 0) (fun _ => 0x21) 0 (fun _ => 13) 0 [] 2 19200000 (fun _ => 1000) 0 0 0.
Definition demo_console_mem : kstate :=
  mk_kstate (set_ttbr0 demo_root demo_mapped) (replicate (Z.to_nat MAX_PROCESSES) Free) (ttbr1_to_va demo_root).
Definition demo_console : kernel :=
  mk_kernel demo_console_mem demo_console_hw demo_init_table 10 0 (Spinlock_new "process_table") demo_mutex
    (mk_ectx E_SYNC EL064 (0x400000 :: 2 :: replicate 29 0) 0x400000 0 0x56000002 0 0x420000 demo_sp demo_root).

(** Nobody else wants the core: the scheduler loads the sleeper again. *)
Definition demo_resume : M kernel unit :=
  let* t := gets PROCESS_TABLE in
  match list_find (fun s => pid <$> s = Some 1) t with
  | Some (i, _) => load_pctx i
  | None => panic "the process is gone"
  end.

Lemma demo_not_waiting c : waits_on c demo_init_table = false.
Proof. vm_compute. reflexivity. Qed.

Lemma demo_console_state m : io_state true 1 None
  (mk_kernel m demo_console_hw demo_init_table 10 0 (Spinlock_new "process_table") demo_mutex (ectx demo_console)).
Proof.
  split; [split; [split| |]| | |].
  - reflexivity.
  - reflexivity.
  - reflexivity.
  - intros _. apply demo_not_waiting.
  - split; reflexivity.
  - split; [|reflexivity]. split; [reflexivity|unfold U64; simpl; lia|reflexivity|intros H; discriminate H].
  - exists 0%nat, demo_proc. split; reflexivity.
  - split; [|reflexivity|reflexivity|unfold U64; lia|].
    + split; [reflexivity|unfold U64; simpl; lia|reflexivity|intros H; discriminate H].
    + intros p. exists 0%nat. split; [cbn; lia|discriminate].
  - exists demo_proc. split; [reflexivity|split; reflexivity].
  - reflexivity.
Qed.

Lemma demo_resumes (keeps : relation kstate) `{!PreOrder keeps} : resumes keeps true 1 demo_resume.
Proof.
  intros k1 [[M1 M2 M3 M4 M5] [G1 G2] _] Hhw (i0 & p0 & Hp0 & Hpid0).
  assert (exists i p, list_find (fun s => pid <$> s = Some 1) (PROCESS_TABLE k1) = Some (i, Some p) /\
            mjoin (PROCESS_TABLE k1 !! i) = Some p /\ pid p = 1) as (i & p & Hf & Hp & Hpid).
  { destruct (list_find (fun s => pid <$> s = Some 1) (PROCESS_TABLE k1)) as [[i s]|] eqn:Hf.
    - apply list_find_Some in Hf as Hs. destruct Hs as (Hi & Hs & _). destruct s as [p|]; [|discriminate].
      exists i, p. rewrite Hi. injection Hs as Hs. auto.
    - apply list_find_None in Hf. rewrite Forall_lookup in Hf.
      destruct (PROCESS_TABLE k1 !! i0) as [s|] eqn:Hi; [|discriminate]. cbn in Hp0. subst s.
      exfalso. apply (Hf _ _ Hi). cbn. now f_equal. }
  unfold demo_resume. rewrite (bind_run _ _ _ (PROCESS_TABLE k1) k1) by reflexivity. rewrite Hf.
  unfold load_pctx. rewrite Hp. eexists. split; [reflexivity|].
  assert (mjoin (update_slot i (set_state Running) (PROCESS_TABLE k1) !! i) = Some (set_state Running p)) as Hrun
    by now rewrite mjoin_update_slot, decide_True, Hp.
  assert (nested true 0 (hcore (set_cpu_pid (Some (pid p)) (dev k1)))) as Hn
    by (refine (nested_core _ _ _ _ G1 _ _ _); reflexivity).
  rewrite Hpid in *. split; [split; [split; [split|..]|..]|].
  - unfold table_ok in *. cbn. now rewrite length_update_slot.
  - exact M2.
  - exact M3.
  - intros Ho. cbn [PROCESS_TABLE set_ectx set_dev set_table io_lock]. apply waits_on_update; [discriminate|auto].
  - exact M5.
  - split; [exact Hn|exact G2].
  - exists i, (set_state Running p). split; [exact Hrun|]. cbn. now rewrite Hpid.
  - now apply hw_ok_core.
  - exists (set_state Running p). auto.
  - reflexivity.
  - split; cbn; auto; [reflexivity|now rewrite app_nil_r].
Qed.

Lemma demo_console_space : in_space demo_root (stk demo_console).
Proof.
  split; [vm_compute; reflexivity|]. destruct demo_mapped_ok as [l Hl]. exists l. exact (space_ok_ttbr0 _ _ _ _ Hl).
Qed.

Definition demo_thread : ExceptionContext :=
  mk_ectx E_SYNC EL1h (replicate 31 0) 0 0 0 0 0 0 0.

Lemma demo_thread_ok : thread_ok 4 demo_thread 0.
Proof. split; [reflexivity|discriminate|lia]. Qed.

Lemma demo_input : input_ok 0 demo_console.
Proof.
  split; [split; [reflexivity|intros n; vm_compute; reflexivity]|]. intros n _. reflexivity.
Qed.

(** The same machine with ["a"], a line feed and ["b"] at 0x400000. *)
Definition demo_text : bytes := [97; 10; 98].
Definition demo_text_mem : pstate := after (copy_to_pages demo_text 0x400000 (Some demo_root) demo_mapped) demo_mapped.
Definition demo_print : kernel :=
  mk_kernel (mk_kstate (set_ttbr0 demo_root demo_text_mem) (replicate (Z.to_nat MAX_PROCESSES) Free) (ttbr1_to_va demo_root))
    demo_console_hw demo_init_table 10 0 (Spinlock_new "process_table") demo_mutex
    (mk_ectx E_SYNC EL064 (0x400000 :: 3 :: replicate 29 0) 0x400000 0 0x56000001 0 0x420000 demo_sp demo_root).

Lemma demo_print_space : in_space demo_root (stk demo_print).
Proof.
  split; [vm_compute; reflexivity|]. destruct demo_mapped_ok as [l Hl]. exists l. apply space_ok_ttbr0.
  destruct (copy_to_pages_ok demo_text 0x400000 demo_mapped demo_root l Hl) as (r & st' & Hrun & Hout);
    [repeat constructor; unfold is_u8; lia|lia|unfold VA_LIMIT; cbn; lia|].
  unfold demo_text_mem. rewrite Hrun. cbn [after].
  destruct r; [destruct Hout as [Hu _]; exact (uu_space _ _ _ _ _ _ Hu)|]. destruct Hout as (_ & ? & ? & _ & _ & Hu). exact (uu_space _ _ _ _ _ _ Hu).
Qed.

Lemma sys_print_spec_witness :
  (io_state true 1 None demo_print /\ in_space demo_root (stk demo_print) /\
   0 <= ectx_x 0 (ectx demo_print) /\ ectx_x 0 (ectx demo_print) + Z.of_nat (length demo_text) <= VA_LIMIT /\
   ectx_x 1 (ectx demo_print) = Z.of_nat (length demo_text)) /\
  exists k', sys_print 4 demo_thread demo_resume 1 demo_print = Done ok k' /\ console_only demo_print k' /\
    tx (dev k') = [97; 13; 10; 98].
Proof.
  pose proof (demo_console_state (stk demo_print)) as H1. pose proof (io_state_ectx true 1 None (ectx demo_print) _ H1) as H1'.
  pose proof demo_print_space as H2.
  assert (0 <= ectx_x 0 (ectx demo_print)) as H3 by (cbn; lia).
  assert (ectx_x 0 (ectx demo_print) + Z.of_nat (length demo_text) <= VA_LIMIT) as H4 by (cbn; unfold VA_LIMIT; lia).
  assert (ectx_x 1 (ectx demo_print) = Z.of_nat (length demo_text)) as H5 by reflexivity.
  split; [auto|].
  destruct (sys_print_spec 4 demo_thread demo_resume 1 true 1 demo_print demo_root demo_text H1' H2 H3 H4 H5)
    as (k' & Hrun & _ & Hco & _ & _ & Htx & _).
  - intros [|[|[|i]]] b Hb; [..|discriminate]; injection Hb as <-; vm_compute; reflexivity.
  - exists k'. split; [exact Hrun|]. split; [exact Hco|]. rewrite Htx. reflexivity.
Defined.

Lemma sys_read_spec_witness :
  (thread_ok 4 demo_thread 0 /\ resumes (space_keeps demo_root) true 1 demo_resume /\
   io_state true 1 None demo_console /\ input_ok 0 demo_console /\ in_space demo_root (stk demo_console) /\
   keys_are demo_console [13] /\ edit 2 [] [13] = Some ([10], [10])) /\
  exists k', sys_read 4 demo_thread demo_resume 1 demo_console = Done ok k' /\
    ectx_x 0 (ectx k') = 1 /\ vread (kmem (stk k')) demo_root 0x400000 = Some 10.
Proof.
  pose proof demo_thread_ok as H1. pose proof (demo_resumes (space_keeps demo_root)) as H2.
  pose proof (demo_console_state demo_console_mem) as H3. pose proof demo_input as H4. pose proof demo_console_space as H5.
  assert (keys_are demo_console [13]) as H6 by (intros [|j] Hj; [reflexivity|simpl in Hj; lia]).
  assert (edit 2 [] [13] = Some ([10], [10])) as H7 by reflexivity.
  assert (forall i, (i < Z.to_nat (ectx_x 1 (ectx demo_console)))%nat ->
    mapped (kmem (stk demo_console)) demo_root (ectx_x 0 (ectx demo_console) + Z.of_nat i)) as H8.
  { intros [|[|i]] Hi; [vm_compute; discriminate..|exfalso; vm_compute in Hi; lia]. }
  split; [auto 10|].
  destruct (sys_read_spec 4 demo_thread demo_resume 1 true 1 0 demo_console demo_root [13] [10] [10] H1 H2 H3 H4
    ltac:(cbn; lia) ltac:(cbn; lia) ltac:(cbn; unfold VA_LIMIT; lia) H5 H8 H6 H7 ltac:(cbn; lia))
    as (k' & Hrun & _ & He & Hv & _).
  exists k'. split; [exact Hrun|]. split; [rewrite He; reflexivity|]. specialize (Hv 0%nat ltac:(cbn; lia)). exact Hv.
Defined.
