(* ===== verification/Unchecked.v ===== *)
(** Arguments that the kernel uses unchecked: the pointers of print and read,
    through which a program reads and writes all of physical memory by the
    kernel's linear map, and the duration of sleep, whose product wraps. *)

From Stdlib Require Import ZArith Lia.
From stdpp Require Import base strings numbers list.
From S2P Require Import Prelude Memory Frames PageTable PageFree PagingSpec UserMem PageDup.
From S2P Require Import Isolation LoadElf KernelStack Interrupts Devices Processes Scheduler ProcOps Demo.
From S2P Require Import Sleep Mutex Io Syscalls SyscallSpec ConsoleSpec.

Local Open Scope Z_scope.

(** Physical memory from [pa] on. *)
Definition memory_at (m : mem) (pa : Z) (n : nat) : bytes := (fun i => m (pa + Z.of_nat i)) <$> seq 0 n.

Lemma memory_at_lookup m pa n i : (i < n)%nat -> memory_at m pa n !! i = Some (m (pa + Z.of_nat i)).
Proof. intros H. unfold memory_at. now rewrite list_lookup_fmap, lookup_seq_lt. Qed.

(** The linear map. *)
Lemma mem_tr_linear k pa : 0 <= pa < 2 ^ 31 -> mem_tr k (KERNEL_BASE + pa) = Some pa.
Proof.
  intros H. unfold mem_tr, KERNEL_BASE in *.
  rewrite (proj2 (Z.ltb_ge _ (2 ^ 39))), (proj2 (Z.ltb_ge _ _)), (proj2 (Z.ltb_lt _ _)) by lia. f_equal. lia.
Qed.

Lemma add64_linear pa i : 0 <= pa -> 0 <= i -> pa + i < 2 ^ 31 -> add64 (KERNEL_BASE + pa) i = KERNEL_BASE + (pa + i).
Proof. intros. rewrite add64_small by (unfold KERNEL_BASE, U64; lia). lia. Qed.

Lemma load_bytes_linear k pa n :
  0 <= pa -> pa + Z.of_nat n <= 2 ^ 31 ->
  load_bytes (KERNEL_BASE + pa) (Z.of_nat n) k = Done (memory_at (ram (kmem (stk k))) pa n) k.
Proof.
  intros H0 Hlim. unfold load_bytes.
  assert (mapM (fun i => ram (kmem (stk k)) <$> mem_tr k (add64 (KERNEL_BASE + pa) i)) (seqZ 0 (Z.of_nat n))
          = Some (memory_at (ram (kmem (stk k))) pa n)) as ->; [|reflexivity].
  apply mapM_Some. apply Forall2_same_length_lookup. split.
  - unfold memory_at. rewrite length_seqZ, length_fmap, length_seq. lia.
  - intros i z b Hz Hb. apply lookup_seqZ in Hz as [-> Hz]. rewrite Z.add_0_l, add64_linear, mem_tr_linear by lia.
    rewrite memory_at_lookup in Hb by lia. exact Hb.
Qed.

(** Bytes of physical memory as the buffer of a read; the others leave them
    alone. *)
Definition cells_kept (pa : Z) (len : nat) (s s' : kstate) : Prop :=
  forall i, (i < len)%nat -> ram (kmem s') (pa + Z.of_nat i) = ram (kmem s) (pa + Z.of_nat i).

#[global] Instance cells_kept_preorder pa len : PreOrder (cells_kept pa len).
Proof. split; [intros s i Hi; reflexivity|]. intros s1 s2 s3 H1 H2 i Hi. now rewrite H2, H1. Qed.

Lemma linear_buffer pa len :
  0 <= pa -> pa + Z.of_nat len <= 2 ^ 31 ->
  buffer (cells_kept pa len) len (fun i c => store_byte (add64 (KERNEL_BASE + pa) (Z.of_nat i)) c)
    (fun _ => True) (fun s i => Some (ram (kmem s) (pa + Z.of_nat i))).
Proof.
  intros H0 Hlim. split.
  - intros k i c Hi Hc _. unfold store_byte. rewrite add64_linear, mem_tr_linear by lia.
    eexists. split; [reflexivity|]. split; [exact I|]. cbn [kmem set_kmem ram set_ram].
    assert (forall x, write_list (ram (kmem (stk k))) (pa + Z.of_nat i) [c] x
                      = if x =? pa + Z.of_nat i then c else ram (kmem (stk k)) x) as Hw.
    { intros x. destruct (Z.eqb_spec x (pa + Z.of_nat i)) as [->|Hne].
      - rewrite write_list_in by (simpl; lia). now rewrite Z.sub_diag.
      - apply write_list_out. simpl. lia. }
    split; [now rewrite Hw, Z.eqb_refl|]. intros j Hj Hne. rewrite Hw, (proj2 (Z.eqb_neq _ _)) by lia. reflexivity.
  - intros s s' Hk _. split; [exact I|]. intros i Hi. now rewrite (Hk i Hi).
Qed.

(** ** The system calls *)

(** [print] discloses memory.  Given the address in the kernel's linear
    map of any [n] bytes of physical memory, be they the kernel's or another
    process's, it prints them (when they are UTF-8) and returns. *)
Theorem print_discloses fuel kctx resume g was me k pa n :
  io_state was me None k -> 0 <= pa -> pa + Z.of_nat n <= 2 ^ 31 ->
  ectx_x 0 (ectx k) = KERNEL_BASE + pa -> ectx_x 1 (ectx k) = Z.of_nat n ->
  let s := memory_at (ram (kmem (stk k))) pa n in
  exists k', sys_print fuel kctx resume g k = Done ok k' /\ ectx k' = ectx k /\
    tx (dev k') = tx (dev k) ++ ((if utf8_valid s then s else []) ≫= crlf).
Proof.
  intros Hst H0 Hlim Hx0 Hx1 s.
  destruct (print_ok eq fuel kctx resume g was me k (if utf8_valid s then s else []) Hst)
    as (k' & Hrun & _ & [_ D2 D3 _ _ _ _ _ _ _]).
  exists k'. split; [|auto]. unfold sys_print, arg. rewrite (bind_run _ _ _ (ectx_x 0 (ectx k)) k) by reflexivity.
  rewrite (bind_run _ _ _ (ectx_x 1 (ectx k)) k) by reflexivity.
  rewrite Hx0, Hx1, (bind_run _ _ _ _ _ (load_bytes_linear k pa n H0 Hlim)). now rewrite (bind_run _ _ _ _ _ Hrun).
Qed.

(** C26. [read] overwrites memory.  Given the address in the kernel's linear
    map of any bytes of physical memory, it puts the line that is typed there
    and returns its length: a program changes the kernel's own data, page
    tables and other processes' memory at will. *)
Theorem read_overwrites fuel kctx resume g was me N k pa inp line echo :
  let len := Z.to_nat (ectx_x 1 (ectx k)) in
  thread_ok fuel kctx N -> resumes (cells_kept pa len) was me resume ->
  io_state was me None k -> input_ok N k ->
  0 <= pa -> 0 < ectx_x 1 (ectx k) -> pa + ectx_x 1 (ectx k) <= 2 ^ 31 ->
  ectx_x 0 (ectx k) = KERNEL_BASE + pa ->
  keys_are k inp -> edit len [] inp = Some (line, echo) -> (length inp <= fuel)%nat ->
  exists k', sys_read fuel kctx resume g k = Done ok k' /\
    ectx k' = ectx_set_x 0 (Z.of_nat (length line)) (ectx k) /\
    memory_at (ram (kmem (stk k'))) pa (length line) = line.
Proof.
  intros len Hth Hres Hst Hin H0 Hlen Hlim Hx0 Hk He Hf.
  pose proof (linear_buffer pa len H0 ltac:(lia)) as Hbuf.
  assert (holds (fun _ => True) (fun s i => Some (ram (kmem s) (pa + Z.of_nat i))) (stk k) []) as Hh
    by (split; [exact I|intros i Hi; simpl in Hi; lia]).
  destruct (read_loop_ok (cells_kept pa len) fuel kctx resume g was me N Hth Hres len _ _ _ Hbuf fuel inp [] line echo k
    Hst Hin Hh ltac:(simpl; lia) Hk He Hf Hf) as (k' & Hrun & _ & [_ D2 _ _ _ _ _ _ _ _] & [_ Hcell]).
  cbn in D2. exists (set_ectx (ectx_set_x 0 (Z.of_nat (length line)) (ectx k')) k'). split; [|split].
  - unfold sys_read, arg. rewrite (bind_run _ _ _ (ectx_x 0 (ectx k)) k) by reflexivity.
    rewrite (bind_run _ _ _ (ectx_x 1 (ectx k)) k) by reflexivity. rewrite Hx0.
    rewrite !(proj2 (Z.eqb_neq _ _)) by (unfold KERNEL_BASE; lia). cbn [orb]. fold len. unfold read.
    rewrite (bind_run _ _ _ _ _ Hrun). reflexivity.
  - cbn [ectx set_ectx]. now rewrite D2.
  - apply list_eq. intros i. cbn [stk set_ectx]. destruct (decide (i < length line)%nat) as [Hi|Hi].
    + rewrite memory_at_lookup by exact Hi. exact (Hcell i Hi).
    + rewrite !lookup_ge_None_2; [reflexivity|lia|]. unfold memory_at. rewrite length_fmap, length_seq. lia.
Qed.

(** ** sleep *)

(** The counter is read until it has reached the target. *)
Lemma wait_ticks_until target j fuel h :
  (j <= fuel)%nat -> target <= cntpct h (cnt_pos h + j) ->
  (forall i, (i < j)%nat -> cntpct h (cnt_pos h + i) < target) ->
  wait_ticks fuel target h = Done tt (set_timer (S (cnt_pos h + j)) (cntp_ctl h) (cntp_cval h) h).
Proof.
  revert fuel h. induction j as [|j IH]; intros fuel h Hf Ht Hlt.
  - rewrite Nat.add_0_r in *. destruct fuel; cbn [wait_ticks]; unfold read_cnt, bind at 1;
      rewrite (proj2 (Z.ltb_ge _ _)) by exact Ht; reflexivity.
  - destruct fuel as [|fuel]; [lia|]. cbn [wait_ticks]. unfold read_cnt, bind at 1.
    rewrite (proj2 (Z.ltb_lt _ _)) by (specialize (Hlt O ltac:(lia)); now rewrite Nat.add_0_r in Hlt).
    set (h1 := set_timer (S (cnt_pos h)) (cntp_ctl h) (cntp_cval h) h).
    rewrite (IH fuel h1); [|lia| |].
    + cbn. now rewrite Nat.add_succ_r.
    + cbn. now rewrite <- Nat.add_succ_r.
    + intros i Hi. cbn. replace (S (cnt_pos h + i)) with (cnt_pos h + S i)%nat by lia. apply Hlt. lia.
Qed.

(** C27. [sleep(ms)] keeps the core busy, with nobody else running, from the first
    reading of the counter to the first that reaches that reading plus
    [(freq * ms mod 2^64) / 1000], and returns.  The product that does not
    fit 64 bits wraps, so that some longer sleeps end earlier. *)
Theorem sys_sleep_spec fuel k j :
  let ms := ectx_x 0 (ectx k) in
  let h := dev k in
  let target := add64 (cntpct h (cnt_pos h)) (mul64 (cntfrq h) ms / 1000) in
  (j <= fuel)%nat -> target <= cntpct h (S (cnt_pos h) + j) ->
  (forall i, (i < j)%nat -> cntpct h (S (cnt_pos h) + i) < target) ->
  sys_sleep fuel k = Done ok (set_dev (set_timer (S (S (cnt_pos h) + j)) (cntp_ctl h) (cntp_cval h) h) k).
Proof.
  intros ms h target Hf Ht Hlt. unfold sys_sleep, arg. rewrite (bind_run _ _ _ ms k) by reflexivity.
  rewrite (bind_run _ _ k (cntfrq h) k) by (unfold zoom, read_frq, gets; cbn [view dev_lens]; now destruct k).
  set (h1 := set_timer (S (cnt_pos h)) (cntp_ctl h) (cntp_cval h) h).
  rewrite (bind_run _ _ k (cntpct h (cnt_pos h)) (set_dev h1 k)) by reflexivity. cbv zeta. fold target.
  erewrite bind_run; [|apply zoom_done; eexists; split; [exact (wait_ticks_until target j fuel h1 Hf Ht Hlt)|reflexivity]].
  reflexivity.
Qed.

(** ** On a concrete kernel *)

(** A program that names the physical address 0x80000. *)
Definition demo_pointer : kernel :=
  set_ectx (mk_ectx E_SYNC EL064 ((KERNEL_BASE + 0x80000) :: 2 :: replicate 29 0) 0x400000 0 0x56000002 0 0x420000 demo_sp demo_root)
    demo_console.

Lemma demo_pointer_state : io_state true 1 None demo_pointer.
Proof. apply io_state_ectx. exact (demo_console_state demo_console_mem). Qed.

Lemma print_discloses_witness :
  (io_state true 1 None demo_pointer /\ 0 <= 0x80000 /\ 0x80000 + Z.of_nat 2 <= 2 ^ 31 /\
   ectx_x 0 (ectx demo_pointer) = KERNEL_BASE + 0x80000 /\ ectx_x 1 (ectx demo_pointer) = Z.of_nat 2) /\
  exists k', sys_print 4 demo_thread demo_resume 1 demo_pointer = Done ok k'.
Proof.
  pose proof demo_pointer_state as H1. assert (0 <= 0x80000) as H2 by lia.
  assert (0x80000 + Z.of_nat 2 <= 2 ^ 31) as H3 by lia.
  assert (ectx_x 0 (ectx demo_pointer) = KERNEL_BASE + 0x80000) as H4 by reflexivity.
  assert (ectx_x 1 (ectx demo_pointer) = Z.of_nat 2) as H5 by reflexivity.
  split; [auto|].
  destruct (print_discloses 4 demo_thread demo_resume 1 true 1 demo_pointer 0x80000 2 H1 H2 H3 H4 H5) as (k' & Hrun & _).
  exists k'. exact Hrun.
Defined.

Lemma read_overwrites_witness :
  (thread_ok 4 demo_thread 0 /\ resumes (cells_kept 0x80000 2) true 1 demo_resume /\ io_state true 1 None demo_pointer /\
   input_ok 0 demo_pointer /\ ectx_x 0 (ectx demo_pointer) = KERNEL_BASE + 0x80000 /\
   keys_are demo_pointer [13] /\ edit 2 [] [13] = Some ([10], [10])) /\
  exists k', sys_read 4 demo_thread demo_resume 1 demo_pointer = Done ok k' /\
    memory_at (ram (kmem (stk k'))) 0x80000 1 = [10].
Proof.
  pose proof demo_thread_ok as H1. pose proof (demo_resumes (cells_kept 0x80000 2)) as H2. pose proof demo_pointer_state as H3.
  pose proof demo_input as H4. assert (ectx_x 0 (ectx demo_pointer) = KERNEL_BASE + 0x80000) as H5 by reflexivity.
  assert (keys_are demo_pointer [13]) as H6 by (intros [|j] Hj; [reflexivity|simpl in Hj; lia]).
  assert (edit 2 [] [13] = Some ([10], [10])) as H7 by reflexivity.
  split; [auto 10|].
  destruct (read_overwrites 4 demo_thread demo_resume 1 true 1 0 demo_pointer 0x80000 [13] [10] [10] H1 H2 H3 H4
    ltac:(lia) ltac:(cbn; lia) ltac:(cbn; lia) H5 H6 H7 ltac:(cbn; lia)) as (k' & Hrun & _ & Hm).
  exists k'. split; [exact Hrun|exact Hm].
Defined.

(** A sleep of 2^64 / 19200000 milliseconds, about thirty years, ends at the
    next reading of the counter. *)
Lemma sys_sleep_spec_witness :
  let k := set_ectx (mk_ectx E_SYNC EL064 (960767920506 :: replicate 30 0) 0x400000 0 0x56000008 0 0x420000 demo_sp demo_root)
             (set_dev (mk_hw (hcore demo_console_hw) (w_lock demo_console_hw) (r_lock demo_console_hw) (fun _ => 0)
                (fun _ => 0x21) 0 (fun _ => 13) 0 [] 2 19200000 (fun n => 1000 + 10000 * Z.of_nat n) 0 0 0) demo_console) in
  (0 <= 0)%nat /\ exists k', sys_sleep 0 k = Done ok k' /\ cnt_pos (dev k') = 2%nat.
Proof.
  intros k. split; [lia|].
  pose proof (sys_sleep_spec 0 k 0 ltac:(lia)) as H. cbv zeta in H. eexists. split; [apply H|reflexivity].
  - vm_compute. discriminate.
  - lia.
Defined.
