(* ===== verification/Banner.v ===== *)
(** The build script (src/build.rs): the banner the kernel greets with, made of
    atos_intro.txt and what date, rustc and git print; and what cargo and the C
    compiler are asked to do.  The generated text is the [intro] of Boot.

    The commands, the environment and the file system of the host are
    parameters. *)

From Stdlib Require Import ZArith Lia.
From stdpp Require Import base strings numbers list.
From S2P Require Import Prelude.

Local Open Scope Z_scope.

(** ** [str::trim] and [str::replace] *)

Fixpoint strip_prefix (p s : bytes) : option bytes :=
  match p, s with
  | [], _ => Some s
  | a :: p', b :: s' => if a =? b then strip_prefix p' s' else None
  | _ :: _, [] => None
  end.

Fixpoint strip_one (ps : list bytes) (s : bytes) : option bytes :=
  match ps with
  | [] => None
  | p :: ps' => match strip_prefix p s with Some s' => Some s' | None => strip_one ps' s end
  end.

(** The characters with the property [White_Space], in UTF-8. *)
Definition white_space : list bytes :=
  map (fun b => [b]) [9; 10; 11; 12; 13; 32] ++ [[0xC2; 0x85]; [0xC2; 0xA0]; [0xE1; 0x9A; 0x80]] ++
  map (fun b => [0xE2; 0x80; b])
    [0x80; 0x81; 0x82; 0x83; 0x84; 0x85; 0x86; 0x87; 0x88; 0x89; 0x8A; 0xA8; 0xA9; 0xAF] ++
  [[0xE2; 0x81; 0x9F]; [0xE3; 0x80; 0x80]].

(** As many of the given characters as there are at the start. *)
Fixpoint strip_all (n : nat) (ps : list bytes) (s : bytes) : bytes :=
  match n with
  | O => s
  | S n' => match strip_one ps s with Some s' => strip_all n' ps s' | None => s end
  end.

Definition trim (s : bytes) : bytes :=
  let s := strip_all (length s) white_space s in
  rev (strip_all (length s) (map (@rev Z) white_space) (rev s)).

(** [s.replace(from, to)]; [skip] bytes belong to a match already replaced. *)
Fixpoint replace_from (skip : nat) (from to s : bytes) : bytes :=
  match s with
  | [] => []
  | b :: s' =>
      match skip with
      | S k => replace_from k from to s'
      | O => match strip_prefix from s with
             | Some _ => to ++ replace_from (length from - 1) from to s'
             | None => b :: replace_from 0 from to s'
             end
      end
  end.
Definition replace (from to s : bytes) : bytes := replace_from 0 from to s.

(** ** The script *)

(** What it does to the outside, in order. *)
Inductive action :=
| CargoLine (line : bytes)
| WriteFile (path contents : bytes)
| Assemble (files : list bytes) (compiler flag output : bytes).

Definition act (a : action) : M (list action) unit := modify (fun log => log ++ [a]).

(** The compile-time [env!] of cargo's package, from Cargo.toml. *)
Definition CARGO_PKG_NAME : bytes := str "AtOS".
Definition CARGO_PKG_VERSION : bytes := str "0.1.0-dev".
Definition CARGO_PKG_REPOSITORY : bytes := str "https://github.com/ZackyGameDev/AtOS".
Definition CARGO_PKG_HOMEPAGE : bytes := str "https://zackygamedev.github.io/RustOSGuideforRPi3/".

(** [Path::join] with a relative name. *)
Definition path_join (dir name : bytes) : bytes :=
  match last dir with
  | None => name
  | Some b => if b =? 47 then dir ++ name else dir ++ [47] ++ name
  end.

Section BuildScript.
  (** The standard output of a command that could be run; the environment; the
      contents of a file that can be read; whether a file can be written. *)
  Context (output : list bytes -> option bytes) (env_var : bytes -> option bytes).
  Context (read_file : bytes -> option bytes) (can_write : bytes -> bool).

(** [String::from_utf8] *)
Definition from_utf8 (s : bytes) : option bytes := if utf8_valid s then Some s else None.

Definition build_time : M (list action) bytes :=
  let* out := expect (output [str "date"; str "+%Y-%m-%d %H:%M:%S"]) "failed to execute date" in
  let* s := expect (from_utf8 out) "called `Result::unwrap()` on an `Err` value" in
  ret (trim s).

Definition rust_version : M (list action) bytes :=
  let* out := expect (output [str "rustc"; str "--version"]) "failed to execute rustc" in
  let* s := expect (from_utf8 out) "called `Result::unwrap()` on an `Err` value" in
  ret (trim s).

Definition git_hash : bytes :=
  match output [str "git"; str "rev-parse"; str "--short"; str "HEAD"] ≫= from_utf8 with
  | Some s => match trim s with [] => str "unknown" | h => h end
  | None => str "unknown"
  end.

(** The placeholders of atos_intro.txt, in the order they are filled. *)
Definition replacements (time rust : bytes) : list (bytes * bytes) :=
  [ (str "{name}", CARGO_PKG_NAME);
    (str "{version}", CARGO_PKG_VERSION);
    (str "{build}", time);
    (str "{rust}", rust);
    (str "{git}", git_hash);
    (str "{repository}", CARGO_PKG_REPOSITORY);
    (str "{documentation}", CARGO_PKG_HOMEPAGE) ].

Definition fill_intro (time rust intro : bytes) : bytes :=
  fold_left (fun intro kv => replace kv.1 kv.2 intro) (replacements time rust) intro.

Definition build_main : M (list action) unit :=
  let* build_time := build_time in
  let* rust_version := rust_version in
  act (CargoLine (str "cargo:rustc-env=BUILD_TIME=" ++ build_time)) ;;
  act (CargoLine (str "cargo:rustc-env=RUSTC_VERSION=" ++ rust_version)) ;;
  act (CargoLine (str "cargo:rustc-env=GIT_HASH=" ++ git_hash)) ;;
  let* manifest_dir := expect (env_var (str "CARGO_MANIFEST_DIR")) "called `Result::unwrap()` on an `Err` value" in
  let* intro := expect (read_file (manifest_dir ++ str "/atos_intro.txt") ≫= from_utf8) "failed to read atos_intro.txt" in
  let intro := fill_intro build_time rust_version intro in
  let* out_dir := expect (env_var (str "OUT_DIR")) "called `Result::unwrap()` on an `Err` value" in
  let out_path := path_join out_dir (str "atos_intro_generated.txt") in
  (if can_write out_path then act (WriteFile out_path intro)
   else panic "called `Result::unwrap()` on an `Err` value") ;;
  act (CargoLine (str "cargo:rerun-if-changed=atos_intro.txt")) ;;
  act (CargoLine (str "cargo:rerun-if-changed=.git/HEAD")) ;;
  act (CargoLine (str "cargo:rerun-if-changed=entry.S")) ;;
  act (CargoLine (str "cargo:rerun-if-changed=src/kernel/exceptions.s")) ;;
  act (Assemble [str "entry.S"; str "src/kernel/exceptions.s"] (str "aarch64-linux-gnu-gcc") (str "-c") (str "entry")).
End BuildScript.

(** ** What the banner says *)

(** A template: text, and placeholders by their names. *)
Inductive piece := Text (t : bytes) | Hole (name : bytes).

Definition hole (name : bytes) : bytes := 123 :: name ++ [125].
Definition piece_bytes (p : piece) : bytes := match p with Text t => t | Hole n => hole n end.
Definition flatten (ps : list piece) : bytes := ps ≫= piece_bytes.

(** No brace opens in the text, and none is in a name. *)
Definition plain (t : bytes) : Prop := 123 ∉ t.
Definition piece_ok (p : piece) : Prop :=
  match p with Text t => plain t | Hole n => plain n /\ 125 ∉ n end.

Definition fill_piece (values : list (bytes * bytes)) (p : piece) : bytes :=
  match p with
  | Text t => t
  | Hole n => match List.find (fun kv => bool_decide (kv.1 = n)) values with Some kv => kv.2 | None => hole n end
  end.

Lemma strip_prefix_app p s : strip_prefix p (p ++ s) = Some s.
Proof. induction p as [|a p IH]; [reflexivity|]. cbn. now rewrite Z.eqb_refl. Qed.

Lemma replace_skip l f t s : replace_from (length l) f t (l ++ s) = replace f t s.
Proof. induction l as [|b l IH]; [reflexivity|]. exact IH. Qed.

Lemma replace_hit n v s : replace (hole n) v (hole n ++ s) = v ++ replace (hole n) v s.
Proof.
  change (hole n ++ s) with (123 :: (n ++ [125]) ++ s). unfold replace at 1. cbn [replace_from].
  assert (strip_prefix (hole n) (123 :: (n ++ [125]) ++ s) = Some s) as -> by exact (strip_prefix_app (hole n) s).
  assert (length (hole n) - 1 = length (n ++ [125%Z]))%nat as -> by (unfold hole; cbn [length]; lia).
  now rewrite replace_skip.
Qed.

Lemma replace_plain n v t s : plain t -> replace (hole n) v (t ++ s) = t ++ replace (hole n) v s.
Proof.
  induction t as [|b t IH]; [reflexivity|]. intros Hp. apply not_elem_of_cons in Hp as [Hb Hp].
  unfold replace at 1. rewrite <- app_comm_cons. cbn [replace_from]. unfold hole at 1. cbn [strip_prefix].
  destruct (Z.eqb_spec 123 b); [contradiction|]. rewrite <- app_comm_cons. f_equal. exact (IH Hp).
Qed.

Lemma strip_other n m s : n <> m -> 125 ∉ n -> 125 ∉ m -> strip_prefix (n ++ [125]) ((m ++ [125]) ++ s) = None.
Proof.
  revert m. induction n as [|a n IH]; intros [|b m] Hne Hn Hm; cbn [app strip_prefix].
  - contradiction.
  - apply not_elem_of_cons in Hm as [Hb _]. now rewrite (proj2 (Z.eqb_neq _ _)).
  - apply not_elem_of_cons in Hn as [Ha _]. rewrite (proj2 (Z.eqb_neq _ _)); congruence.
  - apply not_elem_of_cons in Hn as [_ Hn], Hm as [_ Hm]. destruct (Z.eqb_spec a b) as [->|]; [|reflexivity].
    apply IH; congruence.
Qed.

Lemma replace_miss n m v s :
  n <> m -> 125 ∉ n -> 125 ∉ m -> plain m -> replace (hole n) v (hole m ++ s) = hole m ++ replace (hole n) v s.
Proof.
  intros Hne Hn Hm Hp. change (hole m ++ s) with (123 :: (m ++ [125]) ++ s). unfold replace at 1. cbn [replace_from].
  assert (strip_prefix (hole n) (123 :: (m ++ [125]) ++ s) = None) as -> by exact (strip_other n m s Hne Hn Hm).
  unfold hole at 2. rewrite <- app_comm_cons. f_equal.
  apply (replace_plain n v (m ++ [125]) s). unfold plain in *. rewrite elem_of_app, list_elem_of_singleton. intros [H|H]; [auto|lia].
Qed.

(** One [replace] fills one placeholder, wherever it is. *)
Definition put (n v : bytes) (p : piece) : piece :=
  match p with Hole m => if bool_decide (n = m) then Text v else p | _ => p end.

Lemma replace_put n v ps :
  125 ∉ n -> Forall piece_ok ps -> replace (hole n) v (flatten ps) = flatten (put n v <$> ps).
Proof.
  intros Hn. induction 1 as [|p ps Hp _ IH]; [reflexivity|]. cbn [flatten mbind list_bind fmap list_fmap] in *.
  change (replace (hole n) v (piece_bytes p ++ flatten ps) = piece_bytes (put n v p) ++ flatten (put n v <$> ps)).
  change (replace (hole n) v (flatten ps) = flatten (put n v <$> ps)) in IH.
  destruct p as [t|m]; cbn [put piece_bytes]; [now rewrite replace_plain, IH|].
  destruct Hp as [Hp Hm]. case_bool_decide as He; [subst m; now rewrite replace_hit, IH|].
  now rewrite replace_miss, IH.
Qed.

Lemma put_ok n v ps : plain v -> Forall piece_ok ps -> Forall piece_ok (put n v <$> ps).
Proof.
  intros Hv H. apply Forall_fmap. induction H as [|p ps Hp _ IH]; constructor; [|exact IH].
  destruct p as [t|m]; [exact Hp|]. unfold compose. cbn [put]. now case_bool_decide.
Qed.

(** Filling one placeholder after the other is filling each with the first
    value of its name. *)
Lemma fill_all values ps :
  Forall (fun kv => (125 ∉ kv.1) /\ plain kv.2) values -> Forall piece_ok ps ->
  fold_left (fun intro kv => replace kv.1 kv.2 intro) (prod_map hole id <$> values) (flatten ps) =
  ps ≫= fill_piece values.
Proof.
  intros Hv. revert ps. induction Hv as [|[n v] values [Hn Hp] _ IH]; intros ps Hps.
  - cbn. unfold flatten. apply list_bind_ext; [|reflexivity]. now intros [].
  - cbn [fmap list_fmap fold_left prod_map fst snd id] in *. rewrite replace_put by assumption.
    rewrite IH by now apply put_ok. clear IH Hps. induction ps as [|p ps IH]; [reflexivity|].
    cbn [fmap list_fmap mbind list_bind] in *. f_equal; [|exact IH]. destruct p as [t|m]; [reflexivity|].
    cbn [put fill_piece List.find fst snd]. now case_bool_decide.
Qed.

Section Generated.
  Context (output : list bytes -> option bytes) (env_var : bytes -> option bytes).
  Context (read_file : bytes -> option bytes) (can_write : bytes -> bool).

(** The values by the names of their placeholders. *)
Definition banner_values (time rust : bytes) : list (bytes * bytes) :=
  [ (str "name", CARGO_PKG_NAME); (str "version", CARGO_PKG_VERSION); (str "build", time); (str "rust", rust);
    (str "git", git_hash output); (str "repository", CARGO_PKG_REPOSITORY); (str "documentation", CARGO_PKG_HOMEPAGE) ].

Lemma fill_intro_pieces time rust ps :
  plain time -> plain rust -> plain (git_hash output) -> Forall piece_ok ps ->
  fill_intro output time rust (flatten ps) = ps ≫= fill_piece (banner_values time rust).
Proof.
  intros Ht Hr Hg Hps. rewrite <- (fill_all (banner_values time rust) ps); [reflexivity| |exact Hps].
  unfold banner_values. repeat constructor; cbn [fst snd]; try assumption;
    apply (bool_decide_unpack _); vm_compute; exact I.
Qed.

(** The build.  When date and rustc can be run and the template can be read, the
    script writes one file, the template with each placeholder filled with its
    value and nothing else changed, exports the three values to the compiler
    and asks for the two assembly files.  A git that fails, or none at all,
    stops nothing: the hash is then unknown. *)
Theorem banner_generated date rustc dir out ps log :
  output [str "date"; str "+%Y-%m-%d %H:%M:%S"] = Some date -> utf8_valid date = true -> plain (trim date) ->
  output [str "rustc"; str "--version"] = Some rustc -> utf8_valid rustc = true -> plain (trim rustc) ->
  plain (git_hash output) ->
  env_var (str "CARGO_MANIFEST_DIR") = Some dir -> env_var (str "OUT_DIR") = Some out ->
  read_file (dir ++ str "/atos_intro.txt") = Some (flatten ps) -> utf8_valid (flatten ps) = true -> Forall piece_ok ps ->
  can_write (path_join out (str "atos_intro_generated.txt")) = true ->
  build_main output env_var read_file can_write log = Done tt (log ++
    [ CargoLine (str "cargo:rustc-env=BUILD_TIME=" ++ trim date);
      CargoLine (str "cargo:rustc-env=RUSTC_VERSION=" ++ trim rustc);
      CargoLine (str "cargo:rustc-env=GIT_HASH=" ++ git_hash output);
      WriteFile (path_join out (str "atos_intro_generated.txt"))
        (ps ≫= fill_piece (banner_values (trim date) (trim rustc)));
      CargoLine (str "cargo:rerun-if-changed=atos_intro.txt");
      CargoLine (str "cargo:rerun-if-changed=.git/HEAD");
      CargoLine (str "cargo:rerun-if-changed=entry.S");
      CargoLine (str "cargo:rerun-if-changed=src/kernel/exceptions.s");
      Assemble [str "entry.S"; str "src/kernel/exceptions.s"] (str "aarch64-linux-gnu-gcc") (str "-c") (str "entry") ]).
Proof.
  intros Hd Hd8 Hdp Hr Hr8 Hrp Hg Hdir Hout Hf Hf8 Hps Hw. unfold build_main.
  assert (build_time output log = Done (trim date) log) as Ht
    by (unfold build_time; rewrite Hd; cbn; unfold from_utf8; now rewrite Hd8).
  rewrite (bind_run _ _ _ _ _ Ht).
  assert (rust_version output log = Done (trim rustc) log) as Hv
    by (unfold rust_version; rewrite Hr; cbn; unfold from_utf8; now rewrite Hr8).
  rewrite (bind_run _ _ _ _ _ Hv). unfold act, modify. do 3 (rewrite (bind_run _ _ _ tt _) by reflexivity).
  rewrite Hdir. rewrite (bind_run _ _ _ dir _) by reflexivity. rewrite Hf. unfold from_utf8, mbind at 1, option_bind.
  rewrite Hf8. rewrite (bind_run _ _ _ (flatten ps) _) by reflexivity. rewrite Hout. cbv zeta.
  rewrite (bind_run _ _ _ out _) by reflexivity. rewrite Hw, fill_intro_pieces by assumption.
  do 5 (rewrite (bind_run _ _ _ tt _) by reflexivity). now rewrite <- !app_assoc.
Qed.
End Generated.

(** Two lines of a template, on a host without git. *)
Lemma banner_generated_witness :
  let output := fun c => match c with
    | [_; _] => if bool_decide (nth 0 c [] = str "date") then Some (str "2026-01-02 03:04:05" ++ [10]) else Some (str "rustc 1.90.0" ++ [10])
    | _ => None end in
  let ps := [Hole (str "name"); Text [32]; Hole (str "version"); Text ([10] ++ str "git hash: "); Hole (str "git")] in
  exists log, build_main output (fun _ => Some (str "/tmp")) (fun _ => Some (flatten ps)) (fun _ => true) [] = Done tt log /\
    log !! 3%nat = Some (WriteFile (str "/tmp/atos_intro_generated.txt")
      (str "AtOS 0.1.0-dev" ++ [10] ++ str "git hash: unknown")).
Proof.
  intros output ps. eexists. split.
  - apply (banner_generated output (fun _ => Some (str "/tmp")) (fun _ => Some (flatten ps)) (fun _ => true)
      (str "2026-01-02 03:04:05" ++ [10]) (str "rustc 1.90.0" ++ [10]) (str "/tmp") (str "/tmp") ps []);
      try reflexivity; try (apply (bool_decide_unpack _); vm_compute; exact I).
    repeat constructor; apply (bool_decide_unpack _); vm_compute; exact I.
  - vm_compute. reflexivity.
Defined.
