(* ===== verification/Boot.v ===== *)
(** Boot: [_rust_main] and [the_end] of src/src/main.rs, from the statics the
    image starts with to the first process.

    Nothing runs but this code: the console is taken and released without a
    process, the frames above the kernel's image go to the allocator, and init
    is started. *)

From Stdlib Require Import ZArith Lia.
From stdpp Require Import base strings numbers list pretty.
From S2P Require Import Prelude Memory Frames PageTable PageFree PagingSpec UserMem PageRange Isolation.
From S2P Require Import LoadElf LoadSpec Args KernelStack Interrupts Devices Processes Scheduler ProcOps Demo.
From S2P Require Import Sleep Mutex Io Syscalls SyscallSpec SpawnSpec Exceptions.

Local Open Scope Z_scope.

(** ** Definitions *)

(** [Interrupts::daif_unmask_all] *)
Definition daif_unmask_all : M hw unit :=
  modify (fun h => set_core (set_irq true (hcore h)) h).

Definition daif_mask_all : M hw unit :=
  modify (fun h => set_core (set_irq false (hcore h)) h).

(** The text of [n / (1024 * 1024)]. *)
Definition megabytes (n : Z) : bytes := str (pretty (n / (1024 * 1024))).

Definition init_args : list bytes := [str "init"; str "hi there"; str "this is test of args"].

Section Boot.
  Context (fuel : nat) (kctx : ExceptionContext) (resume : M kernel unit) (guard_ptr : Z).
  Context (images : bytes -> bytes) (intro : bytes).

Definition show_welcome_ascii : M kernel unit := println fuel kctx resume guard_ptr intro.

(** [_rust_main] up to the start of the scheduler, and the whole of it;
    [stack_top_addr] is the address of the linker's [_stack_top]. *)
Definition boot_devices : M kernel unit :=
  io_init fuel kctx resume guard_ptr ;;
  zoom dev_lens init_irq ;;
  zoom dev_lens daif_unmask_all.

Definition boot_memory (stack_top_addr : Z) : M kernel unit :=
  zoom kmem_lens (init_frames (add64 stack_top_addr 0x2000) (ttbr1_to_va 0x3EFFE000)).

Definition boot_messages : M kernel unit :=
  zoom dev_lens (raw_write (str "Hello there!")) ;;
  show_welcome_ascii ;;
  (let* n := gets (fun k => available_memory (kmem (stk k))) in
   println fuel kctx resume guard_ptr (str "Total available memory: " ++ megabytes n ++ str " MB")) ;;
  (let* n := gets (fun k => total_memory (kmem (stk k))) in
   println fuel kctx resume guard_ptr (str "Total usable memory: " ++ megabytes n ++ str " MB")) ;;
  println fuel kctx resume guard_ptr ([10] ++ str "Welcome, to AtOS..." ++ [10]).

Definition rust_main (stack_top_addr : Z) : M kernel unit :=
  boot_devices ;;
  boot_memory stack_top_addr ;;
  boot_messages ;;
  (let* r := run_executable images (str "init") 0 init_args in unwrap r) ;;
  start fuel kctx resume guard_ptr images intro.

(** The kernel's [#[panic_handler]]: a [Panic] of the model is a call of it.
    It ends in an endless loop. *)
Definition kernel_panic (location : option (bytes * Z * Z)) (message : bytes) : M kernel unit :=
  println fuel kctx resume guard_ptr (str "--------KERNEL PANIC--------") ;;
  match location with
  | Some (file, line, column) =>
      println fuel kctx resume guard_ptr
        (str "Location: " ++ file ++ str ":" ++ str (pretty line) ++ str ":" ++ str (pretty column))
  | None => println fuel kctx resume guard_ptr (str "Location: Unknown location")
  end ;;
  println fuel kctx resume guard_ptr (str "Message:  " ++ message) ;;
  println fuel kctx resume guard_ptr (str "----------------------------") ;;
  diverge.

Definition the_end : M kernel unit :=
  println fuel kctx resume guard_ptr (str "----------THE END-----------") ;;
  println fuel kctx resume guard_ptr (str "All processes have completed/terminated.") ;;
  println fuel kctx resume guard_ptr (str "There is nothing left to do. You may power off your device now.") ;;
  println fuel kctx resume guard_ptr (str "----------------------------") ;;
  zoom dev_lens (set_seconds 1) ;;
  zoom dev_lens timer_disable ;;
  halt "the_end".
End Boot.

(** ** The console without a process *)

(** Nobody runs; [b] tells whether the boot code holds the console. *)
Record boot_io (was b : bool) (k : kernel) : Prop := {
  bi_guard : lock_open was 0 (hcore (dev k), mx_guard (io_lock k));
  bi_lock : mx_lock (io_lock k) = b;
  bi_hw : hw_ok was 0 (dev k);
  bi_pid : current_pid (cpu (hcore (dev k))) = None;
  bi_table : PROCESS_TABLE k = replicate NPROC None;
  bi_owner : mx_pid (io_lock k) = None;
  bi_addr : 0 < maddr (io_lock k) < AWAITING_UART_READ;
  bi_ptable : sl_lock (PROCESS_TABLE_LOCK k) = false;
}.

(** Only the devices and the console's lock moved; [out] went out. *)
Record boot_did (k k' : kernel) (out : list Z) : Prop := {
  bd_form : exists m h, k' = set_io_lock m (set_dev h k);
  bd_tx : tx (dev k') = tx (dev k) ++ out;
  bd_lsr : lsr (dev k') = lsr (dev k);
  bd_timer : cntfrq (dev k') = cntfrq (dev k) /\ cntpct (dev k') = cntpct (dev k);
}.

Lemma boot_did_refl k : boot_did k k [].
Proof. split; auto; [exists (io_lock k), (dev k); now destruct k|now rewrite app_nil_r]. Qed.

Lemma boot_did_trans k1 k2 k3 o1 o2 :
  boot_did k1 k2 o1 -> boot_did k2 k3 o2 -> boot_did k1 k3 (o1 ++ o2).
Proof.
  intros [(m1 & h1 & A1) A2 A3 [A4 A5]] [(m2 & h2 & B1) B2 B3 [B4 B5]].
  split; [exists m2, h2; rewrite B1, A1; reflexivity|rewrite B2, A2; now rewrite app_assoc|congruence|split; congruence].
Qed.

Lemma no_current_proc k : current_pid (cpu (hcore (dev k))) = None -> get_current_proc k = None.
Proof. intros H. unfold get_current_proc, get_current. now rewrite H. Qed.

Lemma wake_nobody c n : map_procs (wake c) (replicate n None) = replicate n None.
Proof. unfold map_procs. now rewrite fmap_replicate. Qed.

(** A core that moved with its nesting. *)
Lemma boot_core was b k k' c m :
  boot_io was b k -> k' = set_io_lock m (set_dev (set_core c (dev k)) k) ->
  lock_open was 0 (c, mx_guard m) -> same_proc (hcore (dev k)) c ->
  mx_pid m = None /\ maddr m = maddr (io_lock k) ->
  boot_io was (mx_lock m) k' /\ boot_did k k' [].
Proof.
  intros [B1 B2 B3 B4 B5 B6 B7 B8] -> Ho [P1 P2] [O1 O2]. split; [split; auto|split; auto].
  - apply hw_ok_core; [exact B3|apply Ho].
  - cbn. now rewrite P2.
  - cbn. now rewrite O2.
  - do 2 eexists. reflexivity.
  - cbn. now rewrite app_nil_r.
Qed.

Lemma guard_moved_twice k k1 k2 b p :
  guard_moved k k1 -> guard_moved (set_io_lock (mk_Mutex b (mx_guard (io_lock k1)) p (maddr (io_lock k1))) k1) k2 ->
  exists c m, k2 = set_io_lock m (set_dev (set_core c (dev k)) k) /\ same_proc (hcore (dev k)) c /\ mx_lock m = b /\
    mx_pid m = p /\ maddr m = maddr (io_lock k).
Proof.
  intros [_ _ _ _ A1 [P1 P2] (c1 & m1 & E1)] [_ _ L O A2 [Q1 Q2] (c2 & m2 & E2)].
  exists c2, m2. subst k1 k2. cbn in *. split; [reflexivity|]. split; [split; congruence|]. split; [exact L|].
  split; [exact O|congruence].
Qed.

Lemma boot_acquire was fuel kctx resume g k :
  boot_io was false k ->
  exists k', io_acquire fuel kctx resume g k = Done tt k' /\ boot_io was true k' /\ boot_did k k' [].
Proof.
  intros B. destruct (guard_acquire_ok was k (bi_guard _ _ _ B)) as (k1 & Hr1 & G1 & Hh).
  set (k1' := set_io_lock (mk_Mutex true (mx_guard (io_lock k1)) (mx_pid (io_lock k1)) (maddr (io_lock k1))) k1).
  destruct (guard_release_ok was k1' Hh) as (k2 & Hr2 & G2 & Ho).
  destruct (guard_moved_twice k k1 k2 true _ G1 G2) as (c & m & E & P & L & O & A).
  exists k2. split.
  - unfold io_acquire, mutex_acquire. rewrite (bind_run _ _ _ _ _ Hr1).
    assert (mx_lock (io_lock k1) = false) as Hl by (rewrite (gm_lock _ _ G1); apply (bi_lock _ _ _ B)).
    rewrite (bind_run _ _ _ tt k1) by (destruct fuel; cbn [mutex_wait]; unfold gets, bind; now rewrite Hl).
    unfold take_mutex. rewrite (bind_run _ _ _ tt k1') by reflexivity.
    assert (get_current_proc k1' = None) as Hn.
    { apply no_current_proc. destruct (gm_core _ _ G1) as [_ Hp].
      change (current_pid (cpu (hcore (dev k1))) = None). rewrite Hp. apply (bi_pid _ _ _ B). }
    rewrite (bind_run _ _ _ tt k1') by (unfold gets, bind; now rewrite Hn). exact Hr2.
  - rewrite <- L. apply (boot_core was false k k2 c m B E); [rewrite E in Ho; exact Ho|exact P|].
    split; [|exact A]. rewrite O, (gm_pid _ _ G1). apply (bi_owner _ _ _ B).
Qed.

Lemma boot_release was k :
  boot_io was true k -> exists k', mutex_release k = Done tt k' /\ boot_io was false k' /\ boot_did k k' [].
Proof.
  intros B. destruct (guard_acquire_ok was k (bi_guard _ _ _ B)) as (k1 & Hr1 & G1 & Hh).
  set (k1' := set_io_lock (mk_Mutex false (mx_guard (io_lock k1)) None (maddr (io_lock k1))) k1).
  destruct (guard_release_ok was k1' Hh) as (k2 & Hr2 & G2 & Ho).
  destruct (guard_moved_twice k k1 k2 false _ G1 G2) as (c & m & E & P & L & O & A).
  exists k2. split.
  - unfold mutex_release. rewrite (bind_run _ _ _ _ _ Hr1).
    assert (mx_lock (io_lock k1) = true) as Hl by (rewrite (gm_lock _ _ G1); apply (bi_lock _ _ _ B)).
    rewrite (bind_run _ _ _ tt k1) by (unfold gets, bind; now rewrite Hl).
    assert (get_current_proc k1 = None) as Hn.
    { apply no_current_proc. destruct (gm_core _ _ G1) as [_ ->]. apply (bi_pid _ _ _ B). }
    rewrite (bind_run _ _ _ tt k1) by (unfold gets, bind; now rewrite Hn).
    rewrite (bind_run _ _ _ tt k1') by reflexivity.
    rewrite (bind_run _ _ _ tt k1'); [exact Hr2|]. unfold gets, bind, wakeup, modify.
    assert (PROCESS_TABLE k1 = replicate NPROC None) as Ht by (rewrite (gm_table _ _ G1); apply (bi_table _ _ _ B)).
    change (PROCESS_TABLE k1') with (PROCESS_TABLE k1). rewrite Ht, wake_nobody, <- Ht. reflexivity.
  - rewrite <- L. apply (boot_core was true k k2 c m B E); [rewrite E in Ho; exact Ho|exact P|auto].
Qed.

(** ** Devices *)

(** Using a device keeps the boot code's state. *)
Lemma boot_dev {A} was b k (m : M hw A) a h' out :
  boot_io was b k -> m (dev k) = Done a h' -> hw_ok was 0 h' -> same_proc (hcore (dev k)) (hcore h') ->
  tx h' = tx (dev k) ++ out -> lsr h' = lsr (dev k) ->
  cntfrq h' = cntfrq (dev k) /\ cntpct h' = cntpct (dev k) ->
  zoom dev_lens m k = Done a (set_dev h' k) /\ boot_io was b (set_dev h' k) /\ boot_did k (set_dev h' k) out.
Proof.
  intros [[B1 B1'] B2 B3 B4 B5 B6 B7 B8] Hrun Hok [P1 P2] Htx Hlsr Ht. split; [apply zoom_done; eauto|].
  split; [split; auto|split; auto].
  - split; [apply Hok|exact B1'].
  - cbn. now rewrite P2.
  - exists (io_lock k), h'. destruct k. reflexivity.
Qed.

Lemma boot_write was b k c :
  boot_io was b k ->
  exists k', device_write c k = Done tt k' /\ boot_io was b k' /\ boot_did k k' [c].
Proof.
  intros B. destruct (write_byte_ok was 0 (dev k) c (bi_hw _ _ _ B)) as (h' & Hrun & Hok & [F1 F2 F3 F4 F5 (F6 & F7 & _)] & Htx & _).
  exists (set_dev h' k). exact (boot_dev was b k _ tt h' [c] B Hrun Hok F1 Htx F3 (conj F6 F7)).
Qed.

Lemma boot_write_bytes was b k s :
  boot_io was b k ->
  exists k', write_bytes s k = Done tt k' /\ boot_io was b k' /\ boot_did k k' (s ≫= crlf).
Proof.
  revert k. induction s as [|c s IH]; intros k B.
  { exists k. split; [reflexivity|]. split; [exact B|apply boot_did_refl]. }
  assert (exists k1, (if c =? 10 then device_write 13 else skip) k = Done tt k1 /\ boot_io was b k1 /\
            boot_did k k1 (if c =? 10 then [13] else [])) as (k1 & Hr1 & B1 & D1).
  { destruct (c =? 10); [now apply boot_write|]. exists k. split; [reflexivity|]. split; [exact B|apply boot_did_refl]. }
  destruct (boot_write was b k1 c B1) as (k2 & Hr2 & B2 & D2).
  destruct (IH k2 B2) as (k3 & Hr3 & B3 & D3). exists k3. split; [|split; [exact B3|]].
  - unfold write_bytes. cbn [for_in]. rewrite (bind_run _ _ k tt k2); [exact Hr3|].
    rewrite (bind_run _ _ _ _ _ Hr1). exact Hr2.
  - cbn [mbind list_bind]. replace (crlf c) with ((if c =? 10 then [13] else []) ++ [c])
      by (unfold crlf; destruct (Z.eqb_spec c 10); [now subst|reflexivity]).
    exact (boot_did_trans _ _ _ _ _ (boot_did_trans _ _ _ _ _ D1 D2) D3).
Qed.

Lemma boot_println was fuel kctx resume g k s :
  boot_io was false k ->
  exists k', println fuel kctx resume g s k = Done tt k' /\ boot_io was false k' /\
    boot_did k k' ((s ++ [10]) ≫= crlf).
Proof.
  intros B. destruct (boot_acquire was fuel kctx resume g k B) as (k1 & Hr1 & B1 & D1).
  destruct (boot_write_bytes was true k1 (s ++ [10]) B1) as (k2 & Hr2 & B2 & D2).
  destruct (boot_release was k2 B2) as (k3 & Hr3 & B3 & D3). exists k3.
  unfold println, Io.print. rewrite (bind_run _ _ _ _ _ Hr1), (bind_run _ _ _ _ _ Hr2).
  split; [exact Hr3|]. split; [exact B3|].
  pose proof (boot_did_trans _ _ _ _ _ (boot_did_trans _ _ _ _ _ D1 D2) D3) as D. now rewrite app_nil_r in D.
Qed.

(** [Uart::init] takes both locks, programs the registers and gives them back. *)
Lemma uart_init_ok was h :
  hw_ok was 0 h ->
  exists h', uart_init h = Done tt h' /\ hw_ok was 0 h' /\ same_proc (hcore h) (hcore h') /\
    tx h' = tx h /\ lsr h' = lsr h /\ cntfrq h' = cntfrq h /\ cntpct h' = cntpct h.
Proof.
  intros [Hn Hw Hr Hd Hready].
  destruct (acquire_ok was 0 (hcore h, w_lock h)) as ([c1 l1] & R1 & (N1 & L1 & O1) & [P1 Q1] & _); [now split|lia|].
  destruct (acquire_ok was 1 (c1, r_lock h)) as ([c2 l2] & R2 & H2 & [P2 Q2] & _); [now split|lia|].
  destruct (release_ok was 1 (c2, l2) H2) as ([c3 l3] & R3 & [N3 L3] & [P3 Q3] & _); [lia|].
  cbn [fst snd] in *.
  destruct (release_ok was 0 (c3, l1)) as ([c4 l4] & R4 & [N4 L4] & [P4 Q4] & _);
    [split; [exact N3|split; [exact L1|cbn [fst snd]; congruence]]|lia|]. cbn [fst snd] in *.
  set (h1 := set_w_lock (c1, l1) h). set (h2 := set_r_lock (c2, l2) h1).
  assert (zoom w_lens acquire h = Done tt h1) as Z1 by (apply zoom_done; exists (c1, l1); auto).
  assert (zoom r_lens acquire h1 = Done tt h2) as Z2 by (apply zoom_done; exists (c2, l2); auto).
  unfold uart_init. rewrite (bind_run _ _ _ _ _ Z1), (bind_run _ _ _ _ _ Z2).
  do 11 (erewrite bind_run by (unfold reg_read, reg_write, gets, modify, bind; reflexivity)).
  match goal with |- exists h', ?m ?x = _ /\ _ => set (h3 := x) end.
  set (h4 := set_r_lock (c3, l3) h3). set (h5 := set_w_lock (c4, l4) h4).
  assert (zoom r_lens release h3 = Done tt h4) as Z3 by (apply zoom_done; exists (c3, l3); auto).
  assert (zoom w_lens release h4 = Done tt h5) as Z4 by (apply zoom_done; exists (c4, l4); auto).
  rewrite (bind_run _ _ _ _ _ Z3). exists h5. split; [exact Z4|]. split; [split; auto|].
  split; [change (hcore h5) with c4; split; congruence|]. auto 6.
Qed.

Lemma raw_write_run s : forall h, raw_write s h = Done tt (set_uart (lsr_pos h) (rx_pos h) (tx h ++ s) h).
Proof.
  induction s as [|c s IH]; intros h; [rewrite app_nil_r; now destruct h|].
  unfold raw_write in *. cbn [for_in]. rewrite (bind_run _ _ _ tt _) by reflexivity. rewrite IH.
  cbn. now rewrite <- app_assoc.
Qed.

Lemma boot_raw_write was b k s :
  boot_io was b k ->
  exists k', zoom dev_lens (raw_write s) k = Done tt k' /\ boot_io was b k' /\ boot_did k k' s.
Proof.
  intros B. set (h' := set_uart (lsr_pos (dev k)) (rx_pos (dev k)) (tx (dev k) ++ s) (dev k)). exists (set_dev h' k).
  pose proof (bi_hw _ _ _ B) as [H1 H2 H3 H4 H5].
  apply (boot_dev was b k (raw_write s) tt h' s B); [apply raw_write_run|now split|split; reflexivity|reflexivity|reflexivity|split; reflexivity].
Qed.

(** The console is set up with interrupts masked, and then they are let in. *)
Lemma boot_devices_ok fuel kctx resume g k :
  boot_io false false k ->
  exists k', boot_devices fuel kctx resume g k = Done tt k' /\ boot_io true false k' /\ boot_did k k' [].
Proof.
  intros B. destruct (boot_acquire false fuel kctx resume g k B) as (k1 & Hr1 & B1 & D1).
  destruct (uart_init_ok false (dev k1) (bi_hw _ _ _ B1)) as (h2 & Hr2 & Hok2 & P2 & T2 & L2 & F2).
  destruct (boot_dev false true k1 uart_init tt h2 [] B1 Hr2 Hok2 P2) as (Hz2 & B2 & D2);
    [now rewrite app_nil_r|exact L2|exact F2|].
  destruct (boot_release false _ B2) as (k3 & Hr3 & B3 & D3).
  assert (exists mm, init_irq (dev k3) = Done tt (set_mmio mm (dev k3))) as [mm Hr4].
  { unfold init_irq, route_timer_interrupt, deroute_timer_interrupt, reg_read, reg_write. run_m.
    eexists. unfold set_mmio. reflexivity. }
  set (h5 := set_core (set_irq true (hcore (dev k3))) (set_mmio mm (dev k3))). exists (set_dev h5 k3).
  assert (zoom dev_lens init_irq k3 = Done tt (set_dev (set_mmio mm (dev k3)) k3)) as Z4 by (apply zoom_done; eauto).
  split; [|split].
  - unfold boot_devices, io_init. rewrite (bind_run _ _ _ tt k3).
    + now rewrite (bind_run _ _ _ _ _ Z4).
    + rewrite (bind_run _ _ _ _ _ Hr1), (bind_run _ _ _ _ _ Hz2). exact Hr3.
  - destruct B3 as [[N3 G3] L3 [Hn Hw Hr Hd Hu] P3 T3 O3 A3 K3]. destruct N3 as [N1 N2 _ _].
    assert (nested true 0 (set_irq true (hcore (dev k3)))) as Hn' by (split; [exact N1|exact N2|reflexivity|lia]).
    split; auto; split; auto.
  - pose proof (boot_did_trans _ _ _ _ _ (boot_did_trans _ _ _ _ _ D1 D2) D3) as D. cbn [app] in D.
    destruct D as [(m & h & E) D5 D6 D7]. split; auto. exists m, h5. rewrite E. reflexivity.
Qed.

(** What the console shows, the counters being [a] and [t]. *)
Definition boot_text (intro : bytes) (a t : Z) : bytes :=
  let line s := (s ++ [10]) ≫= crlf in
  str "Hello there!" ++ line intro ++
  line (str "Total available memory: " ++ megabytes a ++ str " MB") ++
  line (str "Total usable memory: " ++ megabytes t ++ str " MB") ++
  line ([10] ++ str "Welcome, to AtOS..." ++ [10]).

Lemma boot_messages_ok fuel kctx resume g intro k :
  boot_io true false k ->
  exists k', boot_messages fuel kctx resume g intro k = Done tt k' /\ boot_io true false k' /\
    boot_did k k' (boot_text intro (available_memory (kmem (stk k))) (total_memory (kmem (stk k)))).
Proof.
  intros B. unfold boot_messages, show_welcome_ascii, boot_text.
  destruct (boot_raw_write true false k (str "Hello there!") B) as (k1 & Hr1 & B1 & D1).
  destruct (boot_println true fuel kctx resume g k1 intro B1) as (k2 & Hr2 & B2 & D2).
  pose proof (boot_did_trans _ _ _ _ _ D1 D2) as D12.
  assert (stk k2 = stk k) as E2 by (destruct (bd_form _ _ _ D12) as (m & h & ->); reflexivity). rewrite <- E2.
  destruct (boot_println true fuel kctx resume g k2 (str "Total available memory: " ++
    megabytes (available_memory (kmem (stk k2))) ++ str " MB") B2) as (k3 & Hr3 & B3 & D3).
  assert (stk k3 = stk k2) as E3 by (destruct (bd_form _ _ _ D3) as (m & h & ->); reflexivity).
  destruct (boot_println true fuel kctx resume g k3 (str "Total usable memory: " ++
    megabytes (total_memory (kmem (stk k2))) ++ str " MB") B3) as (k4 & Hr4 & B4 & D4).
  destruct (boot_println true fuel kctx resume g k4 ([10] ++ str "Welcome, to AtOS..." ++ [10]) B4) as (k5 & Hr5 & B5 & D5).
  exists k5. split; [|split; [exact B5|]].
  - rewrite (bind_run _ _ _ _ _ Hr1), (bind_run _ _ _ _ _ Hr2). unfold gets.
    rewrite (bind_run _ _ k2 tt k3) by (unfold bind; exact Hr3).
    rewrite (bind_run _ _ k3 tt k4) by (unfold bind; rewrite E3; exact Hr4). exact Hr5.
  - pose proof (boot_did_trans _ _ _ _ _ (boot_did_trans _ _ _ _ _ (boot_did_trans _ _ _ _ _ D12 D3) D4) D5) as D.
    assert (forall u v w x y : bytes, (((u ++ v) ++ w) ++ x) ++ y = u ++ v ++ w ++ x ++ y) as Ha
      by (intros; now rewrite <- !app_assoc).
    rewrite Ha in D. exact D.
Qed.

(** ** The first process *)

(** One ready process in slot 0, and the scheduler's index at 1. *)
Definition first_table (c : Process) : list (option Process) := <[0%nat := Some c]> (replicate NPROC None).

Lemma first_choice fuel c k :
  PROCESS_TABLE k = first_table c -> state c = Ready -> CURRENT_PROCESS k = 1%nat ->
  schedule_next fuel k = load_pctx 0 (set_current 0 k).
Proof.
  intros Ht Hs Hc.
  assert (choose_next_process k = Done (Some 0%nat) (set_current 0 k)) as Hch.
  { unfold choose_next_process. rewrite Ht, Hc. destruct c as [? ? st ? ? ? ? ?]. cbn [state] in Hs. subst st. reflexivity. }
  destruct fuel; cbn [schedule_next]; now rewrite (bind_run _ _ _ _ _ Hch).
Qed.

Lemma wake_first ch c : state c = Ready -> map_procs (wake ch) (first_table c) = first_table c.
Proof.
  intros Hs. unfold first_table, map_procs. rewrite list_fmap_insert, fmap_replicate. cbn [fmap option_fmap option_map].
  unfold wake, is_state. now rewrite Hs.
Qed.

Lemma start_first {F : Pool} fuel kctx resume g images intro k l c :
  kernel_ok k l -> PROCESS_TABLE k = first_table c -> state c = Ready -> CURRENT_PROCESS k = 1%nat ->
  timer_fits (dev k) ->
  exists k', start fuel kctx resume g images intro k = Done tt k' /\ kernel_ok k' l /\
    CURRENT_PROCESS k' = 0%nat /\ PROCESS_TABLE k' = first_table (set_state Running c) /\
    current_pid (cpu (hcore (dev k'))) = Some (pid c) /\
    ectx k' = update_from_pctx (pctx c) (svc_ectx kctx (ectx_x 0 kctx) (ectx_x 1 kctx)) /\
    stk k' = stk k /\ tx (dev k') = tx (dev k).
Proof.
  intros Hok Ht Hs Hc [T1 T2]. set (k0 := set_ectx (svc_ectx kctx (ectx_x 0 kctx) (ectx_x 1 kctx)) k).
  assert (kernel_ok k0 l) as Hok0 by (apply (kernel_ok_ext k); auto).
  destruct (awake_run k0 (ko_table _ _ Hok0)) as (k1 & Hr1 & C1 & E1 & _).
  pose proof (kernel_ok_awake _ _ _ Hok0 Hr1) as Hok1.
  destruct (awake_around _ _ Hr1) as [(S1 & _ & _ & _ & L1) _].
  assert (PROCESS_TABLE k1 = first_table c) as Ht1.
  { apply awake_form in Hr1 as (h & _ & _ & _ & _ & _ & _ & _ & _ & _ & [-> | ->]); [exact Ht|].
    change (PROCESS_TABLE k0) with (PROCESS_TABLE k). rewrite Ht. now apply wake_first. }
  destruct (reset_timer_ok k1) as (h & Hr2 & U & _).
  { destruct L1 as [_ _ _ _ _ _ _ [F1 F2]]. unfold timer_fits. rewrite F1, F2. auto. }
  set (k2 := set_dev h k1). assert (kernel_ok k2 l) as Hok2 by (apply (kernel_ok_ext k1); auto).
  assert (slot_has (set_current 0 k2) 0 c) as Hc2 by (unfold slot_has; change (PROCESS_TABLE (set_current 0 k2)) with (PROCESS_TABLE k1); now rewrite Ht1).
  assert (exists k3, load_pctx 0 (set_current 0 k2) = Done tt k3) as [k3 Hr3]
    by (unfold load_pctx; unfold slot_has in Hc2; rewrite Hc2; eauto).
  exists k3. split; [|split].
  - unfold start. rewrite (bind_run _ _ _ tt k0) by reflexivity. unfold k0.
    rewrite <- svc_handles. unfold svc_enter. rewrite (bind_run _ _ _ tt k0) by reflexivity.
    rewrite (bind_run _ _ _ _ _ Hr1). unfold handle_svc_el1.
    assert (get_current_process k1 = None) as Hn.
    { unfold get_current_process, find_by_ptable_index. rewrite C1, Ht1.
      change (CURRENT_PROCESS k0) with (CURRENT_PROCESS k). rewrite Hc. reflexivity. }
    rewrite (bind_run _ _ _ None k1) by (unfold gets; now rewrite Hn).
    rewrite (bind_run _ _ _ tt k1) by reflexivity. rewrite (bind_run _ _ _ _ _ Hr2). fold k2.
    rewrite (first_choice fuel c k2 Ht1 Hs); [exact Hr3|].
    change (CURRENT_PROCESS k2) with (CURRENT_PROCESS k1). now rewrite C1.
  - apply (kernel_ok_load (set_current 0 k2) k3 0 l); [|exact Hr3|].
    + apply kernel_ok_current; [exact Hok2|]. apply Nat.ltb_lt. reflexivity.
    + intros p Hp. unfold slot_has in Hc2. rewrite Hc2 in Hp. injection Hp as <-. unfold is_live, is_state. now rewrite Hs.
  - apply load_run in Hr3 as (p & Hp & ->). unfold slot_has in Hc2. rewrite Hc2 in Hp. injection Hp as <-.
    cbn [CURRENT_PROCESS set_ectx set_dev set_table set_current PROCESS_TABLE dev ectx stk].
    change (PROCESS_TABLE k2) with (PROCESS_TABLE k1). rewrite Ht1.
    split; [reflexivity|]. split; [|split; [reflexivity|split; [|split]]].
    + rewrite (update_slot_insert 0 _ _ c) by reflexivity. unfold first_table. now rewrite list_insert_insert_eq.
    + change (ectx k2) with (ectx k1). now rewrite E1.
    + exact S1.
    + cbn. rewrite (us_tx _ _ U). apply L1.
Qed.

(** ** Power-on *)

(** The statics of the image as entry.S leaves them, with the kernel's table
    under [root] inside the image, which ends below the frame [p] (0x2000 above
    the stack), and interrupts masked. *)
Record power_on (k : kernel) (root p : Z) : Prop := {
  po_io : boot_io false false k;
  po_pid : NEXT_PID k = 1;
  po_current : CURRENT_PROCESS k = 1%nat;
  po_slots : KERNEL_STACKS_ALLOCATED (stk k) = replicate (Z.to_nat MAX_PROCESSES) Free;
  po_addr : L1_ADDR (stk k) = ttbr1_to_va root;
  po_root : frame_pa root;
  po_free : free_frames (kmem (stk k)) [];
  po_below : Forall (fun q => frame_pa q /\ q < p) (owned 3 (ram (kmem (stk k))) root);
  po_nodup : NoDup (owned 3 (ram (kmem (stk k))) root);
  po_unmapped : forall i j, slot_ok i -> 0 <= j < 7 -> ~ mapped (kmem (stk k)) root (page_va i j);
  po_timer : timer_fits (dev k);
  po_frame : frame_pa p;
}.

(** The frames [_rust_main] gives to the allocator. *)
Definition ram_limit : Z := 0x3EFFE000.
Definition boot_frames_of (p : Z) : list Z := reverse (step_range p ram_limit PAGE_SIZE).

Lemma length_boot_frames p : p <= ram_limit -> Z.of_nat (length (boot_frames_of p)) = (ram_limit - p + 4095) / 4096.
Proof.
  intros H. unfold boot_frames_of, step_range, PAGE_SIZE. rewrite length_reverse, length_fmap, length_seqZ.
  replace (ram_limit - p + 4096 - 1) with (ram_limit - p + 4095) by lia.
  pose proof (Z.div_pos (ram_limit - p + 4095) 4096 ltac:(lia) ltac:(lia)). lia.
Qed.

(** The frames the kernel has: those of its own table, and every frame above
    its image. *)
Definition boot_pool (k : kernel) (root p : Z) : Pool := owned 3 (ram (kmem (stk k))) root ++ boot_frames_of p.

(** Devices and memory: the kernel is ready for its first process. *)
Lemma boot_ready fuel kctx resume g intro k root p :
  power_on k root p -> 0x2000 <= p <= ram_limit ->
  exists k1 k2 k3, let a := (ram_limit - p + 4095) / 4096 * 4096 in
    boot_devices fuel kctx resume g k = Done tt k1 /\
    boot_memory (ttbr1_to_va (p - 0x2000)) k1 = Done tt k2 /\
    boot_messages fuel kctx resume g intro k2 = Done tt k3 /\
    boots k3 root (boot_frames_of p) /\ owned 3 (ram (kmem (stk k3))) root = owned 3 (ram (kmem (stk k))) root /\
    boot_io true false k3 /\ timer_fits (dev k3) /\ tx (dev k3) = tx (dev k) ++ boot_text intro a a.
Proof.
  intros [P1 P2 P3 P4 P5 P6 P7 P8 P9 P10 [P11 P11'] P12] Hp. unfold ram_limit in Hp.
  destruct (boot_devices_ok fuel kctx resume g k P1) as (k1 & Hr1 & B1 & [(m1 & h1 & E1) T1 L1 [F1 F1']]).
  assert (stk k1 = stk k) as S1 by now rewrite E1.
  destruct (init_space (kmem (stk k1)) root p 0x3EFFE000) as (st & Hrun & Hsp & Hm & Ho & Htot & Hav); rewrite ?S1; auto; [lia|].
  set (k2 := set_stk (set_kmem st (stk k1)) k1).
  assert (boot_io true false k2) as B2 by (destruct B1; split; auto).
  destruct (boot_messages_ok fuel kctx resume g intro k2 B2) as (k3 & Hr3 & B3 & [(m3 & h3 & E3) T3 L3 [F3 F3']]).
  exists k1, k2, k3. cbv zeta. split; [exact Hr1|]. split; [|split; [exact Hr3|split; [|split; [|split; [exact B3|split]]]]].
  - unfold boot_memory. assert (add64 (ttbr1_to_va (p - 0x2000)) 0x2000 = ttbr1_to_va p) as ->.
    { rewrite !ttbr1_to_va_add by lia. rewrite add64_small by (unfold KERNEL_BASE, U64; lia). lia. }
    exact (kmem_zoom _ k1 _ _ Hrun).
  - rewrite E3. destruct B3. split; cbn [PROCESS_TABLE NEXT_PID CURRENT_PROCESS stk set_io_lock set_dev k2 set_stk];
      rewrite ?E1; auto.
    + rewrite <- E1. apply B1.
    + intros i j Hi Hj. cbn [kmem set_kmem]. rewrite Hm, S1. auto.
  - rewrite E3. cbn [stk set_io_lock set_dev k2 set_stk kmem set_kmem]. now rewrite Ho, S1.
  - unfold timer_fits. rewrite F3, F3'. change (dev k2) with (dev k1). rewrite F1, F1'. auto.
  - rewrite T3. change (dev k2) with (dev k1). rewrite T1, app_nil_r. cbn [k2 stk set_stk kmem set_kmem].
    now rewrite Htot, Hav.
Qed.

(** [_rust_main] as far as the start of the scheduler: init is in slot 0. *)
Lemma boot_to_start fuel kctx resume g images intro k root p h :
  power_on k root p -> 0x2000 <= p <= ram_limit ->
  startable (images (str "init")) h init_args ->
  Z.of_nat (frames_for (images (str "init")) h) < (ram_limit - p + 4095) / 4096 ->
  exists k3 k4 c l4, let a := (ram_limit - p + 4095) / 4096 * 4096 in
    rust_main fuel kctx resume g images intro (ttbr1_to_va (p - 0x2000)) k = start fuel kctx resume g images intro k4 /\
    boots k3 root (boot_frames_of p) /\ boot_io true false k3 /\ timer_fits (dev k3) /\
    tx (dev k3) = tx (dev k) ++ boot_text intro a a /\
    kernel_ok (F := boot_pool k root p) k4 l4 /\ spawned k3 (str "init") 0 (images (str "init")) h init_args 0 c k4.
Proof.
  intros Hk Hp Hst Hfr. destruct (boot_ready fuel kctx resume g intro k root p Hk Hp) as (k1 & k2 & k3 & Hr1 & Hr2 & Hr3 & Hb & Ho & Bio & Ht & Htx).
  pose proof (boots_ok _ _ _ Hb) as Hok. unfold boots_pool in Hok. rewrite Ho in Hok. fold (boot_pool k root p) in Hok. pose proof (length_boot_frames p ltac:(lia)) as Hlen.
  set (F := boot_pool k root p) in *. clearbody F. destruct (boot_frames_of p) as [|f l] eqn:El; [cbn [length] in Hlen; lia|]. cbn [length] in Hlen.
  destruct (spawn_ok k3 f l (str "init") 0 (images (str "init")) h init_args 0 Hok Hst) as (c & k4 & l4 & Hr4 & Hok4 & Hsp).
  { split; [now rewrite (bt_table _ _ _ Hb)|lia| |rewrite (bt_pid _ _ _ Hb); reflexivity|lia].
    rewrite (bt_slots _ _ _ Hb). now left. }
  exists k3, k4, c, l4. split; [|auto 10].
  unfold rust_main. rewrite (bind_run _ _ _ _ _ Hr1), (bind_run _ _ _ _ _ Hr2), (bind_run _ _ _ _ _ Hr3).
  erewrite bind_run; [reflexivity|]. unfold run_executable.
  change (read_file images (str "init")) with (Some (images (str "init"))).
  erewrite bind_run by (unfold bind_try; erewrite bind_run by exact Hr4; reflexivity). reflexivity.
Qed.

(** C12. Boot.  From the image's statics, with the kernel's own table inside
    the image and frames enough for init, [_rust_main] runs to the end without
    a panic: the banner and the amount of memory are on the console, and the
    kernel's invariant holds with the frames of the kernel's table and exactly
    those above the image as its memory ([boot_pool]): each of them is on the
    free list, in init's space or in the kernel's tables, and no other is.  The
    exception returns into init, process 1, running in slot 0 with its
    three arguments. *)
Theorem rust_main_spec fuel kctx resume g images intro k root p h :
  power_on k root p -> 0x2000 <= p <= ram_limit ->
  startable (images (str "init")) h init_args ->
  Z.of_nat (frames_for (images (str "init")) h) < (ram_limit - p + 4095) / 4096 ->
  exists k' c l', rust_main fuel kctx resume g images intro (ttbr1_to_va (p - 0x2000)) k = Done tt k' /\
    kernel_ok (F := boot_pool k root p) k' l' /\ CURRENT_PROCESS k' = 0%nat /\ PROCESS_TABLE k' = first_table (set_state Running c) /\
    pid c = 1 /\ parent_pid c = 0 /\ name c = name_field (str "init") /\
    current_pid (cpu (hcore (dev k'))) = Some 1 /\
    ectx k' = update_from_pctx (pctx c) (svc_ectx kctx (ectx_x 0 kctx) (ectx_x 1 kctx)) /\
    program_ready (kmem (stk k')) (images (str "init")) h init_args (pctx c) /\
    tx (dev k') = tx (dev k) ++ boot_text intro ((ram_limit - p + 4095) / 4096 * 4096)
                                               ((ram_limit - p + 4095) / 4096 * 4096).
Proof.
  intros Hk Hp Hst Hfr.
  destruct (boot_to_start fuel kctx resume g images intro k root p h Hk Hp Hst Hfr)
    as (k3 & k4 & c & l4 & Hrun & Hb & Bio & Ht & Htx & Hok4 & [W1 W2 W3 W4 _ W5 _ _ [s W8]]).
  rewrite (bt_pid _ _ _ Hb) in W1.
  destruct (start_first fuel kctx resume g images intro k4 l4 c Hok4) as (k5 & Hr5 & Hok5 & C5 & T5 & I5 & X5 & S5 & O5).
  - rewrite W8. cbn. now rewrite (bt_table _ _ _ Hb).
  - exact W3.
  - rewrite W8. apply Hb.
  - rewrite W8. exact Ht.
  - exists k5, c, l4. rewrite S5, O5, W8 in *. rewrite W1 in I5. split; [now rewrite Hrun|auto 12].
Qed.

(** A machine with an empty memory, its kernel table at 0x1000. *)
Definition demo_power_hw : hw :=
  mk_hw (mk_core (mk_Cpu 0 None 0 false) false) (Spinlock_new "uart_write_lock") (Spinlock_new "uart_read_lock")
    (fun _ => 0) (fun _ => 0x21) 0 (fun _ => 13) 0 [] 2 19200000 (fun _ => 1000) 0 0 0.
Definition demo_power : kernel :=
  mk_kernel (mk_kstate boot_pstate (replicate (Z.to_nat MAX_PROCESSES) Free) (ttbr1_to_va 0x1000))
    demo_power_hw (replicate NPROC None) 1 1 (Spinlock_new "process_table") demo_mutex demo_ectx.

Lemma demo_power_on : power_on demo_power 0x1000 0x4000.
Proof.
  destruct demo_boot_root as (Hf & Ho & Hun).
  assert (nested false 0 (mk_core (mk_Cpu 0 None 0 false) false)) as Hn
    by (split; [reflexivity|unfold U64; lia|reflexivity|lia]).
  split; try reflexivity; try exact Hf.
  - split; try reflexivity; [split; [exact Hn|reflexivity]| |split; reflexivity].
    split; try reflexivity; [exact Hn|]. intros q. exists O. split; [lia|discriminate].
  - exact boot_free_frames.
  - cbn [stk demo_power kmem]. rewrite Ho. apply Forall_singleton. split; [exact Hf|lia].
  - cbn [stk demo_power kmem]. rewrite Ho. apply NoDup_singleton.
  - intros i j _ _. apply Hun.
  - split; [reflexivity|]. intros n. reflexivity.
Qed.

Lemma rust_main_spec_witness :
  exists k' c l', rust_main 1 demo_ectx skip 1 (fun _ => demo_elf) (str "AtOS") (ttbr1_to_va 0x2000) demo_power
                  = Done tt k' /\ kernel_ok (F := boot_pool demo_power 0x1000 0x4000) k' l' /\
    PROCESS_TABLE k' = first_table (set_state Running c) /\ pid c = 1 /\
    program_ready (kmem (stk k')) demo_elf demo_elf_hdr init_args (pctx c).
Proof.
  assert (0x2000 <= 0x4000 <= ram_limit) as Hp by (unfold ram_limit; lia).
  assert (Z.of_nat (frames_for demo_elf demo_elf_hdr) < (ram_limit - 0x4000 + 4095) / 4096) as Hfr.
  { unfold frames_for. rewrite demo_elf_loads. vm_compute. reflexivity. }
  destruct (rust_main_spec 1 demo_ectx skip 1 (fun _ => demo_elf) (str "AtOS") demo_power 0x1000 0x4000 demo_elf_hdr
    demo_power_on Hp demo_startable Hfr) as (k' & c & l' & H1 & H2 & _ & H4 & H5 & _ & _ & _ & _ & H10 & _).
  exists k', c, l'. auto.
Defined.
