(* ===== verification/Calm.v ===== *)
(** The invariant of the whole kernel between two handlers, [calm], and what
    keeps it: the scheduler, the console and the sleep of a kernel thread.

    [kernel_ok] of ProcOps is its part for memory and processes; the others are
    that the console's mutex, the UART's locks and the lock of the process
    table are open, that nobody sleeps on the mutex while it is free, that a
    process that is not asleep has no channel, and that a process is younger
    than its parent.

    A handler that sleeps is one step here.  [resume] is what the other threads
    do meanwhile, and all that is asked of it is that it keeps the invariant:
    the same that is shown for the handlers. *)

From Stdlib Require Import ZArith Lia.
From stdpp Require Import base strings numbers list.
From S2P Require Import Prelude Memory Frames PageTable PageFree PagingSpec UserMem PageDup.
From S2P Require Import PageRange Isolation LoadElf KernelStack Interrupts Devices Processes.
From S2P Require Import Scheduler ProcOps Demo Sleep Mutex Io Syscalls SyscallSpec ConsoleSpec Exceptions.

Local Open Scope Z_scope.

(** ** The process table, slot by slot *)

Definition procs_rel (R : relation Process) (t t' : list (option Process)) : Prop :=
  forall j, option_Forall2 R (mjoin (t !! j)) (mjoin (t' !! j)).

#[global] Instance procs_rel_refl R `{!Reflexive R} : Reflexive (procs_rel R).
Proof. intros t j. destruct (mjoin _); constructor. reflexivity. Qed.

#[global] Instance procs_rel_trans R `{!Transitive R} : Transitive (procs_rel R).
Proof.
  intros t1 t2 t3 H1 H2 j. specialize (H1 j). specialize (H2 j).
  destruct H1 as [p q Hpq|]; inversion H2; subst; constructor. now transitivity q.
Qed.

Lemma rel_update R `{!Reflexive R} i f t :
  (forall p, mjoin (t !! i) = Some p -> R p (f p)) -> procs_rel R t (update_slot i f t).
Proof.
  intros H j. rewrite mjoin_update_slot. destruct (decide (j = i)) as [->|]; [|now apply procs_rel_refl].
  destruct (mjoin (t !! i)) as [p|]; constructor. auto.
Qed.

Lemma rel_map R f t : (forall p, R p (f p)) -> procs_rel R t (map_procs f t).
Proof. intros H j. rewrite map_procs_lookup. destruct (mjoin (t !! j)); constructor. auto. Qed.

Lemma rel_left R t t' j q : procs_rel R t t' -> mjoin (t !! j) = Some q ->
  exists q', mjoin (t' !! j) = Some q' /\ R q q'.
Proof. intros H Hq. specialize (H j). rewrite Hq in H. inversion H; subst. eauto. Qed.

Lemma rel_right R t t' j q' : procs_rel R t t' -> mjoin (t' !! j) = Some q' ->
  exists q, mjoin (t !! j) = Some q /\ R q q'.
Proof. intros H Hq. specialize (H j). rewrite Hq in H. inversion H; subst. eauto. Qed.

(** A process that is not asleep on a channel has none. *)
Definition chan_idle (p : Process) : Prop :=
  state p <> Blocked \/ block_reason p = Some WaitingForChild -> chan p = 0.
Definition idle (t : list (option Process)) : Prop :=
  forall j p, mjoin (t !! j) = Some p -> chan_idle p.
Definition older (t : list (option Process)) : Prop :=
  forall j p, mjoin (t !! j) = Some p -> parent_pid p < pid p.

(** What waking and scheduling may change of a process. *)
Record sched_rel (p q : Process) : Prop := {
  sr_pid : pid q = pid p;
  sr_parent : parent_pid q = parent_pid p;
  sr_pctx : pctx q = pctx p;
  sr_live : is_live q = is_live p;
  sr_running : state p = Running -> state q = Running;
  sr_blocked : state q = Blocked -> state p = Blocked /\ chan q = chan p;
  sr_idle : chan_idle p -> chan_idle q;
}.

#[global] Instance sched_rel_preorder : PreOrder sched_rel.
Proof.
  split.
  - intros p. split; auto.
  - intros p q r [A1 A2 A3 A4 A5 A6 A7] [B1 B2 B3 B4 B5 B6 B7]. split; try congruence; auto.
    intros H. destruct (B6 H) as [H1 H2]. destruct (A6 H1). split; congruence.
Qed.

Lemma sched_wake c p : sched_rel p (wake c p).
Proof.
  destruct (wake_id c p) as (E1 & E2 & E3 & E4). unfold wake in *.
  destruct (is_state Blocked p && (chan p =? c)) eqn:E; [|reflexivity].
  apply andb_prop in E as [E _]. apply bool_decide_eq_true in E.
  split; auto; cbn; try congruence. intros _ _. reflexivity.
Qed.

(** What waking alone may change. *)
Record woken (p q : Process) : Prop := {
  wk_sched : sched_rel p q;
  wk_state : state p <> Blocked -> state q = state p;
}.

#[global] Instance woken_preorder : PreOrder woken.
Proof.
  split; [intros p; split; [reflexivity|auto]|].
  intros p q r [A1 A2] [B1 B2]. split; [now transitivity q|]. intros H. rewrite B2; auto. now rewrite A2.
Qed.

Lemma woken_wake c p : woken p (wake c p).
Proof. split; [apply sched_wake|]. intros H. now rewrite (proj2 (proj2 (proj2 (wake_id c p))) H). Qed.

Lemma woken_rel t t' : procs_rel woken t t' -> procs_rel sched_rel t t'.
Proof. intros H j. destruct (H j); constructor. now apply wk_sched. Qed.

Lemma sched_run p : state p = Running \/ state p = Ready -> sched_rel p (set_state Running p).
Proof.
  intros H. split; auto; cbn; try congruence.
  - unfold is_live, is_state. cbn. now destruct H as [-> | ->].
  - intros Hi _. apply Hi. left. destruct H; congruence.
Qed.

Lemma rel_idle t t' : procs_rel sched_rel t t' -> idle t -> idle t'.
Proof. intros H Hi j q (p & Hp & R)%(rel_right _ _ _ _ _ H). exact (sr_idle _ _ R (Hi j p Hp)). Qed.

Lemma rel_older t t' : procs_rel sched_rel t t' -> older t -> older t'.
Proof.
  intros H Ho j q (p & Hp & R)%(rel_right _ _ _ _ _ H). rewrite (sr_pid _ _ R), (sr_parent _ _ R). eauto.
Qed.

Lemma rel_waits c t t' : procs_rel sched_rel t t' -> waits_on c t = false -> waits_on c t' = false.
Proof.
  intros H. apply waits_on_mono. intros j q (p & Hp & R)%(rel_right _ _ _ _ _ H) Hs Hc.
  destruct (sr_blocked _ _ R Hs). exists p. split; [exact Hp|]. split; congruence.
Qed.

(** ** The scheduler *)

Lemma chosen_runs k k1 i :
  choose_next_process k = Done (Some i) k1 -> PROCESS_TABLE k1 = PROCESS_TABLE k /\
  forall p, mjoin (PROCESS_TABLE k !! i) = Some p -> state p = Running \/ state p = Ready.
Proof.
  unfold choose_next_process. destruct (PROCESS_TABLE k !! CURRENT_PROCESS k) as [s|] eqn:Es; [|discriminate].
  destruct (slot_is (is_state Running) s) eqn:Hs.
  - intros [= <- <-]. split; [reflexivity|]. intros p Hp. rewrite Es in Hp. cbn in Hp. subst s.
    left. now apply bool_decide_eq_true in Hs.
  - destruct (find_slot _ _) as [[m j]|] eqn:Hf; [|discriminate]. intros [= <- <-]. split; [reflexivity|].
    apply find_slot_Some in Hf as (_ & Hr & _). unfold ready_at in Hr. intros p Hp. rewrite Hp in Hr.
    right. now apply bool_decide_eq_true in Hr.
Qed.

Lemma choose_none k k1 : choose_next_process k = Done None k1 -> k1 = k.
Proof.
  unfold choose_next_process. destruct (PROCESS_TABLE k !! _) as [s|]; [|discriminate].
  destruct (slot_is _ s); [intros [= ]|]. destruct (find_slot _ _) as [[? ?]|]; intros [=]. congruence.
Qed.

Lemma awake_woken k k1 : awake_common_chans k = Done tt k1 -> procs_rel woken (PROCESS_TABLE k) (PROCESS_TABLE k1).
Proof.
  intros H. apply awake_form in H as (h & _ & _ & _ & _ & _ & _ & _ & _ & _ & [-> | ->]); [reflexivity|].
  apply rel_map. intros p. apply woken_wake.
Qed.

Lemma awake_rel k k1 : awake_common_chans k = Done tt k1 -> procs_rel sched_rel (PROCESS_TABLE k) (PROCESS_TABLE k1).
Proof. intros H. exact (woken_rel _ _ (awake_woken _ _ H)). Qed.

Lemma schedule_rel fuel k k' :
  schedule_next fuel k = Done tt k' -> procs_rel sched_rel (PROCESS_TABLE k) (PROCESS_TABLE k').
Proof.
  assert (forall i k1 k2, choose_next_process k1 = Done (Some i) k2 -> load_pctx i k2 = Done tt k' ->
    procs_rel sched_rel (PROCESS_TABLE k1) (PROCESS_TABLE k')) as Hload.
  { intros i k1 k2 [Et Hr]%chosen_runs Hl. apply load_run in Hl as (p & Hp & ->).
    cbn [PROCESS_TABLE set_ectx set_dev set_table]. rewrite Et in *.
    apply rel_update; [apply _|]. intros q Hq. apply sched_run. auto. }
  revert k. induction fuel as [|fuel IH]; intros k Hrun; cbn [schedule_next] in Hrun;
    apply bind_done in Hrun as (next & k1 & Hch & Hrun); (destruct next as [i|]; [exact (Hload i k k1 Hch Hrun)|]);
    unfold gets, bind at 1 in Hrun; (destruct (any_blocked k1); [|discriminate Hrun]); [discriminate Hrun|].
  apply bind_done in Hrun as ([] & k2 & Haw & Hrun).
  apply choose_none in Hch as ->.
  transitivity (PROCESS_TABLE k2); [exact (awake_rel _ _ Haw)|exact (IH _ Hrun)].
Qed.

(** ** The invariant *)

Section Machine.
Context {F : Pool}.

Record calm (was : bool) (owner : option Z) (k : kernel) : Prop := {
  ca_ok : exists l, kernel_ok k l;
  ca_mutex : mutex_base was owner k;
  ca_guard : sl_lock (mx_guard (io_lock k)) = false;
  ca_hw : hw_ok was 0 (dev k);
  ca_ptable : sl_lock (PROCESS_TABLE_LOCK k) = false;
  ca_idle : idle (PROCESS_TABLE k);
  ca_older : older (PROCESS_TABLE k);
}.

(** The UART's locks and its stream of states. *)
Definition uart_kept (h h' : hw) : Prop :=
  w_lock h' = w_lock h /\ r_lock h' = r_lock h /\ lsr h' = lsr h /\ patience h' = patience h.

Lemma hw_ok_kept was h h' : hw_ok was 0 h -> uart_kept h h' -> nested was 0 (hcore h') -> hw_ok was 0 h'.
Proof.
  intros [H1 H2 H3 H4 H5] (E1 & E2 & E3 & E4) Hn. split; rewrite ?E1, ?E2; auto.
  intros p. destruct (H5 p) as (j & Hj & Hb). exists j. now rewrite E4, E3.
Qed.

Lemma calm_intro was o k k' l' :
  calm was o k -> kernel_ok k' l' -> io_lock k' = io_lock k -> uart_kept (dev k) (dev k') ->
  nested was 0 (hcore (dev k')) -> sl_lock (PROCESS_TABLE_LOCK k') = false ->
  (waits_on (maddr (io_lock k)) (PROCESS_TABLE k) = false -> waits_on (maddr (io_lock k)) (PROCESS_TABLE k') = false) ->
  idle (PROCESS_TABLE k') -> older (PROCESS_TABLE k') -> calm was o k'.
Proof.
  intros [C1 [M1 M2 M3 M4 M5] C3 C4 C5 C6 C7] Hok Eio Hu Hn Hl Hw Hi Ho.
  split; auto; [eauto| |now rewrite Eio|exact (hw_ok_kept _ _ _ C4 Hu Hn)].
  split; rewrite ?Eio; auto. exact (ko_table _ _ Hok).
Qed.

(** Only processes in the way of the scheduler, the memory as [kernel_ok] has
    it, and the registers of the devices moved. *)
Lemma calm_rel was o k k' l' :
  calm was o k -> kernel_ok k' l' -> io_lock k' = io_lock k -> uart_kept (dev k) (dev k') ->
  nested was 0 (hcore (dev k')) -> PROCESS_TABLE_LOCK k' = PROCESS_TABLE_LOCK k ->
  procs_rel sched_rel (PROCESS_TABLE k) (PROCESS_TABLE k') -> calm was o k'.
Proof.
  intros Hc Hok Eio Hu Hn El Hr. apply (calm_intro was o k k' l' Hc Hok Eio Hu Hn).
  - rewrite El. apply Hc.
  - now apply rel_waits.
  - now apply (rel_idle _ _ Hr), (ca_idle was o).
  - now apply (rel_older _ _ Hr), (ca_older was o).
Qed.

Lemma calm_nested was o k : calm was o k -> nested was 0 (hcore (dev k)).
Proof. intros H. apply H. Qed.

Lemma calm_open was o k : calm was o k -> ptable_open was 0 k.
Proof.
  intros H. split; [|unfold U64; lia]. split; [exact (calm_nested _ _ _ H)|apply H].
Qed.

Lemma looked_kept h h' : looked h h' -> uart_kept h h'.
Proof. intros [_ [E1 E2] E3 _ _ _ E4 _]. unfold uart_kept. auto. Qed.

Lemma looked_nested was h h' : looked h h' -> nested was 0 (hcore h) -> nested was 0 (hcore h').
Proof. intros [(E1 & E2 & E3 & E4) _ _ _ _ _ _ _] Hn. exact (nested_core _ _ _ _ Hn E1 E2 E3). Qed.

(** A process is loaded: its slot is the current one, it runs, and the
    exception returns to its address space. *)
Definition loaded (k : kernel) : Prop :=
  exists p, slot_has k (CURRENT_PROCESS k) p /\ state p = Running /\
    current_pid (cpu (hcore (dev k))) = Some (pid p) /\ ettbr0 (ectx k) = ttbr0 (pctx p).

Lemma scheduled_loaded k k' : scheduled k k' -> loaded k'.
Proof.
  intros [(p & Hp & Hc & He) _ _ _]. exists (set_state Running p). split; [exact Hp|].
  split; [reflexivity|]. split; [exact Hc|]. now rewrite He.
Qed.

Lemma schedule_loaded fuel k l k' : kernel_ok k l -> schedule_next fuel k = Done tt k' -> loaded k'.
Proof.
  intros Hok Hrun. pose proof (schedule_next_run fuel k (ko_table _ _ Hok) (ko_current _ _ Hok)) as H.
  rewrite Hrun in H. exact (scheduled_loaded _ _ H).
Qed.

Lemma switch_calm fuel was o k k' :
  calm was o k -> schedule_next fuel k = Done tt k' -> calm was o k' /\ loaded k'.
Proof.
  intros Hc Hrun. pose proof (ca_ok _ _ _ Hc) as [l Hok].
  pose proof (schedule_next_around _ _ _ Hrun) as (_ & _ & E1 & E2 & Hl).
  split; [|exact (schedule_loaded _ _ _ _ Hok Hrun)].
  refine (calm_rel was o k k' l Hc (schedule_kernel_ok _ _ _ _ Hok Hrun) E2 (looked_kept _ _ Hl) _ E1 (schedule_rel _ _ _ Hrun)).
  exact (looked_nested _ _ _ Hl (calm_nested _ _ _ Hc)).
Qed.

(** ** The queue *)

(** A ready process keeps its place in the scheduler's order, or gets a better
    one, until it is the one that runs; and while it runs, it does. *)
Record place_kept (j c c' : nat) (q q' : Process) : Prop := {
  pk_ready : state q = Ready ->
    (state q' = Ready /\ (scan_dist c' j <= scan_dist c j)%nat) \/ (state q' = Running /\ c' = j);
  pk_running : state q = Running -> c = j -> state q' = Running /\ c' = j;
}.

Lemma place_trans j c1 c2 c3 q1 q2 q3 :
  place_kept j c1 c2 q1 q2 -> place_kept j c2 c3 q2 q3 -> place_kept j c1 c3 q1 q3.
Proof.
  intros [A1 A2] [B1 B2]. split.
  - intros H. destruct (A1 H) as [[H1 H2]|[H1 H2]]; [|right; auto]. destruct (B1 H1) as [[]|[]]; [left|right; auto].
    split; [assumption|lia].
  - intros H1 H2. destruct (A2 H1 H2). auto.
Qed.

Lemma place_woken j c c' q q' : c' = c -> (state q <> Blocked -> state q' = state q) -> place_kept j c c' q q'.
Proof.
  intros -> Hs. split.
  - intros H. left. rewrite Hs by congruence. auto.
  - intros H1 H2. rewrite Hs by congruence. auto.
Qed.

Lemma place_same j c q : place_kept j c c q q.
Proof. now apply place_woken. Qed.

(** One decision of the scheduler, and its consequence. *)
Lemma place_chosen j k k1 k' idx q :
  table_ok (PROCESS_TABLE k) -> (CURRENT_PROCESS k < NPROC)%nat -> slot_has k j q ->
  choose_next_process k = Done (Some idx) k1 -> load_pctx idx k1 = Done tt k' ->
  exists q', slot_has k' j q' /\ place_kept j (CURRENT_PROCESS k) (CURRENT_PROCESS k') q q'.
Proof.
  intros Ht Hc Hq Hch Hl. destruct (chosen_runs _ _ _ Hch) as [Et Hruns].
  apply load_run in Hl as (p & Hp & ->). rewrite Et in Hp. unfold slot_has in *.
  cbn [PROCESS_TABLE set_ectx set_dev set_table]. rewrite Et, mjoin_update_slot, Hq.
  exists (if decide (j = idx) then set_state Running q else q). split; [now destruct (decide (j = idx))|].
  pose proof (lookup_lt_proc _ _ _ Ht Hq) as Hj.
  destruct (choose_run k Ht Hc) as [(c & Hcs & Hst & Hrun)|[Hn Hrun]].
  - rewrite Hch in Hrun. injection Hrun as -> ->. split; cbn [CURRENT_PROCESS set_ectx set_dev set_table set_current].
    + intros Hr. rewrite decide_False by (intros ->; congruence). auto.
    + intros _ <-. now rewrite decide_True.
  - split; cbn [CURRENT_PROCESS set_ectx set_dev set_table set_current].
    + intros Hr. destruct (choose_nearer k idx k1 j Ht Hc Hn Hj) as [_ [->|Hlt]]; [|exact Hch|right; now rewrite decide_True|].
      * unfold ready_at. rewrite Hq. now apply bool_decide_eq_true_2.
      * destruct (decide (j = idx)) as [->|]; [right; auto|left; split; [exact Hr|lia]].
    + intros Hr <-. contradiction Hn. exists q. auto.
Qed.

Lemma place_schedule fuel k k' j q :
  table_ok (PROCESS_TABLE k) -> (CURRENT_PROCESS k < NPROC)%nat -> slot_has k j q ->
  schedule_next fuel k = Done tt k' -> exists q', slot_has k' j q' /\ place_kept j (CURRENT_PROCESS k) (CURRENT_PROCESS k') q q'.
Proof.
  revert k q. induction fuel as [|fuel IH]; intros k q Ht Hc Hq Hrun; cbn [schedule_next] in Hrun;
    apply bind_done in Hrun as (next & k1 & Hch & Hrun); (destruct next as [idx|]; [exact (place_chosen j k k1 k' idx q Ht Hc Hq Hch Hrun)|]);
    unfold gets, bind at 1 in Hrun; (destruct (any_blocked k1); [|discriminate Hrun]); [discriminate Hrun|].
  apply bind_done in Hrun as ([] & k2 & Haw & Hrun).
  apply choose_none in Hch as ->.
  destruct (awake_run k Ht) as (k2' & Haw' & E & _ & _ & _ & Ht2 & _). assert (k2' = k2) as -> by congruence.
  destruct (rel_left _ _ _ _ _ (awake_woken _ _ Haw) Hq) as (q2 & Hq2 & Hw).
  rewrite <- E in Hc. destruct (IH k2 q2 Ht2 Hc Hq2 Hrun) as (q' & Hq' & Hpl). exists q'. split; [exact Hq'|].
  exact (place_trans _ _ _ _ _ _ _ (place_woken j _ _ q q2 E (wk_state _ _ Hw)) Hpl).
Qed.

(** ** Bystanders *)

(** Every other process that was alive still is, in its slot and its address
    space, and every byte of it is as it was; if it is ready, it keeps its
    place in the queue. *)
Definition spared (i : nat) (k k' : kernel) : Prop :=
  forall j q, j <> i -> slot_has k j q -> is_live q = true ->
    exists q', slot_has k' j q' /\ pid q' = pid q /\ is_live q' = true /\ ttbr0 (pctx q') = ttbr0 (pctx q) /\
      space_kept (ram (kmem (stk k))) (ram (kmem (stk k'))) (ttbr0 (pctx q)) /\ place_kept j (CURRENT_PROCESS k) (CURRENT_PROCESS k') q q'.

Lemma kept_trans j k1 k2 k3 q :
  (exists q2, slot_has k2 j q2 /\ pid q2 = pid q /\ is_live q2 = true /\ ttbr0 (pctx q2) = ttbr0 (pctx q) /\
     space_kept (ram (kmem (stk k1))) (ram (kmem (stk k2))) (ttbr0 (pctx q)) /\ place_kept j (CURRENT_PROCESS k1) (CURRENT_PROCESS k2) q q2) ->
  (forall q2, slot_has k2 j q2 -> is_live q2 = true ->
     exists q3, slot_has k3 j q3 /\ pid q3 = pid q2 /\ is_live q3 = true /\ ttbr0 (pctx q3) = ttbr0 (pctx q2) /\
       space_kept (ram (kmem (stk k2))) (ram (kmem (stk k3))) (ttbr0 (pctx q2)) /\ place_kept j (CURRENT_PROCESS k2) (CURRENT_PROCESS k3) q2 q3) ->
  exists q3, slot_has k3 j q3 /\ pid q3 = pid q /\ is_live q3 = true /\ ttbr0 (pctx q3) = ttbr0 (pctx q) /\
    space_kept (ram (kmem (stk k1))) (ram (kmem (stk k3))) (ttbr0 (pctx q)) /\ place_kept j (CURRENT_PROCESS k1) (CURRENT_PROCESS k3) q q3.
Proof.
  intros (q2 & Hq2 & E1 & L2 & E2 & K2 & P2) H. destruct (H q2 Hq2 L2) as (q3 & Hq3 & E3 & L3 & E4 & K3 & P3).
  rewrite E2 in *. exists q3. split; [exact Hq3|]. split; [congruence|]. split; [exact L3|]. split; [congruence|].
  split; [exact (space_kept_trans _ _ _ _ K2 K3)|exact (place_trans _ _ _ _ _ _ _ P2 P3)].
Qed.

#[global] Instance spared_preorder i : PreOrder (spared i).
Proof.
  split.
  - intros k j q _ Hq Hl. exists q. auto 10 using space_kept_refl, place_same.
  - intros k1 k2 k3 H12 H23 j q Hj Hq Hl. eapply kept_trans; eauto.
Qed.

(** The memory changed, and the spaces of the others are kept. *)
Lemma spared_kept i k k' :
  CURRENT_PROCESS k' = CURRENT_PROCESS k ->
  (forall j q, j <> i -> slot_has k j q -> is_live q = true ->
     exists q', slot_has k' j q' /\ pid q' = pid q /\ is_live q' = true /\ ttbr0 (pctx q') = ttbr0 (pctx q) /\
       (state q <> Blocked -> state q' = state q)) ->
  (forall j q, j <> i -> slot_has k j q -> is_live q = true ->
     space_kept (ram (kmem (stk k))) (ram (kmem (stk k'))) (ttbr0 (pctx q))) -> spared i k k'.
Proof.
  intros Hc H1 H2 j q Hj Hq Hl. destruct (H1 j q Hj Hq Hl) as (q' & ? & ? & ? & ? & ?).
  exists q'. eauto 10 using place_woken.
Qed.

Lemma spared_rel i k k' :
  CURRENT_PROCESS k' = CURRENT_PROCESS k -> stk k' = stk k ->
  procs_rel woken (PROCESS_TABLE k) (PROCESS_TABLE k') -> spared i k k'.
Proof.
  intros Ec Es Hr. apply spared_kept; [exact Ec| |intros; rewrite Es; apply space_kept_refl].
  intros j q _ Hq Hl. destruct (rel_left _ _ _ _ _ Hr Hq) as (q' & Hq' & [[R1 R2 R3 R4 _ _ _] R5]).
  exists q'. rewrite R3. split; [exact Hq'|]. split; [exact R1|]. split; [congruence|auto].
Qed.

Lemma spared_schedule i fuel k l k' : kernel_ok k l -> schedule_next fuel k = Done tt k' -> spared i k k'.
Proof.
  intros Hok Hrun j q _ Hq Hl.
  destruct (place_schedule fuel k k' j q (ko_table _ _ Hok) (ko_current _ _ Hok) Hq Hrun) as (q' & Hq' & Hpl).
  destruct (rel_left _ _ _ _ _ (schedule_rel _ _ _ Hrun) Hq) as (q2 & Hq2 & [R1 R2 R3 R4 _ _ _]).
  assert (q2 = q') as -> by (unfold slot_has in *; congruence).
  exists q'. rewrite R3, (proj1 (schedule_next_around _ _ _ Hrun)). split; [exact Hq'|]. split; [exact R1|].
  split; [congruence|]. auto using space_kept_refl.
Qed.

(** Changes of the own slot alone. *)
Lemma spared_slot i k f : spared i k (set_table (update_slot i f (PROCESS_TABLE k)) k).
Proof.
  apply spared_kept; [reflexivity| |intros; apply space_kept_refl].
  intros j q Hj Hq Hl. exists q. split; [|auto].
  unfold slot_has. cbn [PROCESS_TABLE set_table]. now rewrite mjoin_update_slot, decide_False.
Qed.

(** ** Using the console *)

(** What the console's operations leave of the kernel outside of the devices
    and the mutex; processes may be woken. *)
Record around (k k' : kernel) : Prop := {
  ar_stk : stk k' = stk k;
  ar_next : NEXT_PID k' = NEXT_PID k;
  ar_current : CURRENT_PROCESS k' = CURRENT_PROCESS k;
  ar_ptable : PROCESS_TABLE_LOCK k' = PROCESS_TABLE_LOCK k;
  ar_ectx : ectx k' = ectx k;
  ar_woken : procs_rel woken (PROCESS_TABLE k) (PROCESS_TABLE k');
}.

#[global] Instance around_preorder : PreOrder around.
Proof.
  split; [intros k; now split|].
  intros k1 k2 k3 [A1 A2 A3 A4 A5 A6] [B1 B2 B3 B4 B5 B6]. split; try congruence. now transitivity (PROCESS_TABLE k2).
Qed.

Lemma ar_table k k' : around k k' -> procs_rel sched_rel (PROCESS_TABLE k) (PROCESS_TABLE k').
Proof. intros H. apply woken_rel, H. Qed.

Lemma around_dev h k : around k (set_dev h k).
Proof. now split. Qed.

Lemma around_zoom {A} (m : M hw A) k a k' : zoom dev_lens m k = Done a k' -> around k k'.
Proof. intros (h & _ & ->)%zoom_done. apply around_dev. Qed.

Lemma around_guard (m : M locked_core unit) k k' :
  zoom guard_lens m k = Done tt k' -> around k k' /\ mx_lock (io_lock k') = mx_lock (io_lock k).
Proof. intros (s & _ & ->)%zoom_done. now split. Qed.

Lemma take_mutex_around k k' : take_mutex k = Done tt k' -> around k k'.
Proof.
  intros H. apply bind_done in H as ([] & k1 & H1 & H). apply bind_done in H as ([] & k2 & H2 & H3).
  apply around_guard in H3 as [H3 _]. transitivity k2; [|exact H3].
  unfold set_mutex, gets, modify, bind in H1, H2. injection H1 as <-.
  destruct (get_current_proc _); injection H2 as <-; now split.
Qed.

(** Taking a mutex that is free. *)
Lemma acquire_around fuel kctx resume g k k' :
  mx_lock (io_lock k) = false -> io_acquire fuel kctx resume g k = Done tt k' -> around k k'.
Proof.
  intros Hl H. unfold io_acquire, mutex_acquire in H. apply bind_done in H as ([] & k1 & H1 & H).
  apply around_guard in H1 as [A1 E1]. rewrite Hl in E1. apply bind_done in H as ([] & k2 & H2 & H3).
  assert (k2 = k1) as ->.
  { destruct fuel; cbn [mutex_wait] in H2; unfold gets, bind in H2; rewrite E1 in H2; now injection H2. }
  transitivity k1; [exact A1|]. now apply take_mutex_around.
Qed.

Lemma release_around k k' : mutex_release k = Done tt k' -> around k k'.
Proof.
  intros H. apply bind_done in H as ([] & k1 & H1 & H). apply around_guard in H1 as [A1 _].
  transitivity k1; [exact A1|]. apply bind_done in H as ([] & k2 & H2 & H).
  assert (k2 = k1) as ->.
  { unfold gets, bind in H2. destruct (mx_lock _); [now injection H2|discriminate]. }
  apply bind_done in H as ([] & k2 & H3 & H). assert (k2 = k1) as ->.
  { unfold gets, bind in H3. destruct (get_current_proc k1); [destruct (bool_decide _); [|discriminate]|];
      now injection H3. }
  apply bind_done in H as ([] & k3 & H4 & H). injection H4 as <-.
  apply bind_done in H as ([] & k4 & H5 & H6). apply around_guard in H6 as [A6 _]. transitivity k4; [|exact A6].
  unfold gets, bind, wakeup, modify in H5. injection H5 as <-. split; try reflexivity.
  apply rel_map. intros p. apply woken_wake.
Qed.

Lemma write_bytes_around s k k' : write_bytes s k = Done tt k' -> around k k'.
Proof.
  revert k. induction s as [|b s IH]; intros k H; [injection H as <-; reflexivity|].
  cbn in H. apply bind_done in H as ([] & k1 & H1 & H). transitivity k1; [|exact (IH _ H)].
  apply bind_done in H1 as ([] & k2 & H1 & H2). apply around_zoom in H2. transitivity k2; [|exact H2].
  destruct (b =? 10); [now apply around_zoom in H1|injection H1 as <-; reflexivity].
Qed.

Lemma print_around fuel kctx resume g s k k' :
  mx_lock (io_lock k) = false -> print fuel kctx resume g s k = Done tt k' -> around k k'.
Proof.
  intros Hl H. apply bind_done in H as ([] & k1 & H1 & H). apply bind_done in H as ([] & k2 & H2 & H3).
  transitivity k1; [exact (acquire_around _ _ _ _ _ _ Hl H1)|].
  transitivity k2; [exact (write_bytes_around _ _ _ H2)|exact (release_around _ _ H3)].
Qed.

Lemma live_roots_rel R t t' :
  (forall p q, R p q -> is_live q = is_live p /\ ttbr0 (pctx q) = ttbr0 (pctx p)) ->
  length t' = length t -> procs_rel R t t' -> live_roots t' = live_roots t.
Proof.
  intros HR. revert t'. induction t as [|s t IH]; intros [|s' t'] Hl H; try discriminate; [reflexivity|].
  assert (slot_root s' = slot_root s) as E.
  { specialize (H O). cbn in H. destruct s, s'; inversion H; subst; [|reflexivity].
    cbn. destruct (HR p p0) as [-> ->]; auto. }
  assert (live_roots t' = live_roots t) as Et by (apply IH; [now injection Hl|]; intros j; exact (H (S j))).
  unfold live_roots in *. cbn [omap list_omap]. now rewrite E, Et.
Qed.

Lemma kernel_ok_around k l k' :
  kernel_ok k l -> around k k' -> table_ok (PROCESS_TABLE k') -> kernel_ok k' l.
Proof.
  intros Hok [A1 A2 A3 A4 A5 A6%woken_rel] Ht. pose proof (ko_table _ _ Hok) as Ht0. unfold table_ok in Ht, Ht0.
  apply (kernel_ok_ext (set_table (PROCESS_TABLE k') k)); auto.
  apply kernel_ok_table; [exact Hok|congruence| |].
  - rewrite (live_roots_rel sched_rel (PROCESS_TABLE k)); [reflexivity| |congruence|exact A6].
    intros p q [_ _ E1 E2 _ _ _]. split; congruence.
  - intros j q (p & Hp & R)%(rel_right _ _ _ _ _ A6). exists p. split; [exact Hp|]. split; apply R.
Qed.

(** ** A handler at work for a process *)

Section Thread.
  (** Process [me] of slot [i] with the address space [root]; [B] is a fact
      about the others. *)
  Context (was : bool) (i : nat) (me root : Z) (B : kernel -> Prop).
  Context (HB : forall k k', spared i k k' -> B k -> B k').

Record here (k : kernel) : Prop := {
  he_current : CURRENT_PROCESS k = i;
  he_slot : exists p, slot_has k i p /\ pid p = me /\ state p = Running /\ ttbr0 (pctx p) = root;
  he_pid : current_pid (cpu (hcore (dev k))) = Some me;
  he_space : Z.land (TTBR0_EL1 (kmem (stk k))) PTE_ADDR_MASK = root;
}.

Record inside (o : option Z) (k : kernel) : Prop := {
  in_calm : calm was o k;
  in_here : here k;
  in_ectx : ettbr0 (ectx k) = root;
  in_others : B k;
}.

(** The thread sleeps, and others run. *)
Record away (k : kernel) : Prop := {
  aw_calm : calm was None k;
  aw_loaded : loaded k;
  aw_slot : exists p, slot_has k i p /\ pid p = me /\ is_live p = true /\ ttbr0 (pctx p) = root;
  aw_others : B k;
}.

(** The thread is back. *)
Record resumed (k : kernel) : Prop := {
  rs_calm : calm was None k;
  rs_here : here k;
  rs_others : B k;
}.

Lemma inside_io o k : inside o k -> io_state was me o k.
Proof.
  intros [[C1 C2 C3 C4 C5 C6 C7] [E (p & Hp & Hpid & Hs & Hr) Hc Ht] _ _].
  split; [split|exact C4| |exact Hc]; [exact C2|split; [apply C4|exact C3]| |].
  - exists i, p. split; [exact Hp|]. now rewrite Hpid.
  - exists p. rewrite E. auto.
Qed.

Lemma here_around k k' : here k -> around k k' -> current_pid (cpu (hcore (dev k'))) = Some me -> here k'.
Proof.
  intros [E (p & Hp & Hpid & Hs & Hr) _ Ht] [A1 A2 A3 A4 A5 A6%woken_rel] Hc. split; [congruence| |exact Hc|now rewrite A1].
  destruct (rel_left _ _ _ _ _ A6 Hp) as (q & Hq & [R1 R2 R3 R4 R5 R6 R7]). exists q.
  split; [exact Hq|]. split; [congruence|]. split; [auto|congruence].
Qed.

Lemma inside_around o o' k k' : inside o k -> around k k' -> io_state was me o' k' -> inside o' k'.
Proof.
  intros [[[l C1] C2 C3 C4 C5 C6 C7] Hh He Ho] A [[M1 [_ M2] _] H2 _ H4].
  pose proof A as [A1 A2 A3 A4 A5 A6]. pose proof (woken_rel _ _ A6) as A7. split.
  - split; auto; [|now rewrite A4|now apply (rel_idle (PROCESS_TABLE k))|now apply (rel_older (PROCESS_TABLE k))].
    exists l. apply (kernel_ok_around k); [exact C1|exact A|apply M1].
  - now apply (here_around k).
  - now rewrite A5.
  - apply (HB k); [now apply spared_rel|exact Ho].
Qed.

(** An operation that returns and whose effect is known to be [around]. *)
Lemma inside_op {A} o o' (m : M kernel A) :
  (forall k, inside o k -> exists a k', m k = Done a k' /\ io_state was me o' k') ->
  (forall k a k', inside o k -> m k = Done a k' -> around k k') ->
  triple (inside o) m (fun _ => inside o').
Proof.
  intros H1 H2 k a k' Hk Hrun. destruct (H1 k Hk) as (a' & k2 & Hrun2 & Hst).
  assert (k2 = k') as -> by congruence. exact (inside_around o o' k k' Hk (H2 k a k' Hk Hrun) Hst).
Qed.

Lemma inside_free k : inside None k -> mx_lock (io_lock k) = false.
Proof. intros [[_ [_ E _ _ _] _ _ _ _ _] _ _ _]. exact E. Qed.

Section Waiting.
  Context (fuel : nat) (kctx : ExceptionContext) (resume : M kernel unit) (g : Z).

Lemma print_triple s : triple (inside None) (print fuel kctx resume g s) (fun _ => inside None).
Proof.
  apply inside_op.
  - intros k Hk. destruct (print_ok eq fuel kctx resume g was me k s (inside_io _ _ Hk)) as (k' & H1 & H2 & _). eauto.
  - intros k [] k' Hk. exact (print_around _ _ _ _ _ _ _ (inside_free _ Hk)).
Qed.

Lemma acquire_triple : triple (inside None) (io_acquire fuel kctx resume g) (fun _ => inside (Some me)).
Proof.
  apply inside_op.
  - intros k Hk. destruct (io_acquire_ok eq fuel kctx resume g was me k (inside_io _ _ Hk)) as (k' & H1 & H2 & _). eauto.
  - intros k [] k' Hk. exact (acquire_around _ _ _ _ _ _ (inside_free _ Hk)).
Qed.

Lemma release_triple : triple (inside (Some me)) mutex_release (fun _ => inside None).
Proof.
  apply inside_op.
  - intros k Hk. destruct (io_release_ok eq was me k (inside_io _ _ Hk)) as (k' & H1 & H2 & _). eauto.
  - intros k [] k' Hk. apply release_around.
Qed.

Lemma write_triple o c : triple (inside o) (device_write c) (fun _ => inside o).
Proof.
  apply inside_op.
  - intros k Hk. destruct (device_write_ok eq was me o k c (inside_io _ _ Hk)) as (k' & H1 & H2 & _). eauto.
  - intros k [] k' _. apply around_zoom.
Qed.

Lemma poll_triple o :
  triple (inside o) (zoom dev_lens poll_byte) (fun r k => (forall c, r = Some c -> is_u8 c) /\ inside o k).
Proof.
  intros k r k' Hk Hrun. destruct (poll_ok eq was me o k (inside_io _ _ Hk)) as (k2 & H1 & H2 & _).
  rewrite H1 in Hrun. injection Hrun as <- <-. split.
  - intros c. destruct (_ =? 0); [discriminate|]. intros [= <-]. apply key_u8.
  - exact (inside_around o o k k2 Hk (around_zoom _ _ _ _ H1) H2).
Qed.
  (** The registers of the thread: see [Sleep]. *)
Record thread_regs : Prop := {
  tr_regs : length (ex kctx) = 31%nat;
  tr_x0 : ectx_x 0 kctx <> 0xDEAD;
  tr_space : ettbr0 kctx = root;
}.
  Context (Hregs : thread_regs) (Hres : triple away resume (fun _ => resumed)).

Definition idle_but (t : list (option Process)) : Prop :=
  forall j p, j <> i -> mjoin (t !! j) = Some p -> chan_idle p.

Lemma rel_idle_but t t' : procs_rel sched_rel t t' -> idle_but t -> idle_but t'.
Proof. intros H Hi j q Hj (p & Hp & R)%(rel_right _ _ _ _ _ H). exact (sr_idle _ _ R (Hi j p Hj Hp)). Qed.

Lemma idle_but_slot f t : idle_but t -> idle_but (update_slot i f t).
Proof. intros H j p Hj Hp. rewrite mjoin_update_slot, decide_False in Hp by exact Hj. eauto. Qed.

Lemma older_slot j f t :
  (forall p, pid (f p) = pid p /\ parent_pid (f p) = parent_pid p) -> older t -> older (update_slot j f t).
Proof.
  intros Hf H a q Hq. rewrite mjoin_update_slot in Hq. destruct (decide (a = j)); [|eauto].
  destruct (mjoin (t !! a)) as [p|] eqn:Hp; [|discriminate]. injection Hq as <-.
  destruct (Hf p) as [-> ->]. eauto.
Qed.

(** What [sleep] writes in the slot of the thread. *)
Definition dozing (p : Process) : Process := set_block_reason (Some AwaitingIO) (set_chan AWAITING_UART_READ p).

(** The state in which the scheduler looks for another process. *)
Lemma thread_asleep k k2 l :
  inside None k -> kernel_ok k l ->
  let k0 := set_ectx (svc_ectx kctx (ectx_x 0 kctx) (ectx_x 1 kctx))
              (set_table (update_slot i dozing (PROCESS_TABLE k)) k) in
  awake_common_chans k0 = Done tt k2 ->
  exists q, slot_has k2 (CURRENT_PROCESS k2) q /\ ectx_x 0 (ectx k2) <> 0xDEAD /\
    same_around k k2 /\ kernel_ok (asleep k2) l /\ spared i k (asleep k2) /\
    idle (PROCESS_TABLE (asleep k2)) /\ older (PROCESS_TABLE (asleep k2)) /\
    exists p, slot_has (asleep k2) i p /\ pid p = me /\ is_live p = true /\ ttbr0 (pctx p) = root.
Proof.
  intros [[_ _ _ _ _ C6 C7] [E (p & Hp & Hpid & Hs & Hr) _ _] _ _] Hok k0 Haw. destruct Hregs as [T1 T2 T3].
  assert (is_live p = true) as Hl by (unfold is_live, is_state; now rewrite Hs).
  pose proof (kernel_ok_slot k l i dozing p Hok Hp eq_refl eq_refl eq_refl) as Hok0.
  assert (kernel_ok k0 l) as Hok0' by (apply (kernel_ok_ext _ _ _ Hok0); reflexivity).
  assert (slot_has k0 i (dozing p)) as Hp0
    by (unfold slot_has; cbn [k0 PROCESS_TABLE set_ectx set_table]; unfold slot_has in Hp; now rewrite mjoin_update_slot, decide_True, Hp).
  pose proof (kernel_ok_awake _ _ _ Hok0' Haw) as Hok2. destruct (awake_around _ _ Haw) as [Har Hcur].
  pose proof (awake_rel _ _ Haw) as Hrel. pose proof (rel_left _ _ _ _ _ Hrel Hp0) as (q & Hq & [R1 R2 R3 R4 R5 R6 R7]).
  change (CURRENT_PROCESS k0) with (CURRENT_PROCESS k) in Hcur. rewrite E in Hcur.
  assert (ectx k2 = ectx k0) as Eec by (apply awake_form in Haw as (h & -> & _); reflexivity).
  assert (ettbr0 (ectx k2) = root) as Ert by now rewrite Eec.
  exists q. rewrite Hcur. split; [exact Hq|]. split; [rewrite Eec; cbn [k0 ectx set_ectx]; now rewrite svc_ectx_x0|].
  split; [exact Har|]. unfold asleep. rewrite Hcur. set (f := set_pctx (from_ectx (ectx k2))).
  assert (kernel_ok (set_table (update_slot i f (PROCESS_TABLE k2)) k2) l) as Hok3.
  { apply (kernel_ok_slot k2 l i f q Hok2 Hq); [reflexivity|reflexivity|]. cbn. rewrite Ert, R3. now symmetry. }
  set (k3 := set_table (update_slot i f (PROCESS_TABLE k2)) k2) in *.
  assert (slot_has k3 i (f q)) as Hq3
    by (unfold slot_has; cbn [k3 PROCESS_TABLE set_table]; unfold slot_has in Hq; now rewrite mjoin_update_slot, decide_True, Hq).
  assert (is_live (f q) = true) as Hl3 by (transitivity (is_live q); [reflexivity|rewrite R4; exact Hl]).
  split; [|split; [|split; [|split]]].
  - apply (kernel_ok_ext (set_table (update_slot i (set_state Blocked) (PROCESS_TABLE k3)) k3)); try reflexivity.
    apply (kernel_ok_slot k3 l i (set_state Blocked) (f q) Hok3 Hq3); [reflexivity|now rewrite Hl3|reflexivity].
  - transitivity k0; [exact (spared_slot i k dozing)|].
    transitivity k2; [apply spared_rel; [rewrite Hcur; exact (eq_sym E)|apply Har|exact (awake_woken _ _ Haw)]|].
    transitivity k3; [apply spared_slot|]. exact (spared_slot i k3 (set_state Blocked)).
  - cbn [PROCESS_TABLE set_dev set_table]. intros j a Ha. destruct (decide (j = i)) as [->|Hj].
    + rewrite !mjoin_update_slot, !decide_True in Ha by reflexivity. unfold slot_has in Hq. rewrite Hq in Ha.
      injection Ha as <-. intros [Hc|Hc]; [now contradiction Hc|].
      assert (block_reason q = Some AwaitingIO) as Hb; [|change (block_reason q = Some WaitingForChild) in Hc; congruence].
      { pose proof (wake_running_id AWAITING_UART_READ (dozing p) Hs) as Ew.
        assert (q = dozing p) as ->; [|reflexivity].
        apply awake_form in Haw as (h & _ & _ & _ & _ & _ & _ & _ & _ & _ & [Et|Et]); rewrite Et in Hq;
          rewrite ?map_procs_lookup in Hq; unfold slot_has in Hp0; rewrite Hp0 in Hq;
          cbn [fmap option_fmap option_map] in Hq; congruence. }
    + apply (idle_but_slot (set_state Blocked) _ (idle_but_slot f (PROCESS_TABLE k2) (rel_idle_but _ _ Hrel
        (idle_but_slot dozing (PROCESS_TABLE k) (fun j p _ => C6 j p)))) j a Hj Ha).
  - cbn [PROCESS_TABLE set_dev set_table]. apply older_slot; [auto|]. apply older_slot; [auto|].
    apply (rel_older _ _ Hrel). apply older_slot; [auto|exact C7].
  - exists (set_state Blocked (f q)). split; [|split; [exact (eq_trans R1 Hpid)|split; [reflexivity|exact Ert]]].
    unfold slot_has. cbn [PROCESS_TABLE set_dev set_table]. rewrite mjoin_update_slot, decide_True by reflexivity.
    unfold slot_has in Hq3. cbn [k3 PROCESS_TABLE set_table] in Hq3. now rewrite Hq3.
Qed.
(** Nobody waits for the console's mutex when the thread is asleep. *)
Lemma svc_no_waiters k k1 :
  inside None k ->
  svc_enter fuel kctx (ectx_x 0 kctx) (ectx_x 1 kctx) (set_table (update_slot i dozing (PROCESS_TABLE k)) k) = Done tt k1 ->
  waits_on (maddr (io_lock k1)) (PROCESS_TABLE k1) = false.
Proof.
  intros [[_ Hb C3 C4 _ _ _] [E (p & Hp & _) _ _] _ _] Hrun. destruct Hregs as [T1 T2 T3]. pose proof (mb_addr _ _ _ Hb).
  refine (mb_waiters was None k1 (mo_base was None k1 _) eq_refl).
  refine (svc_switches was None fuel kctx _ _ _ k1 (dozing p) _ _ _ _ T1 Hrun).
  - apply mutex_base_table; [exact Hb|unfold table_ok; rewrite length_update_slot; apply Hb|].
    apply waits_on_update. cbn. intros a _ Ha. lia.
  - rewrite (proj2 (Z.eqb_neq _ _) T2). split; [apply C4|exact C3].
  - cbn [PROCESS_TABLE set_table CURRENT_PROCESS]. rewrite E, mjoin_update_slot, decide_True by reflexivity.
    unfold slot_has in Hp. now rewrite Hp.
  - intros _. cbn. lia.
Qed.

(** Going to sleep leaves the invariant to those who run meanwhile. *)
Lemma svc_away k k1 :
  inside None k ->
  svc_enter fuel kctx (ectx_x 0 kctx) (ectx_x 1 kctx) (set_table (update_slot i dozing (PROCESS_TABLE k)) k) = Done tt k1 ->
  away k1.
Proof.
  intros Hin Hrun. pose proof (svc_no_waiters k k1 Hin Hrun) as Hw. pose proof Hin as [Hc _ _ HBk]. pose proof (ca_ok _ _ _ Hc) as [l Hok].
  unfold svc_enter in Hrun. unfold modify at 1, bind at 1 in Hrun. apply bind_done in Hrun as ([] & k2 & Haw & Hrun).
  destruct (thread_asleep k k2 l Hin Hok Haw) as (q & Hq & Hx & (S1 & S2 & S3 & S4 & S5) & Hok3 & Hsp & Hid & Hol & (p & Hp & Hpp)).
  assert (table_ok (PROCESS_TABLE k2)) as Ht2.
  { pose proof (ko_table _ _ Hok3) as Ht. unfold table_ok in *. cbn [asleep PROCESS_TABLE set_dev set_table] in Ht.
    now rewrite !length_update_slot in Ht. }
  rewrite (handle_svc_run fuel k2 q Ht2 Hq Hx) in Hrun. apply bind_done in Hrun as ([] & k3 & Hrt & Hsch).
  apply reset_timer_form in Hrt as (h & -> & U). set (k3 := set_dev h (asleep k2)) in *.
  pose proof (kernel_ok_ext _ k3 l Hok3 eq_refl eq_refl eq_refl eq_refl) as Hok4.
  pose proof (schedule_kernel_ok _ _ _ _ Hok4 Hsch) as Hok5. pose proof (schedule_rel _ _ _ Hsch) as Hrel.
  pose proof (schedule_next_around _ _ _ Hsch) as (A1 & A2 & A3 & A4 & A5).
  assert (io_lock k1 = io_lock k) as Eio by (rewrite A4; exact S4). rewrite Eio in Hw.
  assert (nested was 0 (hcore (dev k3))) as Hn3.
  { cbn [k3 dev set_dev]. rewrite (us_core _ _ U). pose proof (looked_nested was _ _ S5 (calm_nested _ _ _ Hc)) as Hn.
    refine (nested_core _ _ _ _ Hn _ _ _); reflexivity. }
  assert (uart_kept (dev k) (dev k1)) as Hu.
  { destruct (looked_kept _ _ S5) as (U1 & U2 & U3 & U4), (looked_kept _ _ A5) as (V1 & V2 & V3 & V4), U as [_ W1 W2 W3 _ _ _ _ W4].
    cbn in *. unfold uart_kept. cbn in *. repeat split; congruence. }
  split.
  - apply (calm_intro was None k k1 l Hc Hok5); [exact Eio|exact Hu|exact (looked_nested _ _ _ A5 Hn3)| | | |].
    + rewrite A3. cbn [k3 PROCESS_TABLE_LOCK set_dev asleep set_table]. rewrite S3. apply Hc.
    + intros _. exact Hw.
    + exact (rel_idle _ _ Hrel Hid).
    + exact (rel_older _ _ Hrel Hol).
  - exact (schedule_loaded _ _ _ _ Hok4 Hsch).
  - destruct (rel_left _ _ _ _ _ Hrel Hp) as (p' & Hp' & [R1 R2 R3 R4 _ _ _]). exists p'. rewrite R3, R1, R4. auto.
  - apply (HB k); [|exact HBk]. transitivity (asleep k2); [exact Hsp|]. exact (spared_schedule i fuel k3 l k1 Hok4 Hsch).
Qed.

Lemma sleep_triple :
  triple (inside None) (sleep_on fuel kctx resume AWAITING_UART_READ AwaitingIO) (fun _ => inside None).
Proof.
  intros k [] k' Hin Hrun. pose proof Hin as [_ [E _ _ _] He _].
  apply bind_done in Hrun as ([] & k0 & Hs & Hrun). unfold sleep in Hs. destruct (mjoin _); [|discriminate].
  injection Hs as <-. rewrite E in Hrun. unfold svc0 in Hrun. unfold gets, bind at 1 in Hrun. cbn [ectx set_table] in Hrun.
  apply bind_done in Hrun as ([] & k1 & Hsvc & Hrun). apply bind_done in Hrun as ([] & k2 & Hr & Hrun).
  injection Hrun as <-. pose proof (svc_away k k1 Hin Hsvc) as Haw.
  destruct (Hres k1 tt k2 Haw Hr) as [[[l C1] C2 C3 C4 C5 C6 C7] [H1 H2 H3 H4] HBk].
  split; [split; auto; [exists l; now apply (kernel_ok_ext k2)|destruct C2; now split]|now split|exact He|].
  apply (HB k2); [|exact HBk]. now apply spared_rel.
Qed.

(** Waiting for a key. *)
Lemma getch_poll_triple n :
  triple (inside (Some me)) (getch_poll fuel kctx resume g n) (fun c k => is_u8 c /\ inside (Some me) k).
Proof.
  induction n as [|n IH]; cbn [getch_poll]; (eapply triple_bind; [apply poll_triple|]); intros [c|];
    try (intros k a k' [Hc Hk] Hrun; injection Hrun as <- <-; auto);
    apply triple_pure; intros _; (eapply triple_bind; [apply release_triple|]); intros [];
    (eapply triple_bind; [apply sleep_triple|]); intros [];
    (eapply triple_bind; [apply acquire_triple|]); intros []; [apply triple_diverge|exact IH].
Qed.

(** The mutex given back with a result. *)
Lemma release_ret {A} (Q : Prop) (c : A) :
  Q -> triple (inside (Some me)) (mutex_release ;; ret c) (fun a k => (a = c /\ Q) /\ inside None k).
Proof.
  intros HF. eapply triple_bind; [apply release_triple|]. intros []. cbn.
  intros k a k' Hk [= <- <-]. auto.
Qed.

Lemma getch_triple n :
  triple (inside None) (getch fuel kctx resume g n) (fun c k => is_u8 c /\ inside None k).
Proof.
  assert (forall c, is_u8 c -> triple (inside (Some me)) (mutex_release ;; ret c) (fun a k => is_u8 a /\ inside None k)) as Hret.
  { intros c Hc. eapply triple_weaken; [apply (release_ret True c I)|auto|]. intros a k [[-> _] Hk]. auto. }
  induction n as [|n IH]; cbn [getch]; (eapply triple_bind; [apply acquire_triple|]); intros [];
    (eapply triple_bind; [apply getch_poll_triple|]); intros c; apply triple_pure; intros Hc;
    (destruct (_ || _); [now apply Hret|]);
    (destruct (c =? 13); [eapply triple_bind; [apply write_triple|]; intros []; apply Hret; unfold is_u8; lia|]);
    (destruct (c =? 10); [eapply triple_bind; [apply release_triple|]; intros []|
                          eapply triple_bind; [apply write_triple|]; intros []; now apply Hret]);
    [apply triple_diverge|exact IH].
Qed.
End Waiting.
End Thread.

End Machine.
