(* ===== verification/ExecSpec.v ===== *)
(** Replacing a program: [exec] of ProcOps.v and the system call over it, from
    the strings in the old program's memory to the arguments the new program
    reads. *)

From Stdlib Require Import ZArith Lia.
From stdpp Require Import base strings numbers list.
From S2P Require Import Prelude Memory Frames PageTable PageFree PagingSpec UserMem PageRange Isolation.
From S2P Require Import LoadElf LoadSpec Args KernelStack Interrupts Devices Processes Scheduler ProcOps Demo.
From S2P Require Import Syscalls SyscallSpec ConsoleSpec SpawnSpec.

Local Open Scope Z_scope.

(** ** The kernel's invariant *)

Section Kernel.
Context {F : Pool}.

(** A process that keeps its pid and lives on, with another address space and
    another kernel stack; its old stack waits to be freed. *)
Lemma kernel_ok_replace k l k' l' i c c' a s :
  kernel_ok k l -> slot_has k i c -> is_live c = true -> pid c' = pid c ->
  KERNEL_STACKS_ALLOCATED (stk k) !! a = Some (Allocated (pid c)) ->
  KERNEL_STACKS_ALLOCATED (stk k) !! s = Some Free ->
  KERNEL_STACKS_ALLOCATED (stk k')
    = <[s := Allocated (pid c)]> (<[a := QueuedToFree (pid c)]> (KERNEL_STACKS_ALLOCATED (stk k))) ->
  PROCESS_TABLE k' = <[i := Some c']> (PROCESS_TABLE k) -> CURRENT_PROCESS k' = CURRENT_PROCESS k ->
  NEXT_PID k' = NEXT_PID k ->
  stacks_ok (stk k') l' -> spaces (kmem (stk k')) (k_root (stk k') :: live_roots (PROCESS_TABLE k')) l' ->
  kernel_ok k' l'.
Proof.
  intros [K1 K2 K3 K4 K5 K6 K7 K8 K9] Hi Hl Hpid Ha Hs Es Et Ec En Hst Hsp.
  assert (PROCESS_TABLE k !! i <> None) as Hi' by (unfold slot_has in Hi; destruct (_ !! i); discriminate).
  assert (forall j q, slot_has k' j q -> exists q0, slot_has k j q0 /\ pid q = pid q0 /\ (j <> i -> q = q0)) as Hc.
  { intros j q H. unfold slot_has in H. rewrite Et in H.
    apply (slot_has_insert _ _ _ _ _ k Hi') in H as [[-> [= <-]]|[Hne Hq]]; [exists c; auto; tauto|exists q; auto]. }
  pose proof (lookup_lt_Some _ _ _ Ha) as Hla. pose proof (lookup_lt_Some _ _ _ Hs) as Hls.
  split; rewrite ?Ec, ?En; auto.
  - unfold table_ok. now rewrite Et, length_insert.
  - intros j j' q q' (q0 & Hq & E & _)%Hc (q0' & Hq' & E' & _)%Hc Hp. apply (K5 j j' q0 q0' Hq Hq'). congruence.
  - intros j q (q0 & Hq & -> & _)%Hc. eauto.
  - intros w q Hw Hq. rewrite Es in Hw. apply list_elem_of_lookup in Hw as [b Hb].
    destruct (decide (b = s)) as [->|Hbs].
    + rewrite list_lookup_insert_eq in Hb by (now rewrite length_insert). injection Hb as <-. injection Hq as <-. eauto.
    + rewrite list_lookup_insert_ne in Hb by auto. destruct (decide (b = a)) as [->|Hba].
      * rewrite list_lookup_insert_eq in Hb by exact Hla. injection Hb as <-. injection Hq as <-. eauto.
      * rewrite list_lookup_insert_ne in Hb by auto. apply list_elem_of_lookup_2 in Hb. eauto.
  - intros j q Hj Hlive. rewrite Es. destruct (Hc j q Hj) as (q0 & Hq & E & Hne).
    destruct (decide (j = i)) as [->|Hji].
    + assert (q0 = c) as -> by (unfold slot_has in *; congruence). rewrite E.
      apply list_elem_of_lookup_2 with s. apply list_lookup_insert_eq. now rewrite length_insert.
    + specialize (Hne Hji). subst q0. pose proof (K8 j q Hq Hlive) as Hin.
      apply list_elem_of_lookup in Hin as [b Hb]. apply list_elem_of_lookup_2 with b.
      rewrite list_lookup_insert_ne by congruence. rewrite list_lookup_insert_ne; [exact Hb|].
      intros <-. apply Hji. apply (K5 j i q c Hq Hi). congruence.
Qed.

(** ** [exec] *)

(** Process [c] of slot [i] got the program; nothing else moved. *)
Record execd (k : kernel) (i : nat) (c : Process) (b : bytes) (h : Elf64Hdr) (args : list bytes)
    (ctx : ProcessContext) (k' : kernel) : Prop := {
  xe_ready : program_ready (kmem (stk k')) b h args ctx;
  xe_stack : exists a s, KERNEL_STACKS_ALLOCATED (stk k) !! a = Some (Allocated (pid c)) /\
    KERNEL_STACKS_ALLOCATED (stk k) !! s = Some Free /\ sp_el1 ctx = stack_start s + KERNEL_STACK_SIZE /\
    KERNEL_STACKS_ALLOCATED (stk k')
      = <[s := Allocated (pid c)]> (<[a := QueuedToFree (pid c)]> (KERNEL_STACKS_ALLOCATED (stk k)));
  xe_kept : Forall (space_kept (ram (kmem (stk k))) (ram (kmem (stk k'))))
    (live_roots (<[i := None]> (PROCESS_TABLE k)));
  xe_rest : exists s', k' = set_stk s' (set_table (<[i := Some (set_pctx ctx c)]> (PROCESS_TABLE k)) k);
}.

(** The live roots without and with another process in the slot. *)
Lemma live_roots_swap t i c c' :
  mjoin (t !! i) = Some c -> is_live c = true -> is_live c' = true ->
  live_roots t ≡ₚ ttbr0 (pctx c) :: live_roots (<[i := None]> t) /\
  live_roots (<[i := Some c']> t) ≡ₚ ttbr0 (pctx c') :: live_roots (<[i := None]> t).
Proof.
  intros Hi Hl Hl'. apply slot_lookup in Hi.
  pose proof (live_roots_insert t i (Some c) None Hi) as E1.
  pose proof (live_roots_insert t i (Some c) (Some c') Hi) as E2.
  cbn [slot_root] in E1, E2. rewrite Hl in *. rewrite Hl' in E2.
  split; [symmetry; exact E1|]. rewrite <- E1 in E2.
  refine (Permutation_cons_inv (transitivity E2 _)). apply perm_swap.
Qed.

(** Where the frames of the address space [r] are after the process of slot
    [i] got another one: free again, in the kernel's own tables and stacks, or
    in the new space [p]. *)
Definition given_back (k : kernel) (r : Z) (k' : kernel) (p : Z) (l' : list Z) : Prop :=
  forall q, q ∈ owned 3 (ram (kmem (stk k))) r ->
    q ∈ l' \/ q ∈ owned 3 (ram (kmem (stk k'))) (k_root (stk k')) \/ q ∈ owned 3 (ram (kmem (stk k'))) p.

Lemma replaced_given_back k l k' l' i c c' :
  kernel_ok k l -> kernel_ok k' l' -> slot_has k i c -> is_live c = true -> is_live c' = true ->
  PROCESS_TABLE k' = <[i := Some c']> (PROCESS_TABLE k) ->
  Forall (space_kept (ram (kmem (stk k))) (ram (kmem (stk k')))) (live_roots (<[i := None]> (PROCESS_TABLE k))) ->
  given_back k (ttbr0 (pctx c)) k' (ttbr0 (pctx c')) l'.
Proof.
  intros Hok Hok' Hi Hl Hl' Et Hk q Hq. destruct (live_roots_swap _ i c c' Hi Hl Hl') as [E E'].
  set (rest := live_roots (<[i := None]> (PROCESS_TABLE k))) in *.
  pose proof (ko_spaces _ _ Hok) as H. pose proof (ko_spaces _ _ Hok') as H'. rewrite Et in H'.
  apply (spaces_perm _ _ ([ttbr0 (pctx c); k_root (stk k)] ++ rest)) in H; [|rewrite E; apply perm_swap].
  apply (spaces_perm _ _ ([k_root (stk k'); ttbr0 (pctx c')] ++ rest)) in H'; [|now rewrite E'].
  destruct (spaces_pass_on _ _ _ _ _ _ _ q H H' Hk) as [Hp|Hp]; [now apply elem_of_app; left|now left|].
  right. cbn in Hp. rewrite app_nil_r in Hp. now apply elem_of_app in Hp.
Qed.

Lemma modify_slot_run k i f c :
  slot_has k i c -> modify_slot i f k = Done tt (set_table (<[i := Some (f c)]> (PROCESS_TABLE k)) k).
Proof. intros Hc. unfold modify_slot, modify. now rewrite (update_slot_insert _ _ _ _ Hc). Qed.

Lemma slot_has_set k i c c' s :
  slot_has k i c -> slot_has (set_stk s (set_table (<[i := Some c']> (PROCESS_TABLE k)) k)) i c'.
Proof.
  intros Hc. apply slot_lookup in Hc. unfold slot_has. cbn [PROCESS_TABLE set_table set_stk].
  now rewrite list_lookup_insert_eq by (now apply lookup_lt_Some in Hc).
Qed.

(** What is left of [exec] when the old stack is queued. *)
Definition exec_finish (i : nat) (b : bytes) (h : Elf64Hdr) (p : Z) (args : list bytes) (q : Z) : M kernel (result unit) :=
  let? new_kernel_sp := zoom stk_lens (alloc_stack q) in
  modify_slot i (set_pctx (ProcessContext_new (entry h) (elf_stack_top b h) new_kernel_sp p)) ;;
  let* self := slot_process i in
  let? self := initialize_args args self in
  modify_slot i (fun _ => self) ;;
  ret (ROk tt).

Lemma exec_finish_run k i c b h p args ksp s1 argc sp st2 :
  slot_has k i c -> alloc_stack (pid c) (stk k) = Done (ROk ksp) s1 ->
  push_args_to_stack (elf_stack_top b h) p args (kmem s1) = Done (ROk (argc, sp, elf_stack_top b h)) st2 ->
  exec_finish i b h p args (pid c) k = Done (ROk tt) (set_stk (set_kmem st2 s1) (set_table
    (<[i := Some (set_pctx (pctx_set_x 2 (elf_stack_top b h) (pctx_set_x 1 sp (pctx_set_x 0 argc
      (with_sp_el0 sp (ProcessContext_new (entry h) (elf_stack_top b h) ksp p))))) c)]> (PROCESS_TABLE k)) k)).
Proof.
  intros Hc Hrun1 Hrun2. unfold exec_finish, bind_try at 1.
  rewrite (bind_run _ _ _ _ _ (stk_zoom _ k _ _ Hrun1)).
  set (c1 := set_pctx (ProcessContext_new (entry h) (elf_stack_top b h) ksp p) c).
  rewrite (bind_run _ _ _ _ _ (modify_slot_run (set_stk s1 k) i _ c Hc)). fold c1.
  pose proof (slot_has_set k i c c1 s1 Hc) as Hc1.
  change (set_table _ (set_stk s1 k)) with (set_stk s1 (set_table (<[i := Some c1]> (PROCESS_TABLE k)) k)).
  rewrite (bind_run _ _ _ _ _ (slot_process_run _ _ _ Hc1)). unfold bind_try.
  set (k2 := set_stk s1 _) in *.
  rewrite (bind_run _ _ _ _ _ (initialize_args_run k2 args c1 argc sp (elf_stack_top b h) st2 Hrun2)).
  rewrite (bind_run _ _ _ _ _ (modify_slot_run (set_stk (set_kmem st2 (stk k2)) k2) i _ c1 Hc1)).
  unfold k2. cbn [set_stk set_table PROCESS_TABLE stk]. now rewrite list_insert_insert_eq.
Qed.

(** The slots once the stack of [q] is queued. *)
Lemma queued_slots (slots : list StackState) (a : nat) (q : Z) :
  slots !! a = Some (Allocated q) -> (forall g, slots !! g = Some (Allocated q) -> g = a) -> Free ∈ slots ->
  let slots' := <[a := QueuedToFree q]> slots in
  (Allocated q ∉ slots') /\ Free ∈ slots' /\ forall s, slots' !! s = Some Free -> slots !! s = Some Free.
Proof.
  intros Ha Hu Hf slots'. pose proof (lookup_lt_Some _ _ _ Ha) as Hlt.
  assert (forall g w, slots' !! g = Some w -> (g = a /\ w = QueuedToFree q) \/ (g <> a /\ slots !! g = Some w)) as Hc.
  { intros g w Hg. destruct (decide (g = a)) as [->|Hne]; unfold slots' in Hg.
    - rewrite list_lookup_insert_eq in Hg by exact Hlt. injection Hg as <-. auto.
    - rewrite list_lookup_insert_ne in Hg by auto. auto. }
  split; [|split].
  - intros (g & Hg)%list_elem_of_lookup. apply Hc in Hg as [[_ [=]]|[Hne Hg]]. auto.
  - apply list_elem_of_lookup in Hf as [f Hf]. apply list_elem_of_lookup_2 with f. unfold slots'.
    rewrite list_lookup_insert_ne by congruence. exact Hf.
  - intros s Hs. now apply Hc in Hs as [[_ [=]]|[_ Hs]].
Qed.

(** [exec] until the old stack is queued: the new space is loaded, the old one
    is gone. *)
Record exec_begun (k : kernel) (i : nat) (c : Process) (b : bytes) (h : Elf64Hdr) (p : Z) (a : nat)
    (s3 : kstate) (l3 : list Z) : Prop := {
  xb_world : world s3 (p :: live_roots (<[i := None]> (PROCESS_TABLE k))) l3;
  xb_loaded : elf_loaded b h p (kmem s3);
  xb_frames : (18 <= length l3)%nat;
  xb_stack : KERNEL_STACKS_ALLOCATED (stk k) !! a = Some (Allocated (pid c));
  xb_slots : KERNEL_STACKS_ALLOCATED s3 = <[a := QueuedToFree (pid c)]> (KERNEL_STACKS_ALLOCATED (stk k));
  xb_kept : Forall (space_kept (ram (kmem (stk k))) (ram (kmem s3))) (live_roots (<[i := None]> (PROCESS_TABLE k)));
  xb_gone : ttbr0 (pctx c) ∉ p :: live_roots (<[i := None]> (PROCESS_TABLE k));
}.

Lemma exec_begin k p l i c b h args :
  kernel_ok k (p :: l) -> slot_has k i c -> is_live c = true -> elf_ok b h ->
  (frames_for b h <= length l)%nat ->
  exists a s3 l3, exec i b args k = exec_finish i b h p args (pid c) (set_stk s3 k) /\
    exec_begun k i c b h p a s3 l3.
Proof.
  intros Hok Hc Hl Hb Hlen. unfold frames_for in Hlen.
  pose proof (ko_stack _ _ Hok i c Hc Hl) as Ha. apply list_elem_of_lookup in Ha as [a Ha].
  destruct (world_load (stk k) _ p l b h (kernel_world _ _ Hok) Hb ltac:(lia))
    as (st1 & l1 & Hrun1 & Hw1 & [A1 S1 K1] & Hl1 & Hlen1).
  set (s1 := set_kmem st1 (stk k)) in *. set (rest := live_roots (<[i := None]> (PROCESS_TABLE k))).
  destruct (live_roots_swap (PROCESS_TABLE k) i c c Hc Hl Hl) as [Er _]. fold rest in Er.
  apply (world_perm _ _ (ttbr0 (pctx c) :: p :: rest)) in Hw1; [|rewrite Er; apply perm_swap].
  rewrite Er in K1. apply Forall_cons in K1 as [_ K1].
  pose proof (spaces_roots_nodup _ _ _ (wo_spaces _ _ _ Hw1)) as Hgone.
  apply NoDup_cons in Hgone as [_ Hgone]. apply NoDup_cons in Hgone as [Hgone _].
  destruct (world_free s1 (p :: rest) (ttbr0 (pctx c)) l1 Hw1) as (st2 & Hrun2 & Hw2 & [A2 S2 [Kp K2]%Forall_cons]).
  set (l2 := reverse _ ++ l1) in *. assert (length l1 <= length l2)%nat by (unfold l2; rewrite length_app; lia).
  pose proof (elf_loaded_kept s1 _ l1 (set_kmem st2 s1) b h p Hw1 ltac:(right; now left) Kp (el_segs _ _ Hb) Hl1) as Hl2.
  set (s2 := set_kmem st2 s1) in *. assert (KERNEL_STACKS_ALLOCATED s2 !! a = Some (Allocated (pid c))) as Ha2 by exact Ha.
  destruct (world_queue s2 (p :: rest) l2 a (pid c) Hw2 Ha2) as [Hrun3 Hw3]. set (s3 := set_stacks _ s2) in *.
  exists a, s3, l2. split.
  - unfold exec, bind_try at 1. rewrite (bind_run _ _ _ _ _ (kmem_zoom _ k _ _ Hrun1)). fold s1.
    rewrite (bind_run _ _ _ _ _ (slot_process_run (set_stk s1 k) i c Hc)).
    rewrite (bind_run _ _ _ _ _ (kmem_zoom _ (set_stk s1 k) _ _ Hrun2)). unfold bind_try at 1.
    now rewrite (bind_run _ _ _ _ _ (stk_zoom _ (set_stk s2 k) _ _ Hrun3)).
  - split; [exact Hw3|exact Hl2|lia|exact Ha|reflexivity| |exact Hgone].
    now apply (kept_forall_trans _ (ram st1)).
Qed.

(** The slots that [exec_begin] leaves. *)
Lemma exec_begun_slots k l i c b h p a s3 l3 :
  kernel_ok k l -> exec_begun k i c b h p a s3 l3 -> Free ∈ KERNEL_STACKS_ALLOCATED (stk k) ->
  (Allocated (pid c) ∉ KERNEL_STACKS_ALLOCATED s3) /\ Free ∈ KERNEL_STACKS_ALLOCATED s3 /\
  forall s, KERNEL_STACKS_ALLOCATED s3 !! s = Some Free -> KERNEL_STACKS_ALLOCATED (stk k) !! s = Some Free.
Proof.
  intros Hok [_ _ _ Ha -> _ _] Hf. apply (queued_slots _ _ _ Ha); [|exact Hf].
  intros g Hg. exact (sk_unique _ _ (ko_stacks _ _ Hok) g a (pid c) Hg Ha).
Qed.

Lemma exec_ok k p l i c b h args :
  kernel_ok k (p :: l) -> slot_has k i c -> is_live c = true -> startable b h args ->
  Free ∈ KERNEL_STACKS_ALLOCATED (stk k) -> (frames_for b h <= length l)%nat ->
  exists ctx k' l', exec i b args k = Done (ROk tt) k' /\ kernel_ok k' l' /\
    execd k i c b h args ctx k' /\ ttbr0 ctx = p.
Proof.
  intros Hok Hc Hl Hst Hfree Hlen.
  destruct (exec_begin k p l i c b h args Hok Hc Hl (st_elf _ _ _ Hst) Hlen) as (a & s3 & l3 & Hrun & Hbeg).
  destruct (exec_begun_slots k _ i c b h p a s3 l3 Hok Hbeg Hfree) as (Hq1 & Hq2 & Hq3).
  destruct Hbeg as [Hw3 Hl3 Hlen3 Ha S3 K3 _]. set (rest := live_roots (<[i := None]> (PROCESS_TABLE k))) in *.
  destruct (world_start s3 p rest l3 b h args (pid c) Hw3 Hl3 Hst Hlen3 Hq1 Hq2)
    as (s & s4 & st5 & l5 & Hrun4 & Hrun5 & Hs & Hw5 & [A5 S5 K5] & Hready).
  cbv zeta in *. apply Hq3 in Hs. rewrite S3 in S5. set (ksp := stack_start s + KERNEL_STACK_SIZE) in *.
  set (ctx := started_ctx b h args ksp p) in *.
  set (k' := set_stk (set_kmem st5 s4) (set_table (<[i := Some (set_pctx ctx c)]> (PROCESS_TABLE k)) k)).
  exists ctx, k', l5. split; [|split; [|split; [split|reflexivity]]].
  - rewrite Hrun. exact (exec_finish_run (set_stk s3 k) i c b h p args ksp s4 _ _ _ Hc Hrun4 Hrun5).
  - apply (kernel_ok_replace k (p :: l) k' l5 i c (set_pctx ctx c) a s); auto; [apply Hw5|].
    refine (spaces_perm _ _ _ _ _ (wo_spaces _ _ _ Hw5)). f_equiv.
    destruct (live_roots_swap (PROCESS_TABLE k) i c (set_pctx ctx c) Hc Hl Hl) as [_ E]. symmetry. exact E.
  - exact Hready.
  - exists a, s. auto.
  - now apply (kept_forall_trans _ (ram (kmem s3))).
  - eexists. reflexivity.
Qed.

(** ** The arguments in the caller's memory *)

Definition holds (umem : Z -> option Z) (va : Z) (s : bytes) : Prop :=
  forall j b, s !! j = Some b -> umem (va + Z.of_nat j) = Some b.

(** Two arrays of pointers and lengths, and the strings. *)
Record args_at (umem : Z -> option Z) (ptrs lens : Z) (args : list bytes) : Prop := {
  aa_ptrs : 0 < ptrs /\ ptrs + 8 * Z.of_nat (length args) <= VA_LIMIT;
  aa_lens : 0 < lens /\ lens + 8 * Z.of_nat (length args) <= VA_LIMIT;
  aa_arg : forall i a, args !! i = Some a -> Z.of_nat (length a) <= MAX_ARG_LEN /\
    exists ptr, 0 < ptr /\ ptr + Z.of_nat (length a) <= VA_LIMIT /\ holds umem ptr a /\
      holds umem (ptrs + 8 * Z.of_nat i) (le_split 8 ptr) /\
      holds umem (lens + 8 * Z.of_nat i) (le_split 8 (Z.of_nat (length a)));
}.

Lemma load_u64_user k root va v :
  in_space root (stk k) -> 0 <= va -> va + 8 <= VA_LIMIT -> is_u64 v ->
  holds (vread (kmem (stk k)) root) va (le_split 8 v) -> load_u64 va k = Done v k.
Proof.
  intros Hsp H0 Hlim Hv Hh. unfold load_u64.
  pose proof (load_bytes_user k root va (le_split 8 v) Hsp H0) as Hrun. rewrite length_le_split in Hrun.
  rewrite (bind_run _ _ _ _ _ (Hrun Hlim Hh)). unfold ret. now rewrite le_split_8_u64.
Qed.

(** The kernel reads them, one after the other. *)
Lemma read_strings_run k root ptrs lens args n i :
  in_space root (stk k) -> args_at (vread (kmem (stk k)) root) ptrs lens args ->
  (i + n = length args)%nat -> read_strings n ptrs lens (Z.of_nat i) k = Done (Some (drop i args)) k.
Proof.
  intros Hsp [[P1 P2] [L1 L2] Ha]. unfold VA_LIMIT in *. revert i. induction n as [|n IH]; intros i Hi; cbn [read_strings].
  { rewrite drop_ge by lia. reflexivity. }
  destruct (lookup_lt_is_Some_2 args i ltac:(lia)) as [a Hai].
  destruct (Ha i a Hai) as (Hlen & ptr & Q1 & Q2 & Hs & Hp & Hl). unfold MAX_ARG_LEN in *.
  rewrite !add64_small by (unfold U64; lia). rewrite !(Z.mul_comm _ 8).
  pose proof (load_u64_user k root (ptrs + 8 * Z.of_nat i) ptr Hsp ltac:(lia) ltac:(unfold VA_LIMIT; lia)
    ltac:(unfold is_u64, U64; lia) Hp) as R1.
  pose proof (load_u64_user k root (lens + 8 * Z.of_nat i) (Z.of_nat (length a)) Hsp ltac:(lia)
    ltac:(unfold VA_LIMIT; lia) ltac:(unfold is_u64, U64; lia) Hl) as R2.
  rewrite (bind_run _ _ _ _ _ R1), (bind_run _ _ _ _ _ R2).
  rewrite Z.gtb_ltb, (proj2 (Z.ltb_ge _ _)) by exact Hlen.
  rewrite (proj2 (Z.eqb_neq ptr 0)), andb_false_r by lia. cbn [orb].
  rewrite (bind_run _ _ _ _ _ (load_bytes_user k root ptr a Hsp ltac:(lia) ltac:(unfold VA_LIMIT; lia) Hs)).
  replace (Z.of_nat i + 1) with (Z.of_nat (S i)) by lia.
  rewrite (bind_run _ _ _ _ _ (IH (S i) ltac:(lia))). unfold ret. now rewrite (drop_S args a i Hai).
Qed.

(** ** The system call *)

(** What [sys_exec] does when the strings are read and the file is found. *)
Lemma sys_exec_run images k root args :
  in_space root (stk k) -> args_at (vread (kmem (stk k)) root) (ectx_x 0 (ectx k)) (ectx_x 1 (ectx k)) args ->
  ectx_x 2 (ectx k) = Z.of_nat (length args) -> (0 < length args <= 32)%nat ->
  Forall (fun a => utf8_valid a = true) args -> current_slot k = Done (Some (CURRENT_PROCESS k)) k ->
  sys_exec images k =
    match read_file images (nth 0 args []) with
    | None => Done ok (set_ectx (ectx_set_x 0 U64_MAX (ectx k)) k)
    | Some elf_bytes =>
        (let* r := exec (CURRENT_PROCESS k) elf_bytes args in
         match r with
         | RErr _ => set_x 0 U64_MAX ;; ret ok
         | ROk _ =>
             modify_slot (CURRENT_PROCESS k) (with_name (name_field (nth 0 args []))) ;;
             let* p := slot_process (CURRENT_PROCESS k) in
             modify (fun k => set_ectx (update_from_pctx (pctx p) (ectx k)) k) ;;
             ret ok
         end) k
    end.
Proof.
  intros Hsp Ha Hn Hlen Hval Hcur. pose proof Ha as [[P1 _] [L1 _] _]. unfold sys_exec, arg.
  rewrite (bind_run _ _ _ (ectx_x 0 (ectx k)) k), (bind_run _ _ _ (ectx_x 1 (ectx k)) k),
    (bind_run _ _ _ (ectx_x 2 (ectx k)) k) by reflexivity.
  rewrite (proj2 (Z.eqb_neq (ectx_x 0 _) 0)), (proj2 (Z.eqb_neq (ectx_x 1 _) 0)) by lia.
  rewrite Hn, Z.gtb_ltb. unfold Syscalls.MAX_ARGS.
  rewrite (proj2 (Z.eqb_neq (Z.of_nat _) 0)), (proj2 (Z.ltb_ge 32 _)) by lia. cbn [orb].
  rewrite Nat2Z.id.
  rewrite (bind_run _ _ _ _ _ (read_strings_run k root _ _ args (length args) 0 Hsp Ha eq_refl)). rewrite drop_0.
  assert (forallb utf8_valid args = true) as -> by (apply forallb_forall; intros a Hin; rewrite Forall_forall in Hval;
    apply Hval; now apply list_elem_of_In).
  cbn [negb]. rewrite (bind_run _ _ _ _ _ Hcur). destruct (read_file _ _); reflexivity.
Qed.

(** C11. [exec], from one program to the next.  x0 and x1 point to arrays of the
    addresses and the lengths of the strings, x2 is their number (the comment
    above [sys_exec] says otherwise), and the caller's memory holds at most 32
    valid ones, the first of them a file's name.  Then the call replaces the
    caller: every frame of its space is now free, in the kernel's table or in
    the new space ([given_back]), and none is lost; it has the file's program
    in a new space, and the registers the
    exception returns with start the program so that [parse_args!] reads
    exactly the caller's strings; pid and parent stay, the name is the file's,
    every other space is untouched, and the kernel's invariant holds.  For a
    name that is no file the call returns -1 and does nothing. *)
Theorem sys_exec_spec images k p l c args :
  kernel_ok k (p :: l) -> slot_has k (CURRENT_PROCESS k) c -> is_live c = true ->
  in_space (ttbr0 (pctx c)) (stk k) ->
  args_at (vread (kmem (stk k)) (ttbr0 (pctx c))) (ectx_x 0 (ectx k)) (ectx_x 1 (ectx k)) args ->
  ectx_x 2 (ectx k) = Z.of_nat (length args) -> (0 < length args <= 32)%nat ->
  Forall (fun a => utf8_valid a = true) args ->
  match read_file images (nth 0 args []) with
  | None => sys_exec images k = Done ok (set_ectx (ectx_set_x 0 U64_MAX (ectx k)) k)
  | Some b => forall h, startable b h args -> Free ∈ KERNEL_STACKS_ALLOCATED (stk k) ->
      (frames_for b h <= length l)%nat ->
      exists ctx k' l', sys_exec images k = Done ok k' /\ kernel_ok k' l' /\
        ectx k' = update_from_pctx ctx (ectx k) /\ CURRENT_PROCESS k' = CURRENT_PROCESS k /\
        PROCESS_TABLE k' = <[CURRENT_PROCESS k := Some (with_name (name_field (nth 0 args [])) (set_pctx ctx c))]>
                             (PROCESS_TABLE k) /\
        program_ready (kmem (stk k')) b h args ctx /\
        Forall (space_kept (ram (kmem (stk k))) (ram (kmem (stk k'))))
          (live_roots (<[CURRENT_PROCESS k := None]> (PROCESS_TABLE k))) /\
        given_back k (ttbr0 (pctx c)) k' (ttbr0 ctx) l'
  end.
Proof.
  intros Hok Hc Hl Hsp Ha Hn Hlen Hval.
  rewrite (sys_exec_run images k (ttbr0 (pctx c)) args Hsp Ha Hn Hlen Hval (current_slot_run _ _ _ Hok Hc)).
  destruct (read_file images (nth 0 args [])) as [b|]; [|reflexivity]. intros h Hst Hfree Hfr.
  set (i := CURRENT_PROCESS k) in *.
  destruct (exec_ok k p l i c b h args Hok Hc Hl Hst Hfree Hfr) as (ctx & k1 & l1 & Hrun & Hok1 & [E1 E2 E3 [s' E4]] & _).
  set (c1 := set_pctx ctx c) in *.
  assert (slot_has k1 i c1) as Hc1 by (rewrite E4; now apply (slot_has_set k i c)).
  set (nm := name_field (nth 0 args [])). set (t := <[i := Some (with_name nm c1)]> (PROCESS_TABLE k1)).
  assert (t = <[i := Some (with_name nm c1)]> (PROCESS_TABLE k)) as Et
    by (unfold t; rewrite E4; cbn [PROCESS_TABLE set_stk set_table]; now rewrite list_insert_insert_eq).
  exists ctx, (set_ectx (update_from_pctx ctx (ectx k)) (set_table t k1)), l1.
  assert (kernel_ok (set_table t k1) l1) as Hok2.
  { pose proof (kernel_ok_slot k1 l1 i (with_name nm) c1 Hok1 Hc1 eq_refl eq_refl eq_refl) as H.
    now rewrite (update_slot_insert _ _ _ _ Hc1) in H. }
  split; [|split; [apply (kernel_ok_ext _ _ _ Hok2); reflexivity|split; [reflexivity|split; [|split; [exact Et|split; [exact E1|split; [exact E3|]]]]]]].
  - rewrite (bind_run _ _ _ _ _ Hrun), (bind_run _ _ _ _ _ (modify_slot_run k1 i (with_name nm) c1 Hc1)). fold t.
    assert (slot_has (set_table t k1) i (with_name nm c1)) as Hc2
      by exact (slot_has_set k1 i c1 (with_name nm c1) (stk k1) Hc1).
    rewrite (bind_run _ _ _ _ _ (slot_process_run _ _ _ Hc2)).
    assert (ectx (set_table t k1) = ectx k) as He by (rewrite E4; reflexivity).
    unfold bind, modify. now rewrite He.
  - rewrite E4. reflexivity.
  - exact (replaced_given_back k _ _ l1 i c (with_name nm c1) Hok Hok2 Hc Hl Hl Et E3).
Qed.

(** ** An error too late *)

Lemma exec_finish_rejects k i c b h p args ksp s1 :
  slot_has k i c -> alloc_stack (pid c) (stk k) = Done (ROk ksp) s1 -> ~ args_fit args ->
  exists e, exec_finish i b h p args (pid c) k = Done (RErr e) (set_stk s1 (set_table
    (<[i := Some (set_pctx (ProcessContext_new (entry h) (elf_stack_top b h) ksp p) c)]> (PROCESS_TABLE k)) k)).
Proof.
  intros Hc Hrun Hfit. unfold exec_finish, bind_try at 1. rewrite (bind_run _ _ _ _ _ (stk_zoom _ k _ _ Hrun)).
  rewrite (bind_run _ _ _ _ _ (modify_slot_run (set_stk s1 k) i _ c Hc)).
  set (c1 := set_pctx _ c).
  change (set_table _ (set_stk s1 k)) with (set_stk s1 (set_table (<[i := Some c1]> (PROCESS_TABLE k)) k)).
  pose proof (slot_has_set k i c c1 s1 Hc) as Hc1. set (k2 := set_stk s1 _) in *.
  rewrite (bind_run _ _ _ _ _ (slot_process_run _ _ _ Hc1)). unfold bind_try, initialize_args, push_args_to_stack.
  rewrite args_image_eq, decide_False by exact Hfit. eexists. unfold bind_try, bind.
  erewrite kmem_zoom by reflexivity.
  replace (set_stk (set_kmem (kmem (stk k2)) (stk k2)) k2) with k2 by (unfold k2; destruct s1; reflexivity). reflexivity.
Qed.

(** C23. The arguments of an [exec] (the arrays of x0 and x1, x2 of them) may be
    valid and still not fit the 4096-byte argument page; that is found only
    when the caller's space is freed and its table entry names the new one.
    The call then returns -1 to the caller: the exception goes back to its
    registers, with its old table in TTBR0, which is no live space any more
    and whose frames are free or in use for something else ([given_back]). *)
Theorem exec_error_too_late images k p l c args b h :
  kernel_ok k (p :: l) -> slot_has k (CURRENT_PROCESS k) c -> is_live c = true ->
  in_space (ttbr0 (pctx c)) (stk k) -> ettbr0 (ectx k) = ttbr0 (pctx c) ->
  args_at (vread (kmem (stk k)) (ttbr0 (pctx c))) (ectx_x 0 (ectx k)) (ectx_x 1 (ectx k)) args ->
  ectx_x 2 (ectx k) = Z.of_nat (length args) -> (0 < length args <= 32)%nat ->
  Forall (fun a => utf8_valid a = true) args -> read_file images (nth 0 args []) = Some b -> elf_ok b h ->
  Free ∈ KERNEL_STACKS_ALLOCATED (stk k) -> (frames_for b h <= length l)%nat -> ~ args_fit args ->
  exists k' l', sys_exec images k = Done ok k' /\ kernel_ok k' l' /\
    ectx k' = ectx_set_x 0 U64_MAX (ectx k) /\ (ettbr0 (ectx k') ∉ live_roots (PROCESS_TABLE k')) /\
    given_back k (ettbr0 (ectx k)) k' p l' /\ (exists c', slot_has k' (CURRENT_PROCESS k) c' /\ pid c' = pid c /\ ttbr0 (pctx c') = p).
Proof.
  intros Hok Hc Hl Hsp Hroot Ha Hn Hlen Hval Hfile Hb Hfree Hfr Hfit.
  rewrite (sys_exec_run images k (ttbr0 (pctx c)) args Hsp Ha Hn Hlen Hval (current_slot_run _ _ _ Hok Hc)), Hfile.
  set (i := CURRENT_PROCESS k) in *.
  destruct (exec_begin k p l i c b h args Hok Hc Hl Hb Hfr) as (a & s3 & l3 & Hrun & Hbeg).
  destruct (exec_begun_slots k _ i c b h p a s3 l3 Hok Hbeg Hfree) as (Hq1 & Hq2 & Hq3).
  destruct Hbeg as [Hw3 _ Hlen3 Hsa S3 K3 Hgone].
  destruct (world_stack s3 _ l3 (pid c) Hw3 Hlen3 Hq1 Hq2) as (s & s4 & l4 & Hrun4 & Hw4 & Hs & [A4 S4 [_ K4]%Forall_cons]).
  apply Hq3 in Hs. rewrite S3 in S4.
  destruct (exec_finish_rejects (set_stk s3 k) i c b h p args _ s4 Hc Hrun4 Hfit) as [e Hfin].
  set (c' := set_pctx _ c) in Hfin. set (t := <[i := Some c']> (PROCESS_TABLE k)).
  destruct (live_roots_swap (PROCESS_TABLE k) i c c' Hc Hl Hl) as [_ Et]. fold t in Et.
  assert (kernel_ok (set_ectx (ectx_set_x 0 U64_MAX (ectx k)) (set_stk s4 (set_table t k))) l4) as Hok'.
  { apply (kernel_ok_replace k (p :: l) _ l4 i c c' a s); auto; [apply Hw4|].
    refine (spaces_perm _ _ _ _ _ (wo_spaces _ _ _ Hw4)). f_equiv. symmetry. exact Et. }
  exists (set_ectx (ectx_set_x 0 U64_MAX (ectx k)) (set_stk s4 (set_table t k))), l4.
  split; [|split; [exact Hok'|split; [reflexivity|split; [|split]]]].
  - rewrite (bind_run _ _ k (RErr e) (set_stk s4 (set_table t k))) by (rewrite Hrun; exact Hfin). reflexivity.
  - change (ettbr0 (ectx k) ∉ live_roots t). rewrite Hroot, Et. exact Hgone.
  - rewrite Hroot. apply (replaced_given_back k _ _ l4 i c c' Hok Hok' Hc Hl Hl eq_refl).
    now apply (kept_forall_trans _ (ram (kmem s3))).
  - exists c'. split; [|split; reflexivity]. exact (slot_has_set k i c c' s4 Hc).
Qed.


Lemma kernel_ok_ttbr0 r k l :
  kernel_ok k l -> kernel_ok (set_stk (set_kmem (set_ttbr0 r (kmem (stk k))) (stk k)) k) l.
Proof.
  intros [[S1 S2 S3 S4 S5] [[F1 F2 F3 F4 F5 F6] P2 P3] K3 K4 K5 K6 K7 K8 K9].
  split; auto; split; auto; [exact (space_ok_ttbr0 r _ _ _ S1)|split; auto].
Qed.

End Kernel.

(** ** Witnesses *)

(** A program whose file is the data [d], loaded at 0x400000. *)
Definition caller_hdr : Elf64Hdr := demo_elf_hdr.
Definition caller_ph (d : bytes) : Elf64ProgHdr :=
  mk_Elf64ProgHdr PT_LOAD 5 120 0x400000 0x400000 (Z.of_nat (length d)) (Z.of_nat (length d)) 4096.
Definition caller_of (d : bytes) : bytes := hdr_bytes caller_hdr ++ ph_bytes (caller_ph d) ++ d.

(** [s] is at offset [o] of the data. *)
Definition piece (d : bytes) (o : nat) (s : bytes) : Prop :=
  take (length s) (drop o d) = s /\ (o + length s <= length d)%nat.
#[global] Instance piece_dec d o s : Decision (piece d o s).
Proof. unfold piece. apply _. Defined.

(** The arguments at the offsets [offs], after the arrays of their addresses
    and lengths. *)
Definition laid_out (d : bytes) (args : list bytes) (offs : list nat) (i : nat) : Prop :=
  match args !! i, offs !! i with
  | Some a, Some o => (length a <= 256)%nat /\ piece d o a /\ piece d (8 * i) (le_split 8 (0x400000 + Z.of_nat o)) /\
      piece d (8 * length args + 8 * i) (le_split 8 (Z.of_nat (length a)))
  | _, _ => False
  end.
#[global] Instance laid_out_dec d args offs i : Decision (laid_out d args offs i).
Proof. unfold laid_out. destruct (args !! i), (offs !! i); apply _. Defined.

Record caller_ok (d : bytes) (args : list bytes) (offs : list nat) : Prop := {
  co_loads : loads (caller_of d) caller_hdr = [caller_ph d];
  co_pages : all_pages [caller_ph d] = [0x400000];
  co_elf : elf_ok (caller_of d) caller_hdr;
  co_len : (length d <= 4096)%nat;
  co_args : Forall (laid_out d args offs) (seq 0 (length args));
}.

Lemma caller_holds st root d args offs o s :
  caller_ok d args offs -> elf_loaded (caller_of d) caller_hdr root st -> piece d o s ->
  holds (vread st root) (0x400000 + Z.of_nat o) s.
Proof.
  intros [Hl _ _ _ _] [_ Hf _] [Hs Hlen] j b Hj. pose proof (lookup_lt_Some _ _ _ Hj) as Hlt.
  rewrite <- Z.add_assoc. replace (Z.of_nat o + Z.of_nat j) with (Z.of_nat (o + j)) by lia.
  rewrite (Hf (caller_ph d)); [|rewrite Hl; now left|cbn; lia]. cbn [LoadElf.offset caller_ph].
  unfold caller_of. rewrite app_assoc.
  assert (length (hdr_bytes caller_hdr ++ ph_bytes (caller_ph d)) = 120%nat) as Hh
    by (rewrite length_app; unfold ph_bytes; rewrite !length_app, !length_le_split; reflexivity).
  rewrite lookup_app_r by lia. rewrite Hh, <- Hj, <- Hs, lookup_take_lt, lookup_drop by lia. f_equal. lia.
Qed.

Lemma caller_args_at st root d args offs :
  caller_ok d args offs -> elf_loaded (caller_of d) caller_hdr root st -> (0 < length args <= 32)%nat ->
  args_at (vread st root) 0x400000 (0x400000 + 8 * Z.of_nat (length args)) args.
Proof.
  intros Hd Hl Hn. pose proof (fun o s => caller_holds st root d args offs o s Hd Hl) as Hh.
  pose proof (co_len _ _ _ Hd) as Hlen. pose proof (co_args _ _ _ Hd) as Ha. rewrite Forall_forall in Ha.
  split; [unfold VA_LIMIT; lia|unfold VA_LIMIT; lia|]. intros i a Hi.
  specialize (Ha i ltac:(apply elem_of_seq; apply lookup_lt_Some in Hi; lia)). unfold laid_out in Ha. rewrite Hi in Ha.
  destruct (offs !! i) as [o|]; [|contradiction]. destruct Ha as (H1 & H2 & H3 & H4).
  split; [unfold MAX_ARG_LEN; lia|]. exists (0x400000 + Z.of_nat o). split; [lia|].
  split; [destruct H2; unfold VA_LIMIT; lia|]. split; [now apply Hh|]. split.
  - replace (0x400000 + 8 * Z.of_nat i) with (0x400000 + Z.of_nat (8 * i)) by lia. now apply Hh.
  - replace (0x400000 + 8 * Z.of_nat (length args) + 8 * Z.of_nat i)
      with (0x400000 + Z.of_nat (8 * length args + 8 * i)) by lia. now apply Hh.
Qed.

(** The kernel after the caller was started, and its trap. *)
Definition demo_spawned (d : bytes) : kernel :=
  after (spawn_from_elf (str "init") 0 (caller_of d) demo_args demo_boot) demo_boot.
Definition demo_exec_ectx (r : Z) (n : nat) : ExceptionContext :=
  mk_ectx E_SYNC EL064 (0x400000 :: (0x400000 + 8 * Z.of_nat n) :: Z.of_nat n :: replicate 28 0) 0 0 0 0 0 0 r.
Definition trap_of (r : Z) (n : nat) (k : kernel) : kernel :=
  set_ectx (demo_exec_ectx r n) (set_current 0 (set_stk (set_kmem (set_ttbr0 r (kmem (stk k))) (stk k)) k)).

(** A caller in slot 0, in its space, with its arguments in place, and a
    kernel with room for the next program. *)
Record execs {F : Pool} (k : kernel) (p : Z) (l : list Z) (c : Process) (args : list bytes) : Prop := {
  ex_ok : kernel_ok k (p :: l);
  ex_current : CURRENT_PROCESS k = 0%nat;
  ex_slot : slot_has k (CURRENT_PROCESS k) c;
  ex_live : is_live c = true;
  ex_space : in_space (ttbr0 (pctx c)) (stk k);
  ex_root : ettbr0 (ectx k) = ttbr0 (pctx c);
  ex_args : args_at (vread (kmem (stk k)) (ttbr0 (pctx c))) (ectx_x 0 (ectx k)) (ectx_x 1 (ectx k)) args;
  ex_argc : ectx_x 2 (ectx k) = Z.of_nat (length args);
  ex_stack : Free ∈ KERNEL_STACKS_ALLOCATED (stk k);
  ex_frames : (frames_for demo_elf demo_elf_hdr <= length l)%nat;
}.

Lemma trap_of_ok {F : Pool} k d args offs c p l :
  caller_ok d args offs -> (0 < length args <= 32)%nat ->
  kernel_ok k (p :: l) -> spawned demo_boot (str "init") 0 (caller_of d) caller_hdr demo_args 0 c k ->
  Z.land (ttbr0 (pctx c)) PTE_ADDR_MASK = ttbr0 (pctx c) ->
  (frames_for demo_elf demo_elf_hdr <= length l)%nat ->
  execs (trap_of (ttbr0 (pctx c)) (length args) k) p l c args.
Proof.
  intros Hd Hn Hok [S1 S2 S3 S4 _ S5 (a & Sa & _ & Ss) S7 [s' S8]] Hmask Hlen.
  assert (slot_has k 0 c) as Hc by (rewrite S8; reflexivity).
  assert (is_live c = true) as Hl by (unfold is_live, is_state; now rewrite S3).
  split; try reflexivity; auto.
  - destruct (kernel_ok_ttbr0 (ttbr0 (pctx c)) _ _ Hok). split; auto. apply Nat.ltb_lt. reflexivity.
  - split; [exact Hmask|]. exists (p :: l). apply (space_ok_ttbr0 (ttbr0 (pctx c))).
    apply (world_space _ _ _ _ (kernel_world _ _ Hok)). exact (live_root_in _ 0 c Hc Hl).
  - exact (caller_args_at _ _ d args offs Hd (pr_image _ _ _ _ _ S5) Hn).
  - change (Free ∈ KERNEL_STACKS_ALLOCATED (stk k)). rewrite Ss.
    change (KERNEL_STACKS_ALLOCATED (stk demo_boot)) with (replicate 50 Free) in *.
    apply list_elem_of_lookup_2 with (if decide (a = 0%nat) then 1%nat else 0%nat).
    destruct (decide (a = 0%nat)) as [->|Ha]; [reflexivity|now rewrite list_lookup_insert_ne by auto].
Qed.

(** The first free frame of [demo_boot] is the caller's root. *)
Definition demo_caller_root : Z := 0xFF000.

Lemma demo_spawned_ok d args offs :
  caller_ok d args offs -> FREE_FRAME_COUNT (kmem (stk (demo_spawned d))) = 228 ->
  (ttbr0 ∘ pctx) <$> mjoin (PROCESS_TABLE (demo_spawned d) !! 0%nat) = Some demo_caller_root ->
  (0 < length args <= 32)%nat ->
  exists (F : Pool) c p l, execs (trap_of demo_caller_root (length args) (demo_spawned d)) p l c args.
Proof.
  intros Hd Hcount Hroot Hn. destruct demo_boot_room as (p & l & E & [R1 R2 R3 R4 _]).
  pose proof (boots_ok _ _ _ demo_boot_boots) as Hok. rewrite E in Hok at 2.
  set (F := boots_pool _ _ _) in Hok. clearbody F.
  assert (frames_for (caller_of d) caller_hdr = 63%nat) as Hff
    by (unfold frames_for; rewrite (co_loads _ _ _ Hd), (co_pages _ _ _ Hd); reflexivity).
  assert (length l = 253%nat) as Hl by (replace (length l) with (length (tail demo_boot_list)) by (now rewrite E); vm_compute; reflexivity).
  destruct demo_startable as [_ T2 T3 T4].
  destruct (spawn_ok demo_boot p l (str "init") 0 (caller_of d) caller_hdr demo_args 0 Hok) as (c & k' & l' & Hrun & Hok' & Hsp);
    [split; [apply (co_elf _ _ _ Hd)|exact T2|exact T3|exact T4]|split; auto; lia|].
  assert (demo_spawned d = k') as Ek by (unfold demo_spawned; now rewrite Hrun). rewrite <- Ek in *.
  pose proof (ff_count _ _ (so_free _ _ _ (sk_space _ _ (ko_stacks _ _ Hok')))) as Hlen.
  destruct l' as [|p' l']; [cbn [length] in Hlen; lia|]. cbn [length] in Hlen.
  assert (slot_has (demo_spawned d) 0 c) as Hc by (destruct (sw_rest _ _ _ _ _ _ _ _ _ Hsp) as [s' ->]; reflexivity).
  unfold slot_has in Hc. rewrite Hc in Hroot. injection Hroot as Hroot. rewrite <- Hroot.
  exists F, c, p', l'. apply (trap_of_ok _ d args offs); auto.
  - rewrite Hroot. reflexivity.
  - assert (frames_for demo_elf demo_elf_hdr = 63%nat) as -> by (unfold frames_for; rewrite demo_elf_loads; vm_compute; reflexivity). lia.
Qed.

(** ["wc"] and ["x"]. *)
Definition small_args : list bytes := [str "wc"; str "x"].
Definition small_offs : list nat := [32; 34]%nat.
Definition arrays (args : list bytes) (offs : list nat) : bytes :=
  List.concat ((fun o => le_split 8 (0x400000 + Z.of_nat o)) <$> offs) ++
  List.concat ((fun a => le_split 8 (Z.of_nat (length a))) <$> args).
Definition small_data : bytes := arrays small_args small_offs ++ str "wcx".

(** ["wc"] and thirty-one strings of 256 bytes, all of them the same one. *)
Definition large_args : list bytes := str "wc" :: replicate 31 (replicate 256 65).
Definition large_offs : list nat := 512%nat :: replicate 31 514%nat.
Definition large_data : bytes := arrays large_args large_offs ++ str "wc" ++ replicate 256 65.

Lemma caller_elf_ok d :
  bool_decide (Forall is_u8 (caller_of d)) = true -> (length d <= 4096)%nat -> (0 < length d)%nat ->
  Z.of_nat (length (caller_of d)) = 120 + Z.of_nat (length d) ->
  mkfrombytes (caller_of d) = Some caller_hdr -> loads (caller_of d) caller_hdr = [caller_ph d] ->
  all_pages [caller_ph d] = [0x400000] -> elf_ok (caller_of d) caller_hdr.
Proof.
  intros H1 H2 H3 H4 H5 H6 H7. split; rewrite ?H6.
  - now apply bool_decide_eq_true in H1.
  - rewrite H4. unfold U64. lia.
  - exact H5.
  - intros [=].
  - apply Forall_singleton.
    split; cbn [LoadElf.offset filesize memsize virtaddr caller_ph]; unfold ph_hi, VA_LIMIT; cbn [virtaddr memsize caller_ph]; (lia || (intros; exfalso; lia)).
  - rewrite H7. apply NoDup_singleton.
  - unfold top_of, ph_hi, VA_LIMIT. cbn [fold_left virtaddr memsize caller_ph].
    destruct (_ >? _); lia.
Qed.

Lemma small_caller : caller_ok small_data small_args small_offs.
Proof.
  assert (loads (caller_of small_data) caller_hdr = [caller_ph small_data]) as Hl by (vm_compute; reflexivity).
  assert (all_pages [caller_ph small_data] = [0x400000]) as Hp by (vm_compute; reflexivity).
  split; auto; [apply caller_elf_ok; auto; vm_compute; (reflexivity || lia)|vm_compute; lia|].
  apply (bool_decide_unpack _). vm_compute. exact I.
Qed.

Lemma large_caller : caller_ok large_data large_args large_offs.
Proof.
  assert (loads (caller_of large_data) caller_hdr = [caller_ph large_data]) as Hl by (vm_compute; reflexivity).
  assert (all_pages [caller_ph large_data] = [0x400000]) as Hp by (vm_compute; reflexivity).
  split; auto; [apply caller_elf_ok; auto; vm_compute; (reflexivity || lia)|vm_compute; lia|].
  apply (bool_decide_unpack _). vm_compute. exact I.
Qed.

Lemma small_spawned : exists (F : Pool) c p l, execs (trap_of demo_caller_root 2 (demo_spawned small_data)) p l c small_args.
Proof.
  apply (demo_spawned_ok small_data small_args small_offs small_caller); [vm_compute; reflexivity..|cbn; lia].
Qed.

Lemma large_spawned : exists (F : Pool) c p l, execs (trap_of demo_caller_root 32 (demo_spawned large_data)) p l c large_args.
Proof.
  apply (demo_spawned_ok large_data large_args large_offs large_caller); [vm_compute; reflexivity..|cbn; lia].
Qed.

Definition demo_exec : kernel := trap_of demo_caller_root 2 (demo_spawned small_data).
Definition demo_exec_large : kernel := trap_of demo_caller_root 32 (demo_spawned large_data).

Lemma small_startable : startable demo_elf demo_elf_hdr small_args.
Proof.
  pose proof demo_startable as [H1 _ _ _]. split; [exact H1| | |].
  - apply (bool_decide_unpack _). vm_compute. exact I.
  - repeat constructor; vm_compute; reflexivity.
  - apply (bool_decide_unpack _). vm_compute. exact I.
Qed.

Lemma large_utf8 : Forall (fun a => utf8_valid a = true) large_args.
Proof.
  assert (forallb utf8_valid large_args = true) as H by (vm_compute; reflexivity).
  rewrite forallb_forall in H. apply Forall_forall. intros a Ha. apply H. now apply list_elem_of_In.
Qed.

Lemma sys_exec_spec_witness :
  exists (F : Pool) c ctx k' l', sys_exec (fun _ => demo_elf) demo_exec = Done ok k' /\ kernel_ok k' l' /\
    ectx k' = update_from_pctx ctx (ectx demo_exec) /\ slot_has demo_exec 0 c /\
    PROCESS_TABLE k' = <[CURRENT_PROCESS demo_exec := Some (with_name (name_field (str "wc")) (set_pctx ctx c))]>
                         (PROCESS_TABLE demo_exec) /\
    program_ready (kmem (stk k')) demo_elf demo_elf_hdr small_args ctx /\
    given_back demo_exec (ttbr0 (pctx c)) k' (ttbr0 ctx) l'.
Proof.
  destruct small_spawned as (F & c & p & l & [E1 E2 E3 E4 E5 E6 E7 E8 E9 E10]). exists F, c.
  destruct (sys_exec_spec (fun _ => demo_elf) demo_exec p l c small_args E1 E3 E4 E5 E7 E8
    ltac:(cbn; lia) (st_utf8 _ _ _ small_startable) demo_elf_hdr small_startable E9 E10)
    as (ctx & k' & l' & H1 & H2 & H3 & H4 & H5 & H6 & _ & H8).
  exists ctx, k', l'. rewrite E2 in E3. auto 10.
Defined.

Lemma exec_error_too_late_witness :
  exists (F : Pool) k' l', sys_exec (fun _ => demo_elf) demo_exec_large = Done ok k' /\ kernel_ok k' l' /\
    ectx k' = ectx_set_x 0 U64_MAX (ectx demo_exec_large) /\ (ettbr0 (ectx k') ∉ live_roots (PROCESS_TABLE k')) /\
    exists p, given_back demo_exec_large (ettbr0 (ectx demo_exec_large)) k' p l'.
Proof.
  destruct large_spawned as (F & c & p & l & [E1 E2 E3 E4 E5 E6 E7 E8 E9 E10]).
  assert (~ args_fit large_args) as Hfit by (apply (bool_decide_unpack _); vm_compute; exact I).
  destruct (exec_error_too_late (fun _ => demo_elf) demo_exec_large p l c large_args demo_elf demo_elf_hdr
    E1 E3 E4 E5 E6 E7 E8 ltac:(cbn; lia) large_utf8 eq_refl demo_elf_ok E9 E10 Hfit) as (k' & l' & H1 & H2 & H3 & H4 & H5 & _).
  exists F, k', l'. eauto 10.
Defined.
