(* ===== verification/TrapSpec.v ===== *)
(** Every exception a program can cause, against the invariant of the whole
    kernel: when the handler returns, the kernel is calm again, a process is
    loaded, and the other processes are spared.

    [call_fits] says what the kernel takes on trust: it does not check the
    buffer of a read, nor that there is room for an exec before it starts. *)

From Stdlib Require Import ZArith Lia.
From stdpp Require Import base strings numbers list.
From S2P Require Import Prelude Memory Frames PageTable PageFree PagingSpec UserMem PageDup.
From S2P Require Import PageRange Isolation LoadElf LoadSpec Args KernelStack Interrupts Devices Processes.
From S2P Require Import Scheduler ProcOps Demo Sleep Mutex Io Syscalls SyscallSpec SpawnSpec ConsoleSpec Exceptions.
From S2P Require Import Calm ExecSpec.

Local Open Scope Z_scope.

Section Machine.
Context {F : Pool}.

(** ** A store to the address space of a process *)

Lemma other_root (t : list (option Process)) i j q :
  j <> i -> mjoin (t !! j) = Some q -> is_live q = true -> ttbr0 (pctx q) ∈ live_roots (<[i := None]> t).
Proof.
  intros Hj Hq Hl. apply (live_root_in _ j); [|exact Hl]. now rewrite list_lookup_insert_ne by auto.
Qed.

Lemma user_write_ok k l i p va bs st' :
  kernel_ok k l -> slot_has k i p -> is_live p = true ->
  user_update (kmem (stk k)) (ttbr0 (pctx p)) l va bs st' ->
  let k' := set_stk (set_kmem st' (stk k)) k in
  kernel_ok k' l /\ spared i k k' /\ TTBR0_EL1 st' = TTBR0_EL1 (kmem (stk k)).
Proof.
  intros Hok Hp Hl Hu k'. pose proof Hok as [K1 K2 K3 K4 K5 K6 K7 K8 K9].
  destruct (live_roots_swap (PROCESS_TABLE k) i p p Hp Hl Hl) as [Er _]. set (rest := live_roots (<[i := None]> (PROCESS_TABLE k))) in *.
  set (r := ttbr0 (pctx p)) in *.
  assert (k_root (stk k) :: live_roots (PROCESS_TABLE k) ≡ₚ r :: k_root (stk k) :: rest) as Ep
    by (rewrite Er; apply perm_swap).
  pose proof (spaces_perm _ _ _ _ Ep K2) as Hs.
  destruct (spaces_step _ _ _ _ _ _ Hs (user_update_step _ _ _ _ _ _ Hu) (so_free _ _ _ (uu_space _ _ _ _ _ _ Hu)))
    as (Hs' & [Hk Hrest]%Forall_cons & _).
  split; [|split; [|apply Hu]].
  - split; auto.
    + apply (stacks_ok_kept _ _ _ _ K1); [|exact Hk]. apply (spaces_space _ _ _ _ Hs'). right. now left.
    + exact (spaces_perm _ _ _ _ (symmetry Ep) Hs').
  - apply spared_kept; [reflexivity|eauto 10|]. intros j q Hj Hq Hlq. rewrite Forall_forall in Hrest. apply Hrest. now apply other_root with j.
Qed.

(** ** Calls that stay with the process *)

(** What a handler leaves: the invariant, a loaded process, and the others. *)
Record handled (was : bool) (B : kernel -> Prop) (k : kernel) : Prop := {
  hd_calm : calm was None k;
  hd_loaded : loaded k;
  hd_others : B k;
}.

Section Trap.
  Context (was : bool) (i : nat) (me root : Z) (B : kernel -> Prop).
  Context (HB : forall k k', spared i k k' -> B k -> B k').
  Context (fuel : nat) (kctx : ExceptionContext) (resume : M kernel unit) (g : Z).
  Context (images : bytes -> bytes) (intro : bytes).
  Context (Hregs : thread_regs root kctx)
    (Hres : triple (away was i me root B) resume (fun _ => resumed was i me root B)).

  Local Abbreviation inside := (Calm.inside was i me root B).
  Local Abbreviation handled := (handled was B).

Lemma inside_handled k : inside None k -> handled k.
Proof.
  intros [Hc [E (p & Hp & Hpid & Hs & Hr) Hi _] He Ho]. split; [exact Hc| |exact Ho].
  exists p. rewrite E. split; [exact Hp|]. split; [exact Hs|]. split; congruence.
Qed.

Lemma inside_ectx o k c : inside o k -> ettbr0 c = root -> inside o (set_ectx c k).
Proof.
  intros [[[l C1] [M1 M2 M3 M4 M5] C3 C4 C5 C6 C7] [H1 H2 H3 H4] He Ho] Hc. split; [|now split|exact Hc|].
  - split; auto; [|now split]. exists l. now apply (kernel_ok_ext k).
  - apply (HB k); [|exact Ho]. now apply spared_rel.
Qed.

Lemma set_x_triple o n v : triple (inside o) (set_x n v) (fun _ => inside o).
Proof. intros k [] k' Hk [= <-]. apply inside_ectx; [exact Hk|]. exact (in_ectx _ _ _ _ _ _ _ Hk). Qed.

Lemma set_x_ok o n v : triple (inside o) (set_x n v ;; ret ok) (fun _ => inside o).
Proof. eapply triple_bind; [apply set_x_triple|]. intros [] k a k' Hk [= _ <-]. exact Hk. Qed.

(** The timer's and the status registers move. *)
Lemma inside_dev o k h : inside o k -> uart_same (dev k) h -> inside o (set_dev h k).
Proof.
  intros [[[l C1] [M1 M2 M3 M4 M5] C3 C4 C5 C6 C7] [H1 H2 H3 H4] He Ho] [U1 U2 U3 U4 U5 U6 U7 U8 U9]. split.
  - split; auto; [exists l; now apply (kernel_ok_ext k)|now split|].
    apply (hw_ok_kept was (dev k)); [exact C4|now unfold uart_kept|]. cbn. rewrite U1. apply C4.
  - split; auto. cbn. now rewrite U1.
  - exact He.
  - apply (HB k); [|exact Ho]. now apply spared_rel.
Qed.

(** An operation of the timer. *)
Lemma timer_triple {A} o (m : M hw A) :
  (forall h a h', m h = Done a h' -> uart_same h h') -> triple (inside o) (zoom dev_lens m) (fun _ => inside o).
Proof.
  intros H k a k' Hk (h & Hrun & ->)%zoom_done. apply inside_dev; [exact Hk|]. exact (H _ _ _ Hrun).
Qed.

Lemma uart_same_refl h : uart_same h h.
Proof. now split. Qed.

Lemma uart_same_trans h1 h2 h3 : uart_same h1 h2 -> uart_same h2 h3 -> uart_same h1 h3.
Proof.
  intros [A1 A2 A3 A4 A5 A6 A7 A8 A9] [B1 B2 B3 B4 B5 B6 B7 B8 B9]. split; congruence.
Qed.

Lemma wait_ticks_same n target h a h' : wait_ticks n target h = Done a h' -> uart_same h h'.
Proof.
  revert h. induction n as [|n IH]; intros h H; cbn [wait_ticks] in H; apply bind_done in H as (c & h1 & H1 & H);
    injection H1 as <- <-; (destruct (_ <? _); [|injection H as _ <-; now split]); [discriminate|].
  refine (uart_same_trans _ _ _ _ (IH _ H)). now split.
Qed.

Lemma set_seconds_same n h a h' : set_seconds n h = Done a h' -> uart_same h h'.
Proof.
  unfold set_seconds, read_frq, read_cnt, set_cval, expect. intros H. inv_done.
  destruct (checked_mul64 _ _); inv_done. destruct (checked_add64 _ _); inv_done. now split.
Qed.

Lemma reset_timer_triple o : triple (inside o) reset_timer (fun _ => inside o).
Proof. intros k [] k' Hk (h & -> & U)%reset_timer_form. now apply inside_dev. Qed.

(** [arg] and the other questions leave the state alone. *)
Lemma gets_bind {A C} o (f : kernel -> A) (m : A -> M kernel C) Q :
  (forall a, triple (inside o) (m a) Q) -> triple (inside o) (bind (gets f) m) Q.
Proof. intros H k c k' Hk Hrun. exact (H (f k) k c k' Hk Hrun). Qed.

Lemma load_bytes_state va n k s k' : load_bytes va n k = Done s k' -> k' = k.
Proof. unfold load_bytes. destruct (mapM _ _); [|discriminate]. now intros [= _ <-]. Qed.

Lemma sys_print_triple : triple (inside None) (sys_print fuel kctx resume g) (fun _ => inside None).
Proof.
  unfold sys_print, arg. apply gets_bind; intros ptr. apply gets_bind; intros len.
  eapply triple_bind with (Q := fun _ => inside None); [|intros s].
  - intros k s k' Hk H. now rewrite (load_bytes_state _ _ _ _ _ H).
  - eapply triple_bind; [now apply print_triple|]. intros [] k a k' Hk [= _ <-]. exact Hk.
Qed.

Lemma sys_sleep_triple : triple (inside None) (sys_sleep fuel) (fun _ => inside None).
Proof.
  unfold sys_sleep, arg. apply gets_bind; intros ms.
  eapply triple_bind; [apply timer_triple; intros h a h' [= _ <-]; now split|]. intros f.
  eapply triple_bind; [apply timer_triple; intros h a h' [= _ <-]; now split|]. intros t. cbv zeta.
  eapply triple_bind; [apply timer_triple; intros h [] h'; apply wait_ticks_same|].
  intros [] k a k' Hk [= _ <-]. exact Hk.
Qed.

Lemma poll_char_triple : triple (inside None) (poll_char fuel kctx resume g) (fun _ => inside None).
Proof.
  unfold poll_char. eapply triple_bind; [now apply poll_triple|]. intros [c|];
    [|intros k a k' [_ Hk] [= _ <-]; exact Hk]. apply triple_pure. intros _.
  assert (forall d a, triple (inside None) (io_acquire fuel kctx resume g ;; device_write d ;; mutex_release ;;
            ret (Some a)) (fun _ : option Z => inside None)) as Hecho.
  { intros d a. eapply triple_bind; [now apply acquire_triple|]. intros [].
    eapply triple_bind; [now apply write_triple|]. intros []. eapply triple_bind; [now apply release_triple|].
    intros [] k b k' Hk [= _ <-]. exact Hk. }
  repeat match goal with |- context [if ?b then _ else _] => destruct b end; try apply Hecho;
    intros k a k' Hk [= _ <-]; exact Hk.
Qed.

Lemma sys_poll_char_triple : triple (inside None) (sys_poll_char fuel kctx resume g) (fun _ => inside None).
Proof.
  unfold sys_poll_char. eapply triple_bind; [apply poll_char_triple|]. intros c.
  destruct c; apply set_x_ok.
Qed.

Lemma sys_print_os_info_triple :
  triple (inside None) (sys_print_os_info fuel kctx resume g intro) (fun _ => inside None).
Proof.
  unfold sys_print_os_info. eapply triple_bind; [now apply print_triple|]. intros [] k a k' Hk [= _ <-]. exact Hk.
Qed.

Lemma sys_p_info_triple : triple (inside None) sys_p_info (fun _ => inside None).
Proof.
  unfold sys_p_info. apply gets_bind. intros [p|]; [|intros k a k' Hk [= _ <-]; exact Hk].
  intros k a k' Hk [= _ <-]. apply inside_ectx; [exact Hk|]. exact (in_ectx _ _ _ _ _ _ _ Hk).
Qed.

(** ** [read] *)

(** Below the kernel's half the kernel writes where the program could. *)
Lemma store_triple o va c :
  0 <= va < KERNEL_BASE -> is_u8 c -> triple (inside o) (store_byte va c) (fun _ => inside o).
Proof.
  intros Hva Hc k [] k' [[[l C1] [M1 M2 M3 M4 M5] C3 C4 C5 C6 C7] [H1 (p & Hp & Hpid & Hs & Hr) H3 H4] He Ho] Hrun.
  assert (is_live p = true) as Hl by (unfold is_live, is_state; now rewrite Hs).
  unfold store_byte in Hrun. destruct (mem_tr k va) as [pa|] eqn:Hm; [|discriminate]. injection Hrun as <-.
  unfold mem_tr in Hm. destruct (va <? 2 ^ 39) eqn:Hlt.
  2:{ rewrite (proj2 (Z.ltb_lt va KERNEL_BASE)) in Hm by lia. discriminate. }
  apply Z.ltb_lt in Hlt. unfold ttbr0_to_pa in Hm. cbn [translation_table] in Hm. rewrite H4, <- Hr in Hm.
  change (ttbr0_to_pa (kmem (stk k)) va (Some (ttbr0 (pctx p))) = Some pa) in Hm.
  assert (user_update (kmem (stk k)) (ttbr0 (pctx p)) l va [c] (page_write (kmem (stk k)) pa [c])) as Hu.
  { pose proof (Z.mod_pos_bound va 4096 ltac:(lia)).
    apply page_write_spec; [|exact Hm|unfold VA_LIMIT; lia|simpl; lia|now constructor].
    apply (spaces_space _ _ _ _ (ko_spaces _ _ C1)). right. exact (live_root_in _ _ _ Hp Hl). }
  destruct (user_write_ok k l i p va [c] _ C1 Hp Hl Hu) as (Hok & Hsp & Ht). split.
  - split; auto; [exists l; exact Hok|now split].
  - split; auto. exists p. auto.
  - exact He.
  - exact (HB _ _ Hsp Ho).
Qed.

Lemma read_loop_triple va len n r :
  0 <= va -> va + Z.of_nat len <= KERNEL_BASE ->
  triple (inside None) (read_loop fuel kctx resume g n len (fun j c => store_byte (add64 va (Z.of_nat j)) c) r)
    (fun _ => inside None).
Proof.
  intros H0 Hlim. revert r. induction n as [|n IH]; intros r; cbn [read_loop];
    (destruct (r <? len)%nat eqn:Hr; [|intros k a k' Hk [= _ <-]; exact Hk]); [apply triple_diverge|].
  apply Nat.ltb_lt in Hr. eapply triple_bind; [now apply getch_triple|]. intros c. apply triple_pure. intros Hc.
  destruct (_ || _).
  - destruct r as [|r]; [apply IH|]. eapply triple_bind; [now apply acquire_triple|]. intros [].
    do 3 (eapply triple_bind; [now apply write_triple|]; intros []).
    eapply triple_bind; [now apply release_triple|]. intros []. apply IH.
  - eapply triple_bind; [apply store_triple; [|exact Hc]|].
    + unfold KERNEL_BASE in *. rewrite add64_small by (unfold U64; lia). lia.
    + intros []. destruct (c =? 10); [intros k a k' Hk [= _ <-]; exact Hk|apply IH].
Qed.

Lemma sys_read_triple k a k' :
  inside None k -> 0 <= ectx_x 0 (ectx k) -> ectx_x 0 (ectx k) + Z.max 0 (ectx_x 1 (ectx k)) <= KERNEL_BASE ->
  sys_read fuel kctx resume g k = Done a k' -> inside None k'.
Proof.
  intros Hk H0 Hlim Hrun. unfold sys_read, arg in Hrun. unfold gets at 1 2, bind at 1 2 in Hrun.
  destruct (_ || _); [exact (set_x_ok None 0 0 k a k' Hk Hrun)|].
  apply bind_done in Hrun as (n & k1 & H1 & Hrun). unfold read in H1.
  apply read_loop_triple in H1; [|lia|lia|exact Hk]. exact (set_x_ok None _ _ k1 a k' H1 Hrun).
Qed.

(** ** [fork] *)

(** One slot of the table written. *)
Lemma slot_written (t : list (option Process)) j c a q :
  mjoin (<[j := c]> t !! a) = Some q -> (a = j /\ c = Some q) \/ (a <> j /\ mjoin (t !! a) = Some q).
Proof.
  destruct (decide (a = j)) as [->|Hne]; [|rewrite list_lookup_insert_ne by auto; auto].
  intros H. left. split; [reflexivity|]. destruct (decide (j < length t)%nat) as [Hlt|Hge].
  - rewrite list_lookup_insert_eq in H by exact Hlt. exact H.
  - rewrite list_insert_ge, lookup_ge_None_2 in H by lia. discriminate.
Qed.

Lemma handled_fork k l p s x j k' :
  inside None k -> kernel_ok k l -> runs k p s x -> PROCESS_TABLE k !! j = Some None -> fork_done k p s x j k' -> handled k'.
Proof.
  intros [Hc Hh He Ho] Hok Hr Hj
    (child & l2 & Hok2 & Ht & Hec & Hpid & Hpar & Hst & _ & _ & _ & _ & Hkept & (R1 & R2 & R3 & R4) & Hch).
  destruct Hh as [E (q & Hq & Hqp & Hs & Hroot) Hpidc _].
  assert (forall a, a <> j -> mjoin (PROCESS_TABLE k' !! a) = mjoin (PROCESS_TABLE k !! a)) as Hne
    by (intros a0 Hn; rewrite Ht, list_lookup_insert_ne by auto; reflexivity).
  assert (forall a b, slot_has k a b -> a <> j) as Hother
    by (intros a0 b Hb ->; apply slot_lookup in Hb; congruence).
  split.
  - apply (calm_intro was None k k' l2 Hc Hok2 R2); [now rewrite R1|rewrite R1; apply Hc|rewrite R3; apply Hc| | |].
    + apply waits_on_mono. intros b c Hb Hsb Hcb. rewrite Ht in Hb.
      apply slot_written in Hb as [[_ [= ->]]|[_ Hb]]; [congruence|eauto].
    + intros b c Hb. rewrite Ht in Hb. apply slot_written in Hb as [[_ [= ->]]|[_ Hb]];
        [intros _; exact Hch|exact (ca_idle _ _ _ Hc b c Hb)].
    + intros b c Hb. rewrite Ht in Hb. apply slot_written in Hb as [[_ [= ->]]|[_ Hb]];
        [|exact (ca_older _ _ _ Hc b c Hb)].
      rewrite Hpid, Hpar. apply (ko_fresh _ _ Hok _ _ (rn_slot _ _ _ _ Hr)).
  - exists q. unfold slot_has. rewrite R4, R1, E, Hne by exact (Hother _ _ Hq).
    split; [exact Hq|]. split; [exact Hs|]. split; [congruence|]. rewrite Hec. cbn. congruence.
  - apply (HB k); [|exact Ho]. apply spared_kept; [exact R4| |].
    + intros b c _ Hb Hl. exists c. unfold slot_has. rewrite Hne by exact (Hother _ _ Hb). auto.
    + intros b c _ Hb Hl. rewrite Forall_forall in Hkept. apply Hkept. exact (live_root_in _ _ _ Hb Hl).
Qed.

(** ** [wait] *)

Lemma core_moved_stk k k' : core_moved k k' -> core_moved (set_stk (stk k) k) k'.
Proof. destruct k. auto. Qed.

Lemma core_moved_current s k k' : core_moved (set_stk s k) k' -> CURRENT_PROCESS k' = CURRENT_PROCESS k.
Proof. now intros (t & e & c & lk & _ & ->). Qed.

(** Only the core, the table, its lock and the registers moved. *)
Lemma calm_moved s k k' l' :
  calm was None k -> kernel_ok k' l' -> core_moved (set_stk s k) k' -> ptable_open was 0 k' ->
  (waits_on (maddr (io_lock k)) (PROCESS_TABLE k) = false -> waits_on (maddr (io_lock k)) (PROCESS_TABLE k') = false) ->
  idle (PROCESS_TABLE k') -> older (PROCESS_TABLE k') -> calm was None k'.
Proof.
  intros Hc Hok (t & e & c & lk & Hp & ->) [(Hn & Hl) _] Hw Hi Ho.
  exact (calm_intro was None k _ l' Hc Hok eq_refl ltac:(now unfold uart_kept) Hn Hl Hw Hi Ho).
Qed.

(** The process goes on. *)
Lemma handled_own p k k' :
  here i me root k -> calm was None k' -> slot_has k' i p -> pid p = me -> state p = Running ->
  ttbr0 (pctx p) = root -> (exists s, core_moved (set_stk s k) k') -> ettbr0 (ectx k') = root -> B k' -> handled k'.
Proof.
  intros [E _ Hpid _] Hc Hp Hme Hs Hr (s & t & e & c & lk & [_ Hpc] & Ek) He Ho. split; [exact Hc| |exact Ho].
  exists p. assert (CURRENT_PROCESS k' = i) as -> by (rewrite Ek; exact E). split; [exact Hp|]. split; [exact Hs|].
  split; [|congruence]. rewrite Ek. cbn in *. congruence.
Qed.

Lemma waited_not_i k p target j c :
  slot_has k i p -> state p = Running -> waited k p target j c -> state c = Terminated -> j <> i.
Proof. intros Hp Hs [Hj _] Hc ->. unfold slot_has in *. congruence. Qed.

(** A dead process's slot is emptied. *)
Lemma spared_reaped k k' j c :
  slot_has k j c -> state c = Terminated -> stk k' = stk k -> CURRENT_PROCESS k' = CURRENT_PROCESS k ->
  PROCESS_TABLE k' = <[j := None]> (PROCESS_TABLE k) -> spared i k k'.
Proof.
  intros Hj Hs Es Ec Et. apply spared_kept; [exact Ec| |intros; rewrite Es; apply space_kept_refl].
  intros a q Ha Hq Hl. assert (a <> j) as Hn.
  { intros ->. assert (q = c) as -> by (unfold slot_has in *; congruence).
    unfold is_live, is_state in Hl. now rewrite Hs in Hl. }
  exists q. unfold slot_has. rewrite Et, list_lookup_insert_ne by auto. auto.
Qed.

(** The caller blocked, the scheduler ran, and the lock is given back. *)
Lemma handled_blocked k l k1 k2 k3 p :
  inside None k -> slot_has k i p -> state p = Running -> kernel_ok k1 l -> stk k1 = stk k ->
  PROCESS_TABLE k1 = update_slot i (block WaitingForChild) (PROCESS_TABLE k) -> core_moved k k1 ->
  schedule_next fuel k1 = Done tt k2 -> ptable_open was 0 k3 -> lock_turned k2 k3 -> handled k3.
Proof.
  intros [Hc Hh He Ho] Hp Hs Hok Est Et (t & e & c1 & lk & Hp1 & Ek1) Hsch [(Hn & Hl) _] (c3 & l3 & Ek3 & Hp3).
  pose proof (schedule_kernel_ok _ _ _ _ Hok Hsch) as Hok2. pose proof (schedule_rel _ _ _ Hsch) as Hrel.
  pose proof (schedule_next_around _ _ _ Hsch) as (A1 & A2 & A3 & A4 & A5).
  assert (kernel_ok k3 l) as Hok3 by (rewrite Ek3; apply (kernel_ok_ext k2); auto).
  assert (stk k3 = stk k2 /\ PROCESS_TABLE k3 = PROCESS_TABLE k2 /\ io_lock k3 = io_lock k2) as (B1 & B2 & B3) by (now rewrite Ek3).
  assert (io_lock k1 = io_lock k) as Eio by now rewrite Ek1.
  split.
  - apply (calm_intro was None k k3 l Hc Hok3); [congruence| |exact Hn|exact Hl| | |].
    + destruct (looked_kept _ _ A5) as (V1 & V2 & V3 & V4). rewrite Ek3. rewrite Ek1 in V1, V2, V3, V4.
      unfold uart_kept. cbn in *. auto.
    + rewrite B2. intros Hw. apply (rel_waits _ _ _ Hrel). rewrite Et. revert Hw. apply waits_on_mono.
      intros a q Ha Hsa Hca. rewrite mjoin_update_slot in Ha. destruct (decide (a = i)) as [->|]; [|eauto].
      unfold slot_has in Hp. rewrite Hp in Ha. injection Ha as <-. cbn in Hca.
      pose proof (ca_idle _ _ _ Hc i p Hp) as Hi0. pose proof (mb_addr _ _ _ (ca_mutex _ _ _ Hc)).
      rewrite Hi0 in Hca by (left; congruence). lia.
    + rewrite B2. apply (rel_idle _ _ Hrel). rewrite Et. intros a q Ha. rewrite mjoin_update_slot in Ha.
      destruct (decide (a = i)) as [->|]; [|exact (ca_idle _ _ _ Hc a q Ha)].
      unfold slot_has in Hp. rewrite Hp in Ha. injection Ha as <-. intros _. cbn.
      apply (ca_idle _ _ _ Hc i p Hp). left. congruence.
    + rewrite B2. apply (rel_older _ _ Hrel). rewrite Et. apply older_slot; [auto|exact (ca_older _ _ _ Hc)].
  - destruct (schedule_loaded _ _ _ _ Hok Hsch) as (q & Hq & Hsq & Hcq & Heq). exists q. rewrite Ek3.
    split; [exact Hq|]. split; [exact Hsq|]. split; [|exact Heq]. cbn. now rewrite (proj2 Hp3).
  - apply (HB k); [|exact Ho]. transitivity k1; [|transitivity k2].
    + apply spared_kept; [now rewrite Ek1| |intros; rewrite Est; apply space_kept_refl].
      intros a q Ha Hq Hlq. exists q. unfold slot_has. rewrite Et, mjoin_update_slot, decide_False by exact Ha. auto.
    + exact (spared_schedule i fuel k1 l k2 Hok Hsch).
    + apply spared_rel; [now rewrite Ek3|exact B1|]. now rewrite B2.
Qed.

Lemma handled_wait k a k' : inside None k -> sys_wait fuel k = Done a k' -> handled k'.
Proof.
  intros Hin Hrun. pose proof Hin as [Hc Hh He Ho]. pose proof (ca_ok _ _ _ Hc) as [l Hok].
  pose proof Hh as [E (p & Hp & Hme & Hs & Hr) _ _]. rewrite <- E in Hp.
  assert (is_live p = true) as Hl by (unfold is_live, is_state; now rewrite Hs).
  destruct (sys_wait_cases fuel k l p was 0 Hok Hp Hl (calm_open _ _ _ Hc)) as
    [(j & c & k2 & Hw & Hcs & _ & Hrun2 & Hok2 & Hopen & Et & Est & Eec & Hm)|
     [(_ & k2 & Hrun2 & Hok2 & Hopen & Et & Est & Eec & Hm)|
      (_ & _ & k1 & Hrun2 & Hok1 & _ & Est & _ & Et & Hm & Hend)]]; rewrite E in *.
  - assert (k2 = k') as -> by congruence. pose proof (waited_not_i k p _ j c Hp Hs Hw Hcs) as Hji.
    destruct Hw as [Hj _]. apply core_moved_stk in Hm.
    apply (handled_own p k); auto; [|unfold slot_has; now rewrite Et, list_lookup_insert_ne by auto|eauto|now rewrite Eec|
      apply (HB k); [exact (spared_reaped k k' j c Hj Hcs Est (core_moved_current _ _ _ Hm) Et)|exact Ho]].
    apply (calm_moved (stk k) k k' l Hc Hok2 Hm Hopen); rewrite Et.
    + apply waits_on_mono. intros b d Hb. apply slot_written in Hb as [[_ [=]]|[_ Hb]]. eauto.
    + intros b d Hb. apply slot_written in Hb as [[_ [=]]|[_ Hb]]. exact (ca_idle _ _ _ Hc b d Hb).
    + intros b d Hb. apply slot_written in Hb as [[_ [=]]|[_ Hb]]. exact (ca_older _ _ _ Hc b d Hb).
  - assert (k2 = k') as -> by congruence. apply core_moved_stk in Hm.
    apply (handled_own p k); auto; [|unfold slot_has; now rewrite Et|eauto|now rewrite Eec|
      apply (HB k); [apply spared_rel; [exact (core_moved_current _ _ _ Hm)|exact Est|now rewrite Et]|exact Ho]].
    apply (calm_moved (stk k) k k' l Hc Hok2 Hm Hopen); rewrite Et; [auto|apply Hc|apply Hc].
  - rewrite Hrun in Hrun2. symmetry in Hrun2. apply bind_done in Hrun2 as ([] & k2 & Hsch & _).
    destruct (Hend k2 Hsch) as (k3 & Hrun3 & Hopen & Ht). assert (k3 = k') as -> by congruence.
    exact (handled_blocked k l k1 k2 k' p Hin Hp Hs Hok1 Est Et Hm Hsch Hopen Ht).
Qed.

(** ** [exit] *)

Lemma exit_table_lookup (c : Process) code t j :
  j <> i -> mjoin (exit_table i c code t !! j) = mjoin (t !! j) \/
  exists q, mjoin (t !! j) = Some q /\ awaits c q = true /\
    mjoin (exit_table i c code t !! j) = Some (collected (pid c) code q).
Proof.
  intros Hj. unfold exit_table. destruct (find_by_id _ _) as [a|]; [|auto].
  destruct (mjoin (t !! a)) as [p|] eqn:Hp; [|auto]. destruct (awaits c p) eqn:Ha; [|auto].
  rewrite list_lookup_insert_ne, mjoin_update_slot by auto. destruct (decide (j = a)) as [->|]; [|auto].
  right. exists p. rewrite Hp. auto.
Qed.

Lemma exit_table_own (c : Process) code t q :
  mjoin (exit_table i c code t !! i) = Some q -> mjoin (t !! i) = Some q.
Proof.
  unfold exit_table. destruct (find_by_id _ _) as [a|]; [|auto].
  destruct (mjoin (t !! a)) as [p|] eqn:Hp; [|auto]. destruct (awaits c p) eqn:Ha; [|auto].
  intros H. apply slot_written in H as [[_ [=]]|[H _]]. congruence.
Qed.

(** What an exit makes of the other processes. *)
Record survivor (p : Process) (q0 q : Process) : Prop := {
  sv_pid : pid q = pid q0;
  sv_live : is_live q = is_live q0;
  sv_space : ttbr0 (pctx q) = ttbr0 (pctx q0);
  sv_parent : parent_pid q = parent_pid q0 \/ parent_pid q0 = pid p /\ parent_pid q = 1;
  sv_idle : chan_idle q0 -> chan_idle q;
  sv_blocked : state q = Blocked -> state q0 = Blocked /\ chan q = chan q0;
  sv_state : state q0 <> Blocked -> state q = state q0;
}.

Lemma survivor_reparent p q : survivor p q (reparent (pid p) 1 q).
Proof. unfold reparent. destruct (_ =? _) eqn:E; split; auto. right. split; [now apply Z.eqb_eq|reflexivity]. Qed.

Lemma survivor_collected p c n code q :
  awaits c (reparent (pid p) 1 q) = true -> survivor p q (collected n code (reparent (pid p) 1 q)).
Proof.
  intros Ha. destruct (survivor_reparent p q) as [S1 S2 S3 S4 S5 S6 S7]. set (r := reparent (pid p) 1 q) in *.
  unfold awaits in Ha. apply andb_prop in Ha as [Ha _]. apply andb_prop in Ha as [Ha1 Ha2].
  apply bool_decide_eq_true in Ha1, Ha2. split; try (cbn; auto; fail).
  - rewrite <- S2. unfold is_live, is_state. cbn. now rewrite Ha1.
  - intros Hi _. apply S5 in Hi. cbn. apply Hi. now right.
  - intros Hn. apply S7 in Hn as H. congruence.
Qed.

Lemma exit_survivors p code t j :
  j <> i -> let t1 := exit_table i (zombie code p) code (terminated i code p t) in
  option_Forall2 (survivor p) (mjoin (t !! j)) (mjoin (t1 !! j)).
Proof.
  intros Hj. cbv zeta. assert (mjoin (terminated i code p t !! j) = reparent (pid p) 1 <$> mjoin (t !! j)) as Et.
  { unfold terminated. now rewrite map_procs_lookup, list_lookup_insert_ne by auto. }
  destruct (exit_table_lookup (zombie code p) code (terminated i code p t) j Hj) as [-> |(q & Hq & Ha & ->)];
    rewrite ?Et in *.
  - destruct (mjoin (t !! j)); constructor. apply survivor_reparent.
  - destruct (mjoin (t !! j)) as [q0|]; [|discriminate]. injection Hq as <-. constructor.
    now apply survivor_collected with (zombie code p).
Qed.

Lemma handled_exit k a k' : inside None k -> sys_exit fuel k = Done a k' -> handled k'.
Proof.
  intros [Hc Hh He Ho] Hrun. pose proof (ca_ok _ _ _ Hc) as [l Hok]. pose proof Hh as [E (p & Hp & Hme & Hs & Hr) _ _].
  assert (is_live p = true) as Hl by (unfold is_live, is_state; now rewrite Hs).
  pose proof (ca_older _ _ _ Hc _ _ Hp) as Hold. pose proof (ko_fresh _ _ Hok _ _ Hp) as Hfr.
  pose proof (sys_exit_run fuel k l p was 0 Hok ltac:(rewrite E; exact Hp) Hl ltac:(lia) (calm_open _ _ _ Hc)) as H.
  cbv zeta in H. set (code := as_i64 (ectx_x 0 (ectx k))) in H. rewrite E in H.
  destruct (_ || _); [|destruct H; congruence].
  destruct H as (k1 & Hrun1 & Hok1 & Et & _ & _ & Hopen & Hk & s & Hm). rewrite Hrun1 in Hrun.
  apply bind_done in Hrun as ([] & k2 & Hsch & Hrun). injection Hrun as _ <-.
  assert (forall j q, j <> i -> slot_has k1 j q -> exists q0, slot_has k j q0 /\ survivor p q0 q) as Hback.
  { intros j q Hj Hq. pose proof (exit_survivors p code (PROCESS_TABLE k) j Hj) as H. cbv zeta in H. rewrite <- Et in H.
    unfold slot_has in *. rewrite Hq in H. inversion H; subst. eauto. }
  assert (forall q, slot_has k1 i q -> q = zombie code p) as Hown.
  { intros q Hq. unfold slot_has in Hq. rewrite Et in Hq. apply exit_table_own in Hq.
    apply (terminated_slot i code p _ _ _ Hp) in Hq as [[_ ->]|[H _]]; [|congruence].
    unfold reparent. cbn. now rewrite (proj2 (Z.eqb_neq _ _)) by lia. }
  assert (forall j q, slot_has k1 j q -> q = zombie code p \/ exists q0, slot_has k j q0 /\ survivor p q0 q) as Hcase
    by (intros j q Hq; destruct (decide (j = i)) as [->|Hj]; [left; auto|right; eauto]).
  assert (calm was None k1) as Hc1.
  { apply (calm_moved s k k1 _ Hc Hok1 Hm Hopen).
    - apply waits_on_mono. intros j q Hq Hsq Hcq. destruct (Hcase j q Hq) as [->|(q0 & Hq0 & S)]; [discriminate|].
      destruct (sv_blocked _ _ _ S Hsq). exists q0. split; [exact Hq0|]. split; congruence.
    - intros j q Hq. destruct (Hcase j q Hq) as [->|(q0 & Hq0 & S)].
      + intros _. apply (ca_idle _ _ _ Hc i p Hp). left. congruence.
      + apply (sv_idle _ _ _ S). exact (ca_idle _ _ _ Hc j q0 Hq0).
    - intros j q Hq. destruct (Hcase j q Hq) as [->|(q0 & Hq0 & S)]; [exact Hold|].
      pose proof (ca_older _ _ _ Hc j q0 Hq0). rewrite (sv_pid _ _ _ S).
      destruct (sv_parent _ _ _ S) as [->|[H1 ->]]; lia. }
  destruct (switch_calm _ _ _ _ _ Hc1 Hsch) as [Hc2 Hl2]. split; [exact Hc2|exact Hl2|].
  apply (HB k1).
  { exact (spared_schedule i fuel k1 _ k2 Hok1 Hsch). }
  apply (HB k); [|exact Ho].
  assert (forall j q, j <> i -> slot_has k j q -> exists q', slot_has k1 j q' /\ survivor p q q') as Hfwd.
  { intros j q Hj Hq. pose proof (exit_survivors p code (PROCESS_TABLE k) j Hj) as H. cbv zeta in H. rewrite <- Et in H.
    unfold slot_has in *. rewrite Hq in H. inversion H; subst. eauto. }
  apply spared_kept; [exact (core_moved_current _ _ _ Hm)| |];
    intros j q Hj Hq Hlq; destruct (Hfwd j q Hj Hq) as (q' & Hq' & [S1 S2 S3 _ _ _ S7]).
  - exists q'. split; [exact Hq'|]. split; [exact S1|]. split; [congruence|auto].
  - rewrite Forall_forall in Hk. rewrite <- S3. apply Hk. apply (live_root_in _ j); [exact Hq'|congruence].
Qed.

(** ** [exec] *)

Lemma read_strings_state n ptrs lens j k r k' : read_strings n ptrs lens j k = Done r k' -> k' = k.
Proof.
  assert (forall va k s k', load_u64 va k = Done s k' -> k' = k) as Hu.
  { intros va k0 s k1 H. unfold load_u64 in H. apply bind_done in H as (b & k2 & H & H2).
    injection H2 as _ <-. exact (load_bytes_state _ _ _ _ _ H). }
  revert j k r k'. induction n as [|n IH]; intros j k r k' H; cbn [read_strings] in H; [now injection H|].
  apply bind_done in H as (ptr & k1 & H1%Hu & H). apply bind_done in H as (len & k2 & H2%Hu & H). subst k1 k2.
  destruct (_ || _); [now injection H|]. apply bind_done in H as (s & k1 & H1%load_bytes_state & H).
  apply bind_done in H as (rest & k2 & H2%IH & H). injection H as _ <-. congruence.
Qed.

(** What an exec that gets as far as loading a program needs. *)
Definition exec_fits (k : kernel) : Prop :=
  forall strings b,
    read_strings (Z.to_nat (ectx_x 2 (ectx k))) (ectx_x 0 (ectx k)) (ectx_x 1 (ectx k)) 0 k = Done (Some strings) k ->
    read_file images (nth 0 strings []) = Some b ->
    exists h, startable b h strings /\ Free ∈ KERNEL_STACKS_ALLOCATED (stk k) /\
      Z.of_nat (frames_for b h) < FREE_FRAME_COUNT (kmem (stk k)).

Lemma handled_replaced k k' l' c ctx nm :
  inside None k -> slot_has k i c -> state c = Running -> pid c = me -> kernel_ok k' l' ->
  Forall (space_kept (ram (kmem (stk k))) (ram (kmem (stk k')))) (live_roots (<[i := None]> (PROCESS_TABLE k))) ->
  (exists s e, k' = set_ectx e (set_stk s (set_table (<[i := Some (with_name nm (set_pctx ctx c))]> (PROCESS_TABLE k)) k)) /\
    ettbr0 e = ttbr0 ctx) ->
  handled k'.
Proof.
  intros [Hc [E _ Hpid _] _ Ho] Hcs Hs Hme Hok Hk (s & e & Ek & Hr).
  assert (PROCESS_TABLE k' = <[i := Some (with_name nm (set_pctx ctx c))]> (PROCESS_TABLE k)) as Et by now rewrite Ek.
  set (c' := with_name nm (set_pctx ctx c)) in *. split.
  - apply (calm_intro was None k k' l' Hc Hok); rewrite ?Et.
    + now rewrite Ek.
    + rewrite Ek. now unfold uart_kept.
    + rewrite Ek. apply Hc.
    + rewrite Ek. apply Hc.
    + apply waits_on_mono. intros a q Hq Hsq Hcq. apply slot_written in Hq as [[-> [= <-]]|[_ Hq]]; [|eauto].
      unfold c' in Hsq. cbn in Hsq. congruence.
    + intros a q Hq. apply slot_written in Hq as [[-> [= <-]]|[_ Hq]]; [|exact (ca_idle _ _ _ Hc a q Hq)].
      exact (ca_idle _ _ _ Hc i c Hcs).
    + intros a q Hq. apply slot_written in Hq as [[-> [= <-]]|[_ Hq]]; [|exact (ca_older _ _ _ Hc a q Hq)].
      exact (ca_older _ _ _ Hc i c Hcs).
  - exists c'. assert (CURRENT_PROCESS k' = i) as -> by (rewrite Ek; exact E). unfold slot_has. rewrite Et.
    assert (i < length (PROCESS_TABLE k))%nat
      by (apply lookup_lt_is_Some_1; unfold slot_has in Hcs; destruct (_ !! i); [eauto|discriminate]).
    rewrite list_lookup_insert_eq by assumption. split; [reflexivity|]. split; [exact Hs|].
    split; [rewrite Ek; cbn in *; congruence|]. rewrite Ek. exact Hr.
  - apply (HB k); [|exact Ho]. apply spared_kept; [now rewrite Ek| |]; intros j q Hj Hq Hl.
    + exists q. unfold slot_has. rewrite Et, list_lookup_insert_ne by auto. auto.
    + rewrite Forall_forall in Hk. apply Hk. now apply other_root with j.
Qed.

Lemma handled_exec k a k' : inside None k -> exec_fits k -> sys_exec images k = Done a k' -> handled k'.
Proof.
  intros Hin Hfit Hrun. pose proof Hin as [Hc [E (c & Hcs & Hme & Hs & Hr) _ _] He Ho].
  assert (is_live c = true) as Hl by (unfold is_live, is_state; now rewrite Hs).
  assert (forall b k', set_x 0 U64_MAX k = Done b k' -> inside None k') as Hfail
    by (intros b k0; exact (set_x_triple None 0 U64_MAX k b k0 Hin)).
  assert (forall a k', (set_x 0 U64_MAX ;; ret ok) k = Done a k' -> handled k') as Hmiss.
  { intros b k0 H. apply inside_handled. exact (set_x_ok None 0 U64_MAX k b k0 Hin H). }
  unfold sys_exec, arg in Hrun. unfold gets at 1 2 3, bind at 1 2 3 in Hrun.
  destruct (_ || _); [now apply Hmiss in Hrun|]. apply bind_done in Hrun as (strings & k1 & Hst & Hrun).
  pose proof (read_strings_state _ _ _ _ _ _ _ Hst) as ->. destruct strings as [strings|]; [|now apply Hmiss in Hrun].
  destruct (negb _); [now apply Hmiss in Hrun|]. cbv zeta in Hrun.
  destruct (ca_ok _ _ _ Hc) as [l0 Hok0]. rewrite <- E in Hcs.
  rewrite (bind_run _ _ _ _ _ (current_slot_run k l0 c Hok0 Hcs)) in Hrun.
  destruct (read_file images (nth 0 strings [])) as [b|] eqn:Hf; [|now apply Hmiss in Hrun].
  destruct (Hfit strings b Hst Hf) as (h & Hstart & Hfree & Hlen). rewrite E in *.
  rewrite (ff_count _ _ (sp_free _ _ _ (ko_spaces _ _ Hok0))) in Hlen. destruct l0 as [|p l]; cbn [length] in Hlen; [lia|].
  rename Hok0 into Hok. assert (frames_for b h <= length l)%nat as Hlen' by lia.
  destruct (exec_ok k p l i c b h strings Hok Hcs Hl Hstart Hfree Hlen') as (ctx & k1 & l1 & Hrun1 & Hok1 & [_ _ X3 [s X4]] & _).
  rewrite (bind_run _ _ _ _ _ Hrun1) in Hrun. set (c1 := set_pctx ctx c) in *.
  assert (slot_has k1 i c1) as Hc1 by (rewrite X4; now apply (slot_has_set k i c)).
  rewrite (bind_run _ _ _ _ _ (modify_slot_run k1 i (with_name (name_field (nth 0 strings []))) c1 Hc1)) in Hrun.
  set (nm := name_field (nth 0 strings [])) in *.
  assert (slot_has (set_table (<[i := Some (with_name nm c1)]> (PROCESS_TABLE k1)) k1) i (with_name nm c1)) as Hc2
    by exact (slot_has_set k1 i c1 (with_name nm c1) (stk k1) Hc1).
  rewrite (bind_run _ _ _ _ _ (slot_process_run _ _ _ Hc2)) in Hrun. injection Hrun as _ <-.
  refine (handled_replaced k _ l1 c ctx nm Hin Hcs Hs Hme _ _ _).
  - pose proof (kernel_ok_slot k1 l1 i (with_name nm) c1 Hok1 Hc1 eq_refl eq_refl eq_refl) as H.
    rewrite (update_slot_insert _ _ _ _ Hc1) in H. apply (kernel_ok_ext _ _ _ H); reflexivity.
  - exact X3.
  - exists s, (update_from_pctx ctx (ectx k1)). split; [|reflexivity]. rewrite X4. cbn.
    rewrite list_insert_insert_eq. reflexivity.
Qed.

(** ** Interrupts *)

(** The process gives the core away. *)
Lemma handled_ready k k0 k' :
  inside None k -> k0 = set_table (update_slot i (set_state Ready) (PROCESS_TABLE k)) k ->
  (reset_timer ;; schedule_next fuel) k0 = Done tt k' -> handled k'.
Proof.
  intros [Hc [E (p & Hp & Hme & Hs & Hr) _ _] He Ho] -> Hrun. pose proof (ca_ok _ _ _ Hc) as [l Hok].
  set (k0 := set_table _ k) in *. apply bind_done in Hrun as ([] & k1 & Hrt & Hsch).
  apply reset_timer_form in Hrt as (h & -> & U).
  assert (kernel_ok k0 l) as Hok0.
  { apply (kernel_ok_slot k l i (set_state Ready) p Hok Hp); [reflexivity| |reflexivity].
    unfold is_live, is_state. now rewrite Hs. }
  assert (forall j q, mjoin (PROCESS_TABLE k0 !! j) = Some q -> exists q0, mjoin (PROCESS_TABLE k !! j) = Some q0 /\
    (q = q0 \/ q = set_state Ready p /\ q0 = p)) as Hback.
  { intros j q Hq. cbn [k0 PROCESS_TABLE set_table] in Hq. rewrite mjoin_update_slot in Hq.
    destruct (decide (j = i)) as [->|]; [|eauto]. unfold slot_has in Hp. rewrite Hp in *. injection Hq as <-. eauto. }
  assert (calm was None (set_dev h k0)) as Hc0.
  { apply (calm_intro was None k _ l Hc).
    - apply (kernel_ok_ext k0); auto.
    - reflexivity.
    - destruct U. now unfold uart_kept.
    - cbn. rewrite (us_core _ _ U). apply Hc.
    - apply Hc.
    - apply waits_on_mono. intros j q Hq Hsq Hcq. destruct (Hback j q Hq) as (q0 & Hq0 & [->|[-> ->]]); [eauto|discriminate].
    - intros j q Hq. destruct (Hback j q Hq) as (q0 & Hq0 & [->|[-> ->]]); [exact (ca_idle _ _ _ Hc j q0 Hq0)|].
      intros _. apply (ca_idle _ _ _ Hc i p Hp). left. congruence.
    - intros j q Hq. destruct (Hback j q Hq) as (q0 & Hq0 & [->|[-> ->]]); exact (ca_older _ _ _ Hc j _ Hq0). }
  destruct (switch_calm _ _ _ _ _ Hc0 Hsch) as [Hc' Hl']. split; [exact Hc'|exact Hl'|].
  apply (HB k); [|exact Ho]. transitivity (set_dev h k0); [exact (spared_slot i k (set_state Ready))|].
  refine (spared_schedule i fuel (set_dev h k0) l k' _ Hsch). now apply (kernel_ok_ext k0).
Qed.

Lemma handled_timer k a k' :
  inside None k -> esource (ectx k) = EL064 -> timer_handle_irq fuel k = Done a k' -> handled k'.
Proof.
  intros Hk Hsrc Hrun. unfold timer_handle_irq in Hrun.
  apply bind_done in Hrun as ([] & k1 & H1 & Hrun). apply bind_done in Hrun as ([] & k2 & H2 & Hrun).
  assert (ectx k2 = ectx k) as E2.
  { apply zoom_done in H1 as (h1 & _ & ->). apply zoom_done in H2 as (h2 & _ & ->). reflexivity. }
  apply (timer_triple None _ (set_seconds_same 1)) in H1; [|exact Hk].
  apply (timer_triple None) in H2; [|intros h b h' H; unfold timer_disable, read_ctl, write_ctl in H; inv_done; now split|exact H1].
  unfold gets, bind at 1 in Hrun. unfold was_from_user_el0 in Hrun. rewrite E2, Hsrc in Hrun. cbv iota in Hrun.
  pose proof H2 as [_ [E (p & Hp & _) _ _] _ _].
  apply bind_done in Hrun as ([] & k3 & Hu & Hsch). unfold timeslice_up in Hu. rewrite E in Hu.
  unfold slot_has in Hp. rewrite Hp in Hu. apply bind_done in Hu as ([] & k4 & Hm & Hrt). injection Hm as <-.
  destruct a. refine (handled_ready k2 _ k' H2 eq_refl _). now rewrite (bind_run _ _ _ _ _ Hrt).
Qed.

Lemma handled_irq k a k' :
  inside None k -> esource (ectx k) = EL064 -> handle_irq_exception fuel kctx resume g k = Done a k' -> handled k'.
Proof.
  intros Hk Hsrc Hrun. unfold handle_irq_exception in Hrun. apply bind_done in Hrun as (irqs & k1 & H1 & Hrun).
  assert (ectx k1 = ectx k) as E1 by (apply zoom_done in H1 as (h1 & _ & ->); reflexivity).
  apply (timer_triple None) in H1; [|intros h b h' H; injection H as _ <-; apply uart_same_refl|exact Hk].
  apply bind_done in Hrun as (rest & k2 & H2 & Hrun). rewrite <- E1 in Hsrc.
  assert (handled k2) as H2'.
  { destruct (negb _); [|injection H2 as _ <-; now apply inside_handled].
    apply bind_done in H2 as (b & k3 & H2 & H3). injection H3 as _ <-. exact (handled_timer k1 b k3 H1 Hsrc H2). }
  destruct (_ >? 0); [|injection Hrun as _ <-; exact H2'].
  apply bind_done in Hrun as ([] & k3 & _ & Hrun). pose proof (unhandled_no_result fuel kctx resume g k3) as Hn.
  rewrite Hrun in Hn. contradiction.
Qed.

(** ** Every call *)

(** What the kernel takes on trust of a call: the buffer of a read lies in the
    program's half of the address space; the saved kernel stack pointer of a
    process that forks lies in its stack, and the pids are not used up; there
    is room for the program an exec names.  A fork for which there is no slot,
    stack or frame halts the kernel ([sys_fork_returns]). *)
Definition call_fits (k : kernel) : Prop :=
  match as_u16 (Z.land (esr (ectx k)) 0xffff) with
  | 2 => 0 <= ectx_x 0 (ectx k) /\ ectx_x 0 (ectx k) + Z.max 0 (ectx_x 1 (ectx k)) <= KERNEL_BASE
  | 4 => NEXT_PID k < U64_MAX /\ exists p s x, runs k p s x
  | 5 => exec_fits k
  | _ => True
  end.

Lemma unwrapped_done (m : M kernel (result unit)) k a k' : unwrapped m k = Done a k' -> m k = Done ok k'.
Proof.
  intros H. apply bind_done in H as ([[]|e] & k1 & H & H2); [|discriminate].
  injection H2 as _ <-. exact H.
Qed.

Lemma handled_triple {A} (m : M kernel A) k a k' :
  triple (inside None) m (fun _ => inside None) -> inside None k -> m k = Done a k' -> handled k'.
Proof. intros H Hk Hrun. apply inside_handled. exact (H k a k' Hk Hrun). Qed.

Lemma handled_syscall k a k' :
  inside None k -> call_fits k -> handle_syscall fuel kctx resume g images intro k = Done a k' -> handled k'.
Proof.
  intros Hk Hfit Hrun. unfold handle_syscall in Hrun. unfold gets at 1, bind at 1 in Hrun. cbv zeta in Hrun.
  unfold call_fits in Hfit. set (n := as_u16 _) in *.
  assert (forall s, triple (inside None) (print fuel kctx resume g s) (fun _ => inside None)) as Hp
    by (intros s; now apply print_triple).
  destruct n as [|n|n]; try exact (handled_triple _ _ _ _ (Hp _) Hk Hrun).
  do 4 (try (destruct n as [n|n|]; try exact (handled_triple _ _ _ _ (Hp _) Hk Hrun)));
    apply unwrapped_done in Hrun;
    first [ exact (handled_wait _ _ _ Hk Hrun) | exact (handled_exit _ _ _ Hk Hrun)
          | exact (handled_exec _ _ _ Hk Hfit Hrun)
          | exact (handled_triple _ _ _ _ sys_print_triple Hk Hrun)
          | exact (handled_triple _ _ _ _ sys_poll_char_triple Hk Hrun)
          | exact (handled_triple _ _ _ _ sys_sleep_triple Hk Hrun)
          | exact (handled_triple _ _ _ _ sys_print_os_info_triple Hk Hrun)
          | exact (handled_triple _ _ _ _ sys_p_info_triple Hk Hrun)
          | destruct Hfit as [F1 F2]; apply inside_handled; exact (sys_read_triple k _ _ Hk F1 F2 Hrun)
          | destruct Hfit as (Hn & p & s & x & F2); destruct (ca_ok _ _ _ (in_calm _ _ _ _ _ _ _ Hk)) as [l F1];
            destruct (sys_fork_returns k l p s x k' F1 F2 Hn Hrun) as (j & Hj & Hd);
            exact (handled_fork k l p s x j k' Hk F1 F2 Hj Hd) ].
Qed.

Lemma handled_dispatch k t a k' :
  inside None k -> esource (ectx k) = EL064 -> (t = E_SYNC -> exception_class (ectx k) = 0x15 -> call_fits k) ->
  dispatch fuel kctx resume g images intro t k = Done a k' -> handled k'.
Proof.
  intros Hk Hsrc Hfit Hrun. pose proof (unhandled_no_result fuel kctx resume g k) as Hun.
  destruct t; cbn [dispatch] in Hrun; try (rewrite Hrun in Hun; contradiction).
  - unfold handle_sync_exception in Hrun. unfold gets at 1, bind at 1 in Hrun. rewrite Hsrc in Hrun.
    destruct (exception_class (ectx k) =? 0x15) eqn:Ec.
    + apply Z.eqb_eq in Ec. exact (handled_syscall k a k' Hk (Hfit eq_refl Ec) Hrun).
    + destruct (_ =? 0x07); [|rewrite Hrun in Hun; contradiction].
      refine (handled_triple _ _ _ _ _ Hk Hrun). now apply print_triple.
  - exact (handled_irq k a k' Hk Hsrc Hrun).
Qed.

(** ** Entering the handler *)

(** The entry code leaves TTBR0_EL1 alone. *)
Lemma free_page_ttbr0 va r v :
  triple (fun st => TTBR0_EL1 st = v) (free_page va r) (fun _ st => TTBR0_EL1 st = v).
Proof.
  unfold free_page, get_entry, set_entry, add_free_frame, zero_frame. intros st a st' Hv H. inv_done.
  repeat (match goal with H : (if ?b then _ else _) _ = Done _ _ |- _ => destruct b end; inv_done); exact Hv || reflexivity.
Qed.

Lemma free_queued_ttbr0 cur v :
  triple (fun s => TTBR0_EL1 (kmem s) = v) (free_queued_stacks cur) (fun _ s => TTBR0_EL1 (kmem s) = v).
Proof.
  unfold free_queued_stacks. apply triple_for_in. intros j _.
  intros s a s' Hv H. apply bind_done in H as (st & s1 & Hg & H). injection Hg as <- <-.
  destruct (_ !! j) as [[q|q|]|] eqn:Hj; try (injection H as _ <-; exact Hv).
  apply bind_done in H as (c & s1 & Hc & H). destruct cur; [injection Hc as <- <-|discriminate].
  destruct (q =? _); [injection H as _ <-; exact Hv|]. apply bind_done in H as (r & s1 & H & H2).
  injection H2 as _ <-. unfold free_stack in H. rewrite Hj in H. apply bind_done in H as ([] & s2 & H & H2).
  apply bind_done in H2 as ([] & s3 & H2 & H3). injection H2 as <-. injection H3 as _ <-. cbn.
  revert H. apply (triple_zoom mem_lens (fun st => TTBR0_EL1 st = v) _ (fun _ st => TTBR0_EL1 st = v)); [|exact Hv].
  apply triple_for_in. intros va _. apply free_page_ttbr0.
Qed.

Lemma entry_ttbr0 k k1 :
  Exceptions.entry (ectx k) k = Done tt k1 -> TTBR0_EL1 (kmem (stk k1)) = TTBR0_EL1 (kmem (stk k)).
Proof.
  intros H. apply bind_done in H as ([] & k2 & H & Ha). pose proof (awake_around _ _ Ha) as [(-> & _) _].
  destruct (was_from_user_el0 _); [|injection H as <-; reflexivity].
  apply bind_done in H as ([] & k3 & H & Hu). apply bind_done in H as (c & k4 & Hg & Hz). injection Hg as <- <-.
  assert (stk k2 = stk k3) as ->.
  { unfold update_last_running_pctx in Hu. destruct (mjoin _); [|discriminate]. now injection Hu as <-. }
  apply zoom_done in Hz as (s & Hz & ->). exact (free_queued_ttbr0 _ _ _ _ _ eq_refl Hz).
Qed.

(** The table the entry code leaves: the registers saved, sleepers awake. *)
Lemma entered_rel k p k1 l1 l :
  kernel_ok k l -> slot_has k (CURRENT_PROCESS k) p -> state p = Running -> entered k p k1 l1 ->
  procs_rel sched_rel (update_slot (CURRENT_PROCESS k) (set_pctx (from_ectx (ectx k))) (PROCESS_TABLE k)) (PROCESS_TABLE k1).
Proof.
  intros Hok Hp Hs [E1 _ _ E4 E5 _ _ _ _] j. rewrite mjoin_update_slot. unfold slot_has in *.
  destruct (decide (j = CURRENT_PROCESS k)) as [->|Hj]; [rewrite Hp, E4; constructor; reflexivity|].
  destruct (PROCESS_TABLE k !! j) as [s|] eqn:Es.
  - destruct (E5 j s Hj Es) as [-> | ->]; destruct s; constructor; [reflexivity|apply sched_wake].
  - apply lookup_ge_None in Es. rewrite lookup_ge_None_2; [constructor|].
    pose proof (ko_table _ _ Hok) as T0. pose proof (ko_table _ _ E1) as T1. unfold table_ok in *. lia.
Qed.

Lemma entered_inside k k1 :
  inside None k -> esource (ectx k) = EL064 -> Exceptions.entry (ectx k) k = Done tt k1 -> inside None k1.
Proof.
  intros [Hc [E (p & Hp & Hme & Hs & Hr) Hpid Ht] He Ho] Hsrc Hrun. pose proof (ca_ok _ _ _ Hc) as [l Hok].
  assert (user_trap k p) as Hu by (split; [now rewrite E|exact Hs|congruence|exact Hsrc]).
  destruct (entry_run k l p Hok Hu) as (k2 & l2 & Hrun2 & Hen & _). assert (k2 = k1) as -> by congruence.
  pose proof (entered_rel k p k1 l2 l Hok (ut_slot _ _ Hu) Hs Hen) as Hrel. pose proof (entry_ttbr0 _ _ Hrun) as Htt.
  destruct Hen as [E1 E2 E3 E4 E5 E6 E7 (E8 & E9 & _) (E10 & E11 & E12)]. rewrite E in *.
  set (f := set_pctx (from_ectx (ectx k))) in *. split.
  - apply (calm_intro was None k k1 l2 Hc E1 E12 (looked_kept _ _ E8)).
    + rewrite E9. apply Hc.
    + rewrite E11. apply Hc.
    + intros Hw. apply (rel_waits _ _ _ Hrel). apply waits_on_update; [|exact Hw]. auto.
    + apply (rel_idle _ _ Hrel). intros j q Hq. rewrite mjoin_update_slot in Hq.
      destruct (decide (j = i)) as [->|]; [|exact (ca_idle _ _ _ Hc j q Hq)].
      unfold slot_has in Hp. rewrite Hp in Hq. injection Hq as <-. exact (ca_idle _ _ _ Hc i p Hp).
    + apply (rel_older _ _ Hrel). apply older_slot; [auto|exact (ca_older _ _ _ Hc)].
  - split; [exact E3| |now rewrite E9|now rewrite Htt]. exists (f p). split; [exact E4|]. split; [exact Hme|].
    split; [exact Hs|exact He].
  - now rewrite E2.
  - apply (HB k); [|exact Ho]. apply spared_kept; [exact (eq_trans E3 (eq_sym E))| |]; intros j q Hj Hq Hl.
    + assert (PROCESS_TABLE k !! j = Some (Some q)) as Hq' by now apply slot_lookup in Hq.
      unfold slot_has. destruct (E5 j _ Hj Hq') as [-> | ->]; [exists q; auto|]. exists (wake AWAITING_UART_READ q).
      destruct (wake_id AWAITING_UART_READ q) as (-> & -> & -> & Hst). split; [reflexivity|]. do 3 (split; [auto|]).
      intros Hn. now rewrite (Hst Hn).
    + rewrite Forall_forall in E7. apply E7. exact (live_root_in _ _ _ Hq Hl).
Qed.

(** The handler of a trap. *)
Lemma trap_ok k a k' :
  inside None k -> esource (ectx k) = EL064 ->
  (forall k1, Exceptions.entry (ectx k) k = Done tt k1 -> etype (ectx k) = E_SYNC ->
     exception_class (ectx k) = 0x15 -> call_fits k1) ->
  handle_exception_el1 fuel kctx resume g images intro k = Done a k' -> handled k'.
Proof.
  intros Hk Hsrc Hfit Hrun. rewrite handle_entry in Hrun. apply bind_done in Hrun as ([] & k1 & He & Hrun).
  pose proof (entry_ectx _ _ He) as Ec. pose proof (entered_inside k k1 Hk Hsrc He) as Hk1.
  apply (handled_dispatch k1 (etype (ectx k)) a k' Hk1); [now rewrite Ec| |exact Hrun].
  rewrite Ec. exact (Hfit k1 He).
Qed.
End Trap.

End Machine.
