(* ===== verification/System.v ===== *)
(** The whole machine: the programs of all processes, their exceptions and the
    kernel, from power-on.

    A turn is what one process does between two returns of the handler to user
    mode: stores to its memory, any change of its registers, then an exception
    and its handler.  A handler that puts the process to sleep inside the
    kernel lasts until the process is scheduled again, and the turns the others
    take meanwhile are part of its turn; so a process that went to sleep later
    comes back earlier.  [exceptions.s] is what lies between: [SAVE_REG] and
    [LOAD_REG]. *)

From Stdlib Require Import ZArith Lia.
From stdpp Require Import base strings numbers list.
From S2P Require Import Prelude Memory Frames PageTable PageFree PagingSpec UserMem PageDup.
From S2P Require Import PageRange Isolation LoadElf LoadSpec Args KernelStack Interrupts Devices Processes.
From S2P Require Import Scheduler ProcOps Demo Sleep Mutex Io Syscalls SyscallSpec SpawnSpec ConsoleSpec Exceptions.
From S2P Require Import Boot Calm ExecSpec TrapSpec.

Local Open Scope Z_scope.

(** ** Between two exceptions *)

(** [LOAD_REG] and [eret]: the address space of the context that is loaded, and
    the interrupt mask of its SPSR. *)
Definition LOAD_REG (irq : bool) (k : kernel) : kernel :=
  set_dev (set_core (set_irq irq (hcore (dev k))) (dev k))
    (set_stk (set_kmem (set_ttbr0 (ettbr0 (ectx k)) (kmem (stk k))) (stk k)) k).

(** What an exception of a program finds and [SAVE_REG] stores, [h] being the
    devices by then: the time passed and the input arrived. *)
Record arrives (k : kernel) (h : hw) (e : ExceptionContext) : Prop := {
  ar_core : hcore h = set_irq false (hcore (dev k));
  ar_uart : uart_kept (dev k) h;
  ar_source : esource e = EL064;
  ar_space : ettbr0 e = TTBR0_EL1 (kmem (stk k));
  ar_stack : esp_el1 e = esp_el1 (ectx k);
}.

(** The program runs until its next exception.  Its stores go through the
    tables under TTBR0_EL1, as the kernel's own below [KERNEL_BASE] do. *)
Inductive user_run : kernel -> kernel -> Prop :=
| user_trap_now k h e : arrives k h e -> user_run k (set_ectx e (set_dev h k))
| user_stores k va b k1 k' :
    0 <= va < KERNEL_BASE -> is_u8 b -> store_byte va b k = Done tt k1 -> user_run k1 k' -> user_run k k'.

(** A system call the kernel can serve: see [call_fits].  The kernel runs others
    too, with the effects [read_overwrites] and [exec_error_too_late] show. *)
Definition served (images : bytes -> bytes) (k : kernel) : Prop :=
  forall k1, Exceptions.entry (ectx k) k = Done tt k1 -> etype (ectx k) = E_SYNC ->
    exception_class (ectx k) = 0x15 -> call_fits images k1.

(** Turns of processes of other slots than [S]. *)
Inductive turn (images : bytes -> bytes) (intro : bytes) : list nat -> kernel -> kernel -> Prop :=
| turn_intro S irq k ku k' fuel kctx others g :
    (CURRENT_PROCESS k ∉ S) ->
    user_run (LOAD_REG irq k) ku ->
    served images ku ->
    thread_regs (ettbr0 (ectx ku)) kctx ->
    (forall k1 k2, others k1 = Done tt k2 -> turns images intro (CURRENT_PROCESS k :: S) k1 k2) ->
    (forall k1 k2, others k1 = Done tt k2 -> CURRENT_PROCESS k2 = CURRENT_PROCESS k) ->
    handle_exception_el1 fuel kctx (others ;; modify (LOAD_REG false)) g images intro ku = Done tt k' ->
    turn images intro S k k'
with turns (images : bytes -> bytes) (intro : bytes) : list nat -> kernel -> kernel -> Prop :=
| turns_nil S k : turns images intro S k k
| turns_cons S k1 k2 k3 : turn images intro S k1 k2 -> turns images intro S k2 k3 -> turns images intro S k1 k3.

Scheme turn_mut := Minimality for turn Sort Prop
  with turns_mut := Minimality for turns Sort Prop.

(** ** The invariant of the machine *)

Section Machine.
Context {F : Pool}.

Record at_rest (k : kernel) : Prop := {
  rt_calm : exists was, calm was None k;
  rt_loaded : loaded k;
}.

(** The processes of the slots [S] are alive in the address spaces they had,
    byte for byte, and keep their places in the queue. *)
Definition spared_in (S : list nat) (k k' : kernel) : Prop :=
  forall j q, j ∈ S -> slot_has k j q -> is_live q = true ->
    exists q', slot_has k' j q' /\ pid q' = pid q /\ is_live q' = true /\ ttbr0 (pctx q') = ttbr0 (pctx q) /\
      space_kept (ram (kmem (stk k))) (ram (kmem (stk k'))) (ttbr0 (pctx q)) /\
      place_kept j (CURRENT_PROCESS k) (CURRENT_PROCESS k') q q'.

#[global] Instance spared_in_preorder S : PreOrder (spared_in S).
Proof.
  split.
  - intros k j q _ Hq Hl. exists q. auto 10 using space_kept_refl, place_same.
  - intros k1 k2 k3 H12 H23 j q Hj Hq Hl. eapply kept_trans; eauto.
Qed.

Lemma spared_others S i k k' : (i ∉ S) -> spared i k k' -> spared_in S k k'.
Proof. intros Hi H j q Hj. apply H. congruence. Qed.

Lemma spared_in_mono S S' k k' : (forall j, j ∈ S -> j ∈ S') -> spared_in S' k k' -> spared_in S k k'.
Proof. intros Hi H j q Hj. apply H. auto. Qed.

(** Outside of every lock the mask may change. *)
Lemma calm_masked was irq k : calm was None k -> calm irq None (set_dev (set_core (set_irq irq (hcore (dev k))) (dev k)) k).
Proof.
  intros [[l C1] [M1 M2 M3 M4 M5] C3 [[N1 N2 N3 N4] H2 H3 H4 H5] C5 C6 C7]. split; auto; [|now split|].
  - exists l. now apply (kernel_ok_ext k).
  - split; auto. split; [exact N1|exact N2|reflexivity|lia].
Qed.

Lemma calm_ttbr0 was r k :
  calm was None k -> calm was None (set_stk (set_kmem (set_ttbr0 r (kmem (stk k))) (stk k)) k).
Proof.
  intros [[l C1] [M1 M2 M3 M4 M5] C3 C4 C5 C6 C7]. split; auto; [|now split]. exists l. now apply kernel_ok_ttbr0.
Qed.

Lemma calm_load was irq k : calm was None k -> calm irq None (LOAD_REG irq k).
Proof. intros H. exact (calm_masked was irq _ (calm_ttbr0 was (ettbr0 (ectx k)) k H)). Qed.

Lemma loaded_load irq k : loaded k -> loaded (LOAD_REG irq k).
Proof. intros (p & H1 & H2 & H3 & H4). exists p. auto. Qed.

Lemma spared_load S irq k : spared_in S k (LOAD_REG irq k).
Proof. intros j q _ Hq Hl. exists q. auto 10 using space_kept_refl, place_same. Qed.

(** The space of the process that is loaded. *)
Lemma loaded_root was o k p : calm was o k -> slot_has k (CURRENT_PROCESS k) p -> is_live p = true ->
  Z.land (ttbr0 (pctx p)) PTE_ADDR_MASK = ttbr0 (pctx p).
Proof.
  intros [[l C1] _ _ _ _ _ _] Hp Hl. apply entry_pa_frame.
  pose proof (spaces_space _ _ _ _ (ko_spaces _ _ C1) (list_elem_of_further _ _ _ (live_root_in _ _ _ Hp Hl))) as [_ Hi].
  exact (proj1 (pt_inv_root _ _ _ _ Hi)).
Qed.

(** The process that is loaded, once it is in user mode or its thread goes on. *)
Lemma here_load was o irq k p :
  calm was o k -> loaded k -> slot_has k (CURRENT_PROCESS k) p ->
  here (CURRENT_PROCESS k) (pid p) (ttbr0 (pctx p)) (LOAD_REG irq k) /\ ettbr0 (ectx k) = ttbr0 (pctx p).
Proof.
  intros Hc (q & Hq & Hs & Hpid & He) Hp. assert (q = p) as -> by (unfold slot_has in *; congruence).
  assert (is_live p = true) as Hl by (unfold is_live, is_state; now rewrite Hs).
  split; [|exact He]. split; [reflexivity|exists p; auto|exact Hpid|]. cbn. rewrite He.
  exact (loaded_root was o k p Hc Hp Hl).
Qed.

(** ** A program at work *)

Lemma store_ttbr0 va b k k' :
  0 <= va < KERNEL_BASE -> store_byte va b k = Done tt k' ->
  TTBR0_EL1 (kmem (stk k')) = TTBR0_EL1 (kmem (stk k)) /\ ectx k' = ectx k.
Proof.
  intros _ H. unfold store_byte in H. destruct (mem_tr k va); [|discriminate]. now injection H as <-.
Qed.

Section UserMode.
  Context (was : bool) (i : nat) (me root : Z) (B : kernel -> Prop).
  Context (HB : forall k k', spared i k k' -> B k -> B k').

Lemma inside_arrives k h e :
  inside was i me root B None k -> arrives k h e -> TTBR0_EL1 (kmem (stk k)) = root ->
  inside false i me root B None (set_ectx e (set_dev h k)).
Proof.
  intros [Hc [H1 H2 H3 H4] He Ho] [A1 A2 A3 A4 A5] Ht.
  pose proof (calm_masked was false k Hc) as [[l C1] [M1 M2 M3 M4 M5] C3 C4 C5 C6 C7].
  split; [|split; auto; cbn; now rewrite A1|cbn; congruence|apply (HB k); [now apply spared_rel|exact Ho]].
  split; auto; [|now split|].
  - exists l. apply (kernel_ok_ext _ _ _ C1); reflexivity.
  - apply (hw_ok_kept false _ _ C4); [exact A2|]. cbn. rewrite A1. apply C4.
Qed.

Lemma user_run_inside k ku :
  user_run k ku -> inside was i me root B None k -> TTBR0_EL1 (kmem (stk k)) = root ->
  inside false i me root B None ku /\ esource (ectx ku) = EL064.
Proof.
  induction 1 as [k h e Ha|k va b k1 k' Hva Hb Hst Hrun IH]; intros Hin Ht.
  - split; [now apply inside_arrives|exact (ar_source _ _ _ Ha)].
  - destruct (store_ttbr0 _ _ _ _ Hva Hst) as [E1 E2]. apply IH; [|congruence].
    exact (store_triple was i me root B HB None va b Hva Hb k tt k1 Hin Hst).
Qed.
End UserMode.

Lemma user_run_table k ku : user_run k ku -> PROCESS_TABLE ku = PROCESS_TABLE k /\ CURRENT_PROCESS ku = CURRENT_PROCESS k.
Proof.
  induction 1 as [|k va b k1 k' _ _ Hst _ [-> ->]]; [auto|]. unfold store_byte in Hst.
  destruct (mem_tr k va); [|discriminate]. now injection Hst as <-.
Qed.

(** From rest to the exception of the process that runs. *)
Lemma trap_of_rest irq k ku p :
  at_rest k -> slot_has k (CURRENT_PROCESS k) p -> user_run (LOAD_REG irq k) ku ->
  inside false (CURRENT_PROCESS k) (pid p) (ttbr0 (pctx p)) (fun _ => True) None ku /\ user_trap ku p /\
  ettbr0 (ectx ku) = ttbr0 (pctx p).
Proof.
  intros [[was Hc] Hl] Hp Hu. destruct (here_load was None irq k p Hc Hl Hp) as [Hh He].
  destruct (user_run_inside irq (CURRENT_PROCESS k) (pid p) (ttbr0 (pctx p)) (fun _ => True) (fun _ _ _ _ => I) _ ku Hu) as [Hin Hsrc];
    [split; [exact (calm_load was irq k Hc)|exact Hh|exact He|exact I]|exact He|].
  destruct (user_run_table _ _ Hu) as [Et Ec]. destruct (he_slot _ _ _ _ (in_here _ _ _ _ _ _ _ Hin)) as (q & Hq & _ & Hs & _).
  assert (q = p) as -> by (unfold slot_has in *; rewrite Et in Hq; cbn in Hq; congruence).
  pose proof (in_ectx _ _ _ _ _ _ _ Hin) as Er. split; [exact Hin|]. split; [|exact Er].
  split; [now rewrite Ec|exact Hs|exact Er|exact Hsrc].
Qed.

(** ** Turns *)

Definition keeps (S : list nat) (k k' : kernel) : Prop := at_rest k -> at_rest k' /\ spared_in S k k'.

(** What the others do while a thread sleeps, and its return. *)
Lemma others_return (i : nat) me root S k others :
  (forall k1 k2, others k1 = Done tt k2 -> keeps (i :: S) k1 k2) ->
  (forall k1 k2, others k1 = Done tt k2 -> CURRENT_PROCESS k2 = i) ->
  triple (away false i me root (spared_in S k)) (others ;; modify (LOAD_REG false))
    (fun _ => resumed false i me root (spared_in S k)).
Proof.
  intros Hk Hcur k1 [] k2 [W1 W2 (q & Hq & Hqp & Hql & Hqr) W4] Hr.
  apply bind_done in Hr as ([] & k3 & H1 & H2). injection H2 as <-.
  destruct (Hk _ _ H1 (Build_at_rest k1 (ex_intro _ false W1) W2)) as [[[w R1] R2] Hsp].
  destruct (Hsp i q ltac:(left) Hq Hql) as (q3 & Hq3 & E1 & E2 & E3 & _ & _).
  rewrite <- (Hcur _ _ H1) in Hq3. destruct (here_load w None false k3 q3 R1 R2 Hq3) as [Hh _].
  rewrite (Hcur _ _ H1), E1, E3, Hqp, Hqr in Hh. split; [exact (calm_load w false k3 R1)|exact Hh|].
  transitivity k1; [exact W4|]. transitivity k3; [|apply spared_load].
  apply (spared_in_mono S (i :: S)); [|exact Hsp]. intros j Hj. now right.
Qed.

Lemma turn_keeps images intro S irq k ku k' fuel kctx others g :
  (CURRENT_PROCESS k ∉ S) -> user_run (LOAD_REG irq k) ku -> served images ku ->
  thread_regs (ettbr0 (ectx ku)) kctx ->
  (forall k1 k2, others k1 = Done tt k2 -> keeps (CURRENT_PROCESS k :: S) k1 k2) ->
  (forall k1 k2, others k1 = Done tt k2 -> CURRENT_PROCESS k2 = CURRENT_PROCESS k) ->
  handle_exception_el1 fuel kctx (others ;; modify (LOAD_REG false)) g images intro ku = Done tt k' ->
  keeps S k k'.
Proof.
  intros HS Hu Hsv Hregs Hoth Hcur Hrun [[was Hc] Hl]. pose proof Hl as (p & Hp & Hs & Hpid & He).
  set (i := CURRENT_PROCESS k) in *.
  assert (forall a b, spared i a b -> spared_in S k a -> spared_in S k b) as HB
    by (intros a b H Ha; transitivity a; [exact Ha|now apply (spared_others S i)]).
  destruct (here_load was None irq k p Hc Hl Hp) as [Hh _].
  assert (inside irq i (pid p) (ttbr0 (pctx p)) (spared_in S k) None (LOAD_REG irq k)) as Hin
    by (split; [exact (calm_load was irq k Hc)|exact Hh|exact He|apply spared_load]).
  destruct (user_run_inside irq i _ _ _ HB _ ku Hu Hin He) as [Hin' Hsrc].
  assert (ettbr0 (ectx ku) = ttbr0 (pctx p)) as Er by apply Hin'. rewrite Er in Hregs.
  pose proof (others_return i (pid p) (ttbr0 (pctx p)) S k others Hoth Hcur) as Hres.
  destruct (trap_ok false i (pid p) (ttbr0 (pctx p)) (spared_in S k) HB fuel kctx _ g images intro Hregs Hres ku tt k' Hin' Hsrc Hsv Hrun)
    as [Hc' Hl' Hb']. split; [split; [now exists false|exact Hl']|exact Hb'].
Qed.

Lemma turns_keep images intro S k k' : turns images intro S k k' -> keeps S k k'.
Proof.
  revert S k k'. apply (turns_mut images intro (fun S k k' => keeps S k k') (fun S k k' => keeps S k k')).
  - intros S irq k ku k' fuel kctx others g HS Hu Hsv Hregs _ IH Hcur Hrun.
    exact (turn_keeps images intro S irq k ku k' fuel kctx others g HS Hu Hsv Hregs IH Hcur Hrun).
  - intros S k Hk. split; [exact Hk|reflexivity].
  - intros S k1 k2 k3 _ IH1 _ IH2 Hk1. destruct (IH1 Hk1) as [Hk2 H12]. destruct (IH2 Hk2) as [Hk3 H23].
    split; [exact Hk3|now transitivity k2].
Qed.

(** ** Power-on *)

(** When [start] returns, the kernel is at rest. *)
Lemma start_rests fuel kctx resume g images intro k k' :
  calm true None k -> get_current_process k = None -> start fuel kctx resume g images intro k = Done tt k' ->
  at_rest k'.
Proof.
  intros Hc Hnone Hrun. pose proof (ca_ok _ _ _ Hc) as [l Hok]. unfold start in Hrun.
  set (k0 := set_ectx (svc_ectx kctx (ectx_x 0 kctx) (ectx_x 1 kctx)) k).
  rewrite (bind_run _ _ _ tt k0) in Hrun by reflexivity. unfold k0 in Hrun. rewrite <- svc_handles in Hrun.
  unfold svc_enter in Hrun. rewrite (bind_run _ _ _ tt k0) in Hrun by reflexivity.
  apply bind_done in Hrun as ([] & k1 & Haw & Hrun).
  assert (kernel_ok k0 l) as Hok0 by (apply (kernel_ok_ext k); auto).
  pose proof (kernel_ok_awake _ _ _ Hok0 Haw) as Hok1. destruct (awake_around _ _ Haw) as [(S1 & S2 & S3 & S4 & S5) Hcur].
  assert (calm true None k1) as Hc1.
  { apply (calm_rel true None k k1 l Hc Hok1 S4 (looked_kept _ _ S5)); [|exact S3|exact (awake_rel _ _ Haw)].
    exact (looked_nested true _ _ S5 (calm_nested _ _ _ Hc)). }
  assert (get_current_process k1 = None) as Hn1.
  { unfold get_current_process, find_by_ptable_index in *. rewrite Hcur. change (CURRENT_PROCESS k0) with (CURRENT_PROCESS k).
    destruct (_ >=? _); [reflexivity|]. pose proof (awake_rel _ _ Haw (CURRENT_PROCESS k)) as Hr.
    change (PROCESS_TABLE k0) with (PROCESS_TABLE k) in Hr. rewrite Hnone in Hr. now inversion Hr. }
  unfold handle_svc_el1 in Hrun. rewrite (bind_run (gets get_current_process) _ k1 None k1) in Hrun
    by (unfold gets; now rewrite Hn1).
  rewrite (bind_run skip _ k1 tt k1) in Hrun by reflexivity. apply bind_done in Hrun as ([] & k2 & Hr2 & Hsch).
  apply reset_timer_form in Hr2 as (h & -> & U).
  destruct (switch_calm fuel true None (set_dev h k1) k') as [Hc' Hl']; [|exact Hsch|split; [eauto|exact Hl']].
  apply (calm_rel true None k1 _ l Hc1); try reflexivity.
  - apply (kernel_ok_ext k1); auto.
  - destruct U. now unfold uart_kept.
  - cbn. rewrite (us_core _ _ U). apply Hc1.
Qed.

End Machine.

Lemma boot_rests fuel kctx resume g images intro k root p h k' :
  power_on k root p -> 0x2000 <= p <= ram_limit ->
  startable (images (str "init")) h init_args ->
  Z.of_nat (frames_for (images (str "init")) h) < (ram_limit - p + 4095) / 4096 ->
  rust_main fuel kctx resume g images intro (ttbr1_to_va (p - 0x2000)) k = Done tt k' -> at_rest (F := boot_pool k root p) k'.
Proof.
  intros Hk Hp Hst Hfr Hrun.
  destruct (boot_to_start fuel kctx resume g images intro k root p h Hk Hp Hst Hfr)
    as (k3 & k4 & c & l4 & Hrun4 & Hb & [B1 B2 B3 B4 B5 B6 B7 B8] & _ & _ & Hok4 & [W1 _ W3 W4 W4' _ _ _ [s W8]]).
  rewrite Hrun4 in Hrun. rewrite (bt_pid _ _ _ Hb) in W1.
  assert (PROCESS_TABLE k4 = first_table c) as Et by (rewrite W8; cbn; now rewrite (bt_table _ _ _ Hb)).
  assert (forall j q, mjoin (PROCESS_TABLE k4 !! j) = Some q -> q = c) as Honly.
  { intros j q Hq. rewrite Et in Hq. unfold first_table in Hq. apply slot_written in Hq as [[_ [= <-]]|[_ Hq]]; [reflexivity|].
    destruct (decide (j < NPROC)%nat) as [Hlt|Hge].
    - rewrite lookup_replicate_2 in Hq by exact Hlt. discriminate.
    - rewrite lookup_ge_None_2 in Hq by (rewrite length_replicate; lia). discriminate. }
  apply (start_rests fuel kctx resume g images intro k4 k'); [|rewrite W8|exact Hrun].
  - split; [eauto| | | | | |]; try (rewrite W8; assumption).
    + split; [apply Hok4|rewrite W8; exact B2|rewrite W8; exact B6| |rewrite W8; exact B7].
      intros _. apply waits_on_false. intros j q ->%Honly Hq. congruence.
    + rewrite W8. apply B1.
    + intros j q ->%Honly _. exact W4'.
    + intros j q ->%Honly. lia.
  - unfold get_current_process, find_by_ptable_index. cbn. rewrite (bt_table _ _ _ Hb), (bt_current _ _ _ Hb). reflexivity.
Qed.

(** With frames enough, [_rust_main] does return, to init. *)
Lemma main_returns fuel kctx resume g images intro k root p h :
  power_on k root p -> 0x2000 <= p <= ram_limit ->
  startable (images (str "init")) h init_args ->
  Z.of_nat (frames_for (images (str "init")) h) < (ram_limit - p + 4095) / 4096 ->
  exists k' c, rust_main fuel kctx resume g images intro (ttbr1_to_va (p - 0x2000)) k = Done tt k' /\
    slot_has k' (CURRENT_PROCESS k') c /\ elf_loaded (images (str "init")) h (ttbr0 (pctx c)) (kmem (stk k')).
Proof.
  intros Hk Hp Hst Hfr.
  destruct (boot_to_start fuel kctx resume g images intro k root p h Hk Hp Hst Hfr)
    as (k3 & k4 & c & l4 & Hrun & Hb & _ & Ht & _ & Hok4 & [_ _ W3 _ _ W5 _ _ [s W8]]).
  destruct (start_first fuel kctx resume g images intro k4 l4 c Hok4) as (k5 & Hr5 & _ & C5 & T5 & _ & _ & S5 & _).
  - rewrite W8. cbn. now rewrite (bt_table _ _ _ Hb).
  - exact W3.
  - rewrite W8. apply Hb.
  - rewrite W8. exact Ht.
  - exists k5, (set_state Running c). split; [now rewrite Hrun|]. split; [unfold slot_has; rewrite C5, T5; reflexivity|].
    rewrite S5. exact (pr_image _ _ _ _ _ W5).
Qed.

(** ** The machine never comes to harm *)

(** C1. The kernel's invariant, from power-on, over served turns.  A turn is
    served when the system call it ends with, if any, is one the kernel can
    serve ([call_fits]): a read's buffer lies below the kernel's half, an exec
    names a loadable file with room for it and its arguments fit, and a fork's
    saved kernel stack pointer is in the process's stack; [read_overwrites]
    shows that the invariant does not survive others.  After the boot and any
    number of served turns, whatever the programs store, whatever is in their
    registers, however their exceptions and the interrupts follow on each
    other: the page tables, the stacks and the process table are consistent,
    no two spaces share a frame and none is lost (the spaces, the kernel's
    table and the free list together are exactly the frames of the kernel's
    table at power-on and all frames above the image), no lock is held,
    nobody waits for a free console, and the exception returns to the running
    process of the current slot, in its own address space. *)
Theorem system_invariant fuel kctx resume g images intro k root p h k0 k' :
  power_on k root p -> 0x2000 <= p <= ram_limit ->
  startable (images (str "init")) h init_args ->
  Z.of_nat (frames_for (images (str "init")) h) < (ram_limit - p + 4095) / 4096 ->
  rust_main fuel kctx resume g images intro (ttbr1_to_va (p - 0x2000)) k = Done tt k0 ->
  turns images intro [] k0 k' -> at_rest (F := boot_pool k root p) k'.
Proof.
  intros Hk Hp Hst Hfr Hrun Ht.
  exact (proj1 (turns_keep images intro [] k0 k' Ht (boot_rests fuel kctx resume g images intro k root p h k0 Hk Hp Hst Hfr Hrun))).
Qed.

Section Turns.
Context {F : Pool}.

(** C2. Isolation over served turns.  While the others take their turns, with
    all their stores, interrupts and those system calls the kernel can serve
    ([call_fits]: a read into the kernel's half is not among them, see
    [read_overwrites]), and the kernel works and schedules on their behalf, a
    process that takes none stays alive in its slot and in its
    address space, in which every address is mapped as it was and reads the
    same. *)
Theorem system_isolation images intro S k k' j q :
  at_rest k -> turns images intro S k k' -> j ∈ S -> slot_has k j q -> is_live q = true ->
  exists q', slot_has k' j q' /\ pid q' = pid q /\ is_live q' = true /\ ttbr0 (pctx q') = ttbr0 (pctx q) /\
    forall va, vread (kmem (stk k')) (ttbr0 (pctx q)) va = vread (kmem (stk k)) (ttbr0 (pctx q)) va.
Proof.
  intros Hk Ht Hj Hq Hl. destruct (turns_keep images intro S k k' Ht Hk) as [_ Hsp].
  destruct (Hsp j q Hj Hq Hl) as (q' & Hq' & E1 & E2 & E3 & Hkept & _). exists q'.
  split; [exact Hq'|]. split; [exact E1|]. split; [exact E2|]. split; [exact E3|]. intros va.
  destruct (rt_calm _ Hk) as [was [[l Hok] _ _ _ _ _ _]].
  exact (kept_read _ _ _ l _ va (ko_spaces _ _ Hok) (list_elem_of_further _ _ _ (live_root_in _ _ _ Hq Hl)) Hkept).
Qed.

(** ** A turn that always is possible *)

(** The exception of [svc #10], and the registers of a thread of that space. *)
Definition p_info_ectx (sp root : Z) : ExceptionContext :=
  mk_ectx E_SYNC EL064 (replicate 31 0) 0 0 (Z.lor (Z.shiftl 0x15 26) 10) 0 0 sp root.
Definition idle_thread (root : Z) : ExceptionContext := mk_ectx E_SYNC EL1h (replicate 31 0) 0 0 0 0 0 0 root.

Lemma p_info_turn_ok images intro S k p :
  at_rest k -> slot_has k (CURRENT_PROCESS k) p -> (CURRENT_PROCESS k ∉ S) ->
  exists k', turn images intro S k k' /\ CURRENT_PROCESS k' = CURRENT_PROCESS k /\
    ectx k' = save_meta_to_ectx p (p_info_ectx (esp_el1 (ectx k)) (ttbr0 (pctx p))).
Proof.
  intros Hk Hp HS. set (k0 := LOAD_REG false k).
  set (e := p_info_ectx (esp_el1 (ectx k)) (ttbr0 (pctx p))). set (ku := set_ectx e (set_dev (dev k0) k0)).
  assert (user_run k0 ku) as Hu.
  { apply user_trap_now. pose proof Hk as [[was Hc] Hl]. destruct (here_load was None false k p Hc Hl Hp) as [_ He].
    split; [reflexivity|now unfold uart_kept|reflexivity|symmetry; exact He|reflexivity]. }
  destruct (trap_of_rest false k ku p Hk Hp Hu) as (Hin & Ht & _).
  pose proof (ca_ok _ _ _ (in_calm _ _ _ _ _ _ _ Hin)) as [l Hok].
  destruct (entry_run ku l p Hok Ht) as (k1 & l1 & Hrun & [E1 E2 E3 E4 _ _ _ _ _] & _).
  rewrite <- E3 in E4. set (p1 := set_pctx (from_ectx (ectx ku)) p) in *.
  pose proof (current_process_slot k1 l1 p1 E1 E4) as Hcur.
  set (k' := set_ectx (save_meta_to_ectx p1 (ectx k1)) k1). exists k'.
  assert (dispatch 0 (idle_thread (ttbr0 (pctx p))) ((diverge : M kernel unit) ;; modify (LOAD_REG false)) 0 images intro E_SYNC k1 = Done tt k') as Hd.
  { cbn [dispatch]. unfold handle_sync_exception. rewrite (bind_run _ _ _ (ectx k1) k1) by reflexivity. rewrite E2.
    change (exception_class (ectx ku) =? 0x15) with true. change (esource (ectx ku)) with EL064. cbv beta iota.
    unfold handle_syscall. rewrite (bind_run _ _ _ (esr (ectx k1)) k1) by reflexivity. rewrite E2.
    change (as_u16 (Z.land (esr (ectx ku)) 0xffff)) with 10. cbv beta iota zeta. unfold unwrapped.
    assert (sys_p_info k1 = Done ok k') as Hp1; [|now rewrite (bind_run _ _ _ _ _ Hp1)].
    unfold sys_p_info. now rewrite (bind_run (gets get_current_process) _ k1 (Some p1) k1) by (unfold gets; now rewrite Hcur). }
  split; [|split; [exact E3|]].
  - apply (turn_intro images intro S false k ku k' 0 (idle_thread (ttbr0 (pctx p))) diverge 0 HS Hu).
    + intros k2 H _ _. unfold call_fits. now rewrite (entry_ectx _ _ H).
    + split; [reflexivity|discriminate|reflexivity].
    + discriminate.
    + discriminate.
    + rewrite handle_entry, (bind_run _ _ _ _ _ Hrun). exact Hd.
  - cbn [k' ectx set_ectx]. now rewrite E2.
Qed.

(** [p_info] from any state of the machine: the process that runs can always
    ask who it is, and goes on at once with the answer. *)
Theorem p_info_turn images intro S k p :
  at_rest k -> slot_has k (CURRENT_PROCESS k) p -> (CURRENT_PROCESS k ∉ S) ->
  exists k', turn images intro S k k' /\ at_rest k' /\ CURRENT_PROCESS k' = CURRENT_PROCESS k /\
    ectx_x 0 (ectx k') = pid p /\ ectx_x 1 (ectx k') = parent_pid p.
Proof.
  intros Hk Hp HS. destruct (p_info_turn_ok images intro S k p Hk Hp HS) as (k' & Ht & Hc & He).
  exists k'. split; [exact Ht|]. split; [|split; [exact Hc|]].
  - exact (proj1 (turns_keep images intro S k k' (turns_cons _ _ _ _ _ _ Ht (turns_nil _ _ _ _)) Hk)).
  - rewrite He. split; reflexivity.
Qed.

(** ** From a program's print to the console *)

(** The exception of a system call is served by the handler of its number. *)
Lemma svc_dispatch fuel kctx resume g images intro k n :
  esource (ectx k) = EL064 -> svc_trap n (ectx k) ->
  dispatch fuel kctx resume g images intro (etype (ectx k)) k = handle_syscall fuel kctx resume g images intro k.
Proof.
  intros Hs (Ht & Hc & _). rewrite Ht. cbn [dispatch]. unfold handle_sync_exception.
  rewrite (bind_run _ _ _ (ectx k) k) by reflexivity. now rewrite Hs, Hc.
Qed.

Lemma inside_space was i me root B o k : inside was i me root B o k -> in_space root (stk k).
Proof.
  intros [[[l Hok] _ _ _ _ _ _] [_ (p & Hp & _ & Hs & Hr) _ Ht] _ _]. split; [exact Ht|]. exists l. rewrite <- Hr.
  apply (spaces_space _ _ _ _ (ko_spaces _ _ Hok)). right. apply (live_root_in _ _ _ Hp).
  unfold is_live, is_state. now rewrite Hs.
Qed.

Lemma write_turn_ok images intro S k p e s :
  at_rest k -> slot_has k (CURRENT_PROCESS k) p -> (CURRENT_PROCESS k ∉ S) ->
  arrives (LOAD_REG false k) (dev (LOAD_REG false k)) e -> svc_trap 1 e ->
  0 <= ectx_x 0 e -> ectx_x 0 e + Z.of_nat (length s) <= VA_LIMIT -> ectx_x 1 e = Z.of_nat (length s) ->
  (forall i b, s !! i = Some b -> vread (kmem (stk k)) (ttbr0 (pctx p)) (ectx_x 0 e + Z.of_nat i) = Some b) ->
  utf8_valid s = true ->
  exists k', turn images intro S k k' /\ CURRENT_PROCESS k' = CURRENT_PROCESS k /\ ectx k' = e /\
    tx (dev k') = tx (dev k) ++ (s ≫= crlf).
Proof.
  intros Hk Hp HS Ha Hsvc H0 Hlim Hlen Hmem Hutf. set (k0 := LOAD_REG false k) in *.
  set (i := CURRENT_PROCESS k) in *. set (root := ttbr0 (pctx p)) in *.
  assert (user_run k0 (set_ectx e (set_dev (dev k0) k0))) as Hu by now apply user_trap_now.
  set (ku := set_ectx e (set_dev (dev k0) k0)) in *.
  destruct (trap_of_rest false k ku p Hk Hp Hu) as (Hin & Ht & _). pose proof Ht as [Hq Hs _ Hsrc].
  pose proof (ca_ok _ _ _ (in_calm _ _ _ _ _ _ _ Hin)) as [l Hok].
  destruct (entry_run ku l p Hok Ht) as (k1 & l1 & Hrun & Hen & _).
  pose proof (entered_inside false i (pid p) root (fun _ => True) (fun _ _ _ _ => I)
    ku k1 Hin Hsrc Hrun) as Hin1.
  pose proof Hen as [_ E2 E3 _ _ _ E7 (E8 & _ & _) _].
  assert (is_live p = true) as Hlive by (unfold is_live, is_state; now rewrite Hs).
  pose proof (live_root_in _ _ _ Hq Hlive) as Hroot. fold root in Hroot.
  assert (forall va, vread (kmem (stk k1)) root va = vread (kmem (stk k)) root va) as Hread.
  { intros va. rewrite Forall_forall in E7.
    exact (kept_read _ _ _ l root va (ko_spaces _ _ Hok) (list_elem_of_further _ _ _ Hroot) (E7 _ Hroot)). }
  assert (load_bytes (ectx_x 0 e) (ectx_x 1 e) k1 = Done s k1) as Hload.
  { rewrite Hlen. apply (load_bytes_user k1 root _ s (inside_space _ _ _ _ _ _ _ Hin1) H0 Hlim).
    intros j b Hj. rewrite Hread. exact (Hmem j b Hj). }
  set (others := (diverge : M kernel unit) ;; modify (LOAD_REG false)).
  destruct (print_ok eq 0 (idle_thread root) others 0 false (pid p) k1 s (inside_io _ _ _ _ _ _ _ Hin1))
    as (k' & Hpr & _ & [_ D2 D3 _ _ _ _ _ _ _]).
  pose proof (print_around _ _ _ _ _ _ _ (inside_free _ _ _ _ _ _ Hin1) Hpr) as Har.
  exists k'. split; [|split; [|split]].
  - apply (turn_intro images intro S false k ku k' 0 (idle_thread root) diverge 0 HS Hu).
    + intros k2 H _ _. unfold call_fits. rewrite (entry_ectx _ _ H). change (ectx ku) with e.
      destruct Hsvc as (_ & _ & ->). exact I.
    + split; [reflexivity|discriminate|]. symmetry. exact (in_ectx _ _ _ _ _ _ _ Hin).
    + discriminate.
    + discriminate.
    + rewrite handle_entry, (bind_run _ _ _ _ _ Hrun). change (etype (ectx ku)) with (etype e).
      assert (ectx k1 = e) as Ee by exact E2. rewrite <- Ee.
      rewrite (svc_dispatch _ _ _ _ _ _ _ 1) by (rewrite Ee; assumption).
      unfold handle_syscall. rewrite (bind_run _ _ _ (esr e) k1) by (unfold gets; now rewrite Ee).
      destruct Hsvc as (_ & _ & ->). change (as_u16 1) with 1. cbv beta iota zeta. unfold unwrapped.
      assert (sys_print 0 (idle_thread root) others 0 k1 = Done ok k') as Hsp; [|now rewrite (bind_run _ _ _ _ _ Hsp)].
      unfold sys_print, arg. rewrite (bind_run _ _ _ (ectx_x 0 e) k1) by (unfold gets; now rewrite Ee).
      rewrite (bind_run _ _ _ (ectx_x 1 e) k1) by (unfold gets; now rewrite Ee).
      rewrite (bind_run _ _ _ _ _ Hload), Hutf. now rewrite (bind_run _ _ _ _ _ Hpr).
  - rewrite (ar_current _ _ Har). exact E3.
  - rewrite D2. exact E2.
  - rewrite D3, (lk_tx _ _ E8). reflexivity.
Qed.

(** C8. [print] from any state of the machine.  When the process that runs
    calls [print] with the address and the length of a valid string in its
    memory, its turn ends with the string on the console, after all that was
    there and with a carriage return before each line feed; the machine is at
    rest, and the process goes on with the registers it made the call with. *)
Theorem print_turn images intro S k p e s :
  at_rest k -> slot_has k (CURRENT_PROCESS k) p -> (CURRENT_PROCESS k ∉ S) ->
  arrives (LOAD_REG false k) (dev (LOAD_REG false k)) e -> svc_trap 1 e ->
  0 <= ectx_x 0 e -> ectx_x 0 e + Z.of_nat (length s) <= VA_LIMIT -> ectx_x 1 e = Z.of_nat (length s) ->
  (forall i b, s !! i = Some b -> vread (kmem (stk k)) (ttbr0 (pctx p)) (ectx_x 0 e + Z.of_nat i) = Some b) ->
  utf8_valid s = true ->
  exists k', turn images intro S k k' /\ at_rest k' /\ CURRENT_PROCESS k' = CURRENT_PROCESS k /\ ectx k' = e /\
    tx (dev k') = tx (dev k) ++ (s ≫= crlf).
Proof.
  intros Hk Hp HS Ha Hsvc H0 Hlim Hlen Hmem Hutf.
  destruct (write_turn_ok images intro S k p e s Hk Hp HS Ha Hsvc H0 Hlim Hlen Hmem Hutf) as (k' & Ht & Hr).
  exists k'. split; [exact Ht|]. split; [|exact Hr].
  exact (proj1 (turns_keep images intro S k k' (turns_cons _ _ _ _ _ _ Ht (turns_nil _ _ _ _)) Hk)).
Qed.

End Turns.

(** ** On a concrete machine *)

(** Init alone, in user mode. *)
Definition demo_alone_hw : hw :=
  mk_hw (mk_core (mk_Cpu 0 (Some 1) 0 false) true) (Spinlock_new "uart_write_lock") (Spinlock_new "uart_read_lock")
    (fun _ => 0) (fun _ => 0x21) 0 (fun _ => 97) 0 [] 2 19200000 (fun _ => 1000) 0 0 0.
Definition demo_alone : kernel :=
  mk_kernel demo_one_kstate demo_alone_hw demo_init_table 10 0 (Spinlock_new "process_table") demo_mutex
    (mk_ectx E_SYNC EL064 (replicate 31 0) 0x400000 0 0 0 0x420000 demo_sp proc_root).

Lemma demo_only j q : mjoin (demo_init_table !! j) = Some q -> j = 0%nat /\ q = demo_proc.
Proof.
  destruct j as [|j]; [intros [= <-]; auto|]. cbn [demo_init_table lookup list_lookup].
  destruct (decide (j < 49)%nat) as [Hlt|Hge].
  - change (mjoin (replicate 49 None !! j) = Some q -> S j = 0%nat /\ q = demo_proc).
    rewrite lookup_replicate_2 by exact Hlt. discriminate.
  - change (mjoin (replicate 49 None !! j) = Some q -> S j = 0%nat /\ q = demo_proc).
    rewrite lookup_ge_None_2 by (rewrite length_replicate; lia). discriminate.
Qed.

Lemma demo_alone_room : exists (F : Pool) l, kernel_ok demo_alone l /\ fork_room demo_alone l demo_proc 1.
Proof. destruct demo_room as (F & l & Hok & Hr). exists F, l. exact (other_machine _ _ _ _ _ _ _ _ _ _ _ _ _ Hok Hr). Qed.

Lemma other_runs s h h' t n i a m c c' p st x :
  runs (mk_kernel s h t n i a m c) p st x -> runs (mk_kernel s h' t n i a m c') p st x.
Proof. intros [R1 R2 R3 R4 R5]. now split. Qed.

Lemma demo_alone_runs : runs demo_alone demo_proc 0 (slot_low 0 + 0x7000).
Proof. exact (other_runs _ _ _ _ _ _ _ _ _ _ _ _ _ demo_runs). Qed.

Lemma demo_alone_calm {F : Pool} l : kernel_ok demo_alone l -> calm true None demo_alone.
Proof.
  intros Hok. split; [eauto| |reflexivity| |reflexivity| |].
  - split; [exact (ko_table _ _ Hok)|reflexivity|reflexivity| |unfold AWAITING_UART_READ; cbn; lia].
    intros _. reflexivity.
  - split; [split; [reflexivity|unfold U64; lia|reflexivity|lia]|reflexivity|reflexivity|unfold U64; lia|].
    intros n. exists O. split; [cbn; lia|discriminate].
  - intros j q Hq _. apply demo_only in Hq as [_ ->]. reflexivity.
  - intros j q Hq. apply demo_only in Hq as [_ ->]. reflexivity.
Qed.

Lemma demo_alone_rests {F : Pool} l : kernel_ok demo_alone l -> at_rest demo_alone.
Proof.
  intros Hok. split; [exists true; exact (demo_alone_calm l Hok)|]. exists demo_proc. split; [reflexivity|].
  split; [reflexivity|]. split; reflexivity.
Qed.

(** A process at rest forks. *)
Lemma fork_rests {F : Pool} was k l p s x j :
  calm was None k -> loaded k -> kernel_ok k l -> slot_has k (CURRENT_PROCESS k) p -> runs k p s x -> fork_room k l p j ->
  exists k' child, at_rest k' /\ CURRENT_PROCESS k' = CURRENT_PROCESS k /\
    PROCESS_TABLE k' = <[j := Some child]> (PROCESS_TABLE k) /\ state child = Ready.
Proof.
  intros Hc Hl Hok Hp [R1 R2 R3 R4 R5] [F1 F2 F3 F4 F5]. set (k0 := LOAD_REG was k).
  destruct (here_load was None was k p Hc Hl Hp) as [Hh He].
  assert (inside was (CURRENT_PROCESS k) (pid p) (ttbr0 (pctx p)) (fun _ => True) None k0) as Hin
    by (split; [exact (calm_load was was _ Hc)|exact Hh|exact He|exact I]).
  assert (kernel_ok k0 l) as Hok0 by (apply (kernel_ok_ext _ _ _ (kernel_ok_ttbr0 (ettbr0 (ectx k)) _ _ Hok)); reflexivity).
  assert (runs k0 p s x) as Hr by now split.
  assert (fork_room k0 l p j) as Hroom by now split.
  destruct (sys_fork_run k0 l p s x j Hok0 Hr Hroom)
    as (child & k' & l' & Hrun & Hd).
  destruct (handled_fork was _ _ _ (fun _ => True) (fun _ _ _ _ => I) k0 l p s x j k' Hin Hok0 Hr F1
    ltac:(exists child, l'; exact Hd)) as [Hc' Hl' _].
  destruct Hd as (_ & Ht & _ & _ & _ & Hst & _ & _ & _ & _ & _ & (_ & _ & _ & Hcur) & _).
  exists k', child. split; [split; [eauto|exact Hl']|]. split; [exact Hcur|]. split; [exact Ht|exact Hst].
Qed.

(** Init and its child. *)
Lemma demo_pair :
  exists (F : Pool) k child, at_rest k /\ CURRENT_PROCESS k = 0%nat /\ slot_has k 0 demo_proc /\ slot_has k 1 child /\
    state child = Ready.
Proof.
  destruct demo_alone_room as (F & l & Hok & Hroom).
  destruct (fork_rests true demo_alone l demo_proc 0 _ 1 (demo_alone_calm l Hok) (rt_loaded _ (demo_alone_rests l Hok)) Hok
    eq_refl demo_alone_runs Hroom) as (k & child & Hk & Hcur & Ht & Hl).
  exists F, k, child. split; [exact Hk|]. split; [exact Hcur|]. unfold slot_has. rewrite Ht.
  split; [reflexivity|]. split; [reflexivity|exact Hl].
Qed.

(** The machine is started and init asks who it is. *)
Lemma system_invariant_witness :
  (power_on demo_power 0x1000 0x4000 /\ 0x2000 <= 0x4000 <= ram_limit /\
   startable ((fun _ => demo_elf) (str "init")) demo_elf_hdr init_args) /\
  exists k0 k1, rust_main 1 demo_ectx skip 1 (fun _ => demo_elf) [] (ttbr1_to_va 0x2000) demo_power = Done tt k0 /\
    turn (fun _ => demo_elf) [] [] k0 k1 /\ at_rest (F := boot_pool demo_power 0x1000 0x4000) k1.
Proof.
  assert (0x2000 <= 0x4000 <= ram_limit) as Hp by (unfold ram_limit; lia).
  assert (Z.of_nat (frames_for demo_elf demo_elf_hdr) < (ram_limit - 0x4000 + 4095) / 4096) as Hfr.
  { unfold frames_for. rewrite demo_elf_loads. vm_compute. reflexivity. }
  split; [split; [exact demo_power_on|split; [exact Hp|exact demo_startable]]|].
  destruct (main_returns 1 demo_ectx skip 1 (fun _ => demo_elf) [] demo_power 0x1000 0x4000 demo_elf_hdr
    demo_power_on Hp demo_startable Hfr) as (k0 & c & Hrun & _).
  pose proof (boot_rests 1 demo_ectx skip 1 (fun _ => demo_elf) [] demo_power 0x1000 0x4000 demo_elf_hdr k0
    demo_power_on Hp demo_startable Hfr Hrun) as Hk0. pose proof (rt_loaded _ Hk0) as (p & Hp0 & _).
  destruct (p_info_turn_ok (fun _ => demo_elf) [] [] k0 p Hk0 Hp0 (not_elem_of_nil _)) as (k1 & Ht & _).
  exists k0, k1. split; [exact Hrun|]. split; [exact Ht|].
  exact (system_invariant 1 demo_ectx skip 1 (fun _ => demo_elf) [] demo_power 0x1000 0x4000 demo_elf_hdr k0 k1
    demo_power_on Hp demo_startable Hfr Hrun (turns_cons _ _ _ _ _ _ Ht (turns_nil _ _ _ _))).
Defined.

(** Init asks who it is, and its child does not notice. *)
Lemma system_isolation_witness :
  exists (F : Pool) k k' child, at_rest k /\ turns (fun b => b) [] [1%nat] k k' /\ slot_has k 1 child /\ is_live child = true /\
    exists child', slot_has k' 1 child' /\ pid child' = pid child /\
      forall va, vread (kmem (stk k')) (ttbr0 (pctx child)) va = vread (kmem (stk k)) (ttbr0 (pctx child)) va.
Proof.
  destruct demo_pair as (F & k & child & Hk & Hc & H0 & H1 & Hl). rewrite <- Hc in H0.
  assert (is_live child = true) as Hlive by (unfold is_live, is_state; now rewrite Hl). clear Hl. rename Hlive into Hl.
  destruct (p_info_turn_ok (fun b => b) [] [1%nat] k demo_proc Hk H0) as (k' & Ht & _).
  { rewrite Hc. intros [=]%list_elem_of_singleton. }
  assert (turns (fun b => b) [] [1%nat] k k') as Hts by exact (turns_cons _ _ _ _ _ _ Ht (turns_nil _ _ _ _)).
  exists F, k, k', child. split; [exact Hk|]. split; [exact Hts|]. split; [exact H1|]. split; [exact Hl|].
  destruct (system_isolation (fun b => b) [] [1%nat] k k' 1 child Hk Hts ltac:(now left) H1 Hl)
    as (child' & Hs & Hpid & _ & _ & Hread).
  exists child'. auto.
Defined.

(** Init, alone, asks who it is. *)
Lemma p_info_turn_witness :
  exists F : Pool, (at_rest demo_alone /\ slot_has demo_alone (CURRENT_PROCESS demo_alone) demo_proc) /\
  exists k', turn (fun b => b) [] [] demo_alone k' /\ ectx_x 0 (ectx k') = 1 /\ ectx_x 1 (ectx k') = 0.
Proof.
  assert (slot_has demo_alone (CURRENT_PROCESS demo_alone) demo_proc) as Hp by reflexivity.
  destruct demo_alone_room as (F & l & Hok & _). pose proof (demo_alone_rests l Hok) as Hr. exists F.
  split; [split; [exact Hr|exact Hp]|].
  destruct (p_info_turn (fun b => b) [] [] demo_alone demo_proc Hr Hp (not_elem_of_nil _))
    as (k' & Ht & _ & _ & H0 & H1). exists k'. auto.
Defined.

(** Init prints the seven bytes its program consists of. *)
Definition print_ectx (k : kernel) : ExceptionContext :=
  mk_ectx E_SYNC EL064 (0x400000 :: 7 :: replicate 29 0) 0 0 0x56000001 0 0 (esp_el1 (ectx k)) (ettbr0 (ectx k)).

Lemma print_arrives k : arrives (LOAD_REG false k) (dev (LOAD_REG false k)) (print_ectx k).
Proof. split; [reflexivity|now unfold uart_kept|reflexivity|reflexivity|reflexivity]. Qed.

Lemma print_turn_witness :
  exists k0 c k', (rust_main 1 demo_ectx skip 1 (fun _ => demo_elf) [] (ttbr1_to_va 0x2000) demo_power = Done tt k0 /\
    at_rest (F := boot_pool demo_power 0x1000 0x4000) k0 /\ slot_has k0 (CURRENT_PROCESS k0) c /\ utf8_valid (str "program") = true) /\
  turn (fun _ => demo_elf) [] [] k0 k' /\ tx (dev k') = tx (dev k0) ++ str "program".
Proof.
  assert (0x2000 <= 0x4000 <= ram_limit) as Hp by (unfold ram_limit; lia).
  assert (Z.of_nat (frames_for demo_elf demo_elf_hdr) < (ram_limit - 0x4000 + 4095) / 4096) as Hfr.
  { unfold frames_for. rewrite demo_elf_loads. vm_compute. reflexivity. }
  destruct (main_returns 1 demo_ectx skip 1 (fun _ => demo_elf) [] demo_power 0x1000 0x4000 demo_elf_hdr
    demo_power_on Hp demo_startable Hfr) as (k0 & c & Hrun & Hc & Helf).
  pose proof (boot_rests 1 demo_ectx skip 1 (fun _ => demo_elf) [] demo_power 0x1000 0x4000 demo_elf_hdr k0
    demo_power_on Hp demo_startable Hfr Hrun) as Hk0.
  assert (utf8_valid (str "program") = true) as Hu by reflexivity.
  assert (forall i b, str "program" !! i = Some b ->
    vread (kmem (stk k0)) (ttbr0 (pctx c)) (ectx_x 0 (print_ectx k0) + Z.of_nat i) = Some b) as Hmem.
  { intros i b Hi. pose proof (lookup_lt_Some _ _ _ Hi) as Hlt. change (length (str "program")) with 7%nat in Hlt.
    change (ectx_x 0 (print_ectx k0)) with (virtaddr demo_elf_ph).
    assert (demo_elf_ph ∈ loads demo_elf demo_elf_hdr) as Hph by (rewrite demo_elf_loads; now left).
    rewrite (eo_file _ _ _ _ Helf demo_elf_ph (Z.of_nat i) Hph) by (cbn; lia). rewrite <- Hi. do 7 (destruct i as [|i]; [reflexivity|]). lia. }
  destruct (print_turn (fun _ => demo_elf) [] [] k0 c (print_ectx k0) (str "program") Hk0 Hc (not_elem_of_nil _))
    as (k' & Ht & _ & _ & _ & Htx); [| | | | |exact Hmem|exact Hu|].
  - apply print_arrives.
  - split; [reflexivity|split; reflexivity].
  - cbn. lia.
  - cbn. unfold VA_LIMIT. lia.
  - reflexivity.
  - exists k0, c, k'. auto 10.
Defined.
