(* ===== verification/Vectors.v ===== *)
(** The exception vectors of src/src/kernel/exceptions.s: the table, the frame
    [SAVE_REG] builds on the kernel stack, and [LOAD_REG] with [eret], against
    the struct ExceptionContext of exceptions.rs; and that System's [arrives]
    and [LOAD_REG], between which the programs run, are what this code does.

    The memory is the one the kernel's addresses show: the frame lies on a
    kernel stack, which is mapped. *)

From Stdlib Require Import ZArith Lia.
From stdpp Require Import base strings numbers list.
From S2P Require Import Prelude Memory Interrupts Devices Processes KernelStack Exceptions Calm System A64.
From S2P Require Frames.

Local Open Scope Z_scope.

(** ** The code *)

Abbreviation code := (list (instr Empty_set)).

Definition save_reg : code :=
  [ Stp (X 0) (X 1) SP 0x08; Stp (X 2) (X 3) SP 0x18; Stp (X 4) (X 5) SP 0x28; Stp (X 6) (X 7) SP 0x38;
    Stp (X 8) (X 9) SP 0x48; Stp (X 10) (X 11) SP 0x58; Stp (X 12) (X 13) SP 0x68; Stp (X 14) (X 15) SP 0x78;
    Stp (X 16) (X 17) SP 0x88; Stp (X 18) (X 19) SP 0x98; Stp (X 20) (X 21) SP 0xA8; Stp (X 22) (X 23) SP 0xB8;
    Stp (X 24) (X 25) SP 0xC8; Stp (X 26) (X 27) SP 0xD8; Stp (X 28) (X 29) SP 0xE8; Str (X 30) SP 0xF8;
    Mrs (X 0) Sys.ELR_EL1; Str (X 0) SP 0x100;
    Mrs (X 0) Sys.SPSR_EL1; Str (X 0) SP 0x108;
    Mrs (X 0) Sys.ESR_EL1; Str (X 0) SP 0x110;
    Mrs (X 0) Sys.FAR_EL1; Str (X 0) SP 0x118;
    Mrs (X 0) Sys.SP_EL0; Str (X 0) SP 0x120;
    Mrs (X 0) Sys.TTBR0_EL1; Str (X 0) SP 0x130;
    Mov (X 0) SP; AddI (X 0) (X 0) 0x140; Str (X 0) SP 0x128 ].

Definition load_reg : code :=
  [ Ldr (X 1) SP 0x100; Msr Sys.ELR_EL1 (X 1);
    Ldr (X 1) SP 0x108; Msr Sys.SPSR_EL1 (X 1);
    Ldr (X 1) SP 0x120; Msr Sys.SP_EL0 (X 1);
    Ldr (X 1) SP 0x130; Msr Sys.TTBR0_EL1 (X 1) ] ++
  [ Ldp (X 0) (X 1) SP 0x08; Ldp (X 2) (X 3) SP 0x18; Ldp (X 4) (X 5) SP 0x28; Ldp (X 6) (X 7) SP 0x38;
    Ldp (X 8) (X 9) SP 0x48; Ldp (X 10) (X 11) SP 0x58; Ldp (X 12) (X 13) SP 0x68; Ldp (X 14) (X 15) SP 0x78;
    Ldp (X 16) (X 17) SP 0x88; Ldp (X 18) (X 19) SP 0x98; Ldp (X 20) (X 21) SP 0xA8; Ldp (X 22) (X 23) SP 0xB8;
    Ldp (X 24) (X 25) SP 0xC8; Ldp (X 26) (X 27) SP 0xD8; Ldp (X 28) (X 29) SP 0xE8; Ldr (X 30) SP 0xF8 ] ++
  [ Msr Sys.TPIDR_EL1 (X 1); Ldr (X 1) SP 0x128; Mov SP (X 1); Mrs (X 1) Sys.TPIDR_EL1 ].

Definition set_exception_arg (type source : Z) : code :=
  [ MovI (X 9) type; Strb (X 9) SP 0; MovI (X 9) source; Strb (X 9) SP 1; Mov (X 0) SP ].

Definition reset_tlb_cache : code := [ Barrier; Barrier; Barrier; Barrier ].

(** [HANDLE_EXCEPTION], up to the call of [handle_exception_el1] and after it. *)
Definition enter_exception (type source : Z) : code := SubI SP SP 0x140 :: save_reg ++ set_exception_arg type source.
Definition leave_exception : code := load_reg ++ reset_tlb_cache ++ [ Eret ].

Inductive label :=
| el11t_sync | el11t_irq | el11t_fiq | el11t_serror | el11h_sync | el11h_irq | el11h_fiq | el11h_serror
| el1064_sync | el1064_irq | el1064_fiq | el1064_serror | el1032_sync | el1032_irq | el1032_fiq | el1032_serror.

(** The table: a branch, which takes four bytes, or [.space]. *)
Inductive slot := Branch (l : label) | Space (n : Z).
Definition el1_vectors : list slot :=
  [ Branch el11t_sync; Space 124; Branch el11t_irq; Space 124; Branch el11t_fiq; Space 124; Branch el11t_serror; Space 124;
    Branch el11h_sync; Space 124; Branch el11h_irq; Space 124; Branch el11h_fiq; Space 124; Branch el11h_serror; Space 124;
    Branch el1064_sync; Space 124; Branch el1064_irq; Space 124; Branch el1064_fiq; Space 124; Branch el1064_serror; Space 124;
    Branch el1032_sync; Space 124; Branch el1032_irq; Space 124; Branch el1032_fiq; Space 124; Branch el1032_serror ].

Fixpoint branch_at (table : list slot) (offset : Z) : option label :=
  match table with
  | [] => None
  | Branch l :: table' => if offset =? 0 then Some l else if offset <? 4 then None else branch_at table' (offset - 4)
  | Space n :: table' => if offset <? n then None else branch_at table' (offset - n)
  end.

(** The arguments of [HANDLE_EXCEPTION] at each label, by the [.equ]s. *)
Definition handler_args (l : label) : Z * Z :=
  let '(e_sync, e_irq, e_fiq, e_serror) := (0, 1, 2, 3) in
  let '(from_el1t, from_el1h, from_el064, from_el032) := (0, 1, 2, 3) in
  match l with
  | el11t_sync => (e_sync, from_el1t) | el11t_irq => (e_irq, from_el1t)
  | el11t_fiq => (e_fiq, from_el1t) | el11t_serror => (e_serror, from_el1t)
  | el11h_sync => (e_sync, from_el1h) | el11h_irq => (e_irq, from_el1h)
  | el11h_fiq => (e_fiq, from_el1h) | el11h_serror => (e_serror, from_el1h)
  | el1064_sync => (e_sync, from_el064) | el1064_irq => (e_irq, from_el064)
  | el1064_fiq => (e_fiq, from_el064) | el1064_serror => (e_serror, from_el064)
  | el1032_sync => (e_sync, from_el032) | el1032_irq => (e_irq, from_el032)
  | el1032_fiq => (e_fiq, from_el032) | el1032_serror => (e_serror, from_el032)
  end.

(** ** The frame *)

(** [#[repr(C)] struct ExceptionContext] at an address: two bytes and six of
    padding, then the 64-bit fields in the order of their declaration. *)
Definition etype_of (b : Z) : option ExceptionType :=
  match b with 0 => Some E_SYNC | 1 => Some E_IRQ | 2 => Some E_FIQ | 3 => Some E_SE | _ => None end.
Definition esource_of (b : Z) : option ExceptionSource :=
  match b with 0 => Some EL1t | 1 => Some EL1h | 2 => Some EL064 | 3 => Some EL032 | _ => None end.
Definition field (m : mem) (a : Z) (i : nat) : Z := read64 m (a + 8 + 8 * Z.of_nat i).
Definition frame_ctx (m : mem) (a : Z) : option ExceptionContext :=
  t ← etype_of (m a);
  s ← esource_of (m (a + 1));
  Some (mk_ectx t s (field m a <$> seq 0 31) (field m a 31) (field m a 32) (field m a 33) (field m a 34)
    (field m a 35) (field m a 36) (field m a 37)).

(** ** Running it *)

(** The addresses are those of the kernel. *)
Definition flat_tr (c : cpu) (va : Z) : option Z := Some va.
Definition no_label (l : Empty_set) : Z := match l with end.
Definition run (l : list (instr Empty_set)) (c : cpu) : option cpu := exec_all no_label flat_tr (fun _ => 0) l c.

(** Doublewords stored one after the other at offsets from a base. *)
Definition stored (base : Z) (l : list (Z * Z)) (m : mem) : mem :=
  fold_left (fun m ov => write_list m (add64 base ov.1) (le_split 8 ov.2)) l m.

(** The offsets of x0 to x30. *)
Definition offsets : list Z :=
  [0x08; 0x10; 0x18; 0x20; 0x28; 0x30; 0x38; 0x40; 0x48; 0x50; 0x58; 0x60; 0x68; 0x70; 0x78; 0x80; 0x88; 0x90;
   0x98; 0xA0; 0xA8; 0xB0; 0xB8; 0xC0; 0xC8; 0xD0; 0xD8; 0xE0; 0xE8; 0xF0; 0xF8].

Definition frame_words (c : cpu) (base : Z) : list (Z * Z) :=
  zip offsets (gpr c <$> seq 0 31) ++
  [ (0x100, sys c Sys.ELR_EL1); (0x108, sys c Sys.SPSR_EL1); (0x110, sys c Sys.ESR_EL1); (0x118, sys c Sys.FAR_EL1);
    (0x120, sys c Sys.SP_EL0); (0x130, sys c Sys.TTBR0_EL1); (0x128, add64 base 0x140) ].

(** One instruction, on a state given by its parts. *)
Section Steps.
  Context (g : nat -> Z) (s : Sys.sysreg -> Z) (p q : Z) (m : mem) (Hp : sp_of p = Sys.SP_EL1) (l : list (instr Empty_set)).
  Local Abbreviation c := (mk_cpu g s p q m).
  Local Abbreviation q' := (add64 q 4).
  Local Abbreviation at_sp off := (add64 (s Sys.SP_EL1) off).
  Local Abbreviation upd n v := (fun i => if Nat.eqb i n then v else g i).

Lemma run_stp a b off : run (Stp (X a) (X b) SP off :: l) c =
  run l (mk_cpu g s p q' (write_list (write_list m (at_sp off) (le_split 8 (g a))) (at_sp (off + 8)) (le_split 8 (g b)))).
Proof. cbn -[sp_of]. unfold sp_reg. cbn -[sp_of]. now rewrite Hp. Qed.
Lemma run_str a off : run (Str (X a) SP off :: l) c = run l (mk_cpu g s p q' (write_list m (at_sp off) (le_split 8 (g a)))).
Proof. cbn -[sp_of]. unfold sp_reg. cbn -[sp_of]. now rewrite Hp. Qed.
Lemma run_strb a off : run (Strb (X a) SP off :: l) c = run l (mk_cpu g s p q' (write_list m (at_sp off) [g a mod 256])).
Proof. cbn -[sp_of]. unfold sp_reg. cbn -[sp_of]. now rewrite Hp. Qed.
Lemma run_ldp a b off : run (Ldp (X a) (X b) SP off :: l) c =
  run l (mk_cpu (fun i => if Nat.eqb i b then read64 m (at_sp (off + 8)) else if Nat.eqb i a then read64 m (at_sp off) else g i) s p q' m).
Proof. cbn -[sp_of]. unfold sp_reg. cbn -[sp_of]. now rewrite Hp. Qed.
Lemma run_ldr a off : run (Ldr (X a) SP off :: l) c = run l (mk_cpu (upd a (read64 m (at_sp off))) s p q' m).
Proof. cbn -[sp_of]. unfold sp_reg. cbn -[sp_of]. now rewrite Hp. Qed.
Lemma run_mrs a r : run (Mrs (X a) r :: l) c = run l (mk_cpu (upd a (s r)) s p q' m).
Proof. reflexivity. Qed.
Lemma run_msr a r : run (Msr r (X a) :: l) c = run l (mk_cpu g (fun x => if decide (x = r) then g a else s x) p q' m).
Proof. reflexivity. Qed.
Lemma run_movi a v : run (MovI (X a) v :: l) c = run l (mk_cpu (upd a v) s p q' m).
Proof. reflexivity. Qed.
Lemma run_addi a b v : run (AddI (X a) (X b) v :: l) c = run l (mk_cpu (upd a (add64 (g b) v)) s p q' m).
Proof. reflexivity. Qed.
Lemma run_mov_sp a : run (Mov (X a) SP :: l) c = run l (mk_cpu (upd a (s Sys.SP_EL1)) s p q' m).
Proof. cbn -[sp_of]. unfold sp_reg. cbn -[sp_of]. now rewrite Hp. Qed.
Lemma run_to_sp a : run (Mov SP (X a) :: l) c =
  run l (mk_cpu g (fun x => if decide (x = Sys.SP_EL1) then g a else s x) p q' m).
Proof. cbn -[sp_of decide]. unfold sp_reg. cbn -[sp_of decide]. now rewrite Hp. Qed.
Lemma run_sub_sp v : run (SubI SP SP v :: l) c =
  run l (mk_cpu g (fun x => if decide (x = Sys.SP_EL1) then sub64 (s Sys.SP_EL1) v else s x) p q' m).
Proof. cbn -[sp_of decide]. unfold sp_reg. cbn -[sp_of decide]. now rewrite Hp. Qed.
Lemma run_barrier : run (Barrier :: l) c = run l (mk_cpu g s p q' m).
Proof. reflexivity. Qed.
End Steps.

Ltac asm_step Hp :=
  first [ rewrite (run_stp _ _ _ _ _ Hp) | rewrite (run_str _ _ _ _ _ Hp) | rewrite (run_strb _ _ _ _ _ Hp)
        | rewrite (run_ldp _ _ _ _ _ Hp) | rewrite (run_ldr _ _ _ _ _ Hp) | rewrite (run_mov_sp _ _ _ _ _ Hp)
        | rewrite (run_to_sp _ _ _ _ _ Hp) | rewrite (run_sub_sp _ _ _ _ _ Hp)
        | rewrite run_mrs | rewrite run_msr | rewrite run_movi | rewrite run_addi | rewrite run_barrier ].

(** Reading one of several doublewords, the others being apart from it. *)
Definition apart (o : Z) (l : list (Z * Z)) : Prop := Forall (fun ov => ov.1 + 8 <= o \/ o + 8 <= ov.1) l.

Lemma stored_app base l1 l2 m : stored base (l1 ++ l2) m = stored base l2 (stored base l1 m).
Proof. apply fold_left_app. Qed.

Lemma stored_out base l m x :
  Forall (fun ov => add64 base ov.1 = base + ov.1 /\ (x < base + ov.1 \/ base + ov.1 + 8 <= x)) l ->
  stored base l m x = m x.
Proof.
  intros H. revert m. induction H as [|[o v] l [Ha Hx] _ IH]; intros m; [reflexivity|].
  cbn [stored fold_left fst snd] in *. change (stored base l (write_list m (add64 base o) (le_split 8 v)) x = m x).
  rewrite IH, Ha. apply write_list_out. rewrite length_le_split. cbn. lia.
Qed.

Lemma stored_read base l i o v m :
  (forall o' v', (o', v') ∈ l -> add64 base o' = base + o') -> l !! i = Some (o, v) -> is_u64 v ->
  apart o (drop (S i) l) -> read64 (stored base l m) (base + o) = v.
Proof.
  intros Hadd Hi Hv Hap. rewrite <- (take_drop_middle l i (o, v) Hi), stored_app.
  cbn [stored fold_left fst snd]. change (fold_left _ (drop (S i) l) ?m') with (stored base (drop (S i) l) m').
  rewrite (Hadd o v) by exact (list_elem_of_lookup_2 _ _ _ Hi).
  rewrite <- (read64_write64_same (stored base (take i l) m) (base + o) v Hv) at 2.
  apply read64_ext. intros x Hx. apply stored_out. unfold apart in Hap. rewrite Forall_forall in *.
  intros [o' v'] Hin. cbn. split; [|specialize (Hap _ Hin); cbn in Hap; lia].
  apply (Hadd o' v'). apply list_elem_of_lookup in Hin as [j Hj]. rewrite lookup_drop in Hj.
  exact (list_elem_of_lookup_2 _ _ _ Hj).
Qed.

Lemma save_run c type source :
  sp_reg c = Sys.SP_EL1 ->
  let base := sub64 (sys c Sys.SP_EL1) 0x140 in
  exists c', run (enter_exception type source) c = Some c' /\
    cmem c' = write_list (write_list (stored base (frame_words c base) (cmem c)) (add64 base 0) [type mod 256])
                (add64 base 1) [source mod 256] /\
    gpr c' 0%nat = base /\ pstate c' = pstate c /\ sys c' Sys.SP_EL1 = base.
Proof.
  intros Hp base. destruct c as [g s p q m]. unfold sp_reg in Hp. cbn [pstate] in Hp.
  unfold enter_exception, save_reg, set_exception_arg. cbn [app].
  repeat asm_step Hp.
  eexists. split; [reflexivity|]. repeat split; reflexivity.
Qed.

(** The registers hold 64-bit values. *)
Record regs_ok (c : cpu) : Prop := {
  ro_gpr : forall n, is_u64 (gpr c n);
  ro_sys : forall r, is_u64 (sys c r);
}.

Definition gprs (c : cpu) : list Z := gpr c <$> seq 0 31.

(** What the frame holds, by the index of its word. *)
Definition frame_values (c : cpu) : list Z :=
  gprs c ++ [sys c Sys.ELR_EL1; sys c Sys.SPSR_EL1; sys c Sys.ESR_EL1; sys c Sys.FAR_EL1; sys c Sys.SP_EL0;
             sys c Sys.SP_EL1; sys c Sys.TTBR0_EL1].

(** Where a word of the frame is among the stores: the stack pointer's is the last one. *)
Definition place (i : nat) : nat := match i with 36%nat => 37%nat | 37%nat => 36%nat | _ => i end.

Lemma frame_place c i v : frame_values c !! i = Some v ->
  frame_words c (sub64 (sys c Sys.SP_EL1) 0x140) !! place i =
  Some (8 + 8 * Z.of_nat i, if Nat.eqb i 36 then add64 (sub64 (sys c Sys.SP_EL1) 0x140) 0x140 else v).
Proof.
  intros Hi.
  assert (Forall (fun i => forall v, frame_values c !! i = Some v ->
    frame_words c (sub64 (sys c Sys.SP_EL1) 0x140) !! place i =
    Some (8 + 8 * Z.of_nat i, if Nat.eqb i 36 then add64 (sub64 (sys c Sys.SP_EL1) 0x140) 0x140 else v)) (seq 0 38)) as H.
  { clear. cbn [seq]. repeat (apply Forall_cons; split; [intros v [= <-]; reflexivity|]). apply Forall_nil. exact I. }
  rewrite Forall_forall in H. apply H; [|exact Hi]. apply elem_of_seq.
  pose proof (lookup_lt_Some _ _ _ Hi) as Hlt. change (length (frame_values c)) with 38%nat in Hlt. lia.
Qed.

Definition apartb (o : Z) (l : list Z) : bool := forallb (fun o' => (o' + 8 <=? o) || (o + 8 <=? o')) l.
Lemma apartb_spec o l : apartb o (l.*1) = true -> apart o l.
Proof.
  intros H. apply Forall_forall. intros ov Hov. unfold apartb in H. rewrite forallb_forall in H.
  specialize (H ov.1). apply orb_true_iff in H; [lia|]. apply list_elem_of_In. now apply list_elem_of_fmap_2.
Qed.

Lemma frame_apart c base i : (i < 38)%nat -> apart (8 + 8 * Z.of_nat i) (drop (S (place i)) (frame_words c base)).
Proof.
  intros Hi. apply apartb_spec. rewrite fmap_drop.
  assert (forallb (fun i => apartb (8 + 8 * Z.of_nat i) (drop (S (place i)) ((frame_words c base).*1))) (seq 0 38) = true) as H
    by (vm_compute; reflexivity).
  rewrite forallb_forall in H. apply H. apply in_seq. lia.
Qed.

Lemma frame_offsets c base : Forall (fun ov : Z * Z => 8 <= ov.1 <= 0x130) (frame_words c base).
Proof. cbn. repeat constructor; cbn; lia. Qed.

Lemma frame_u64 c : regs_ok c -> Forall is_u64 (frame_values c).
Proof. intros [Hg Hs]. cbn. repeat constructor; first [apply Hg|apply Hs]. Qed.

(** The frame's address and its words'. *)
Lemma base_add c o : regs_ok c -> 0x140 <= sys c Sys.SP_EL1 -> 0 <= o <= 0x140 ->
  add64 (sub64 (sys c Sys.SP_EL1) 0x140) o = sys c Sys.SP_EL1 - 0x140 + o.
Proof.
  intros Hr Hsp Ho. pose proof (ro_sys c Hr Sys.SP_EL1) as Hu. unfold is_u64, U64 in Hu.
  rewrite sub64_small by (unfold U64; lia). apply add64_small. unfold U64. lia.
Qed.

Lemma frame_field c i v :
  regs_ok c -> 0x140 <= sys c Sys.SP_EL1 -> frame_values c !! i = Some v ->
  let base := sub64 (sys c Sys.SP_EL1) 0x140 in
  field (stored base (frame_words c base) (cmem c)) base i = v.
Proof.
  intros Hr Hsp Hi base. pose proof (frame_place c i v Hi) as Hp. fold base in Hp.
  assert (i < 38)%nat as Hlt by exact (lookup_lt_Some _ _ _ Hi).
  assert ((if Nat.eqb i 36 then add64 base 0x140 else v) = v) as Ev.
  { destruct (Nat.eqb i 36) eqn:E; [|reflexivity]. apply Nat.eqb_eq in E as ->. injection Hi as <-.
    unfold base. rewrite base_add by (auto; lia). lia. }
  rewrite Ev in Hp. unfold field. replace (base + 8 + 8 * Z.of_nat i) with (base + (8 + 8 * Z.of_nat i)) by lia.
  eapply (stored_read base _ (place i)); [|exact Hp| |now apply frame_apart].
  - intros o v' Hin. pose proof (frame_offsets c base) as Ho. rewrite Forall_forall in Ho. specialize (Ho _ Hin). cbn in Ho.
    unfold base. rewrite base_add by (auto; lia). rewrite <- (Z.add_0_r (sub64 _ _)) at 1.
    pose proof (base_add c 0 Hr Hsp ltac:(lia)) as E0. pose proof (ro_sys c Hr Sys.SP_EL1) as Hu. unfold is_u64, U64 in Hu.
    rewrite sub64_small by (unfold U64; lia). lia.
  - exact (proj1 (Forall_forall _ _) (frame_u64 c Hr) v (list_elem_of_lookup_2 _ _ _ Hi)).
Qed.

(** ** An exception is taken *)

(** The architecture's table: 0x200 for each place an exception comes from, 0x80
    for each kind. *)
Definition vector_offset (t : ExceptionType) (s : ExceptionSource) : Z := 0x200 * esource_u8 s + 0x80 * etype_u8 t.

(** From the interrupted instruction to the call of [handle_exception_el1]. *)
Definition exception_entry (t : ExceptionType) (s : ExceptionSource) (syndrome fault : Z) (c : cpu) : option cpu :=
  l ← branch_at el1_vectors (vector_offset t s);
  run (enter_exception (handler_args l).1 (handler_args l).2) (take_exception (vector_offset t s) syndrome fault c).

(** What the handler finds in the frame. *)
Definition saved_ctx (t : ExceptionType) (s : ExceptionSource) (syndrome fault : Z) (c : cpu) : ExceptionContext :=
  mk_ectx t s (gprs c) (pc c) (pstate c) syndrome fault (sys c Sys.SP_EL0) (sys c Sys.SP_EL1) (sys c Sys.TTBR0_EL1).

Lemma vector_branch t s : exists l, branch_at el1_vectors (vector_offset t s) = Some l /\ handler_args l = (etype_u8 t, esource_u8 s).
Proof. destruct t, s; (eexists; split; [vm_compute; reflexivity|reflexivity]). Qed.

Lemma etype_of_u8 t : etype_of (etype_u8 t mod 256) = Some t.
Proof. now destruct t. Qed.
Lemma esource_of_u8 s : esource_of (esource_u8 s mod 256) = Some s.
Proof. now destruct s. Qed.

Lemma entered_pstate p : let p' := Z.lor (Z.land p (15 * 2 ^ 28)) 0x3C5 in
  sp_of p' = Sys.SP_EL1 /\ el_of p' = 1 /\ Z.testbit p' 7 = true.
Proof.
  assert (el_of (Z.lor (Z.land p (15 * 2 ^ 28)) 0x3C5) = 1) as E.
  { unfold el_of. rewrite Z.shiftr_lor, Z.shiftr_land, Z.land_lor_distr_l, <- Z.land_assoc.
    change (Z.land (Z.shiftr (15 * 2 ^ 28) 2) 3) with 0. now rewrite Z.land_0_r. }
  cbn zeta. unfold sp_of. rewrite E, !Z.lor_spec, !Z.land_spec.
  change (Z.testbit 0x3C5 0) with true. change (Z.testbit 0x3C5 7) with true. rewrite !orb_true_r. auto.
Qed.

(** The registers a taken exception saves are 64-bit values too. *)
Record state_ok (c : cpu) : Prop := {
  so_regs : regs_ok c;
  so_pc : is_u64 (pc c);
  so_pstate : is_u64 (pstate c);
}.

Lemma taken_regs offset syndrome fault c :
  state_ok c -> is_u64 syndrome -> is_u64 fault -> regs_ok (take_exception offset syndrome fault c).
Proof.
  intros [[Hg Hs] Hpc Hp] Hsy Hf. split; [exact Hg|]. intros r. cbn.
  repeat (destruct (decide _); [assumption|]). apply Hs.
Qed.

Lemma frame_field_all c i :
  regs_ok c -> 0x140 <= sys c Sys.SP_EL1 -> (i < 38)%nat ->
  let base := sub64 (sys c Sys.SP_EL1) 0x140 in
  forall b1 b2, field (write_list (write_list (stored base (frame_words c base) (cmem c)) (add64 base 0) [b1]) (add64 base 1) [b2])
    base i = nth i (frame_values c) 0.
Proof.
  intros Hr Hsp Hi base b1 b2.
  destruct (lookup_lt_is_Some_2 (frame_values c) i) as [v Hv]; [exact Hi|].
  rewrite (nth_lookup_Some _ _ _ _ Hv), <- (frame_field c i v Hr Hsp Hv). unfold field. apply read64_ext. intros x Hx.
  pose proof (base_add c 0 Hr Hsp ltac:(lia)) as E0. pose proof (base_add c 1 Hr Hsp ltac:(lia)) as E1.
  pose proof (ro_sys c Hr Sys.SP_EL1) as Hu. unfold is_u64, U64 in Hu.
  assert (base = sys c Sys.SP_EL1 - 0x140) as Eb by (apply sub64_small; unfold U64; lia). fold base in E0, E1.
  rewrite !write_list_out by (cbn [length]; lia). reflexivity.
Qed.

(** The frame [enter_exception] leaves, read as the struct the handler takes. *)
Lemma framed_ctx c t s m :
  regs_ok c -> 0x140 <= sys c Sys.SP_EL1 ->
  let base := sub64 (sys c Sys.SP_EL1) 0x140 in
  m = write_list (write_list (stored base (frame_words c base) (cmem c)) (add64 base 0) [etype_u8 t mod 256])
        (add64 base 1) [esource_u8 s mod 256] ->
  frame_ctx m base = Some (mk_ectx t s (gprs c) (sys c Sys.ELR_EL1) (sys c Sys.SPSR_EL1) (sys c Sys.ESR_EL1) (sys c Sys.FAR_EL1)
    (sys c Sys.SP_EL0) (sys c Sys.SP_EL1) (sys c Sys.TTBR0_EL1)) /\
  (forall a, ~ (base <= a < sys c Sys.SP_EL1) -> m a = cmem c a).
Proof.
  intros Hr Hsp base ->.
  pose proof (base_add c 0 Hr Hsp ltac:(lia)) as E0. pose proof (base_add c 1 Hr Hsp ltac:(lia)) as E1.
  pose proof (ro_sys c Hr Sys.SP_EL1) as Hu. unfold is_u64, U64 in Hu.
  assert (base = sys c Sys.SP_EL1 - 0x140) as Eb by (apply sub64_small; unfold U64; lia). fold base in E0, E1.
  split.
  - assert (forall i, (i < 38)%nat -> field (write_list (write_list (stored base (frame_words c base) (cmem c)) (add64 base 0)
        [etype_u8 t mod 256]) (add64 base 1) [esource_u8 s mod 256]) base i = nth i (frame_values c) 0) as Hf
      by (intros i Hi; exact (frame_field_all c i Hr Hsp Hi _ _)).
    unfold frame_ctx. set (m := write_list _ _ _) in *.
    assert (m base = etype_u8 t mod 256) as ->.
    { unfold m. rewrite write_list_out by (cbn [length]; lia). rewrite E0, Z.add_0_r, <- Eb.
      rewrite write_list_in by (cbn [length]; lia). now rewrite Z.sub_diag. }
    assert (m (base + 1) = esource_u8 s mod 256) as ->.
    { unfold m. rewrite E1, <- Eb. rewrite write_list_in by (cbn [length]; lia). now rewrite Z.sub_diag. }
    rewrite etype_of_u8, esource_of_u8. cbn [mbind option_bind].
    assert (field m base <$> seq 0 31 = gprs c) as ->.
    { unfold gprs. apply list_fmap_ext. intros i j Hj. apply lookup_seq in Hj as [-> Hlt]. cbn [Nat.add]. rewrite Hf by lia.
      unfold frame_values. rewrite app_nth1 by (unfold gprs; rewrite length_fmap, length_seq; lia).
      unfold gprs. apply nth_lookup_Some. rewrite list_lookup_fmap, lookup_seq_lt by lia. reflexivity. }
    now rewrite !Hf by lia.
  - intros a Ha. rewrite !write_list_out by (cbn [length]; lia). apply stored_out.
    eapply Forall_impl; [exact (frame_offsets c base)|]. intros ov Ho. cbn beta in Ho.
    pose proof (base_add c ov.1 Hr Hsp ltac:(lia)) as Eo. fold base in Eo. lia.
Qed.

Lemma entry_saves t s syndrome fault c :
  state_ok c -> is_u64 syndrome -> is_u64 fault -> 0x140 <= sys c Sys.SP_EL1 ->
  exists c', exception_entry t s syndrome fault c = Some c' /\
    gpr c' 0 = sys c Sys.SP_EL1 - 0x140 /\ sys c' Sys.SP_EL1 = gpr c' 0 /\
    frame_ctx (cmem c') (gpr c' 0) = Some (saved_ctx t s syndrome fault c) /\
    (forall a, ~ (sys c Sys.SP_EL1 - 0x140 <= a < sys c Sys.SP_EL1) -> cmem c' a = cmem c a) /\
    sp_reg c' = Sys.SP_EL1 /\ el c' = 1 /\ Z.testbit (pstate c') 7 = true.
Proof.
  intros Hok Hsy Hf Hsp. unfold exception_entry.
  destruct (vector_branch t s) as (l & Hb & Ha). rewrite Hb. cbn [mbind option_bind]. rewrite Ha. cbn [fst snd].
  set (d := take_exception (vector_offset t s) syndrome fault c).
  pose proof (taken_regs (vector_offset t s) syndrome fault c Hok Hsy Hf : regs_ok d) as Hr.
  destruct (entered_pstate (pstate c)) as (P1 & P2 & P3).
  destruct (save_run d (etype_u8 t) (esource_u8 s) P1) as (c' & Hrun & Hm & Hx & Hp & Hs).
  exists c'. split; [exact Hrun|].
  assert (sys d Sys.SP_EL1 = sys c Sys.SP_EL1) as Esp by reflexivity.
  assert (sub64 (sys d Sys.SP_EL1) 0x140 = sys c Sys.SP_EL1 - 0x140) as Eb.
  { pose proof (ro_sys c (so_regs c Hok) Sys.SP_EL1) as Hu. unfold is_u64, U64 in Hu. rewrite Esp. apply sub64_small; unfold U64; lia. }
  destruct (framed_ctx d t s (cmem c') Hr Hsp Hm) as [Hc Ho].
  unfold sp_reg, el. rewrite Hs, Hx, Hp. split; [exact Eb|]. split; [reflexivity|]. split; [exact Hc|]. split; [|auto].
  intros a Hout. rewrite Ho; [reflexivity|]. now rewrite Eb.
Qed.

(** ** And left *)

Section Leaving.
  Context (g : nat -> Z) (s : Sys.sysreg -> Z) (p q : Z) (m : mem) (Hp : sp_of p = Sys.SP_EL1) (l : list (instr Empty_set)).
  Local Abbreviation f o := (read64 m (add64 (s Sys.SP_EL1) o)).

Lemma leave_system : exists g' s' q',
  run ([ Ldr (X 1) SP 0x100; Msr Sys.ELR_EL1 (X 1); Ldr (X 1) SP 0x108; Msr Sys.SPSR_EL1 (X 1);
         Ldr (X 1) SP 0x120; Msr Sys.SP_EL0 (X 1); Ldr (X 1) SP 0x130; Msr Sys.TTBR0_EL1 (X 1) ] ++ l) (mk_cpu g s p q m) =
  run l (mk_cpu g' s' p q' m) /\
  s' Sys.ELR_EL1 = f 0x100 /\ s' Sys.SPSR_EL1 = f 0x108 /\ s' Sys.SP_EL0 = f 0x120 /\ s' Sys.TTBR0_EL1 = f 0x130 /\
  s' Sys.SP_EL1 = s Sys.SP_EL1.
Proof.
  cbn [app]. repeat asm_step Hp. do 3 eexists. split; [reflexivity|]. repeat split; reflexivity.
Qed.

Lemma leave_general : exists g' q',
  run ([ Ldp (X 0) (X 1) SP 0x08; Ldp (X 2) (X 3) SP 0x18; Ldp (X 4) (X 5) SP 0x28; Ldp (X 6) (X 7) SP 0x38;
    Ldp (X 8) (X 9) SP 0x48; Ldp (X 10) (X 11) SP 0x58; Ldp (X 12) (X 13) SP 0x68; Ldp (X 14) (X 15) SP 0x78;
    Ldp (X 16) (X 17) SP 0x88; Ldp (X 18) (X 19) SP 0x98; Ldp (X 20) (X 21) SP 0xA8; Ldp (X 22) (X 23) SP 0xB8;
    Ldp (X 24) (X 25) SP 0xC8; Ldp (X 26) (X 27) SP 0xD8; Ldp (X 28) (X 29) SP 0xE8; Ldr (X 30) SP 0xF8 ] ++ l)
    (mk_cpu g s p q m) = run l (mk_cpu g' s p q' m) /\
  g' <$> seq 0 31 = (fun o => f o) <$> offsets.
Proof.
  cbn [app]. repeat asm_step Hp. do 2 eexists. split; [reflexivity|]. reflexivity.
Qed.

(** The stack pointer, through TPIDR_EL1. *)
Lemma leave_stack : exists g' s' q',
  run ([ Msr Sys.TPIDR_EL1 (X 1); Ldr (X 1) SP 0x128; Mov SP (X 1); Mrs (X 1) Sys.TPIDR_EL1 ] ++ l) (mk_cpu g s p q m) =
  run l (mk_cpu g' s' p q' m) /\ (forall i, g' i = g i) /\
  s' Sys.SP_EL1 = f 0x128 /\ (forall r, r <> Sys.SP_EL1 -> r <> Sys.TPIDR_EL1 -> s' r = s r).
Proof.
  cbn [app]. repeat asm_step Hp. do 3 eexists. split; [reflexivity|]. split; [|split; [reflexivity|]].
  - intros [|[|i]]; reflexivity.
  - intros r H1 H2. destruct r; try reflexivity; congruence.
Qed.
End Leaving.

Lemma leave_runs c :
  sp_reg c = Sys.SP_EL1 -> el c = 1 ->
  let f o := read64 (cmem c) (add64 (sys c Sys.SP_EL1) o) in
  exists c', run leave_exception c = Some c' /\ cmem c' = cmem c /\ gprs c' = f <$> offsets /\
    pc c' = f 0x100 /\ pstate c' = f 0x108 /\ sys c' Sys.SP_EL0 = f 0x120 /\ sys c' Sys.SP_EL1 = f 0x128 /\
    sys c' Sys.TTBR0_EL1 = f 0x130.
Proof.
  intros Hp Hel f. destruct c as [g s p q m]. unfold sp_reg, el in Hp, Hel. cbn [pstate] in Hp, Hel.
  unfold leave_exception, load_reg, reset_tlb_cache. rewrite <- !app_assoc.
  match goal with |- context [run (_ ++ ?l) _] =>
    destruct (leave_system g s p q m Hp l) as (g1 & s1 & q1 & -> & E1 & E2 & E3 & E4 & E5) end.
  match goal with |- context [run (_ ++ ?l) _] =>
    destruct (leave_general g1 s1 p q1 m Hp l) as (g2 & q2 & -> & E6) end.
  match goal with |- context [run (_ ++ ?l) _] =>
    destruct (leave_stack g2 s1 p q2 m Hp l) as (g3 & s3 & q3 & -> & E7 & E8 & E9) end.
  cbn [app]. rewrite !run_barrier. unfold run. cbn [exec_all exec mbind option_bind]. unfold eret, el. cbn [pstate].
  rewrite Hel. cbn [Z.eqb Pos.eqb].
  eexists. split; [reflexivity|]. cbn [cmem pc pstate sys set_pc set_pstate gpr]. unfold gprs, f. cbn [gpr cmem sys].
  rewrite E8, !E9 by discriminate. rewrite E1, E2, E3, E4, E5. repeat split; try reflexivity.
  rewrite <- E5. rewrite <- E6. apply list_fmap_ext. auto.
Qed.

(** The processor is where a context says. *)
Record resumed (e : ExceptionContext) (c : cpu) : Prop := {
  re_gprs : gprs c = ex e;
  re_pc : pc c = eelr e;
  re_pstate : pstate c = espsr e;
  re_sp_el0 : sys c Sys.SP_EL0 = esp_el0 e;
  re_sp_el1 : sys c Sys.SP_EL1 = esp_el1 e;
  re_ttbr0 : sys c Sys.TTBR0_EL1 = ettbr0 e;
}.

Lemma leave_resumes c e :
  sp_reg c = Sys.SP_EL1 -> el c = 1 -> 0 <= sys c Sys.SP_EL1 -> sys c Sys.SP_EL1 + 0x140 < U64 ->
  frame_ctx (cmem c) (sys c Sys.SP_EL1) = Some e ->
  exists c', run leave_exception c = Some c' /\ cmem c' = cmem c /\ resumed e c'.
Proof.
  intros Hp Hel H0 H1 He. destruct (leave_runs c Hp Hel) as (c' & Hr & Hm & E1 & E2 & E3 & E4 & E5 & E6).
  exists c'. split; [exact Hr|]. split; [exact Hm|].
  unfold frame_ctx in He. apply bind_Some in He as (t & _ & He). apply bind_Some in He as (s & _ & [= <-]).
  assert (forall i o, o = 8 + 8 * Z.of_nat i -> (i < 38)%nat ->
    read64 (cmem c) (add64 (sys c Sys.SP_EL1) o) = field (cmem c) (sys c Sys.SP_EL1) i) as Hf.
  { intros i o -> Hi. unfold field. rewrite add64_small by lia. f_equal. lia. }
  split; cbn [ex eelr espsr esp_el0 esp_el1 ettbr0];
    [|rewrite E2; apply (Hf 31%nat)|rewrite E3; apply (Hf 32%nat)|rewrite E4; apply (Hf 35%nat)
     |rewrite E5; apply (Hf 36%nat)|rewrite E6; apply (Hf 37%nat)]; try reflexivity; try lia.
  rewrite E1. match goal with |- ?l = _ => change (l = field (cmem c) (sys c Sys.SP_EL1) <$> seq 0 31) end.
  change offsets with ((fun i => 8 + 8 * Z.of_nat i) <$> seq 0 31). rewrite <- list_fmap_compose.
  apply list_fmap_ext. intros i j Hj. apply lookup_seq in Hj as [-> Hlt]. apply Hf; [reflexivity|lia].
Qed.

(** ** Between the programs and the handler *)

(** What System's state says of the processor while a program runs: the address
    space, the interrupt mask, and where its kernel stack starts. *)
Record in_user (c : cpu) (k : kernel) : Prop := {
  iu_space : sys c Sys.TTBR0_EL1 = Frames.TTBR0_EL1 (kmem (stk k));
  iu_irq : irq_unmasked (hcore (dev k)) = negb (Z.testbit (pstate c) 7);
  iu_stack : sys c Sys.SP_EL1 = esp_el1 (ectx k);
}.

Lemma saved_arrives t s syndrome fault c k c' h :
  in_user c k -> s = EL064 -> Z.testbit (pstate c') 7 = true ->
  hcore h = set_irq (negb (Z.testbit (pstate c') 7)) (hcore (dev k)) -> uart_kept (dev k) h ->
  arrives k h (saved_ctx t s syndrome fault c).
Proof. intros [H1 H2 H3] Hs Hm Hc Hu. rewrite Hm in Hc. split; auto. Qed.

Lemma resumed_user c k :
  resumed (ectx k) c -> in_user c (LOAD_REG (negb (Z.testbit (espsr (ectx k)) 7)) k).
Proof. intros [H1 H2 H3 H4 H5 H6]. split; [exact H6|cbn; now rewrite H3|exact H5]. Qed.

(** * Properties *)

(** C6. An exception is transparent to the code it interrupts: the vector's code
    puts the context in the 0x140 bytes below the stack pointer and nowhere
    else, and once a frame holds these registers again -- the same frame, or
    another one a process switch has filled from the saved context -- LOAD_REG
    and [eret] give back every general register, the PC, PSTATE, both stack
    pointers and the address space. *)
Theorem exception_transparent t s syndrome fault c :
  state_ok c -> is_u64 syndrome -> is_u64 fault -> 0x140 <= sys c Sys.SP_EL1 ->
  exists c1 e, exception_entry t s syndrome fault c = Some c1 /\ frame_ctx (cmem c1) (gpr c1 0) = Some e /\
    etype e = t /\ esource e = s /\ esr e = syndrome /\ far e = fault /\
    (forall a, ~ (sys c Sys.SP_EL1 - 0x140 <= a < sys c Sys.SP_EL1) -> cmem c1 a = cmem c a) /\
    forall c2 e2, sp_reg c2 = Sys.SP_EL1 -> el c2 = 1 -> 0 <= sys c2 Sys.SP_EL1 -> sys c2 Sys.SP_EL1 + 0x140 < U64 ->
      frame_ctx (cmem c2) (sys c2 Sys.SP_EL1) = Some e2 -> from_ectx e2 = from_ectx e ->
      exists c3, run leave_exception c2 = Some c3 /\ cmem c3 = cmem c2 /\
        gprs c3 = gprs c /\ pc c3 = pc c /\ pstate c3 = pstate c /\
        (forall r, r ∈ [Sys.SP_EL0; Sys.SP_EL1; Sys.TTBR0_EL1] -> sys c3 r = sys c r).
Proof.
  intros Hok Hsy Hf Hsp. destruct (entry_saves t s syndrome fault c Hok Hsy Hf Hsp) as (c1 & H1 & _ & _ & H2 & H3 & _).
  exists c1, (saved_ctx t s syndrome fault c). do 6 (split; [auto|]). split; [exact H3|].
  intros c2 e2 Hp Hel Hlo Hhi He2 Heq. destruct (leave_resumes c2 e2 Hp Hel Hlo Hhi He2) as (c3 & Hr & Hm & [E1 E2 E3 E4 E5 E6]).
  injection Heq as F1 F2 F3 F4 F5 F6. exists c3. repeat (split; [congruence|]).
  intros r Hr'. repeat (apply elem_of_cons in Hr' as [->|Hr']; [congruence|]). now apply not_elem_of_nil in Hr'.
Qed.

(** C5. Between the programs and [handle_exception_el1] the machine of System
    runs what exceptions.s does: the frame being the handler's context, LOAD_REG
    and [eret] lead to the program's registers with the address space and the
    interrupt mask of [System.LOAD_REG]; and an exception of a program, through
    the vector of its kind for lower levels, hands the handler a context the
    machine allows, with interrupts masked. *)
Theorem vectors_refine c k :
  sp_reg c = Sys.SP_EL1 -> el c = 1 -> 0 <= sys c Sys.SP_EL1 -> sys c Sys.SP_EL1 + 0x140 < U64 ->
  frame_ctx (cmem c) (sys c Sys.SP_EL1) = Some (ectx k) ->
  exists c1, run leave_exception c = Some c1 /\ resumed (ectx k) c1 /\
    in_user c1 (LOAD_REG (negb (Z.testbit (espsr (ectx k)) 7)) k) /\
    forall c2 k2 t syndrome fault,
      in_user c2 k2 -> state_ok c2 -> is_u64 syndrome -> is_u64 fault -> 0x140 <= sys c2 Sys.SP_EL1 ->
      exists c3 e, exception_entry t EL064 syndrome fault c2 = Some c3 /\ frame_ctx (cmem c3) (gpr c3 0) = Some e /\
        etype e = t /\ esr e = syndrome /\
        forall h, hcore h = set_irq (negb (Z.testbit (pstate c3) 7)) (hcore (dev k2)) -> uart_kept (dev k2) h ->
          arrives k2 h e.
Proof.
  intros Hp Hel Hlo Hhi He. destruct (leave_resumes c (ectx k) Hp Hel Hlo Hhi He) as (c1 & Hr & _ & Hre).
  exists c1. split; [exact Hr|]. split; [exact Hre|]. split; [exact (resumed_user c1 k Hre)|].
  intros c2 k2 t syndrome fault Hu Hok Hsy Hf Hsp.
  destruct (entry_saves t EL064 syndrome fault c2 Hok Hsy Hf Hsp) as (c3 & H1 & _ & _ & H2 & _ & _ & _ & H3).
  exists c3, (saved_ctx t EL064 syndrome fault c2). repeat (split; [auto|]).
  intros h Hh Hk. exact (saved_arrives t EL064 syndrome fault c2 k2 c3 h Hu eq_refl H3 Hh Hk).
Qed.

(** ** Witnesses *)

(** A program at 0x400000 whose registers are their numbers. *)
Definition demo_user : cpu :=
  mk_cpu (fun n => Z.of_nat n mod U64) (fun r => match r with Sys.SP_EL1 => 0xFFFFFF8000200000 | Sys.SP_EL0 => 0x420000 | _ => 0 end)
    0x60000000 0x400000 (fun _ => 0).

(** The end of a handler: the frame is all zero. *)
Definition demo_handler : cpu :=
  mk_cpu (fun _ => 7) (fun r => match r with Sys.SP_EL1 => 0xFFFFFF80001FFEC0 | _ => 0 end) 0x3C5 0xFFFFFF8000080000 (fun _ => 0).

Definition demo_frame : ExceptionContext := mk_ectx Processes.E_SYNC EL1t (replicate 31 0) 0 0 0 0 0 0 0.

Lemma demo_user_ok : state_ok demo_user.
Proof.
  split; [split|..]; try (unfold is_u64, U64; cbn; lia).
  - intros n. cbn. unfold is_u64. apply Z.mod_pos_bound. reflexivity.
  - intros []; unfold is_u64, U64; cbn; lia.
Qed.

Lemma exception_transparent_witness :
  0x140 <= sys demo_user Sys.SP_EL1 /\
    exists c1 e, exception_entry E_IRQ EL064 0 0 demo_user = Some c1 /\ frame_ctx (cmem c1) (gpr c1 0) = Some e /\
    etype e = E_IRQ /\ esource e = EL064.
Proof.
  split; [cbn; lia|].
  destruct (exception_transparent E_IRQ EL064 0 0 demo_user demo_user_ok ltac:(split; reflexivity) ltac:(split; reflexivity)
    ltac:(cbn; lia)) as (c1 & e & H1 & H2 & H3 & H4 & _).
  exists c1, e. auto.
Defined.

Lemma vectors_refine_witness :
  let k := set_ectx demo_frame demo_alone in
  frame_ctx (cmem demo_handler) (sys demo_handler Sys.SP_EL1) = Some (ectx k) /\
    exists c1, run leave_exception demo_handler = Some c1 /\ resumed demo_frame c1.
Proof.
  cbn zeta. assert (frame_ctx (cmem demo_handler) (sys demo_handler Sys.SP_EL1) = Some demo_frame) as H by (vm_compute; reflexivity).
  split; [exact H|].
  destruct (vectors_refine demo_handler (set_ectx demo_frame demo_alone) eq_refl eq_refl ltac:(cbn; lia) ltac:(reflexivity) H)
    as (c1 & H1 & H2 & _).
  exists c1. auto.
Defined.
