(* ===== verification/Fairness.v ===== *)
(** No process starves: what the timer interrupt and the scheduler's order
    promise a process that is ready, on the machine of System.

    The measure is [scan_dist], the number of slots the scheduler looks at
    before the process's own; [place_kept] of Calm is that no turn of the others
    makes it grow, and the timer makes every turn end. *)

From Stdlib Require Import ZArith Lia.
From stdpp Require Import base strings numbers list.
From S2P Require Import Prelude Memory Frames PageTable PageFree UserMem Isolation KernelStack Interrupts Devices Processes.
From S2P Require Import Scheduler ProcOps Demo Mutex Io Syscalls SyscallSpec SpawnSpec Exceptions Calm TrapSpec System.

Local Open Scope Z_scope.

(** ** The timer takes the core back *)

Section Machine.
Context {F : Pool}.

(** The scheduler after the interrupted process has been made ready. *)
Lemma schedule_after k l i p :
  kernel_ok k l -> CURRENT_PROCESS k = i -> slot_has k i p -> state p = Ready ->
  exists k', (forall fuel, schedule_next fuel k = Done tt k') /\
    forall j q, j <> i -> slot_has k j q -> state q = Ready -> CURRENT_PROCESS k' <> i.
Proof.
  intros Hok Hc Hp Hs. pose proof (ko_table _ _ Hok) as Ht. pose proof (ko_current _ _ Hok) as Hlt.
  assert (forall j q, slot_has k j q -> state q = Ready -> (j < NPROC)%nat /\ ready_at (PROCESS_TABLE k) j = true) as Hready.
  { intros j q Hq Hr. split; [exact (lookup_lt_proc _ _ _ Ht Hq)|]. unfold ready_at. unfold slot_has in Hq.
    rewrite Hq. now apply bool_decide_eq_true_2. }
  assert (~ running_here k) as Hn.
  { intros (q & Hq & Hr). rewrite Hc in Hq. unfold slot_has in Hp. congruence. }
  destruct (choose_and_load k Ht Hlt) as [(idx & k1 & k' & Hch & Hl & _)|(_ & _ & Hnone)].
  2: { destruct (Hready i p Hp Hs) as [Hi Hr]. rewrite (Hnone i Hi) in Hr. discriminate. }
  exists k'. split; [intros [|fuel]; cbn [schedule_next]; now rewrite (bind_run _ _ _ _ _ Hch)|].
  intros j q Hj Hq Hr. destruct (Hready j q Hq Hr) as [Hjlt Hrj].
  destruct (choose_nearer k idx k1 j Ht Hlt Hn Hjlt Hrj Hch) as [_ Hd].
  apply load_run in Hl as (c & _ & ->). cbn [CURRENT_PROCESS set_ectx set_dev set_table set_current].
  intros ->. rewrite Hc in Hd. destruct Hd as [->|Hd]; [now apply Hj|lia].
Qed.

(** The bystanders of the entry code. *)
Lemma entered_ready k p k1 l1 j q :
  entered k p k1 l1 -> j <> CURRENT_PROCESS k -> slot_has k j q -> state q = Ready ->
  exists q', slot_has k1 j q' /\ state q' = Ready.
Proof.
  intros He Hj Hq Hr. pose proof (proj1 (slot_lookup _ _ _) Hq) as Hs. unfold slot_has.
  destruct (en_slots _ _ _ _ He j _ Hj Hs) as [-> | ->]; [eauto|].
  exists (wake AWAITING_UART_READ q). split; [reflexivity|].
  destruct (wake_id AWAITING_UART_READ q) as (_ & _ & _ & ->); congruence.
Qed.

Lemma timer_turn_ok images intro S irq k ku p :
  at_rest k -> slot_has k (CURRENT_PROCESS k) p -> (CURRENT_PROCESS k ∉ S) -> user_run (LOAD_REG irq k) ku ->
  etype (ectx ku) = E_IRQ -> mmio (dev ku) CORE_0_IRQ_SRC = PhysicalNonSecureTimer -> timer_good (dev ku) ->
  exists k', turn images intro S k k' /\
    (exists p', slot_has k' (CURRENT_PROCESS k) p' /\ pid p' = pid p /\ pctx p' = from_ectx (ectx ku)) /\
    (forall j q, j <> CURRENT_PROCESS k -> slot_has k j q -> state q = Ready -> CURRENT_PROCESS k' <> CURRENT_PROCESS k) /\
    (CURRENT_PROCESS k' = CURRENT_PROCESS k -> ectx k' = ectx ku).
Proof.
  intros Hk Hp HS Hu Ht Hsrc Htm. set (i := CURRENT_PROCESS k) in *.
  destruct (trap_of_rest irq k ku p Hk Hp Hu) as (Hin & Htrap & Er). destruct (user_run_table _ _ Hu) as [Eut Euc].
  assert (CURRENT_PROCESS ku = i) as Ei by exact Euc.
  pose proof (ca_ok _ _ _ (in_calm _ _ _ _ _ _ _ Hin)) as [l Hok].
  set (kctx := idle_thread (ettbr0 (ectx ku))). set (others := (diverge : M kernel unit) ;; modify (LOAD_REG false)).
  destruct (enter_kernel 0 kctx others 0 images intro ku l p Hok Htrap) as (ke & le & Hrun & Hen & _).
  pose proof Hen as [E1 E2 E3 E4 _ _ _ (_ & _ & E10) _]. rewrite Ei in *. rewrite <- E3 in E4.
  destruct (timer_irq_run 0 ke le _ E1 E4) as (h & k1 & Htr & _ & Ek1 & Hok1).
  { unfold is_live, is_state. cbn. now rewrite (ut_run _ _ Htrap). }
  { rewrite E2. apply Htrap. }
  { destruct (en_dev _ _ _ _ Hen) as ([_ _ _ _ _ _ _ [F1 F2]] & _ & _). unfold timer_good. now rewrite F1, F2. }
  assert (slot_has k1 i (set_state Ready (set_pctx (from_ectx (ectx ku)) p))) as Hs1.
  { rewrite Ek1. unfold slot_has. cbn [PROCESS_TABLE set_dev set_table]. rewrite E3, mjoin_update_slot, decide_True by reflexivity.
    rewrite E3 in E4. unfold slot_has in E4. now rewrite E4. }
  assert (CURRENT_PROCESS k1 = i) as Ec1 by (rewrite Ek1; exact E3).
  destruct (schedule_after k1 le i _ Hok1 Ec1 Hs1 eq_refl) as (k' & Hsch & Hnext). exists k'.
  split; [|split; [|split]].
  - apply (turn_intro images intro S irq k ku k' 0 kctx diverge 0 HS Hu).
    + intros k2 _ H. congruence.
    + split; [reflexivity|discriminate|reflexivity].
    + discriminate.
    + discriminate.
    + rewrite Ht in Hrun. cbn [dispatch] in Hrun. rewrite irq_timer in Hrun by now rewrite E10.
      unfold others in Hrun. now rewrite Hrun, Htr.
  - destruct (schedule_loads 0 k1 k' i _ (Hsch O) Hs1) as [(p' & Hp' & Epc) _].
    destruct (rel_left _ _ _ _ _ (schedule_rel _ _ _ (Hsch O)) Hs1) as (p2 & Hp2 & R).
    assert (p2 = p') as -> by (unfold slot_has in *; congruence).
    exists p'. split; [exact Hp'|]. split; [exact (sr_pid _ _ R)|exact Epc].
  - intros j q Hj Hq Hr.
    destruct (entered_ready ku p ke le j q Hen) as (q' & Hq' & Hr'); [now rewrite Ei|unfold slot_has; now rewrite Eut|exact Hr|].
    apply (Hnext j q'); [exact Hj| |exact Hr']. rewrite Ek1. unfold slot_has in *. cbn [PROCESS_TABLE set_dev set_table].
    now rewrite E3, mjoin_update_slot, decide_False.
  - intros Hc. rewrite (proj2 (schedule_loads 0 k1 k' i _ (Hsch O) Hs1) Hc).
    assert (ectx k1 = ectx ku) as -> by (rewrite Ek1; exact E2). cbn [pctx set_state set_pctx]. now destruct (ectx ku).
Qed.

(** C4. The timer always gets the core back.  Whatever the running program
    was computing, in any state of the machine, when the timer interrupts it
    its turn ends: the handler returns, with the machine at rest, the program's
    registers saved in its slot as they were at the interrupt, and another
    process chosen if any is ready; otherwise the program goes on with the
    registers it was interrupted with. *)
Theorem timer_turn images intro S irq k ku p :
  at_rest k -> slot_has k (CURRENT_PROCESS k) p -> (CURRENT_PROCESS k ∉ S) -> user_run (LOAD_REG irq k) ku ->
  etype (ectx ku) = E_IRQ -> mmio (dev ku) CORE_0_IRQ_SRC = PhysicalNonSecureTimer -> timer_good (dev ku) ->
  exists k', turn images intro S k k' /\ at_rest k' /\
    (exists p', slot_has k' (CURRENT_PROCESS k) p' /\ pid p' = pid p /\ pctx p' = from_ectx (ectx ku)) /\
    ((exists j q, j <> CURRENT_PROCESS k /\ slot_has k j q /\ state q = Ready) -> CURRENT_PROCESS k' <> CURRENT_PROCESS k) /\
    (CURRENT_PROCESS k' = CURRENT_PROCESS k -> ectx k' = ectx ku).
Proof.
  intros Hk Hp HS Hu Ht Hsrc Htm.
  destruct (timer_turn_ok images intro S irq k ku p Hk Hp HS Hu Ht Hsrc Htm) as (k' & Htn & Hsl & Hnext & Hown).
  exists k'. split; [exact Htn|]. split; [|split; [exact Hsl|split; [|exact Hown]]].
  - exact (proj1 (turns_keep images intro S k k' (turns_cons _ _ _ _ _ _ Htn (turns_nil _ _ _ _)) Hk)).
  - intros (j & q & Hj & Hq & Hr). exact (Hnext j q Hj Hq Hr).
Qed.

(** ** Bounded bypass *)

(** Turns, with the number of those that gave the core to another process. *)
Inductive switches (images : bytes -> bytes) (intro : bytes) (S : list nat) : nat -> kernel -> kernel -> Prop :=
| switches_nil k : switches images intro S 0 k k
| switches_stay n k1 k2 k3 :
    turn images intro S k1 k2 -> CURRENT_PROCESS k2 = CURRENT_PROCESS k1 ->
    switches images intro S n k2 k3 -> switches images intro S n k1 k3
| switches_next n k1 k2 k3 :
    turn images intro S k1 k2 -> CURRENT_PROCESS k2 <> CURRENT_PROCESS k1 ->
    switches images intro S n k2 k3 -> switches images intro S (Datatypes.S n) k1 k3.

Lemma scan_dist_inj c c' j :
  (c < NPROC)%nat -> (c' < NPROC)%nat -> (j < NPROC)%nat -> scan_dist c j = scan_dist c' j -> c = c'.
Proof.
  unfold scan_dist, NPROC, MAX_PROCESSES. change (Z.to_nat 50) with 50%nat. intros H1 H2 H3 E.
  assert (forall x, (x < 50)%nat -> ((j + 50 - 1 - x) mod 50 = if le_lt_dec j x then j + 49 - x else j - 1 - x)%nat) as Hm.
  { intros x Hx. destruct (le_lt_dec j x); [rewrite Nat.mod_small; lia|].
    replace (j + 50 - 1 - x)%nat with (j - 1 - x + 1 * 50)%nat by lia. rewrite Nat.Div0.mod_add. apply Nat.mod_small. lia. }
  rewrite !Hm in E by assumption. destruct (le_lt_dec j c), (le_lt_dec j c'); lia.
Qed.

Lemma rest_current k : at_rest k -> (CURRENT_PROCESS k < NPROC)%nat.
Proof. intros [[was [[l Hok] _ _ _ _ _ _]] _]. exact (ko_current _ _ Hok). Qed.

Lemma rest_slot k j q : at_rest k -> slot_has k j q -> (j < NPROC)%nat.
Proof. intros [[was [[l Hok] _ _ _ _ _ _]] _]. exact (lookup_lt_proc _ _ _ (ko_table _ _ Hok)). Qed.

(** A turn of another process, as the one that is ready sees it. *)
Lemma turn_place images intro k k' j q :
  at_rest k -> slot_has k j q -> state q = Ready -> turn images intro [j] k k' ->
  at_rest k' /\ exists q', slot_has k' j q' /\ pid q' = pid q /\
    ((state q' = Ready /\ (scan_dist (CURRENT_PROCESS k') j <= scan_dist (CURRENT_PROCESS k) j)%nat) \/
     (state q' = Running /\ CURRENT_PROCESS k' = j)).
Proof.
  intros Hk Hq Hr Ht.
  destruct (turns_keep images intro [j] k k' (turns_cons _ _ _ _ _ _ Ht (turns_nil _ _ _ _)) Hk) as [Hk' Hsp].
  assert (is_live q = true) as Hl by (unfold is_live, is_state; now rewrite Hr).
  destruct (Hsp j q ltac:(left) Hq Hl) as (q' & Hq' & E1 & _ & _ & _ & P). split; [exact Hk'|].
  exists q'. split; [exact Hq'|]. split; [exact E1|]. exact (pk_ready _ _ _ _ _ P Hr).
Qed.

(** The process that is loaded is out of the turns of the others. *)
Lemma switches_none images intro n k k' : switches images intro [CURRENT_PROCESS k] n k k' -> n = O /\ k' = k.
Proof.
  intros H. inversion H as [|? ? ? ? Ht|? ? ? ? Ht]; subst; [auto| |];
    inversion Ht as [? ? ? ? ? ? ? ? ? Hn]; subst; contradiction Hn; left.
Qed.

Lemma bypass_ok images intro n k k' j q :
  switches images intro [j] n k k' -> at_rest k -> slot_has k j q -> state q = Ready ->
  (n <= Datatypes.S (scan_dist (CURRENT_PROCESS k) j))%nat /\ at_rest k' /\
  exists q', slot_has k' j q' /\ pid q' = pid q /\ (state q' = Ready \/ state q' = Running /\ CURRENT_PROCESS k' = j).
Proof.
  intros H. revert q. induction H as [k|n k1 k2 k3 Ht Hc H IH|n k1 k2 k3 Ht Hc H IH]; intros q Hk Hq Hr.
  - split; [lia|]. split; [exact Hk|eauto].
  - destruct (turn_place images intro k1 k2 j q Hk Hq Hr Ht) as (Hk2 & q2 & Hq2 & E & [[Hr2 Hd]|[Hr2 Hj]]).
    + destruct (IH q2 Hk2 Hq2 Hr2) as (Hn & Hk3 & q' & Hq' & E' & Hs). rewrite Hc in Hn.
      split; [exact Hn|]. split; [exact Hk3|]. exists q'. split; [exact Hq'|]. split; [congruence|exact Hs].
    + subst j. destruct (switches_none _ _ _ _ _ H) as [-> ->]. split; [lia|]. split; [exact Hk2|eauto 10].
  - destruct (turn_place images intro k1 k2 j q Hk Hq Hr Ht) as (Hk2 & q2 & Hq2 & E & [[Hr2 Hd]|[Hr2 Hj]]).
    + destruct (IH q2 Hk2 Hq2 Hr2) as (Hn & Hk3 & q' & Hq' & E' & Hs).
      assert (scan_dist (CURRENT_PROCESS k2) j <> scan_dist (CURRENT_PROCESS k1) j) as Hne.
      { intros He. apply scan_dist_inj in He; [now apply Hc|now apply rest_current..|exact (rest_slot _ _ _ Hk Hq)]. }
      split; [lia|]. split; [exact Hk3|]. exists q'. split; [exact Hq'|]. split; [congruence|exact Hs].
    + subst j. destruct (switches_none _ _ _ _ _ H) as [-> ->]. split; [lia|]. split; [exact Hk2|eauto 10].
Qed.

(** C3. No starvation over served turns.  Whatever the others do in user mode,
    and with any system calls the kernel can serve ([call_fits]), a ready
    process stays ready in its slot until the scheduler chooses it, and fewer
    than [MAX_PROCESSES] turns pass the core to another process before it does.
    The count is of the turns of the sequence: a turn in which a process
    sleeps in the kernel is one, whatever the turns nested in it are. *)
Theorem bounded_bypass images intro n k k' j q :
  at_rest k -> slot_has k j q -> state q = Ready -> switches images intro [j] n k k' ->
  Z.of_nat n < MAX_PROCESSES /\ at_rest k' /\
  exists q', slot_has k' j q' /\ pid q' = pid q /\ (state q' = Ready \/ state q' = Running /\ CURRENT_PROCESS k' = j).
Proof.
  intros Hk Hq Hr H. destruct (bypass_ok images intro n k k' j q H Hk Hq Hr) as (Hn & Hk' & Hq').
  split; [|auto]. destruct (rt_loaded _ Hk) as (p & Hp & Hs & _).
  assert (CURRENT_PROCESS k <> j) as Hne by (intros <-; unfold slot_has in *; congruence).
  pose proof (rest_current _ Hk) as Hc. pose proof (rest_slot _ _ _ Hk Hq) as Hj.
  assert (scan_dist (CURRENT_PROCESS k) j <> 49)%nat as H49.
  { intros He. apply Hne. apply (scan_dist_inj _ _ j Hc Hj Hj). rewrite He. unfold scan_dist, NPROC, MAX_PROCESSES.
    change (Z.to_nat 50) with 50%nat. now replace (j + 50 - 1 - j)%nat with 49%nat by lia. }
  pose proof (scan_dist_lt (CURRENT_PROCESS k) j). unfold NPROC, MAX_PROCESSES in *. change (Z.to_nat 50) with 50%nat in *. lia.
Qed.

End Machine.

(** ** On a concrete machine *)

(** Init computes until the timer interrupts it. *)
Definition ticked (h : hw) : hw :=
  mk_hw (hcore h) (w_lock h) (r_lock h) (fun _ => PhysicalNonSecureTimer) (lsr h) (lsr_pos h) (rx h) (rx_pos h) (tx h)
    (patience h) 19200000 (fun _ => 1000) 0 (cntp_ctl h) (cntp_cval h).
Definition tick_ectx (k : kernel) : ExceptionContext :=
  mk_ectx E_IRQ EL064 (replicate 31 7) 0x400010 0 0 0 0 (esp_el1 (ectx k)) (ettbr0 (ectx k)).
Definition at_tick (k : kernel) : kernel :=
  set_ectx (tick_ectx k) (set_dev (ticked (dev (LOAD_REG false k))) (LOAD_REG false k)).

Lemma tick_run k : user_run (LOAD_REG false k) (at_tick k).
Proof. apply user_trap_now. split; [reflexivity|now unfold uart_kept|reflexivity|reflexivity|reflexivity]. Qed.

Lemma tick_good k : timer_good (dev (at_tick k)).
Proof. unfold timer_good. cbn. unfold TIMESLICE_MILISECONDS, U64. split; [lia|]. split; [lia|]. intros _. lia. Qed.

Lemma timer_turn_witness :
  exists (F : Pool) k child k', (at_rest k /\ slot_has k (CURRENT_PROCESS k) demo_proc /\ slot_has k 1 child /\ state child = Ready /\
    user_run (LOAD_REG false k) (at_tick k)) /\
  turn (fun b => b) [] [] k k' /\ CURRENT_PROCESS k' <> CURRENT_PROCESS k.
Proof.
  destruct demo_pair as (F & k & child & Hk & Hc & H0 & H1 & Hr). rewrite <- Hc in H0.
  destruct (timer_turn (fun b => b) [] [] false k (at_tick k) demo_proc Hk H0 (not_elem_of_nil _) (tick_run k)
    eq_refl eq_refl (tick_good k)) as (k' & Ht & _ & _ & Hn & _).
  exists F, k, child, k'. split; [auto using tick_run|]. split; [exact Ht|]. apply Hn. exists 1%nat, child. rewrite Hc. auto.
Defined.

(** One tick of the timer, and the child of init runs. *)
Lemma bounded_bypass_witness :
  exists (F : Pool) k child k', (at_rest k /\ slot_has k 1 child /\ state child = Ready /\ switches (fun b => b) [] [1%nat] 1 k k') /\
  exists q', slot_has k' 1 q' /\ pid q' = pid child.
Proof.
  destruct demo_pair as (F & k & child & Hk & Hc & H0 & H1 & Hr). rewrite <- Hc in H0.
  destruct (timer_turn_ok (fun b => b) [] [1%nat] false k (at_tick k) demo_proc Hk H0) as (k' & Ht & _ & Hn & _);
    [rewrite Hc; intros [=]%list_elem_of_singleton|exact (tick_run k)|reflexivity|reflexivity|exact (tick_good k)|].
  assert (CURRENT_PROCESS k' <> CURRENT_PROCESS k) as Hne by (apply (Hn 1%nat child); [rewrite Hc; discriminate|exact H1|exact Hr]).
  pose proof (switches_next (fun b => b) [] [1%nat] 0 k k' k' Ht Hne (switches_nil _ _ _ _)) as Hsw.
  exists F, k, child, k'. split; [auto|].
  destruct (bounded_bypass (fun b => b) [] 1 k k' 1 child Hk H1 Hr Hsw) as (_ & _ & q' & Hq' & E & _). eauto.
Defined.
