(* ===== verification/UserLib.v ===== *)
(** The programs' side of the system calls: the wrappers of
    src/src/user/src/stdlib/syscalls.rs and syswraps.rs.

    A wrapper puts its arguments in registers and executes [svc]; what the
    kernel answers is a parameter, [svc], over any state [W] of the world
    outside the program.  A request names the strings and buffers it points
    to by their bytes. *)

From Stdlib Require Import ZArith Lia.
From stdpp Require Import base strings numbers list pretty.
From S2P Require Import Prelude.

Local Open Scope Z_scope.

Inductive request :=
| Trap
| Write (s : bytes)
| Readline (len : nat)
| Exit (exit_code : Z)
| Fork
| Exec (strings : list bytes)
| Wait (pid : Z)
| PollChar
| Sleep (ms : Z)
| ShowOsInfo
| PInfo.

(** x0 and x1 after the call, and the bytes it wrote to the buffer. *)
Record reply := mk_reply { r0 : Z; r1 : Z; data : bytes }.

(** The number of the [svc]. *)
Definition svc_number (r : request) : Z :=
  match r with
  | Trap => 0 | Write _ => 1 | Readline _ => 2 | Exit _ => 3 | Fork => 4 | Exec _ => 5
  | Wait _ => 6 | PollChar => 7 | Sleep _ => 8 | ShowOsInfo => 9 | PInfo => 10
  end.

Section UserLib.
  Context {W : Type} (svc : request -> M W reply).

Definition trap : M W unit := svc Trap ;; skip.

Definition sys_write (s : bytes) : M W unit := svc (Write s) ;; skip.

(** [sys_readline(&mut buf)], with the buffer before and after it. *)
Definition sys_readline (buf : bytes) : M W (nat * bytes) :=
  let* r := svc (Readline (length buf)) in
  ret (Z.to_nat (r0 r), splice buf 0 (data r)).

(** [print!] and [println!]: [Stdout::write_str] is [sys_write], called by
    [core::fmt] for each literal piece and each argument in turn.  (The
    compiler may join literals that stand side by side into one call.) *)
Definition print (pieces : list bytes) : M W unit := for_in pieces sys_write.

(** The prints of [exit] and [fork] are off: INFO_PRINTS_ENABLED is false.  The
    test of [exit] asks for the pid first. *)
Definition get_p_info : M W (result (Z * Z)) :=
  let* r := svc PInfo in ret (ROk (r0 r, r1 r)).

Definition exit {A} (exit_code : Z) : M W A :=
  get_p_info ;; svc (Exit exit_code) ;; get_p_info ;; diverge.

Definition fork : M W (result Z) :=
  let* r := svc Fork in
  if as_i64 (r0 r) =? -1 then ret (RErr "fork failed") else ret (ROk (r0 r)).

Definition EXEC_MAX_ARGS : nat := 32.

Definition exec (path : bytes) (args : list bytes) : M W (result unit) :=
  if bool_decide (EXEC_MAX_ARGS < length args + 1)%nat then ret (RErr "too many arguments")
  else
    let* r := svc (Exec (path :: args)) in
    if as_i64 (r0 r) =? -1 then ret (RErr "exec failed") else ret (ROk tt).

Definition wait (pid : option Z) : M W (result (Z * Z)) :=
  let* r := svc (Wait (default 0 pid)) in
  if as_i64 (r0 r) =? -1 then ret (RErr "wait failed") else ret (ROk (r0 r, as_i64 (r1 r))).

Definition poll_char : M W Z := let* r := svc PollChar in ret (Z.land (r0 r) 0xFF).

Definition sleep (ms : Z) : M W unit := svc (Sleep ms) ;; skip.

Definition show_os_info : M W unit := svc ShowOsInfo ;; skip.

Definition spawn (path : bytes) (args : list bytes) : M W (result unit) :=
  let* f := fork in
  match f with
  | ROk fc =>
      if fc =? 0 then let? _ := exec path args in ret (ROk tt)
      else let? _ := wait (Some fc) in ret (ROk tt)
  | RErr _ => ret (RErr "fork failed")
  end.
End UserLib.
