(* ===== verification/Shell.v ===== *)
(** The shell: src/src/user/src/bin/shell.rs.

    The lexer works on the bytes of the line; a word is a [Span] of it, with
    [u8] bounds.  [parse_and_run] executes each pipeline as soon as its
    terminator is read.  Running a program goes through [fork], [exec] and
    [wait] of UserLib, over any kernel [svc]. *)

From Stdlib Require Import ZArith Lia.
From stdpp Require Import base strings numbers list pretty.
From S2P Require Import Prelude.
From S2P Require Import UserLib.

Local Open Scope Z_scope.

Definition MAX_ARGS : nat := 16.
Definition MAX_COMMANDS : nat := 8.
Definition INPUT_SIZE : nat := 128.

(** ** Spans *)

Record Span := mk_span { sp_start : Z; sp_len : Z }.
Definition empty : Span := mk_span 0 0.

#[global] Instance Span_eq_dec : EqDecision Span.
Proof. solve_decision. Defined.

(** [str::is_char_boundary]: the ends of the string, and the bytes that do not
    continue a character. *)
Definition is_char_boundary (input : bytes) (i : nat) : bool :=
  match i with
  | O => true
  | _ => match input !! i with
         | Some b => negb (utf8_cont b)
         | None => (i =? length input)%nat
         end
  end.

(** [&input[a..b]] of a [str]; [None] is the panic. *)
Definition str_slice (input : bytes) (a b : nat) : option bytes :=
  if (a <=? b)%nat && (b <=? length input)%nat
     && is_char_boundary input a && is_char_boundary input b
  then Some (take (b - a) (drop a input)) else None.

Definition as_str (sp : Span) (input : bytes) : option bytes :=
  let start := Z.to_nat (sp_start sp) in
  str_slice input start (start + Z.to_nat (sp_len sp)).

(** ** The lexer *)

Inductive Token := Word (sp : Span) | Pipe | Semicolon | Background.
Inductive LexError := UnterminatedString.

#[global] Instance Token_eq_dec : EqDecision Token.
Proof. solve_decision. Defined.

Definition PIPE : Z := 124.
Definition SEMI : Z := 59.
Definition AMP : Z := 38.
Definition QUOTE : Z := 34.

(** How far [while pos < len && p(bytes[pos]) { pos += 1 }] goes. *)
Fixpoint span_of (p : Z -> bool) (l : bytes) : nat :=
  match l with b :: l' => if p b then S (span_of p l') else O | [] => O end.
Definition advance (p : Z -> bool) (input : bytes) (pos : nat) : nat :=
  (pos + span_of p (drop pos input))%nat.

Definition bare (b : Z) : bool :=
  negb ((b =? PIPE) || (b =? QUOTE) || (b =? SEMI) || (b =? AMP)) && negb (is_ascii_whitespace b).

Definition span_from (start pos : nat) : Span :=
  mk_span (as_u8 (Z.of_nat start)) (as_u8 (Z.of_nat (pos - start))).

(** [Lexer::next_token]: the token and the position after it. *)
Definition next_token (input : bytes) (pos0 : nat) : (LexError + option Token) * nat :=
  let pos := advance is_ascii_whitespace input pos0 in
  match input !! pos with
  | None => (inr None, pos)
  | Some b =>
      if b =? PIPE then (inr (Some Pipe), S pos)
      else if b =? SEMI then (inr (Some Semicolon), S pos)
      else if b =? AMP then (inr (Some Background), S pos)
      else if b =? QUOTE then
        let start := S pos in
        let e := advance (fun c => negb (c =? QUOTE)) input start in
        if (e =? length input)%nat then (inl UnterminatedString, e)
        else (inr (Some (Word (span_from start e))), S e)
      else
        let e := advance bare input pos in
        (inr (Some (Word (span_from pos e))), e)
  end.

(** ** Commands and pipelines *)

Record Command := mk_command { argc : nat; argv : list Span }.
Record ExecutionPipeline := mk_pipeline { count : nat; commands : list Command }.

Definition Command_new : Command := mk_command 0 (replicate MAX_ARGS empty).
Definition ExecutionPipeline_new : ExecutionPipeline :=
  mk_pipeline 0 (replicate MAX_COMMANDS Command_new).

Inductive ParserError := Lex (e : LexError) | EmptyCommand | TooManyArguments | TooManyCommands.

(** The pieces [{:?}] of a [ParserError] writes. *)
Definition debug_error (e : ParserError) : list bytes :=
  match e with
  | Lex UnterminatedString => [str "Lex"; str "("; str "UnterminatedString"; str ")"]
  | EmptyCommand => [str "EmptyCommand"]
  | TooManyArguments => [str "TooManyArguments"]
  | TooManyCommands => [str "TooManyCommands"]
  end.

(** [a[i] = x] of an array. *)
Definition store {S A} (i : nat) (x : A) (l : list A) : M S (list A) :=
  if (i <? length l)%nat then ret (<[i := x]> l) else panic "index out of bounds".
Definition fetch {S A} (l : list A) (i : nat) : M S A := expect (l !! i) "index out of bounds".

Fixpoint map_m {S A B} (f : A -> M S B) (l : list A) : M S (list B) :=
  match l with
  | [] => ret []
  | x :: l' => let* y := f x in let* ys := map_m f l' in ret (y :: ys)
  end.

Definition dec (n : Z) : bytes := str (pretty n).

Definition reserved : list bytes :=
  [str "ls"; str "cd"; str "mkdir"; str "rmdir"; str "rm"; str "cat"; str "touch"].

Section Shell.
  Context {W : Type} (svc : request -> M W reply).

(** [execute_command] from [fork] on, and the tests before it. *)
Definition run_program (program : bytes) (args : list bytes) (background : bool) : M W unit :=
  let* f := fork svc in
  match f with
  | ROk pid =>
      if pid =? 0 then
        let* r := exec svc program args in
        match r with
        | RErr _ => print svc [program; str ": command not found"; [10]]
        | ROk _ => skip
        end ;;
        exit svc 1
      else if background then print svc [str "["; dec pid; str "] "; program; [10]]
      else wait svc (Some pid) ;; skip
  | RErr _ => print svc [str "fork failed!"; [10]]
  end.

Definition execute_command (command : Command) (background : bool) (input : bytes) : M W unit :=
  if (argc command =? 0)%nat then skip else
  let* a0 := fetch (argv command) 0 in
  let* program := expect (as_str a0 input) "byte index is not a char boundary" in
  (if bool_decide (program = str "exit") then exit svc 0 else skip) ;;
  if bool_decide (program ∈ reserved) then
    print svc [program;
               str ": command not found (filesystem commands will be implemented in the future)"; [10]]
  else
    let* args := map_m (fun i =>
                          let* a := fetch (argv command) i in
                          expect (as_str a input) "byte index is not a char boundary")
                       (seq 1 (argc command - 1)) in
    run_program program args background.

Definition execute_pipeline (pipeline : ExecutionPipeline) (background : bool) (input : bytes)
  : M W unit :=
  for_in (seq 0 (count pipeline)) (fun i =>
    let* c := fetch (commands pipeline) i in execute_command c background input).

(** ** The parser *)

(** [pipeline.commands[pipeline.count] = current; pipeline.count += 1] *)
Definition push_command (pipeline : ExecutionPipeline) (current : Command)
  : M W (ParserError + ExecutionPipeline) :=
  if (MAX_COMMANDS <=? count pipeline)%nat then ret (inl TooManyCommands)
  else
    let* cs := store (count pipeline) current (commands pipeline) in
    ret (inr (mk_pipeline (S (count pipeline)) cs)).

(** One iteration of the loop, for a token. *)
Definition parse_step (input : bytes) (t : Token) (pipeline : ExecutionPipeline) (current : Command)
  : M W (ParserError + ExecutionPipeline * Command) :=
  match t with
  | Word span =>
      if (MAX_ARGS <=? argc current)%nat then ret (inl TooManyArguments)
      else
        let* v := store (argc current) span (argv current) in
        ret (inr (pipeline, mk_command (S (argc current)) v))
  | Pipe =>
      if (argc current =? 0)%nat then ret (inl EmptyCommand)
      else
        let* r := push_command pipeline current in
        match r with
        | inl e => ret (inl e)
        | inr pipeline => ret (inr (pipeline, Command_new))
        end
  | Semicolon | Background =>
      let background := bool_decide (t = Background) in
      let* r := if (argc current =? 0)%nat then
                  ret (if (0 <? count pipeline)%nat then inl EmptyCommand
                       else inr (pipeline, current))
                else
                  let* r := push_command pipeline current in
                  match r with
                  | inl e => ret (inl e)
                  | inr pipeline => ret (inr (pipeline, Command_new))
                  end in
      match r with
      | inl e => ret (inl e)
      | inr (pipeline, current) =>
          if (0 <? count pipeline)%nat then
            execute_pipeline pipeline background input ;;
            ret (inr (ExecutionPipeline_new, current))
          else ret (inr (pipeline, current))
      end
  end.

(** After the loop. *)
Definition parse_end (input : bytes) (pipeline : ExecutionPipeline) (current : Command)
  : M W (ParserError + unit) :=
  let* r := if (argc current =? 0)%nat then
              ret (if (0 <? count pipeline)%nat then inl EmptyCommand else inr pipeline)
            else push_command pipeline current in
  match r with
  | inl e => ret (inl e)
  | inr pipeline =>
      (if (0 <? count pipeline)%nat then execute_pipeline pipeline false input else skip) ;;
      ret (inr tt)
  end.

Fixpoint parse_loop (fuel : nat) (input : bytes) (pos : nat)
    (pipeline : ExecutionPipeline) (current : Command) : M W (ParserError + unit) :=
  match fuel with
  | O => diverge
  | S fuel' =>
      match next_token input pos with
      | (inl e, _) => ret (inl (Lex e))
      | (inr None, _) => parse_end input pipeline current
      | (inr (Some t), pos') =>
          let* r := parse_step input t pipeline current in
          match r with
          | inl e => ret (inl e)
          | inr (pipeline, current) => parse_loop fuel' input pos' pipeline current
          end
      end
  end.

(** [Parser::parse_and_run].  Every iteration but the last consumes a byte. *)
Definition parse_and_run (input : bytes) : M W (ParserError + unit) :=
  parse_loop (S (length input)) input 0 ExecutionPipeline_new Command_new.

(** ** The read-eval loop *)

(** One iteration of [main]'s loop, from the buffer to the buffer. *)
Definition shell_turn (buf : bytes) : M W bytes :=
  print svc [str "$ "] ;;
  let* r := sys_readline svc buf in
  let '(n, buf) := r in
  (if (length buf <? n)%nat then panic "range end index out of range" else skip) ;;
  let input := take n buf in
  if utf8_valid input then
    let* r := parse_and_run input in
    match r with
    | inl e => print svc (str "parser error: " :: debug_error e ++ [[10]]) ;; ret buf
    | inr _ => ret buf
    end
  else print svc [str "invalid utf-8!"; [10]] ;; ret buf.

(** [main], for [turns] lines: the loop has no end. *)
Fixpoint main_loop (turns : nat) (buf : bytes) : M W unit :=
  match turns with
  | O => diverge
  | S t => let* buf := shell_turn buf in main_loop t buf
  end.
Definition main (turns : nat) : M W unit := main_loop turns (replicate INPUT_SIZE 0).
End Shell.
