(* ===== verification/ShellSpec.v ===== *)
(** What the shell does with a line: tokens, pipelines, and the programs run.

    [parse_and_run] mixes reading and running; [staged_run] reads the whole
    line first.  The lines a user writes are described by their lexemes and
    the white space between them. *)

From Stdlib Require Import ZArith Lia.
From stdpp Require Import base strings numbers list pretty.
From S2P Require Import Prelude.
From S2P Require Import UserLib.
From S2P Require Import Shell.

Local Open Scope Z_scope.

(** ** Programs with the same runs *)

Record same_runs {S A} (m m' : M S A) : Prop := mk_runs { runs_as : forall s, m s = m' s }.
Arguments mk_runs {S A m m'} _.
Arguments runs_as {S A m m'} _.
Infix "≈" := same_runs (at level 70) : atos_scope.

#[global] Instance same_runs_equiv {S A} : Equivalence (@same_runs S A).
Proof.
  split; [now constructor|intros m m' [H]; now constructor|].
  intros m m' m'' [H] [H']. constructor. intros s. now rewrite H.
Qed.

#[global] Instance bind_proper {S A B} :
  Proper (same_runs ==> pointwise_relation A same_runs ==> same_runs) (@bind S A B).
Proof.
  intros m m' [Hm] f f' Hf. constructor. intros s. unfold bind. rewrite Hm.
  destruct (m' s); auto. apply Hf.
Qed.

Lemma bind_ret {S A B} (a : A) (f : A -> M S B) : bind (ret a) f ≈ f a.
Proof. now constructor. Qed.

Lemma bind_skip {S B} (m : M S B) : (skip ;; m) ≈ m.
Proof. apply (bind_ret tt). Qed.

Lemma bind_assoc {S A B C} (m : M S A) (f : A -> M S B) (g : B -> M S C) :
  bind (bind m f) g ≈ bind m (fun a => bind (f a) g).
Proof. constructor. intros s. unfold bind. now destruct (m s). Qed.

Lemma for_in_runs {S A} (l : list A) (f g : A -> M S unit) :
  (forall x, x ∈ l -> f x ≈ g x) -> for_in l f ≈ for_in l g.
Proof.
  induction l as [|x l IH]; intros H; [reflexivity|]. cbn. apply bind_proper.
  - apply H. left.
  - intros _. apply IH. intros y Hy. apply H. now right.
Qed.

Lemma for_in_map {S A B} (h : A -> B) (l : list A) (f : B -> M S unit) :
  for_in (h <$> l) f ≈ for_in l (fun x => f (h x)).
Proof. induction l as [|x l IH]; [reflexivity|]. cbn. now setoid_rewrite IH. Qed.

Lemma for_in_app {S A} (l l' : list A) (f : A -> M S unit) :
  for_in (l ++ l') f ≈ (for_in l f ;; for_in l' f).
Proof.
  induction l as [|x l IH]; cbn; [now rewrite bind_skip|].
  rewrite bind_assoc. now setoid_rewrite IH.
Qed.

Lemma fetch_middle {S A} (l l' : list A) x : @fetch S A (l ++ x :: l') (length l) = ret x.
Proof. unfold fetch. now rewrite list_lookup_middle. Qed.

(** A loop over the indices of a list that reads the elements. *)
Lemma for_in_index {S A} (pre l post : list A) (f : A -> M S unit) :
  for_in (seq (length pre) (length l))
    (fun i => bind (fetch (pre ++ l ++ post) i) f) ≈ for_in l f.
Proof.
  revert pre. induction l as [|x l IH]; intros pre; [reflexivity|].
  cbn [length seq for_in app]. apply bind_proper.
  - rewrite fetch_middle. now rewrite bind_ret.
  - intros _. specialize (IH (pre ++ [x])).
    rewrite length_app, Nat.add_1_r in IH. rewrite <- IH. apply for_in_runs.
    intros i _. now rewrite <- (assoc_L (++)).
Qed.

Lemma map_m_index {S A B} (pre l post : list A) (f : A -> M S B) ys :
  Forall2 (fun x y => f x ≈ ret y) l ys ->
  map_m (fun i => bind (fetch (pre ++ l ++ post) i) f) (seq (length pre) (length l)) ≈ ret ys.
Proof.
  intros H. revert pre. induction H as [|x y l ys Hx _ IH]; intros pre; [reflexivity|].
  cbn [length seq map_m app]. rewrite fetch_middle, bind_ret, Hx, bind_ret.
  specialize (IH (pre ++ [x])). rewrite length_app, Nat.add_1_r in IH.
  rewrite <- (assoc_L (++)) in IH. cbn [app] in IH. rewrite IH. now rewrite bind_ret.
Qed.

(** ** The scanning loops *)

Lemma span_of_app p l l' :
  Forall (fun b => p b = true) l -> match l' with b :: _ => p b = false | [] => True end ->
  span_of p (l ++ l') = length l.
Proof.
  induction 1 as [|b l Hb _ IH]; cbn; intros H.
  - destruct l' as [|b l']; [reflexivity|]. cbn. now rewrite H.
  - rewrite Hb. now rewrite IH.
Qed.

Lemma span_of_split p l :
  Forall (fun b => p b = true) (take (span_of p l) l)
  /\ match drop (span_of p l) l with b :: _ => p b = false | [] => True end.
Proof.
  induction l as [|b l IH]; cbn; [easy|]. destruct (p b) eqn:Hp; cbn.
  - destruct IH. split; [now constructor|assumption].
  - easy.
Qed.

Lemma span_of_length p l : (span_of p l <= length l)%nat.
Proof. induction l as [|b l IH]; cbn; [lia|]. destruct (p b); lia. Qed.

(** The loop's equation. *)
Lemma advance_step p input pos :
  advance p input pos =
  match input !! pos with
  | Some b => if p b then advance p input (S pos) else pos
  | None => pos
  end.
Proof.
  unfold advance. destruct (input !! pos) as [b|] eqn:H.
  - rewrite (drop_S _ _ _ H). cbn. destruct (p b); lia.
  - rewrite drop_ge by now apply lookup_ge_None. cbn. lia.
Qed.

Lemma advance_range p input pos :
  (pos <= length input)%nat -> (pos <= advance p input pos <= length input)%nat.
Proof.
  intros H. unfold advance. pose proof (span_of_length p (drop pos input)) as Hs.
  rewrite length_drop in Hs. lia.
Qed.

Lemma advance_stops p input pos b :
  input !! advance p input pos = Some b -> p b = false.
Proof.
  unfold advance. intros H. destruct (span_of_split p (drop pos input)) as [_ Hd].
  rewrite drop_drop in Hd. now rewrite (drop_S _ _ _ H) in Hd.
Qed.

Lemma advance_over p input pos i b :
  (pos <= i < advance p input pos)%nat -> input !! i = Some b -> p b = true.
Proof.
  unfold advance. intros Hi Hb. destruct (span_of_split p (drop pos input)) as [Hf _].
  rewrite Forall_lookup in Hf. apply (Hf (i - pos)%nat).
  rewrite lookup_take_lt by lia. rewrite lookup_drop. rewrite <- Hb. f_equal. lia.
Qed.

Lemma advance_app p pre l l' :
  Forall (fun b => p b = true) l -> match l' with b :: _ => p b = false | [] => True end ->
  advance p (pre ++ l ++ l') (length pre) = length (pre ++ l).
Proof.
  intros Hl Hl'. unfold advance. rewrite drop_app_length, span_of_app by assumption.
  now rewrite length_app.
Qed.

(** ** Character boundaries *)

Lemma utf8_head b l : utf8_valid (b :: l) = true -> utf8_cont b = false.
Proof.
  cbn [utf8_valid]. unfold utf8_cont, in_range.
  destruct (Z.ltb_spec b 0x80); [intros _; lia|].
  destruct l as [|b1 l1]; [discriminate|].
  destruct ((0xC2 <=? b) && (b <=? 0xDF)) eqn:H2; [lia|].
  destruct l1 as [|b2 l2]; [discriminate|].
  destruct ((0xE0 <=? b) && (b <=? 0xEF)) eqn:H3; [lia|].
  destruct l2 as [|b3 l3]; [discriminate|].
  destruct ((0xF0 <=? b) && (b <=? 0xF4)) eqn:H4; [lia|]. discriminate.
Qed.

(** In well-formed UTF-8 a character starts after every ASCII byte. *)
Lemma utf8_after_ascii n : forall l i a b,
  (length l <= n)%nat -> utf8_valid l = true ->
  l !! i = Some a -> a < 128 -> l !! S i = Some b -> utf8_cont b = false.
Proof.
  assert (Hc : forall x y z : Z, in_range y z x = true -> 128 <= y -> ~ x < 128).
  { unfold in_range. intros x y z H. lia. }
  induction n as [|n IH]; intros l i a b Hn Hv Ha Hlt Hb; [destruct l; [done|cbn in Hn; lia]|].
  destruct l as [|b0 l0]; [done|]. cbn [length] in Hn.
  destruct i as [|i].
  { cbn in Ha, Hb, Hv. injection Ha as ->. destruct (Z.ltb_spec a 0x80); [|lia].
    destruct l0 as [|b' l0]; [done|]. injection Hb as ->. eapply utf8_head, Hv. }
  change (l0 !! i = Some a) in Ha. change (l0 !! S i = Some b) in Hb.
  cbn [utf8_valid] in Hv. destruct (b0 <? 0x80); [apply (IH l0 i a b); auto; lia|].
  destruct l0 as [|b1 l1]; [done|]. cbn [length] in Hn.
  assert (Hskip : forall l', utf8_valid l' = true -> (length l' <= n)%nat ->
            (exists j, l' !! j = Some a /\ l' !! S j = Some b) -> utf8_cont b = false).
  { intros l' Hv' Hl' (j & Hj & Hj'). apply (IH l' j a b); auto. }
  destruct (in_range 0xC2 0xDF b0).
  { apply andb_true_iff in Hv as [H1 Hv].
    destruct i as [|i]; [injection Ha as ->; apply Hc in H1; lia|].
    apply (Hskip l1); eauto; lia. }
  destruct l1 as [|b2 l2]; [done|]. cbn [length] in Hn.
  destruct (in_range 0xE0 0xEF b0).
  { rewrite !andb_true_iff in Hv. destruct Hv as [[H1 H2] Hv].
    destruct i as [|[|i]].
    - injection Ha as ->. apply Hc in H1; [lia|]. destruct (b0 =? 0xE0); lia.
    - injection Ha as ->. apply Hc in H2; lia.
    - apply (Hskip l2); eauto; lia. }
  destruct l2 as [|b3 l3]; [done|]. cbn [length] in Hn.
  rewrite !andb_true_iff in Hv. destruct Hv as [[[[_ H1] H2] H3] Hv].
  destruct i as [|[|[|i]]].
  - injection Ha as ->. apply Hc in H1; [lia|]. destruct (b0 =? 0xF0); lia.
  - injection Ha as ->. apply Hc in H2; lia.
  - injection Ha as ->. apply Hc in H3; lia.
  - apply (Hskip l3); eauto; lia.
Qed.

Section Boundaries.
  Context (input : bytes) (Hutf8 : utf8_valid input = true).

Lemma boundary_0 : is_char_boundary input 0 = true.
Proof using. reflexivity. Qed.

Lemma boundary_end : is_char_boundary input (length input) = true.
Proof using.
  unfold is_char_boundary. destruct (length input) eqn:H; [done|].
  rewrite lookup_ge_None_2 by lia. now rewrite Nat.eqb_refl.
Qed.

Lemma boundary_ascii i b : input !! i = Some b -> b < 128 -> is_char_boundary input i = true.
Proof using.
  intros Hb Hlt. unfold is_char_boundary. destruct i; [done|]. rewrite Hb.
  unfold utf8_cont, in_range. lia.
Qed.

Lemma boundary_after i b :
  input !! i = Some b -> b < 128 -> is_char_boundary input (S i) = true.
Proof using Hutf8.
  intros Hb Hlt. unfold is_char_boundary. destruct (input !! S i) as [c|] eqn:Hc.
  - now rewrite (utf8_after_ascii (length input) input i b c).
  - apply lookup_ge_None in Hc. apply lookup_lt_Some in Hb. apply Nat.eqb_eq. lia.
Qed.

Lemma boundary_advance p pos :
  (forall b, p b = true -> b < 128) ->
  (pos <= length input)%nat -> is_char_boundary input pos = true ->
  is_char_boundary input (advance p input pos) = true.
Proof using Hutf8.
  intros Hp Hpos Hb. pose proof (advance_range p input pos Hpos) as Hr.
  destruct (decide (advance p input pos = pos)) as [->|Hne]; [assumption|].
  set (e := advance p input pos) in *.
  destruct (lookup_lt_is_Some_2 input (e - 1)) as [b Hx]; [lia|].
  replace e with (S (e - 1)) by lia. apply (boundary_after _ b Hx), Hp.
  apply (advance_over p input pos (e - 1) b); [lia|assumption].
Qed.

(** Scanning over what is not [p] stops at a boundary. *)
Lemma boundary_stop p pos :
  (forall b, p b = false -> b < 128) -> (pos <= length input)%nat ->
  is_char_boundary input (advance p input pos) = true.
Proof using.
  intros Hp Hpos. pose proof (advance_range p input pos Hpos) as Hr.
  destruct (input !! advance p input pos) as [b|] eqn:Hb.
  - apply (boundary_ascii _ _ Hb), Hp, (advance_stops _ _ _ _ Hb).
  - apply lookup_ge_None in Hb. replace (advance p input pos) with (length input) by lia.
    apply boundary_end.
Qed.
End Boundaries.

Lemma whitespace_ascii b : is_ascii_whitespace b = true -> b < 128.
Proof. unfold is_ascii_whitespace. lia. Qed.
Lemma not_bare_ascii b : bare b = false -> b < 128.
Proof. unfold bare, is_ascii_whitespace, PIPE, QUOTE, SEMI, AMP. lia. Qed.
Lemma quote_ascii b : negb (b =? QUOTE) = false -> b < 128.
Proof. unfold QUOTE. lia. Qed.
#[export] Hint Resolve whitespace_ascii not_bare_ascii quote_ascii : atos.

(** ** The lexer's tokens *)

Lemma as_str_span input a b :
  (a <= b <= length input)%nat -> (length input <= 255)%nat ->
  is_char_boundary input a = true -> is_char_boundary input b = true ->
  as_str (span_from a b) input = Some (take (b - a) (drop a input)).
Proof.
  intros Hab Hlen Ha Hb. unfold as_str, span_from. cbn [sp_start sp_len].
  unfold as_u8. rewrite !Z.mod_small, !Nat2Z.id by lia.
  replace (a + (b - a))%nat with b by lia. unfold str_slice. rewrite Ha, Hb.
  destruct (Nat.leb_spec a b); [|lia]. destruct (Nat.leb_spec b (length input)); [|lia].
  reflexivity.
Qed.

(** Every token takes at least a byte of the line. *)
Lemma next_token_progress input pos t pos' :
  (pos <= length input)%nat -> next_token input pos = (inr (Some t), pos') ->
  (pos < pos' <= length input)%nat.
Proof.
  intros Hpos. unfold next_token.
  pose proof (advance_range is_ascii_whitespace input pos Hpos) as Hr.
  set (p := advance is_ascii_whitespace input pos) in *.
  destruct (input !! p) as [b|] eqn:Hp; [|discriminate].
  pose proof (lookup_lt_Some _ _ _ Hp) as Hplt.
  destruct (Z.eqb_spec b PIPE); [|destruct (Z.eqb_spec b SEMI); [|destruct (Z.eqb_spec b AMP)]].
  1-3: intros [= _ <-]; lia.
  destruct (Z.eqb_spec b QUOTE).
  - pose proof (advance_range (fun c => negb (c =? QUOTE)) input (S p) ltac:(lia)) as He.
    set (q := advance _ input (S p)) in *.
    destruct (Nat.eqb_spec q (length input)); [discriminate|]. intros [= _ <-]. lia.
  - pose proof (advance_range bare input (S p) ltac:(lia)) as He.
    intros [= _ <-]. pose proof (advance_step bare input p) as Hs.
    rewrite Hp in Hs. replace (bare b) with true in Hs; [lia|].
    unfold bare. pose proof (advance_stops _ _ _ _ Hp) as ->. lia.
Qed.

(** From a boundary, [next_token] ends at a boundary further on, and a word it
    returns is a slice of the line. *)
Lemma next_token_bounds input pos t pos' :
  utf8_valid input = true -> (length input <= 255)%nat ->
  (pos <= length input)%nat -> is_char_boundary input pos = true ->
  next_token input pos = (inr (Some t), pos') ->
  is_char_boundary input pos' = true
  /\ (forall sp, t = Word sp -> is_Some (as_str sp input)).
Proof.
  intros Hv Hlen Hpos Hb. unfold next_token.
  pose proof (advance_range is_ascii_whitespace input pos Hpos) as Hr.
  pose proof (boundary_advance input Hv is_ascii_whitespace pos ltac:(auto with atos) Hpos Hb) as Hb1.
  set (p := advance is_ascii_whitespace input pos) in *.
  destruct (input !! p) as [b|] eqn:Hp; [|discriminate].
  pose proof (lookup_lt_Some _ _ _ Hp) as Hplt.
  assert (Hone : forall c, b = c -> c < 128 ->
            is_char_boundary input (S p) = true).
  { intros c -> Hc. eapply boundary_after; eauto. }
  destruct (Z.eqb_spec b PIPE); [|destruct (Z.eqb_spec b SEMI); [|destruct (Z.eqb_spec b AMP)]].
  1-3: intros [= <- <-]; split; [eapply Hone; [eassumption|reflexivity]|discriminate].
  destruct (Z.eqb_spec b QUOTE).
  - pose proof (Hone QUOTE ltac:(assumption) ltac:(reflexivity)) as Hs.
    pose proof (advance_range (fun c => negb (c =? QUOTE)) input (S p) ltac:(lia)) as He.
    pose proof (boundary_stop input (fun c => negb (c =? QUOTE)) (S p)
                  ltac:(auto with atos) ltac:(lia)) as Hbe.
    set (q := advance _ input (S p)) in *.
    destruct (Nat.eqb_spec q (length input)); [discriminate|]. intros [= <- <-].
    destruct (lookup_lt_is_Some_2 input q) as [c Hc]; [lia|].
    pose proof (advance_stops _ _ _ _ Hc) as Hq. cbv beta in Hq.
    split; [apply (boundary_after _ Hv _ _ Hc); auto with atos|].
    intros sp [= <-]. rewrite as_str_span; eauto; lia.
  - pose proof (advance_range bare input p ltac:(lia)) as He.
    pose proof (boundary_stop input bare p ltac:(auto with atos) ltac:(lia)) as Hbe.
    intros [= <- <-]. split; [assumption|].
    intros sp [= <-]. rewrite as_str_span; eauto; lia.
Qed.

(** ** Reading the whole line first *)

Fixpoint lex (fuel : nat) (input : bytes) (pos : nat) : list Token * option LexError :=
  match fuel with
  | O => ([], None)
  | S fuel' =>
      match next_token input pos with
      | (inl e, _) => ([], Some e)
      | (inr None, _) => ([], None)
      | (inr (Some t), pos') => let '(ts, e) := lex fuel' input pos' in (t :: ts, e)
      end
  end.
Definition tokens (input : bytes) : list Token * option LexError := lex (S (length input)) input 0.

(** A job: the commands of a pipeline, as words, and whether it is run in the
    background. *)
Definition job : Type := list (list Span) * bool.

(** The pipeline that ends with [cur] after the commands [pipe]. *)
Definition close (pipe : list (list Span)) (cur : list Span) : ParserError + list (list Span) :=
  match cur, pipe with
  | [], [] => inr []
  | [], _ => inl EmptyCommand
  | _, _ => if (length pipe <? MAX_COMMANDS)%nat then inr (pipe ++ [cur]) else inl TooManyCommands
  end.

(** The jobs of a list of tokens up to the first error. *)
Fixpoint plan (pipe : list (list Span)) (cur : list Span) (ts : list Token) (err : option LexError)
  : list job * option ParserError :=
  match ts with
  | [] =>
      match err with
      | Some e => ([], Some (Lex e))
      | None => match close pipe cur with
                | inl e => ([], Some e)
                | inr p => ((if p is [] then [] else [(p, false)]), None)
                end
      end
  | Word sp :: ts =>
      if (length cur <? MAX_ARGS)%nat then plan pipe (cur ++ [sp]) ts err
      else ([], Some TooManyArguments)
  | Pipe :: ts =>
      match cur with
      | [] => ([], Some EmptyCommand)
      | _ => match close pipe cur with
             | inl e => ([], Some e)
             | inr p => plan p [] ts err
             end
      end
  | t :: ts =>
      match close pipe cur with
      | inl e => ([], Some e)
      | inr [] => plan [] [] ts err
      | inr p => let '(js, e) := plan [] [] ts err in ((p, bool_decide (t = Background)) :: js, e)
      end
  end.

Definition command_of (ws : list Span) : Command :=
  mk_command (length ws) (ws ++ replicate (MAX_ARGS - length ws) empty).
Definition pipeline_of (cs : list (list Span)) : ExecutionPipeline :=
  mk_pipeline (length cs) ((command_of <$> cs) ++ replicate (MAX_COMMANDS - length cs) Command_new).

Lemma close_word p cur :
  cur <> [] ->
  close p cur = if (length p <? MAX_COMMANDS)%nat then inr (p ++ [cur]) else inl TooManyCommands.
Proof. now destruct cur, p. Qed.

Lemma store_next {S A} (l : list A) n d x :
  (length l < n)%nat ->
  @store S A (length l) x (l ++ replicate (n - length l) d)
  = ret ((l ++ [x]) ++ replicate (n - length (l ++ [x])) d).
Proof.
  intros H. unfold store. rewrite length_app, length_replicate.
  destruct (Nat.ltb_spec (length l) (length l + (n - length l))); [|lia].
  replace (n - length l)%nat with (Datatypes.S (n - length (l ++ [x])))
    by (rewrite length_app; cbn; lia).
  cbn [replicate]. f_equal. rewrite insert_app_r_alt, Nat.sub_diag by lia. cbn.
  now rewrite <- (assoc_L (++)).
Qed.

Section Staged.
  Context {W : Type} (svc : request -> M W reply) (input : bytes).

Definition run_job (j : job) : M W unit := execute_pipeline svc (pipeline_of j.1) j.2 input.

Definition staged (p : list job * option ParserError) : M W (ParserError + unit) :=
  for_in p.1 run_job ;; ret (if p.2 is Some e then inl e else inr tt).
Definition staged_run : M W (ParserError + unit) :=
  let '(ts, err) := tokens input in staged (plan [] [] ts err).

Lemma push_command_of p cur :
  cur <> [] ->
  @push_command W (pipeline_of p) (command_of cur)
  = ret match close p cur with inl e => inl e | inr p' => inr (pipeline_of p') end.
Proof using.
  intros Hcur. rewrite close_word by assumption. unfold push_command.
  cbn [count commands pipeline_of].
  destruct (Nat.leb_spec MAX_COMMANDS (length p)), (Nat.ltb_spec (length p) MAX_COMMANDS); try lia.
  - reflexivity.
  - pose proof (@store_next W _ (command_of <$> p) MAX_COMMANDS Command_new (command_of cur)) as Hs.
    rewrite !length_app, length_fmap in Hs. rewrite Hs by assumption.
    unfold pipeline_of. rewrite fmap_app, !length_app. cbn. now rewrite Nat.add_1_r.
Qed.

Lemma parse_word p cur sp :
  (length cur < MAX_ARGS)%nat ->
  @parse_step W svc input (Word sp) (pipeline_of p) (command_of cur)
  = ret (inr (pipeline_of p, command_of (cur ++ [sp]))).
Proof using.
  intros H. cbn [parse_step argc argv command_of].
  destruct (Nat.leb_spec MAX_ARGS (length cur)); [lia|].
  rewrite (@store_next W) by assumption. unfold command_of.
  rewrite length_app. cbn. now rewrite Nat.add_1_r.
Qed.

Lemma command_of_argc cur : (argc (command_of cur) =? 0)%nat = true <-> cur = [].
Proof using. destruct cur; cbn; split; congruence. Qed.

(** What the parser does at a terminator. *)
Lemma parse_terminator t p cur :
  t = Semicolon \/ t = Background ->
  parse_step svc input t (pipeline_of p) (command_of cur)
  ≈ match close p cur with
    | inl e => ret (inl e)
    | inr [] => ret (inr (pipeline_of [], command_of []))
    | inr p' => run_job (p', bool_decide (t = Background)) ;;
                ret (inr (pipeline_of [], command_of []))
    end.
Proof using.
  intros Ht.
  assert (parse_step svc input t (pipeline_of p) (command_of cur)
          = let* r := match close p cur with
                      | inl e => ret (inl e)
                      | inr p' => ret (inr (pipeline_of p', Command_new))
                      end in
            match r with
            | inl e => ret (inl e)
            | inr (pipeline, current) =>
                if (0 <? count pipeline)%nat then
                  execute_pipeline svc pipeline (bool_decide (t = Background)) input ;;
                  ret (inr (ExecutionPipeline_new, current))
                else ret (inr (pipeline, current))
            end) as ->.
  { destruct Ht as [-> | ->]; cbn [parse_step]; f_equal;
      (destruct cur as [|w cur]; [cbn; now destruct p|]);
      rewrite push_command_of by done; cbn [argc command_of length Nat.eqb];
      now destruct (close p (w :: cur)). }
  destruct (close p cur) as [e|[|c cs]]; rewrite bind_ret; reflexivity.
Qed.

Lemma plan_terminator t p cur ts err :
  t = Semicolon \/ t = Background ->
  plan p cur (t :: ts) err
  = match close p cur with
    | inl e => ([], Some e)
    | inr [] => plan [] [] ts err
    | inr p' => ((p', bool_decide (t = Background)) :: (plan [] [] ts err).1, (plan [] [] ts err).2)
    end.
Proof using.
  intros [-> | ->]; cbn [plan]; destruct (close p cur) as [e|[|c cs]]; try reflexivity;
    now destruct (plan [] [] ts err).
Qed.

Lemma staged_cons j r : staged (j :: r.1, r.2) ≈ (run_job j ;; staged r).
Proof using. unfold staged. cbn. now rewrite bind_assoc. Qed.

Lemma staged_nil e : staged ([], Some e) ≈ ret (inl e).
Proof using. unfold staged. cbn. now rewrite bind_skip. Qed.

Lemma parse_end_staged p cur :
  parse_end svc input (pipeline_of p) (command_of cur) ≈ staged (plan p cur [] None).
Proof using.
  cbn [plan]. unfold parse_end. destruct cur as [|w cur].
  - cbn. destruct p; cbn; [|now rewrite bind_ret, staged_nil].
    rewrite bind_ret. cbn. rewrite bind_skip. unfold staged. cbn. now rewrite bind_skip.
  - rewrite push_command_of by done. rewrite close_word by done. cbn [argc command_of length Nat.eqb].
    rewrite bind_ret. destruct (length p <? MAX_COMMANDS)%nat; [|now rewrite staged_nil].
    destruct (p ++ [w :: cur]) as [|c cs] eqn:E; [now destruct p|].
    cbn [count pipeline_of length Nat.ltb Nat.leb].
    unfold staged. cbn [for_in fst snd]. rewrite bind_assoc. apply bind_proper; [reflexivity|].
    intros _. now rewrite bind_skip.
Qed.

Lemma parse_loop_staged fuel : forall pos p cur,
  (pos <= length input)%nat -> (length input - pos < fuel)%nat ->
  parse_loop svc fuel input pos (pipeline_of p) (command_of cur)
  ≈ let '(ts, err) := lex fuel input pos in staged (plan p cur ts err).
Proof using.
  induction fuel as [|fuel IH]; intros pos p cur Hpos Hf; [lia|].
  cbn [parse_loop lex]. destruct (next_token input pos) as [[e|[t|]] pos'] eqn:Ht.
  - cbn [plan]. now rewrite staged_nil.
  - pose proof (next_token_progress _ _ _ _ Hpos Ht) as Hp.
    assert (IH' : forall p cur, parse_loop svc fuel input pos' (pipeline_of p) (command_of cur)
              ≈ let '(ts, err) := lex fuel input pos' in staged (plan p cur ts err))
      by (intros; apply IH; lia).
    clear IH. destruct (lex fuel input pos') as [ts err]. 
    assert (closed : forall b, (let* r := match close p cur with
                       | inl e => ret (inl e)
                       | inr [] => ret (inr (pipeline_of [], command_of []))
                       | inr p' => run_job (p', b) ;; ret (inr (pipeline_of [], command_of []))
                       end in
              match r with
              | inl e => ret (inl e)
              | inr (pl, c) => parse_loop svc fuel input pos' pl c
              end)
            ≈ staged match close p cur with
                     | inl e => ([], Some e)
                     | inr [] => plan [] [] ts err
                     | inr p' => ((p', b) :: (plan [] [] ts err).1, (plan [] [] ts err).2)
                     end).
    { intros b. destruct (close p cur) as [e|[|c cs]]; [now rewrite bind_ret, staged_nil| |].
      - rewrite bind_ret. apply (IH' [] []).
      - rewrite bind_assoc, staged_cons. apply bind_proper; [reflexivity|].
        intros _. rewrite bind_ret. apply (IH' [] []). }
    destruct t as [sp| | |].
    + cbn [plan]. destruct (Nat.ltb_spec (length cur) MAX_ARGS).
      * rewrite parse_word by assumption. rewrite bind_ret. apply IH'.
      * cbn [parse_step argc command_of]. destruct (Nat.leb_spec MAX_ARGS (length cur)); [|lia].
        rewrite bind_ret. now rewrite staged_nil.
    + cbn [plan parse_step]. destruct cur as [|w cur]; [cbn; now rewrite bind_ret, staged_nil|].
      rewrite push_command_of by done. cbn [argc command_of length Nat.eqb].
      destruct (close p (w :: cur)) as [e|p']; rewrite !bind_ret; [now rewrite staged_nil|].
      apply (IH' p' []).
    + rewrite parse_terminator, plan_terminator by auto. now apply closed.
    + rewrite parse_terminator, plan_terminator by auto. now apply closed.
  - apply parse_end_staged.
Qed.
End Staged.

(** ** Running the words of a line *)

(** [execute_command] on the words themselves. *)
Definition run_words {W} (svc : request -> M W reply) (ws : list bytes) (background : bool) : M W unit :=
  match ws with
  | [] => skip
  | program :: args =>
      (if bool_decide (program = str "exit") then exit svc 0 else skip) ;;
      if bool_decide (program ∈ reserved) then
        print svc [program;
                   str ": command not found (filesystem commands will be implemented in the future)"; [10]]
      else run_program svc program args background
  end.

(** The words [ws] of the line are the strings [ts]. *)
Definition reads_as (input : bytes) : list Span -> list bytes -> Prop :=
  Forall2 (fun sp t => as_str sp input = Some t).

(** What holds of a pipeline the parser runs. *)
Definition job_fits (P : Span -> Prop) (j : job) : Prop :=
  Forall (fun ws => ws <> [] /\ (length ws <= MAX_ARGS)%nat /\ Forall P ws) j.1
  /\ (0 < length j.1 <= MAX_COMMANDS)%nat.

Section Words.
  Context {W : Type} (svc : request -> M W reply) (input : bytes).

Lemma execute_command_words ws ts b :
  reads_as input ws ts -> execute_command svc (command_of ws) b input ≈ run_words svc ts b.
Proof using.
  intros H. destruct H as [|w t ws ts Hw Hws]; [reflexivity|].
  unfold execute_command, command_of. cbn [argc argv length Nat.eqb app].
  unfold fetch at 1. cbn [lookup list_lookup expect]. rewrite bind_ret, Hw. cbn [expect].
  rewrite bind_ret. cbn [run_words]. apply bind_proper; [reflexivity|]. intros _.
  destruct (bool_decide (t ∈ reserved)); [reflexivity|].
  rewrite Nat.sub_succ, Nat.sub_0_r.
  pose proof (@map_m_index W _ _ [w] ws (replicate (MAX_ARGS - S (length ws)) empty)
                (fun a => expect (as_str a input) "byte index is not a char boundary") ts) as Hm.
  cbn [app length] in Hm. rewrite Hm; [now rewrite bind_ret|].
  eapply Forall2_impl; [exact Hws|]. intros a y Hy. cbv beta. now rewrite Hy.
Qed.

Lemma execute_pipeline_words cs css b :
  Forall2 (reads_as input) cs css ->
  execute_pipeline svc (pipeline_of cs) b input ≈ for_in css (fun ws => run_words svc ws b).
Proof using.
  intros H. unfold execute_pipeline, pipeline_of. cbn [count commands].
  pose proof (@for_in_index W _ [] (command_of <$> cs)
                (replicate (MAX_COMMANDS - length cs) Command_new)
                (fun c => execute_command svc c b input)) as Hi.
  cbn [app length] in Hi. rewrite length_fmap in Hi. rewrite Hi, for_in_map. clear Hi.
  induction H as [|ws ts cs css Hw _ IH]; [reflexivity|]. cbn [for_in].
  apply bind_proper; [now apply execute_command_words|]. intros _. exact IH.
Qed.

(** The pipelines that run are made of the line's words, within the arrays. *)
Lemma close_fits P p cur :
  (length p <= MAX_COMMANDS)%nat -> (length cur <= MAX_ARGS)%nat -> Forall P cur ->
  Forall (fun ws => ws <> [] /\ (length ws <= MAX_ARGS)%nat /\ Forall P ws) p ->
  match close p cur with
  | inl _ => True
  | inr p' => (length p' <= MAX_COMMANDS)%nat /\
      Forall (fun ws => ws <> [] /\ (length ws <= MAX_ARGS)%nat /\ Forall P ws) p'
  end.
Proof using.
  intros Hp Hc HP Hps. destruct cur as [|w cur]; [destruct p; cbn; [split; [lia|constructor]|exact I]|].
  rewrite close_word by done. destruct (Nat.ltb_spec (length p) MAX_COMMANDS); [|exact I].
  rewrite length_app. cbn [length]. split; [lia|]. apply Forall_app. split; [assumption|].
  constructor; [|constructor]. done.
Qed.

Lemma plan_fits P ts err : forall p cur,
  Forall (fun t => forall sp, t = Word sp -> P sp) ts ->
  (length p <= MAX_COMMANDS)%nat -> (length cur <= MAX_ARGS)%nat -> Forall P cur ->
  Forall (fun ws => ws <> [] /\ (length ws <= MAX_ARGS)%nat /\ Forall P ws) p ->
  Forall (job_fits P) (plan p cur ts err).1.
Proof using.
  induction ts as [|t ts IH]; intros p cur Hts Hp Hc HP Hps;
    pose proof (close_fits P p cur Hp Hc HP Hps) as Hcl.
  - cbn [plan]. destruct err; [constructor|].
    destruct (close p cur) as [e|[|c cs]]; [constructor|constructor|].
    constructor; [|constructor]. destruct Hcl. split; [assumption|]. cbn [fst length] in *. lia.
  - apply Forall_cons in Hts as [Ht Hts].
    assert (Hterm : t = Semicolon \/ t = Background ->
              Forall (job_fits P) (plan p cur (t :: ts) err).1).
    { intros Htt. rewrite plan_terminator by assumption.
      assert (Hnil : Forall (job_fits P) (plan [] [] ts err).1)
        by (apply IH; auto; cbn; lia).
      destruct (close p cur) as [e|[|c cs]]; [constructor|exact Hnil|].
      constructor; [|exact Hnil]. destruct Hcl. split; [assumption|]. cbn [fst length] in *. lia. }
    destruct t as [sp| | |]; auto; cbn [plan].
    + destruct (Nat.ltb_spec (length cur) MAX_ARGS); [|constructor].
      apply IH; auto; [rewrite length_app; cbn; lia|]. apply Forall_app. auto.
    + destruct cur as [|w cur]; [constructor|]. destruct (close p (w :: cur)) as [e|p']; [constructor|].
      destruct Hcl. apply IH; auto. cbn. lia.
Qed.

Lemma lex_words fuel : forall pos,
  utf8_valid input = true -> (length input <= 255)%nat ->
  (pos <= length input)%nat -> is_char_boundary input pos = true ->
  Forall (fun t => forall sp, t = Word sp -> is_Some (as_str sp input)) (lex fuel input pos).1.
Proof using.
  induction fuel as [|fuel IH]; intros pos Hv Hlen Hpos Hb; [constructor|]. cbn [lex].
  destruct (next_token input pos) as [[e|[t|]] pos'] eqn:Ht; [constructor| |constructor].
  pose proof (next_token_progress _ _ _ _ Hpos Ht) as Hp.
  destruct (next_token_bounds _ _ _ _ Hv Hlen Hpos Hb Ht) as [Hb' Hw].
  specialize (IH pos' Hv Hlen ltac:(lia) Hb'). destruct (lex fuel input pos'). now constructor.
Qed.

Lemma fits_reads j :
  job_fits (fun sp => is_Some (as_str sp input)) j ->
  exists css, Forall2 (reads_as input) j.1 css /\ run_job svc input j
              ≈ for_in css (fun ws => run_words svc ws j.2).
Proof using.
  intros [Hj _].
  assert (exists css, Forall2 (reads_as input) j.1 css) as [css Hcss].
  { induction Hj as [|ws cs (_ & _ & Hws) _ [css IH]]; [now exists []|].
    assert (exists ts, reads_as input ws ts) as [ts Hts].
    { clear -Hws. induction Hws as [|sp ws [t Ht] _ [ts IH]]; [exists []; constructor|].
      exists (t :: ts). constructor; assumption. }
    exists (ts :: css). now constructor. }
  exists css. split; [assumption|]. now apply execute_pipeline_words.
Qed.
End Words.

(** ** No panic, and an end *)

(** [m] returns, or the process is gone; it neither panics nor runs for ever. *)
Definition settles {S A} (m : M S A) : Prop :=
  forall s, match m s with Done _ _ | Halt _ => True | Panic _ | Diverge => False end.

Lemma settles_ret {S A} (a : A) : @settles S A (ret a).
Proof. now intros s. Qed.
Lemma settles_bind {S A B} (m : M S A) (f : A -> M S B) :
  settles m -> (forall a, settles (f a)) -> settles (bind m f).
Proof. intros Hm Hf s. specialize (Hm s). unfold bind. destruct (m s); auto. apply Hf. Qed.
Lemma settles_for_in {S A} (l : list A) (f : A -> M S unit) :
  (forall a, settles (f a)) -> settles (for_in l f).
Proof. intros Hf. induction l; [apply settles_ret|apply settles_bind; auto]. Qed.
Lemma settles_skip {S} : @settles S unit skip.
Proof. apply settles_ret. Qed.
#[export] Hint Resolve settles_skip settles_ret settles_bind settles_for_in : atos.

#[global] Instance settles_proper {S A} : Proper (same_runs ==> iff) (@settles S A).
Proof. intros m m' [H]. split; intros Hs s; specialize (Hs s); now rewrite H in *. Qed.

(** A kernel as the programs see it: every call returns or ends the process,
    [exit] never returns, and [read] returns at most what was asked for. *)
Record kernel_serves {W} (svc : request -> M W reply) : Prop := {
  serves_settles : forall r, settles (svc r);
  serves_exit : forall c s, exists why, svc (Exit c) s = Halt why;
  serves_read : forall len s r s', svc (Readline len) s = Done r s' ->
    0 <= r0 r <= Z.of_nat len /\ (length (data r) <= len)%nat
}.

Section Settles.
  Context {W : Type} (svc : request -> M W reply) (Hsvc : kernel_serves svc).

Lemma settles_svc {A} r (k : reply -> M W A) :
  (forall x, settles (k x)) -> settles (bind (svc r) k).
Proof using Hsvc. intros. apply settles_bind; [apply Hsvc|assumption]. Qed.
Hint Resolve settles_svc : atos.

Lemma settles_exit {A} c : settles (@exit W svc A c).
Proof using Hsvc.
  unfold exit, get_p_info. apply settles_bind; [auto with atos|]. intros _ s.
  destruct (serves_exit svc Hsvc c s) as [why H]. unfold bind at 1. now rewrite H.
Qed.

Lemma settles_print l : settles (print svc l).
Proof using Hsvc. unfold print, sys_write. auto with atos. Qed.
Hint Resolve settles_exit settles_print : atos.

Lemma settles_program program args b : settles (run_program svc program args b).
Proof using Hsvc.
  assert (forall A (c : bool) (m m' : M W A), settles m -> settles m' -> settles (if c then m else m'))
    as Hif by now intros ? [].
  unfold run_program, fork, exec, wait. apply settles_bind.
  - apply settles_svc. intros x. apply Hif; auto with atos.
  - intros [pid|]; [|auto with atos]. repeat apply Hif; auto with atos.
    apply settles_bind; [|intros []; auto with atos].
    apply Hif; [auto with atos|]. apply settles_svc. intros x. apply Hif; auto with atos.
Qed.

Lemma settles_words ws b : settles (run_words svc ws b).
Proof using Hsvc.
  destruct ws as [|program args]; [apply settles_ret|]. cbn [run_words].
  apply settles_bind; [case_bool_decide; auto with atos; apply settles_ret|].
  intros _. case_bool_decide; auto using settles_program with atos.
Qed.
End Settles.

(** ** Lines as a user writes them *)

Inductive word := Bare (s : bytes) | Quoted (s : bytes).
Inductive lexeme := L_word (w : word) | L_pipe | L_semi | L_amp.

Definition word_text (w : word) : bytes := match w with Bare s | Quoted s => s end.
Definition spell (l : lexeme) : bytes :=
  match l with
  | L_word (Bare s) => s
  | L_word (Quoted s) => [QUOTE] ++ s ++ [QUOTE]
  | L_pipe => [PIPE]
  | L_semi => [SEMI]
  | L_amp => [AMP]
  end.

Definition lexeme_ok (l : lexeme) : Prop :=
  match l with
  | L_word (Bare s) => s <> [] /\ Forall (fun b => bare b = true) s
  | L_word (Quoted s) => Forall (fun b => negb (b =? QUOTE) = true) s
  | _ => True
  end.

Definition is_bare (l : lexeme) : bool := match l with L_word (Bare _) => true | _ => false end.

Definition white (ws : bytes) : Prop := Forall (fun b => is_ascii_whitespace b = true) ws.

(** Lexemes, each with the white space after it; there is some between two
    bare words. *)
Fixpoint spaced (ls : list (lexeme * bytes)) : Prop :=
  match ls with
  | [] => True
  | (l, ws) :: ls' =>
      lexeme_ok l /\ white ws
      /\ (is_bare l = true -> ws = [] -> match ls' with (l', _) :: _ => is_bare l' = false | [] => True end)
      /\ spaced ls'
  end.

Fixpoint written (ls : list (lexeme * bytes)) : bytes :=
  match ls with
  | [] => []
  | (l, ws) :: ls' => spell l ++ ws ++ written ls'
  end.

Definition token_at (pos : nat) (l : lexeme) : Token :=
  match l with
  | L_word (Bare s) => Word (span_from pos (pos + length s))
  | L_word (Quoted s) => Word (span_from (S pos) (S pos + length s))
  | L_pipe => Pipe
  | L_semi => Semicolon
  | L_amp => Background
  end.

Lemma spell_head l :
  lexeme_ok l ->
  exists b s, spell l = b :: s /\ is_ascii_whitespace b = false
    /\ bare b = is_bare l
    /\ match l with
       | L_word (Bare _) => True
       | L_word (Quoted _) => b = QUOTE
       | L_pipe => b = PIPE
       | L_semi => b = SEMI
       | L_amp => b = AMP
       end.
Proof.
  destruct l as [[s|s]| | |]; cbn; intros H; try (eexists _, _; now repeat split).
  destruct H as [Hne H]. destruct s as [|b s]; [done|]. apply Forall_cons in H as [Hb _].
  exists b, s. repeat split; auto. unfold bare in Hb. now destruct (is_ascii_whitespace b);
    [rewrite andb_false_r in Hb|].
Qed.

Lemma next_token_lexeme pre ws l rest :
  white ws -> lexeme_ok l ->
  (is_bare l = true -> match rest with b :: _ => bare b = false | [] => True end) ->
  next_token (pre ++ ws ++ spell l ++ rest) (length pre)
  = (inr (Some (token_at (length (pre ++ ws)) l)), length (pre ++ ws ++ spell l)).
Proof.
  intros Hws Hl Hrest. destruct (spell_head l Hl) as (b & s & Hsp & Hb & Hbare & Hshape).
  unfold next_token.
  rewrite advance_app by (try assumption; now rewrite Hsp).
  rewrite !(assoc_L (++)), <- (assoc_L (++) (pre ++ ws)).
  assert ((pre ++ ws ++ spell l ++ rest) !! length (pre ++ ws) = Some b) as Hlk.
  { rewrite (assoc_L (++)). rewrite lookup_app_r, Nat.sub_diag by lia. now rewrite Hsp. }
  rewrite (assoc_L (++)) in Hlk. rewrite Hlk.
  set (pw := pre ++ ws) in *.
  assert (HS : forall c, spell l = [c] -> length (pw ++ spell l) = S (length pw))
    by (intros c ->; rewrite length_app; cbn; lia).
  destruct l as [[w|w]| | |]; cbn in Hshape, Hbare; cbn [token_at spell] in *;
    try (subst b; cbn [Z.eqb]; rewrite (HS _ eq_refl); reflexivity).
  - assert ((b =? PIPE) = false /\ (b =? SEMI) = false /\ (b =? AMP) = false /\ (b =? QUOTE) = false)
      as (-> & -> & -> & ->).
    { unfold bare in Hbare. lia. }
    rewrite advance_app by (apply Hl || now apply Hrest). now rewrite length_app.
  - subst b. cbn [Z.eqb].
    assert (advance (fun c => negb (c =? QUOTE)) (pw ++ ([QUOTE] ++ w ++ [QUOTE]) ++ rest) (S (length pw))
            = (S (length pw) + length w)%nat) as Hadv.
    { pose proof (advance_app (fun c => negb (c =? QUOTE)) (pw ++ [QUOTE]) w ([QUOTE] ++ rest)) as Ha.
      rewrite !length_app in Ha. cbn [length] in Ha. rewrite Nat.add_1_r in Ha.
      rewrite <- Ha by auto. f_equal. rewrite <- !(assoc_L (++)). reflexivity. }
    rewrite Hadv.
    destruct (Nat.eqb_spec (S (length pw) + length w) (length (pw ++ ([QUOTE] ++ w ++ [QUOTE]) ++ rest)))
      as [E|_]; [rewrite !length_app in E; cbn in E; lia|].
    f_equal. rewrite !length_app. cbn. lia.
Qed.

Lemma next_token_blank pre ws : white ws -> next_token (pre ++ ws) (length pre) = (inr None, length (pre ++ ws)).
Proof.
  intros Hws. unfold next_token.
  pose proof (advance_app is_ascii_whitespace pre ws [] Hws I) as H. rewrite app_nil_r in H.
  rewrite H. now rewrite lookup_ge_None_2.
Qed.

Fixpoint tokens_at (pos : nat) (ls : list (lexeme * bytes)) : list Token :=
  match ls with
  | [] => []
  | (l, ws) :: ls' => token_at pos l :: tokens_at (pos + length (spell l) + length ws) ls'
  end.

Lemma written_head l ws ls :
  is_bare l = true ->
  spaced ((l, ws) :: ls) -> match ws ++ written ls with b :: _ => bare b = false | [] => True end.
Proof.
  intros Hl (_ & Hws & Hgap & Hls). destruct ws as [|b ws].
  - specialize (Hgap Hl eq_refl). destruct ls as [|[l' ws'] ls]; [exact I|].
    destruct Hls as (Hok & _). destruct (spell_head l' Hok) as (b & s & Hsp & _ & Hb & _).
    cbn. rewrite Hsp. cbn. congruence.
  - apply Forall_cons in Hws as [Hb _]. cbn. unfold bare. rewrite Hb. apply andb_false_r.
Qed.

Lemma lex_written ls : forall fuel pre ws,
  white ws -> spaced ls -> (length (written ls) < fuel)%nat ->
  lex fuel (pre ++ ws ++ written ls) (length pre) = (tokens_at (length pre + length ws) ls, None).
Proof.
  induction ls as [|[l ws'] ls IH]; intros fuel pre ws Hws Hls Hfuel;
    (destruct fuel as [|fuel]; [lia|]); cbn [lex written tokens_at].
  - rewrite app_nil_r. now rewrite next_token_blank.
  - pose proof Hls as Hall. destruct Hls as (Hok & Hws' & Hgap & Hls). cbn [written] in Hfuel.
    rewrite next_token_lexeme; [|assumption..|intros Hb; now apply (written_head l)].
    destruct (spell_head l Hok) as (b & s & Hsp & _).
    specialize (IH fuel (pre ++ ws ++ spell l) ws' Hws' Hls).
    rewrite !length_app in Hfuel. rewrite Hsp in Hfuel. cbn [length] in Hfuel.
    rewrite <- !(assoc_L (++)) in IH. rewrite IH by lia. rewrite !length_app. do 3 f_equal. lia.
Qed.

(** A token of the line reads as a lexeme. *)
Definition token_reads (input : bytes) (t : Token) (l : lexeme) : Prop :=
  match l, t with
  | L_word w, Word sp => as_str sp input = Some (word_text w)
  | L_pipe, Pipe | L_semi, Semicolon | L_amp, Background => True
  | _, _ => False
  end.

Lemma as_str_content input a n x :
  (a + n <= length input)%nat -> (length input <= 255)%nat ->
  as_str (span_from a (a + n)) input = Some x -> x = take n (drop a input).
Proof.
  intros Hn Hlen. unfold as_str, span_from, str_slice. cbn [sp_start sp_len].
  unfold as_u8. rewrite !Z.mod_small, !Nat2Z.id by lia.
  destruct (_ && _); [|discriminate]. intros [= <-]. f_equal. lia.
Qed.

Lemma tokens_at_read input ls : forall pre,
  input = pre ++ written ls -> (length input <= 255)%nat ->
  Forall (fun t => forall sp, t = Word sp -> is_Some (as_str sp input)) (tokens_at (length pre) ls) ->
  Forall2 (token_reads input) (tokens_at (length pre) ls) ls.*1.
Proof.
  induction ls as [|[l ws] ls IH]; intros pre Hin Hlen HF; cbn [tokens_at fmap list_fmap fst] in *;
    [constructor|]. apply Forall_cons in HF as [Ht HF].
  assert (input = (pre ++ spell l ++ ws) ++ written ls) as Hin'
    by (rewrite Hin; cbn [written]; now rewrite <- !(assoc_L (++))).
  constructor.
  - assert (forall q n w x, input = (pre ++ q) ++ w ++ x -> length w = n ->
              is_Some (as_str (span_from (length pre + length q) (length pre + length q + n)) input) ->
              as_str (span_from (length pre + length q) (length pre + length q + n)) input = Some w)
      as Hword.
    { intros q n w x E <- [y Hy]. rewrite Hy. f_equal. pose proof (f_equal length E) as El.
      rewrite !length_app in El. apply as_str_content in Hy; [|lia|assumption].
      rewrite Hy, E, <- length_app, drop_app_length. apply take_app_length. }
    destruct l as [[s|s]| | |]; cbn [token_reads token_at word_text]; try exact I.
    + specialize (Hword [] (length s) s (ws ++ written ls)). cbn [length] in Hword.
      rewrite Nat.add_0_r, app_nil_r in Hword. apply Hword; [|reflexivity|now apply Ht].
      rewrite Hin'. cbn [spell]. now rewrite <- !(assoc_L (++)).
    + specialize (Hword [QUOTE] (length s) s ([QUOTE] ++ ws ++ written ls)). cbn [length] in Hword.
      rewrite Nat.add_1_r in Hword. apply Hword; [|reflexivity|now apply Ht].
      rewrite Hin'. cbn [spell]. now rewrite <- !(assoc_L (++)).
  - specialize (IH (pre ++ spell l ++ ws) Hin' Hlen).
    rewrite !length_app, Nat.add_assoc in IH. now apply IH.
Qed.

(** A written pipeline: its commands, and whether it ends with an ampersand. *)
Definition script : Type := list (list word) * bool.

Definition command_ok (ws : list word) : Prop := ws <> [] /\ (length ws <= MAX_ARGS)%nat.
Definition script_ok (j : script) : Prop :=
  j.1 <> [] /\ (length j.1 <= MAX_COMMANDS)%nat /\ Forall command_ok j.1.

Fixpoint pipe_lexemes (cs : list (list word)) : list lexeme :=
  match cs with
  | [] => []
  | [c] => L_word <$> c
  | c :: cs' => (L_word <$> c) ++ L_pipe :: pipe_lexemes cs'
  end.
Definition script_lexemes (j : script) : list lexeme :=
  pipe_lexemes j.1 ++ [if j.2 then L_amp else L_semi].

(** Terminated pipelines, and one at the end of the line that need not be. *)
Definition line_lexemes (js : list script) (last : list (list word)) : list lexeme :=
  concat (script_lexemes <$> js) ++ pipe_lexemes last.
Definition line_scripts (js : list script) (last : list (list word)) : list script :=
  js ++ (if last is [] then [] else [(last, false)]).

Definition texts (cs : list (list word)) : list (list bytes) :=
  (fun ws : list word => word_text <$> ws) <$> cs.
Definition job_reads (input : bytes) (j : job) (s : script) : Prop :=
  Forall2 (reads_as input) j.1 (texts s.1) /\ j.2 = s.2.

Lemma plan_words input ws : forall ts rest p cur err,
  Forall2 (token_reads input) ts ((L_word <$> ws) ++ rest) ->
  (length cur + length ws <= MAX_ARGS)%nat ->
  exists sps ts', reads_as input sps (word_text <$> ws)
    /\ Forall2 (token_reads input) ts' rest
    /\ plan p cur ts err = plan p (cur ++ sps) ts' err.
Proof.
  induction ws as [|w ws IH]; intros ts rest p cur err Hts Hlen.
  - exists [], ts. rewrite app_nil_r. repeat split; [constructor|exact Hts].
  - cbn in Hts. apply Forall2_cons_inv_r in Hts as (t & ts0 & Ht & Hts & ->).
    destruct t as [sp| | |]; try contradiction. cbn [length] in Hlen. cbn [plan].
    destruct (Nat.ltb_spec (length cur) MAX_ARGS); [|lia].
    destruct (IH ts0 rest p (cur ++ [sp]) err Hts) as (sps & ts' & Hs & Hts' & Hp).
    { rewrite length_app. cbn. lia. }
    exists (sp :: sps), ts'. split; [now constructor|]. split; [assumption|].
    rewrite Hp. now rewrite <- (assoc_L (++)).
Qed.

Lemma plan_pipe input cs : forall ts rest p err,
  cs <> [] -> Forall command_ok cs -> (length p + length cs <= MAX_COMMANDS)%nat ->
  Forall2 (token_reads input) ts (pipe_lexemes cs ++ rest) ->
  exists js ts' p' cur, Forall2 (reads_as input) js (texts cs)
    /\ Forall2 (token_reads input) ts' rest
    /\ plan p [] ts err = plan p' cur ts' err
    /\ close p' cur = inr (p ++ js) /\ js <> [].
Proof.
  assert (Hne : forall sps (c : list word), reads_as input sps (word_text <$> c) -> c <> [] -> sps <> []).
  { intros sps c H Hc ->. inversion H as [E|]. destruct c; done. }
  induction cs as [|c cs IH]; intros ts rest p err Hcs Hok Hlen Hts; [done|].
  apply Forall_cons in Hok as [[Hc Hcl] Hok]. cbn [length] in Hlen.
  assert (Hcap : forall sps, sps <> [] -> close p sps = inr (p ++ [sps])).
  { intros sps Hs. rewrite close_word by assumption.
    now destruct (Nat.ltb_spec (length p) MAX_COMMANDS); [|lia]. }
  destruct cs as [|c' cs].
  - destruct (plan_words input c ts rest p [] err Hts) as (sps & ts' & Hs & Hts' & Hp); [assumption|].
    exists [sps], ts', p, sps. split; [repeat constructor; assumption|]. split; [assumption|].
    split; [exact Hp|]. split; [eauto|done].
  - change (pipe_lexemes (c :: c' :: cs)) with ((L_word <$> c) ++ L_pipe :: pipe_lexemes (c' :: cs)) in Hts.
    rewrite <- (assoc_L (++)) in Hts.
    destruct (plan_words input c ts _ p [] err Hts) as (sps & ts1 & Hs & Hts1 & Hp); [assumption|].
    apply Forall2_cons_inv_r in Hts1 as (t & ts2 & Ht & Hts2 & ->).
    destruct t; try contradiction.
    destruct (IH ts2 rest (p ++ [sps]) err) as (js & ts' & p' & cur & Hjs & Hts' & Hp' & Hcl' & _); auto.
    { rewrite length_app. cbn [length] in *. lia. }
    exists (sps :: js), ts', p', cur. split; [now constructor|]. split; [assumption|].
    split; [|split; [rewrite Hcl'; now rewrite <- (assoc_L (++))|done]].
    rewrite Hp, <- Hp'. specialize (Hne _ _ Hs Hc). cbn [app plan].
    destruct sps as [|sp sps]; [done|]. now rewrite Hcap.
Qed.

Lemma plan_scripts input last js : forall ts,
  Forall script_ok js -> (last <> [] -> script_ok (last, false)) ->
  Forall2 (token_reads input) ts (line_lexemes js last) ->
  exists jobs, plan [] [] ts None = (jobs, None)
    /\ Forall2 (job_reads input) jobs (line_scripts js last).
Proof.
  unfold line_lexemes, line_scripts. induction js as [|[cs b] js IH]; intros ts Hjs Hlast Hts.
  - cbn in Hts. destruct last as [|c last].
    + inversion Hts. now exists [].
    + destruct Hlast as (Hne & Hlen & Hok); [done|]. cbn [fst] in *.
      rewrite <- (app_nil_r (pipe_lexemes _)) in Hts.
      destruct (plan_pipe input (c :: last) ts [] [] None) as (js & ts' & p' & cur & H1 & H2 & H3 & H4 & H5);
        auto. inversion H2; subst ts'. rewrite H3. cbn [plan]. rewrite H4.
      destruct js as [|j js]; [done|]. exists [(j :: js, false)].
      split; [reflexivity|]. constructor; [now split|constructor].
  - apply Forall_cons in Hjs as [(Hne & Hlen & Hok) Hjs]. cbn [fst] in *.
    cbn [fmap list_fmap concat] in Hts. unfold script_lexemes at 1 in Hts. cbn [fst snd] in Hts.
    rewrite <- !(assoc_L (++)) in Hts.
    destruct (plan_pipe input cs ts _ [] None Hne Hok ltac:(cbn; lia) Hts)
      as (j & ts1 & p' & cur & H1 & H2 & H3 & H4 & H5).
    apply Forall2_cons_inv_r in H2 as (t & ts2 & Ht & Hts2 & ->).
    assert ((t = Semicolon \/ t = Background) /\ bool_decide (t = Background) = b) as [Htt Hb].
    { destruct b, t; try contradiction; auto. }
    rewrite H3, plan_terminator by assumption. rewrite H4, Hb.
    destruct (IH ts2 Hjs Hlast Hts2) as (jobs & Hplan & Hjobs). rewrite Hplan.
    destruct j as [|j0 j]; [done|]. exists ((j0 :: j, b) :: jobs).
    split; [reflexivity|]. cbn [app]. constructor; [now split|assumption].
Qed.

Lemma parse_and_run_plan {W} (svc : request -> M W reply) input :
  parse_and_run svc input ≈ staged_run svc input.
Proof.
  unfold parse_and_run, staged_run, tokens. apply (parse_loop_staged svc input _ 0 [] []); lia.
Qed.

(** The jobs of a well-formed line keep within the arrays, and their words are
    strings of the line. *)
Lemma line_fits input ts err :
  utf8_valid input = true -> (length input <= 255)%nat -> tokens input = (ts, err) ->
  Forall (job_fits (fun sp => is_Some (as_str sp input))) (plan [] [] ts err).1.
Proof.
  intros Hv Hlen Ht. apply plan_fits; [|cbn; lia|cbn; lia|constructor|constructor].
  pose proof (lex_words input (S (length input)) 0 Hv Hlen ltac:(lia) eq_refl) as H.
  unfold tokens in Ht. now rewrite Ht in H.
Qed.

Lemma settles_line {W} (svc : request -> M W reply) input :
  kernel_serves svc -> utf8_valid input = true -> (length input <= 255)%nat ->
  settles (parse_and_run svc input).
Proof.
  intros Hsvc Hv Hlen. rewrite parse_and_run_plan. unfold staged_run.
  destruct (tokens input) as [ts err] eqn:Ht. pose proof (line_fits _ _ _ Hv Hlen Ht) as Hf.
  unfold staged. apply settles_bind; [|auto with atos].
  induction Hf as [|j js Hj _ IH]; [apply settles_ret|]. cbn [for_in].
  apply settles_bind; [|auto]. destruct (fits_reads svc _ _ Hj) as (css & _ & ->).
  apply settles_for_in. intros ws. now apply settles_words.
Qed.

Lemma settles_turn {W} (svc : request -> M W reply) buf s :
  kernel_serves svc -> (length buf <= 255)%nat ->
  match shell_turn svc buf s with
  | Done buf' _ => length buf' = length buf
  | Halt _ => True
  | Panic _ | Diverge => False
  end.
Proof.
  intros Hsvc Hlen. unfold shell_turn.
  assert (Hp : forall l s, match print svc l s with Panic _ | Diverge => False | _ => True end).
  { intros l s0. pose proof (settles_print svc Hsvc l s0). now destruct (print svc l s0). }
  assert (Hend : forall (m : M W unit) (b : bytes) s, settles m -> length b = length buf ->
            match (m ;; ret b) s with
            | Done buf' _ => length buf' = length buf
            | Halt _ => True
            | Panic _ | Diverge => False
            end).
  { intros m b s0 Hm Hb. specialize (Hm s0). unfold bind. now destruct (m s0). }
  unfold bind at 1. specialize (Hp [str "$ "] s). destruct (print svc [str "$ "] s) as [[] s1|e|w|]; auto.
  unfold sys_readline. unfold bind at 1. unfold bind at 1.
  pose proof (serves_settles svc Hsvc (Readline (length buf)) s1) as Hs.
  pose proof (serves_read svc Hsvc (length buf) s1) as Hread.
  destruct (svc (Readline (length buf)) s1) as [r s2|e|w|]; auto.
  destruct (Hread r s2 eq_refl) as [Hn Hd]. cbn [ret].
  set (buf1 := splice buf 0 (data r)).
  assert (length buf1 = length buf) as Hb1.
  { unfold buf1, splice. rewrite !length_app, length_drop, length_take. lia. }
  set (n := Z.to_nat (r0 r)). rewrite (proj2 (Nat.ltb_ge (length buf1) n)) by (unfold n; lia).
  rewrite (runs_as (bind_skip _)). destruct (utf8_valid (take n buf1)) eqn:Hv.
  - unfold bind at 1.
    pose proof (settles_line svc (take n buf1) Hsvc Hv ltac:(rewrite length_take; lia) s2) as Hl.
    destruct (parse_and_run svc (take n buf1) s2) as [[e|[]] s3|e|w|]; auto.
    apply Hend; auto using settles_print.
  - apply Hend; auto using settles_print.
Qed.

(** ** Properties *)

(** C20. Running while reading is running after reading.  For every line, the
    parser that executes each pipeline as soon as it meets its terminator does
    the same as one that reads all tokens of the line, plans the jobs up to
    the first error, runs them in order and then reports that error. *)
Theorem parse_and_run_staged {W} (svc : request -> M W reply) (input : bytes) (s : W) :
  parse_and_run svc input s = staged_run svc input s.
Proof. apply runs_as, parse_and_run_plan. Qed.

(** C19. The shell understands what is written.  Any well-formed line of
    pipelines of bare and quoted words, separated by [|] and ended by [;] or
    [&] with any white space around them, runs exactly its commands, in
    order, with exactly the words written, in the background where it says
    so, and reports no error. *)
Theorem shell_runs_line {W} (svc : request -> M W reply)
    (js : list script) (last : list (list word)) (ws : bytes) (ls : list (lexeme * bytes)) (s : W) :
  white ws -> spaced ls -> ls.*1 = line_lexemes js last ->
  Forall script_ok js -> (last <> [] -> script_ok (last, false)) ->
  utf8_valid (ws ++ written ls) = true -> (length (ws ++ written ls) <= 255)%nat ->
  parse_and_run svc (ws ++ written ls) s
  = (for_in (line_scripts js last) (fun j =>
       for_in (texts j.1) (fun words => run_words svc words j.2)) ;;
     ret (inr tt)) s.
Proof.
  intros Hws Hls Hlex Hjs Hlast Hv Hlen. apply runs_as. rewrite parse_and_run_plan.
  unfold staged_run. set (input := ws ++ written ls) in *.
  assert (tokens input = (tokens_at (length ws) ls, None)) as Ht.
  { apply (lex_written ls (S (length input)) [] ws Hws Hls).
    unfold input. rewrite length_app. lia. }
  pose proof (lex_words input (S (length input)) 0 Hv Hlen ltac:(lia) eq_refl) as Hw.
  unfold tokens in Ht. rewrite Ht in Hw. unfold tokens. rewrite Ht.
  apply (tokens_at_read input ls ws eq_refl Hlen) in Hw. rewrite Hlex in Hw.
  destruct (plan_scripts _ _ _ _ Hjs Hlast Hw) as (jobs & -> & Hjobs).
  unfold staged. cbn [fst snd]. apply bind_proper; [|intros _; reflexivity].
  induction Hjobs as [|j sc jobs scs [Hj Hb] _ IH]; [reflexivity|]. cbn [for_in].
  apply bind_proper; [|intros _; exact IH]. unfold run_job. rewrite <- Hb.
  now apply execute_pipeline_words.
Qed.

(** C29. Reading a line ends, without a panic, whatever the line.  Over a
    kernel whose calls return or end the process, a line of well-formed UTF-8
    that fits a [Span] is read and run to its end: every array index is in
    bounds, every word is sliced at character boundaries, and the loop ends. *)
Theorem shell_line_ends {W} (svc : request -> M W reply) (input : bytes) (s : W) :
  kernel_serves svc -> utf8_valid input = true -> (length input <= 255)%nat ->
  (exists r s', parse_and_run svc input s = Done r s') \/ exists why, parse_and_run svc input s = Halt why.
Proof.
  intros Hsvc Hv Hlen. pose proof (settles_line svc input Hsvc Hv Hlen s) as H.
  destruct (parse_and_run svc input s); try contradiction; eauto.
Qed.

(** C28. The shell never panics.  Over such a kernel no sequence of lines,
    well-formed or not, makes the program panic, however long it runs. *)
Theorem shell_never_panics {W} (svc : request -> M W reply) (turns : nat) (s : W) (e : string) :
  kernel_serves svc -> main svc turns s <> Panic e.
Proof.
  intros Hsvc. unfold main.
  assert (length (replicate INPUT_SIZE 0%Z) <= 255)%nat as Hlen by (vm_compute; lia).
  revert Hlen. generalize (replicate INPUT_SIZE 0). intros buf Hlen. revert buf s Hlen.
  induction turns as [|t IH]; intros buf s Hlen; [discriminate|]. cbn [main_loop]. unfold bind.
  pose proof (settles_turn svc buf s Hsvc Hlen) as Ht.
  destruct (shell_turn svc buf s) as [buf' s'|e'|w|]; try contradiction; [|discriminate].
  apply IH. lia.
Qed.

(** ** Witnesses *)

(** A kernel that records the calls, whose children are the process 7. *)
Definition demo_svc (r : request) : M (list request) reply :=
  fun log => match r with
             | Exit _ => Halt "exited"
             | Fork => Done (mk_reply 7 0 []) (log ++ [r])
             | Wait p => Done (mk_reply p 0 []) (log ++ [r])
             | Readline n => Done (mk_reply (Z.of_nat (n `min` 2)) 0 (take n [108; 115])) (log ++ [r])
             | _ => Done (mk_reply 0 0 []) (log ++ [r])
             end.

Lemma demo_serves : kernel_serves demo_svc.
Proof.
  split.
  - intros r s. destruct r; exact I.
  - intros c s. now exists "exited"%string.
  - intros len s r s' [= <- _]. cbn [r0 data]. rewrite length_take. cbn. lia.
Qed.

Definition demo_line : list (lexeme * bytes) :=
  [ (L_word (Bare (str "echo")), str " "); (L_word (Quoted (str "hi; there")), []);
    (L_pipe, []); (L_word (Bare (str "wc")), []); (L_semi, []);
    (L_word (Bare (str "ls")), str "  "); (L_word (Bare (str "-l")), str " "); (L_amp, str " ");
    (L_word (Bare (str "wc")), []) ].
Definition demo_scripts : list script :=
  [ ([[Bare (str "echo"); Quoted (str "hi; there")]; [Bare (str "wc")]], false);
    ([[Bare (str "ls"); Bare (str "-l")]], true) ].
Definition demo_last : list (list word) := [[Bare (str "wc")]].

Lemma shell_runs_line_witness :
  parse_and_run demo_svc (str " " ++ written demo_line) []
  = (for_in (line_scripts demo_scripts demo_last) (fun j =>
       for_in (texts j.1) (fun words => run_words demo_svc words j.2)) ;;
     ret (inr tt)) [].
Proof.
  apply (shell_runs_line demo_svc demo_scripts demo_last).
  - repeat constructor.
  - cbn [spaced demo_line]. repeat split; try discriminate; repeat constructor.
  - reflexivity.
  - repeat constructor; cbn; try lia; discriminate.
  - intros _. repeat constructor; cbn; try lia; discriminate.
  - reflexivity.
  - vm_compute. lia.
Defined.

(** What this line does: two programs waited for, a file-system command
    refused, and one more program. *)
Example demo_line_runs :
  parse_and_run demo_svc (str " " ++ written demo_line) []
  = Done (inr tt)
      ([Fork; Wait 7; Fork; Wait 7;
        Write (str "ls"); Write (str ": command not found (filesystem commands will be implemented in the future)");
        Write [10]; Fork; Wait 7]).
Proof. vm_compute. reflexivity. Qed.

Lemma shell_line_ends_witness :
  (exists r s', parse_and_run demo_svc (str "a | b; exit") [] = Done r s')
  \/ exists why, parse_and_run demo_svc (str "a | b; exit") [] = Halt why.
Proof. apply shell_line_ends; [exact demo_serves|reflexivity|vm_compute; lia]. Defined.

Lemma shell_never_panics_witness : main demo_svc 3 [] <> Panic "index out of bounds".
Proof. apply shell_never_panics, demo_serves. Defined.
