(* ===== verification/Tetris.v ===== *)
(** The game: src/src/user/src/bin/tetris.rs.

    The operations run on [GameState]; reading the board or a piece out of
    range is the panic of an array index.  The programs are built in debug
    mode, where a score that does not fit a [usize] is a panic too; positions
    and counters stay far below any overflow.  [main] plays over any kernel
    [svc]. *)

From Stdlib Require Import ZArith Lia.
From stdpp Require Import base strings numbers list pretty.
From S2P Require Import Prelude.
From S2P Require Import UserLib.

Local Open Scope Z_scope.

Definition BOARD_WIDTH : nat := 10.
Definition BOARD_HEIGHT : nat := 20.

Abbreviation grid := (list (list Z)).

Definition SHAPES : list grid :=
  [ [[0;0;0;0]; [1;1;1;1]; [0;0;0;0]; [0;0;0;0]];
    [[1;0;0;0]; [1;1;1;0]; [0;0;0;0]; [0;0;0;0]];
    [[0;0;1;0]; [1;1;1;0]; [0;0;0;0]; [0;0;0;0]];
    [[0;1;1;0]; [0;1;1;0]; [0;0;0;0]; [0;0;0;0]];
    [[0;1;1;0]; [1;1;0;0]; [0;0;0;0]; [0;0;0;0]];
    [[0;1;0;0]; [1;1;1;0]; [0;0;0;0]; [0;0;0;0]];
    [[1;1;0;0]; [0;1;1;0]; [0;0;0;0]; [0;0;0;0]] ].

Record GameState := mk_game {
  board : grid;
  current_piece : grid;
  piece_x : Z;
  piece_y : Z;
  score : Z;
  game_over : bool;
  rng_seed : Z
}.

Definition set_board b g :=
  mk_game b (current_piece g) (piece_x g) (piece_y g) (score g) (game_over g) (rng_seed g).
Definition set_piece p g :=
  mk_game (board g) p (piece_x g) (piece_y g) (score g) (game_over g) (rng_seed g).
Definition set_x x g :=
  mk_game (board g) (current_piece g) x (piece_y g) (score g) (game_over g) (rng_seed g).
Definition set_y y g :=
  mk_game (board g) (current_piece g) (piece_x g) y (score g) (game_over g) (rng_seed g).
Definition set_score s g :=
  mk_game (board g) (current_piece g) (piece_x g) (piece_y g) s (game_over g) (rng_seed g).
Definition set_over o g :=
  mk_game (board g) (current_piece g) (piece_x g) (piece_y g) (score g) o (rng_seed g).
Definition set_seed r g :=
  mk_game (board g) (current_piece g) (piece_x g) (piece_y g) (score g) (game_over g) r.

(** [a[i]], [a[r][c]] and [a[r][c] = v]. *)
Definition at_index {S A} (l : list A) (i : nat) : M S A := expect (l !! i) "index out of bounds".
Definition cell {S} (g : grid) (r c : nat) : M S Z :=
  let* row := at_index g r in at_index row c.
Definition put {A} (i : nat) (x : A) (l : list A) : option (list A) :=
  if (i <? length l)%nat then Some (<[i := x]> l) else None.
Definition put_cell {S} (g : grid) (r c : nat) (v : Z) : M S grid :=
  let* row := at_index g r in
  let* row := expect (put c v row) "index out of bounds" in
  ret (<[r := row]> g).

Definition four : list nat := seq 0 4.

(** [as usize] of an [isize] that is not negative. *)
Definition ix (z : Z) : nat := Z.to_nat z.

(** One cell of a piece collides. *)
Definition cell_hits {S} (b : grid) (next_x next_y : Z) (piece : grid) (r c : nat) : M S (option unit) :=
  let* p := cell piece r c in
  if p =? 0 then ret None else
  let board_x := next_x + Z.of_nat c in
  let board_y := next_y + Z.of_nat r in
  if (board_x <? 0) || (Z.of_nat BOARD_WIDTH <=? board_x) || (Z.of_nat BOARD_HEIGHT <=? board_y)
  then ret (Some tt)
  else if 0 <=? board_y then
    let* v := cell b (ix board_y) (ix board_x) in
    ret (if v =? 0 then None else Some tt)
  else ret None.

Definition check_collision (next_x next_y : Z) (piece : grid) : M GameState bool :=
  let* g := gets id in
  let* hit := for_ret four (fun r => for_ret four (fun c => cell_hits (board g) next_x next_y piece r c)) in
  ret (bool_decide (hit = Some tt)).

Definition rng_next (seed : Z) : Z := wrap32 (wrap32 (seed * 1103515245) + 12345).
Definition next_piece_index : M GameState nat :=
  modify (fun g => set_seed (rng_next (rng_seed g)) g) ;;
  gets (fun g => Z.to_nat ((rng_seed g / 65536) mod 7)).

Definition spawn_piece : M GameState unit :=
  let* shape_idx := next_piece_index in
  let* shape := at_index SHAPES shape_idx in
  modify (fun g => set_y 0 (set_x (Z.of_nat BOARD_WIDTH / 2 - 2) (set_piece shape g))) ;;
  let* g := gets id in
  let* hit := check_collision (piece_x g) (piece_y g) (current_piece g) in
  if hit then modify (set_over true) else skip.

Definition new_game : M GameState unit :=
  modify (fun _ => mk_game (replicate BOARD_HEIGHT (replicate BOARD_WIDTH 0))
                           (replicate 4 (replicate 4 0)) 0 0 0 false 0x5EED) ;;
  spawn_piece.

Fixpoint fold_m {S A B} (f : B -> A -> M S B) (l : list A) (b : B) : M S B :=
  match l with
  | [] => ret b
  | x :: l' => let* b' := f b x in fold_m f l' b'
  end.

(** The loops of [rotate_piece]. *)
Definition rotate {S} (p : grid) : M S grid :=
  fold_m (fun rotated r =>
    fold_m (fun rotated c =>
      let* v := cell p r c in put_cell rotated c (3 - r) v) four rotated)
    four (replicate 4 (replicate 4 0)).

Definition rotate_piece : M GameState unit :=
  let* g := gets id in
  let* rotated := rotate (current_piece g) in
  let* hit := check_collision (piece_x g) (piece_y g) rotated in
  if hit then skip else modify (set_piece rotated).

Definition move_horizontal (dir : Z) : M GameState unit :=
  let* g := gets id in
  let* hit := check_collision (piece_x g + dir) (piece_y g) (current_piece g) in
  if hit then skip else modify (set_x (piece_x g + dir)).

(** One cell of the piece is written on the board. *)
Definition lock_cell (g : GameState) (b : grid) (r c : nat) : M GameState grid :=
  let* p := cell (current_piece g) r c in
  let board_y := piece_y g + Z.of_nat r in
  let board_x := piece_x g + Z.of_nat c in
  if negb (p =? 0)
     && (0 <=? board_y) && (board_y <? Z.of_nat BOARD_HEIGHT)
     && (0 <=? board_x) && (board_x <? Z.of_nat BOARD_WIDTH)
  then put_cell b (ix board_y) (ix board_x) 1
  else ret b.

Definition lock_piece : M GameState unit :=
  let* g := gets id in
  let* b := fold_m (fun b r => fold_m (fun b c => lock_cell g b r c) four b) four (board g) in
  modify (set_board b).

Definition is_full_row (b : grid) (r : nat) : M GameState bool :=
  let* empty := for_ret (seq 0 BOARD_WIDTH) (fun c =>
                  let* v := cell b r c in ret (if v =? 0 then Some tt else None)) in
  ret (bool_decide (empty = None)).

(** [for src_r in (1..=r).rev() { board[src_r] = board[src_r - 1] }] *)
Definition shift_rows (b : grid) (r : nat) : M GameState grid :=
  fold_m (fun b src_r =>
    let* above := at_index b (src_r - 1) in expect (put src_r above b) "index out of bounds")
    (rev (seq 1 r)) b.

(** One iteration of [clear_lines], for row [r]. *)
Definition clear_row (acc : grid * Z) (r : nat) : M GameState (grid * Z) :=
  let* full := is_full_row acc.1 r in
  if full then
    let* b := shift_rows acc.1 r in
    let* b := expect (put 0 (replicate BOARD_WIDTH 0) b) "index out of bounds" in
    ret (b, acc.2 + 1)
  else ret acc.

Definition clear_lines : M GameState unit :=
  let* g := gets id in
  let* r := fold_m clear_row (rev (seq 0 BOARD_HEIGHT)) (board g, 0) in
  modify (set_board r.1) ;;
  if 0 <? r.2 then
    let* total := expect (checked_add64 (score g) (r.2 * 100)) "attempt to add with overflow" in
    modify (set_score total)
  else skip.

Definition tick : M GameState unit :=
  let* g := gets id in
  if game_over g then skip else
  let* hit := check_collision (piece_x g) (piece_y g + 1) (current_piece g) in
  if hit then lock_piece ;; clear_lines ;; spawn_piece
  else modify (set_y (piece_y g + 1)).

(** ** The picture *)

(** The cell is drawn as a block. *)
Definition is_piece_block {S} (g : GameState) (r c : nat) : M S bool :=
  let piece_r := Z.of_nat r - piece_y g in
  let piece_c := Z.of_nat c - piece_x g in
  if (0 <=? piece_r) && (piece_r <? 4) && (0 <=? piece_c) && (piece_c <? 4) then
    let* v := cell (current_piece g) (ix piece_r) (ix piece_c) in ret (negb (v =? 0))
  else ret false.

Definition CLEAR : bytes := [27] ++ str "[2J" ++ [27] ++ str "[H".

Section Play.
  Context {W : Type} (svc : request -> M W reply).

(** An operation on the game inside the program, whose world is [W]. *)
Definition on_game {A} (m : M GameState A) (g : GameState) : M W (A * GameState) :=
  fun w => match m g with
           | Done a g' => Done (a, g') w
           | Panic e => Panic e
           | Halt h => Halt h
           | Diverge => Diverge
           end.

Definition draw_cell (g : GameState) (r c : nat) : M W unit :=
  let* block := is_piece_block g r c in
  let* v := cell (board g) r c in
  if negb (v =? 0) || block then print svc [str "[]"] else print svc [str "  "].

Definition render (g : GameState) : M W unit :=
  print svc [CLEAR] ;;
  print svc [str "=== ATOS::TETRIS ==="; [10]] ;;
  print svc [str "Score: "; str (pretty (score g)); [10]] ;;
  print svc [str "+--------------------+"; [10]] ;;
  for_in (seq 0 BOARD_HEIGHT) (fun r =>
    print svc [str "|"] ;;
    for_in (seq 0 BOARD_WIDTH) (fun c => draw_cell g r c) ;;
    print svc [str "|"; [10]]) ;;
  print svc [str "+--------------------+"; [10]] ;;
  print svc [str "Controls: A=Left, D=Right, W=Rotate, S=Drop, Q=Quit"; [10]].

(** What a key does; [None] quits. *)
Definition key_action (input : Z) : option (M GameState unit) :=
  if bool_decide (input ∈ str "aA") then Some (move_horizontal (-1))
  else if bool_decide (input ∈ str "dD") then Some (move_horizontal 1)
  else if bool_decide (input ∈ str "wW") then Some rotate_piece
  else if bool_decide (input ∈ str "sS") then Some tick
  else if bool_decide (input ∈ str "qQ") then None
  else Some skip.

Definition interval (score : Z) : Z :=
  if score <=? 300 then 10 else if score <=? 800 then 7 else 4.

Definition farewell (g : GameState) : M W unit :=
  print svc [CLEAR] ;;
  print svc [str "====================="; [10]] ;;
  print svc [str "     GAME OVER!      "; [10]] ;;
  print svc [str "  Final Score: "; str (pretty (score g)); str "    "; [10]] ;;
  print svc [str "====================="; [10]] ;;
  exit svc 0.

(** The loop of [main]; [frames] bounds the frames that are played. *)
Fixpoint game_loop (frames : nat) (g : GameState) (game_ticks drop_frame_interval : Z) : M W unit :=
  if game_over g then farewell g else
  match frames with
  | O => diverge
  | S frames' =>
      render g ;;
      let* input := poll_char svc in
      match (if input =? 0 then Some skip else key_action input) with
      | None => farewell g
      | Some action =>
          let* r := on_game action g in
          let g := r.2 in
          let game_ticks := game_ticks + 1 in
          if drop_frame_interval <=? game_ticks then
            let* r := on_game tick g in
            let g := r.2 in
            sleep svc 50 ;;
            game_loop frames' g 0 (interval (score g))
          else
            sleep svc 50 ;;
            game_loop frames' g game_ticks drop_frame_interval
      end
  end.

Definition main (frames : nat) (any : GameState) : M W unit :=
  let* r := on_game new_game any in game_loop frames r.2 0 10.
End Play.
