(* ===== verification/TetrisSpec.v ===== *)
(** What the game of Tetris.v does: its rules as relations on the board, the
    invariant of play, landing, and the rows that [clear_lines] keeps. *)

From Stdlib Require Import ZArith Lia.
From stdpp Require Import base strings numbers list pretty.
From S2P Require Import Prelude.
From S2P Require Import UserLib Shell ShellSpec.
From S2P Require Import Tetris.

Local Open Scope Z_scope.

(** ** Grids *)

(** [h] rows of [w] cells, each 0 or 1. *)
Definition grid_ok (h w : nat) (g : grid) : Prop :=
  length g = h /\ Forall (fun row => length row = w /\ Forall (fun v => v = 0 \/ v = 1) row) g.

Definition at_cell (g : grid) (r c : nat) : Z := default 0 (g !! r ≫= (.!! c)).

Lemma grid_row h w g r : grid_ok h w g -> (r < h)%nat -> exists row, g !! r = Some row /\ length row = w.
Proof.
  intros [Hh Hg] Hr. destruct (lookup_lt_is_Some_2 g r) as [row Hrow]; [lia|].
  exists row. split; [assumption|]. rewrite Forall_lookup in Hg. now apply (Hg r).
Qed.

Lemma cell_run {S} h w g r c (s : S) :
  grid_ok h w g -> (r < h)%nat -> (c < w)%nat -> cell g r c s = Done (at_cell g r c) s.
Proof.
  intros Hg Hr Hc. destruct (grid_row _ _ _ _ Hg Hr) as (row & Hrow & Hw).
  unfold cell, at_index, at_cell. rewrite Hrow. cbn.
  destruct (lookup_lt_is_Some_2 row c) as [v Hv]; [lia|]. unfold bind, ret. cbn. now rewrite Hv.
Qed.

Lemma grid_insert_row h w g r row :
  grid_ok h w g -> length row = w -> Forall (fun v => v = 0 \/ v = 1) row -> grid_ok h w (<[r:=row]> g).
Proof.
  intros [Hh Hg] Hrow Hv. split; [now rewrite length_insert|]. apply Forall_insert; auto.
Qed.

Definition put_at (g : grid) (r c : nat) (v : Z) : grid :=
  match g !! r with Some row => <[r := <[c := v]> row]> g | None => g end.

Lemma put_cell_run {S} h w g r c v (s : S) :
  grid_ok h w g -> (r < h)%nat -> (c < w)%nat -> put_cell g r c v s = Done (put_at g r c v) s.
Proof.
  intros Hg Hr Hc. destruct (grid_row _ _ _ _ Hg Hr) as (row & Hrow & Hw).
  unfold put_cell, at_index, put, put_at. rewrite Hrow.
  rewrite (bind_run _ _ _ row s) by reflexivity.
  now rewrite (proj2 (Nat.ltb_lt c (length row))) by lia.
Qed.

Lemma put_at_ok h w g r c v : grid_ok h w g -> v = 0 \/ v = 1 -> grid_ok h w (put_at g r c v).
Proof.
  intros Hg Hv. unfold put_at. destruct (g !! r) as [row|] eqn:E; [|assumption].
  pose proof Hg as [_ HF]. rewrite Forall_lookup in HF. destruct (HF r row E) as [Hl Hr].
  apply grid_insert_row; [assumption|now rewrite length_insert|now apply Forall_insert].
Qed.

Lemma cell_put_at h w g r c v r' c' :
  grid_ok h w g -> (r < h)%nat -> (c < w)%nat ->
  at_cell (put_at g r c v) r' c' = if decide (r' = r /\ c' = c) then v else at_cell g r' c'.
Proof.
  intros Hg Hr Hc. destruct (grid_row _ _ _ _ Hg Hr) as (row & Hrow & Hw).
  pose proof (lookup_lt_Some _ _ _ Hrow). unfold at_cell, put_at. rewrite Hrow.
  destruct (decide (r' = r)) as [->|Hne].
  - rewrite list_lookup_insert_eq, Hrow by assumption. cbn. destruct (decide (c' = c)) as [->|Hnc].
    + rewrite list_lookup_insert_eq by lia. now rewrite decide_True.
    + rewrite list_lookup_insert_ne by congruence. rewrite decide_False by tauto. reflexivity.
  - rewrite list_lookup_insert_ne by congruence. now rewrite decide_False by tauto.
Qed.

Lemma cell_bit h w g r c : grid_ok h w g -> at_cell g r c = 0 \/ at_cell g r c = 1.
Proof.
  intros [_ Hg]. unfold at_cell. destruct (g !! r) as [row|] eqn:E; [|now left]. cbn.
  rewrite Forall_lookup in Hg. destruct (Hg r row E) as [_ Hr].
  destruct (row !! c) as [v|] eqn:Ev; [|now left]. cbn. rewrite Forall_lookup in Hr. now apply (Hr c).
Qed.

Lemma four_lt x : x ∈ four -> (x < 4)%nat.
Proof. unfold four. intros H%elem_of_seq. lia. Qed.

(** ** Loops with an early return *)

(** The loop only reads. *)
Lemma for_ret_run {S A R} (f : A -> option R) (body : A -> M S (option R)) l s :
  (forall x, x ∈ l -> body x s = Done (f x) s) -> for_ret l body s = Done (head (omap f l)) s.
Proof.
  induction l as [|x l IH]; intros H; [reflexivity|]. cbn [for_ret].
  rewrite (bind_run _ _ _ (f x) s) by (apply H; left). cbn [omap list_omap].
  destruct (f x); [reflexivity|]. apply IH. intros y Hy. apply H. now right.
Qed.

Lemma head_omap_unit {A} (f : A -> option unit) l :
  head (omap f l) = Some tt <-> exists x, x ∈ l /\ f x = Some tt.
Proof.
  induction l as [|x l IH]; cbn.
  - split; [discriminate|]. intros (x & Hx & _). inversion Hx.
  - destruct (f x) as [[]|] eqn:E.
    + split; [|reflexivity]. intros _. exists x. split; [left|assumption].
    + rewrite IH. split; intros (y & Hy & Hf).
      * exists y. split; [now right|assumption].
      * apply elem_of_cons in Hy as [->|Hy]; [congruence|]. now exists y.
Qed.

(** ** Collision *)

(** Some block of the piece at [x], [y] is off the board or on an occupied cell. *)
Definition hits (b : grid) (x y : Z) (p : grid) : Prop :=
  exists r c, (r < 4)%nat /\ (c < 4)%nat /\ at_cell p r c <> 0
    /\ (x + Z.of_nat c < 0 \/ 10 <= x + Z.of_nat c \/ 20 <= y + Z.of_nat r
        \/ (0 <= y + Z.of_nat r /\ at_cell b (ix (y + Z.of_nat r)) (ix (x + Z.of_nat c)) <> 0)).

Definition board_ok (b : grid) : Prop := grid_ok BOARD_HEIGHT BOARD_WIDTH b.
Definition piece_ok (p : grid) : Prop := grid_ok 4 4 p /\ exists r c, (r < 4)%nat /\ (c < 4)%nat /\ at_cell p r c <> 0.

Definition cell_hit (b : grid) (x y : Z) (p : grid) (r c : nat) : option unit :=
  if at_cell p r c =? 0 then None
  else if (x + Z.of_nat c <? 0) || (10 <=? x + Z.of_nat c) || (20 <=? y + Z.of_nat r) then Some tt
  else if 0 <=? y + Z.of_nat r then
    if at_cell b (ix (y + Z.of_nat r)) (ix (x + Z.of_nat c)) =? 0 then None else Some tt
  else None.

Lemma cell_hits_run {S} b x y p r c (s : S) :
  board_ok b -> grid_ok 4 4 p -> (r < 4)%nat -> (c < 4)%nat ->
  cell_hits b x y p r c s = Done (cell_hit b x y p r c) s.
Proof.
  intros Hb Hp Hr Hc. unfold cell_hits, cell_hit.
  rewrite (bind_run _ _ _ _ s (cell_run 4 4 p r c s Hp Hr Hc)).
  destruct (at_cell p r c =? 0); [reflexivity|]. change (Z.of_nat BOARD_WIDTH) with 10.
  change (Z.of_nat BOARD_HEIGHT) with 20.
  destruct (_ || _) eqn:E; [reflexivity|]. destruct (Z.leb_spec 0 (y + Z.of_nat r)); [|reflexivity].
  rewrite (bind_run _ _ _ _ s (cell_run _ _ b (ix (y + Z.of_nat r)) (ix (x + Z.of_nat c)) s Hb
             ltac:(unfold ix, BOARD_HEIGHT; lia) ltac:(unfold ix, BOARD_WIDTH; lia))).
  reflexivity.
Qed.

Lemma cell_hit_spec b x y p r c :
  cell_hit b x y p r c = Some tt <->
  at_cell p r c <> 0
    /\ (x + Z.of_nat c < 0 \/ 10 <= x + Z.of_nat c \/ 20 <= y + Z.of_nat r
        \/ (0 <= y + Z.of_nat r /\ at_cell b (ix (y + Z.of_nat r)) (ix (x + Z.of_nat c)) <> 0)).
Proof.
  unfold cell_hit. destruct (Z.eqb_spec (at_cell p r c) 0); [split; [discriminate|tauto]|].
  destruct (_ || _) eqn:E; [split; [intros _; split; [assumption|lia]|reflexivity]|].
  destruct (Z.leb_spec 0 (y + Z.of_nat r)); [|split; [discriminate|lia]].
  destruct (Z.eqb_spec (at_cell b (ix (y + Z.of_nat r)) (ix (x + Z.of_nat c))) 0).
  - split; [discriminate|]. intros (_ & H'). lia.
  - split; [|reflexivity]. intros _. split; [assumption|]. tauto.
Qed.

Lemma check_collision_run x y p g :
  board_ok (board g) -> grid_ok 4 4 p ->
  exists hit, check_collision x y p g = Done hit g /\ (hit = true <-> hits (board g) x y p).
Proof.
  intros Hb Hp. unfold check_collision. rewrite (bind_run _ _ _ g g) by reflexivity.
  erewrite bind_run.
  2:{ apply (for_ret_run (fun r => head (omap (cell_hit (board g) x y p r) four))).
      intros r Hr. apply for_ret_run. intros c Hc. apply cell_hits_run; auto using four_lt. }
  eexists. split; [reflexivity|]. rewrite bool_decide_eq_true, head_omap_unit.
  setoid_rewrite head_omap_unit. setoid_rewrite cell_hit_spec. unfold hits.
  assert (Hin : forall k, k ∈ four <-> (k < 4)%nat) by (intros k; unfold four; rewrite elem_of_seq; lia).
  setoid_rewrite Hin. split.
  - intros (r & Hr & c & Hc & H). now exists r, c.
  - intros (r & c & Hr & Hc & H). exists r. split; [assumption|]. now exists c.
Qed.

(** ** Rotation *)

(** The quarter turn: cell [i], [j] comes from [3 - j], [i]. *)
Definition turned (p : grid) : grid :=
  (fun i => (fun j => at_cell p (3 - j) i) <$> four) <$> four.

Lemma grid4_shape p :
  grid_ok 4 4 p ->
  exists a b c d e f g h i j k l m n o q,
    p = [[a;b;c;d]; [e;f;g;h]; [i;j;k;l]; [m;n;o;q]]
    /\ Forall (fun v => v = 0 \/ v = 1) [a;b;c;d;e;f;g;h;i;j;k;l;m;n;o;q].
Proof.
  intros [Hl HF].
  assert (H4 : forall row : bytes, length row = 4%nat -> exists a b c d, row = [a;b;c;d]).
  { intros [|a [|b [|c [|d [|]]]]] H; try discriminate. now exists a, b, c, d. }
  destruct p as [|r0 [|r1 [|r2 [|r3 [|]]]]]; try discriminate.
  repeat (apply Forall_cons in HF as [[?Hr ?HV] HF]).
  apply H4 in Hr as (a & b & c & d & ->), Hr0 as (e & f & g & h & ->),
    Hr1 as (i & j & k & l & ->), Hr2 as (m & n & o & q & ->).
  exists a, b, c, d, e, f, g, h, i, j, k, l, m, n, o, q. split; [reflexivity|].
  change [a;b;c;d;e;f;g;h;i;j;k;l;m;n;o;q] with ([a;b;c;d] ++ [e;f;g;h] ++ [i;j;k;l] ++ [m;n;o;q]).
  rewrite !Forall_app. auto.
Qed.

Lemma rotate_run {S} p (s : S) : grid_ok 4 4 p -> rotate p s = Done (turned p) s.
Proof.
  intros (a & b & c & d & e & f & g & h & i & j & k & l & m & n & o & q & -> & _)%grid4_shape.
  reflexivity.
Qed.

Lemma turned_cell p i j : (i < 4)%nat -> (j < 4)%nat -> at_cell (turned p) i j = at_cell p (3 - j) i.
Proof.
  intros Hi Hj.
  destruct i as [|[|[|[|]]]]; try lia; destruct j as [|[|[|[|]]]]; try lia; reflexivity.
Qed.

Lemma turned_ok p : piece_ok p -> piece_ok (turned p).
Proof.
  intros [Hp (r & c & Hr & Hc & Hb)]. split.
  - pose proof (grid4_shape p Hp) as
      (a & b & c1 & d & e & f & g & h & i & j & k & l & m & n & o & q & E & HF). subst p.
    repeat match goal with H : Forall _ (_ :: _) |- _ => apply Forall_cons in H as [? H] end. unfold turned, four, at_cell.
    split; [reflexivity|]. cbn. rewrite !Forall_cons, !Forall_nil. split_and!; assumption || reflexivity || exact I.
  - exists c, (3 - r)%nat. rewrite turned_cell by lia. replace (3 - (3 - r))%nat with r by lia.
    repeat split; [lia|lia|assumption].
Qed.

(** ** Spawning *)

Lemma shapes_ok p : p ∈ SHAPES -> piece_ok p.
Proof.
  intros H. unfold SHAPES in H.
  assert (Forall (fun p => Is_true (bool_decide (length p = 4%nat) && forallb (fun row =>
            bool_decide (length row = 4%nat) && forallb (fun v => (v =? 0) || (v =? 1)) row) p
            && existsb (fun r => existsb (fun c => negb (at_cell p r c =? 0)) four) four)) SHAPES) as HF
    by (repeat constructor).
  unfold SHAPES in HF. rewrite Forall_forall in HF. specialize (HF p H).
  apply Is_true_true in HF. rewrite !andb_true_iff in HF. destruct HF as [[Hl Hrows] Hex].
  apply bool_decide_eq_true in Hl. split; [split; [assumption|]|].
  - rewrite forallb_forall in Hrows. apply Forall_forall. intros row Hrow.
    apply list_elem_of_In in Hrow. specialize (Hrows row Hrow).
    apply andb_true_iff in Hrows as [Hw Hv]. apply bool_decide_eq_true in Hw.
    split; [assumption|]. rewrite forallb_forall in Hv. apply Forall_forall.
    intros v Hin. apply list_elem_of_In in Hin. specialize (Hv v Hin). lia.
  - apply existsb_exists in Hex as (r & Hr & Hex). apply existsb_exists in Hex as (c & Hc & Hb).
    apply list_elem_of_In in Hr, Hc. exists r, c. split_and!; auto using four_lt. lia.
Qed.

Record spawned (g g' : GameState) : Prop := {
  sp_board : board g' = board g;
  sp_score : score g' = score g;
  sp_shape : current_piece g' ∈ SHAPES;
  sp_x : piece_x g' = 3;
  sp_y : piece_y g' = 0;
  sp_over : game_over g' = true <->
            game_over g = true \/ hits (board g) 3 0 (current_piece g')
}.

Lemma spawn_run g : board_ok (board g) -> exists g', spawn_piece g = Done tt g' /\ spawned g g'.
Proof.
  intros Hb. unfold spawn_piece, next_piece_index.
  set (seed := rng_next (rng_seed g)).
  assert (exists p, SHAPES !! Z.to_nat ((seed / 65536) mod 7) = Some p) as [p Hp].
  { apply lookup_lt_is_Some_2. pose proof (Z.mod_pos_bound (seed / 65536) 7 ltac:(lia)).
    change (length SHAPES) with 7%nat. lia. }
  pose proof (list_elem_of_lookup_2 _ _ _ Hp) as Hin.
  rewrite (bind_run _ _ _ (Z.to_nat ((seed / 65536) mod 7)) (set_seed seed g)) by reflexivity.
  rewrite (bind_run _ _ _ p (set_seed seed g)) by (unfold at_index; now rewrite Hp).
  set (g1 := set_y 0 (set_x 3 (set_piece p (set_seed seed g)))).
  rewrite (bind_run _ _ _ tt g1) by reflexivity.
  rewrite (bind_run _ _ _ g1 g1) by reflexivity.
  destruct (check_collision_run (piece_x g1) (piece_y g1) (current_piece g1) g1 Hb
              (proj1 (shapes_ok p Hin))) as (hit & Hrun & Hspec).
  rewrite (bind_run _ _ _ hit g1) by exact Hrun.
  destruct hit; (eexists; split; [reflexivity|]); split; try reflexivity; try assumption.
  - cbn. split; [|auto]. intros _. right. now apply Hspec.
  - cbn. split; [now left|]. intros [H|H]; [exact H|]. apply Hspec in H. discriminate.
Qed.

(** ** Landing *)

(** [b'] is [b] with the cells of [P] occupied. *)
Definition stamped (P : nat -> nat -> Prop) (b b' : grid) : Prop :=
  board_ok b' /\ forall i j, (i < 20)%nat -> (j < 10)%nat ->
    (P i j -> at_cell b' i j = 1) /\ (~ P i j -> at_cell b' i j = at_cell b i j)
    /\ (at_cell b i j = 1 -> at_cell b' i j = 1).

Lemma fold_stamps {A} (f : grid -> A -> M GameState grid) (P : A -> nat -> nat -> Prop) l s :
  (forall b x, x ∈ l -> board_ok b -> exists b', f b x s = Done b' s /\ stamped (P x) b b') ->
  forall b, board_ok b ->
  exists b', fold_m f l b s = Done b' s /\ stamped (fun i j => exists x, x ∈ l /\ P x i j) b b'.
Proof.
  intros Hf. induction l as [|x l IH]; intros b Hb.
  - exists b. split; [reflexivity|]. split; [assumption|]. intros i j _ _. repeat split; auto.
    intros (x & Hx & _). inversion Hx.
  - destruct (Hf b x) as (b1 & Hrun & Hb1 & H1); [left|assumption|].
    destruct (IH (fun b y Hy => Hf b y (list_elem_of_further _ _ _ Hy)) b1 Hb1)
      as (b2 & Hrun2 & Hb2 & H2).
    exists b2. cbn [fold_m]. rewrite (bind_run _ _ _ b1 s Hrun). split; [assumption|].
    split; [assumption|]. intros i j Hi Hj.
    destruct (H1 i j Hi Hj) as (H1a & H1b & H1c), (H2 i j Hi Hj) as (H2a & H2b & H2c).
    split_and!.
    + intros (y & Hy & HP). apply elem_of_cons in Hy as [->|Hy]; eauto.
    + intros Hn. rewrite H2b, H1b; [reflexivity| |].
      * intros HP. apply Hn. exists x. split; [left|assumption].
      * intros (y & Hy & HP). apply Hn. exists y. split; [now right|assumption].
    + auto.
Qed.

(** The cell [i], [j] of the board is under block [r], [c] of the piece. *)
Definition under (g : GameState) (r c i j : nat) : Prop :=
  at_cell (current_piece g) r c <> 0
  /\ Z.of_nat i = piece_y g + Z.of_nat r /\ Z.of_nat j = piece_x g + Z.of_nat c.
Definition under_piece (g : GameState) (i j : nat) : Prop :=
  exists r, r ∈ four /\ exists c, c ∈ four /\ under g r c i j.

Lemma lock_cell_run g b r c :
  board_ok b -> grid_ok 4 4 (current_piece g) -> (r < 4)%nat -> (c < 4)%nat ->
  exists b', lock_cell g b r c g = Done b' g /\ stamped (under g r c) b b'.
Proof.
  intros Hb Hp Hr Hc. unfold lock_cell.
  rewrite (bind_run _ _ _ _ g (cell_run 4 4 _ r c g Hp Hr Hc)).
  change (Z.of_nat BOARD_WIDTH) with 10. change (Z.of_nat BOARD_HEIGHT) with 20.
  destruct (_ && _) eqn:E.
  - rewrite !andb_true_iff, negb_true_iff, !Z.leb_le, !Z.ltb_lt, Z.eqb_neq in E.
    destruct E as ((((Hne & Hy0) & Hy) & Hx0) & Hx).
    assert (Hi : (ix (piece_y g + Z.of_nat r) < BOARD_HEIGHT)%nat) by (unfold ix, BOARD_HEIGHT; lia).
    assert (Hj : (ix (piece_x g + Z.of_nat c) < BOARD_WIDTH)%nat) by (unfold ix, BOARD_WIDTH; lia).
    eexists. split; [apply (put_cell_run _ _ _ _ _ _ _ Hb Hi Hj)|].
    split; [apply put_at_ok; auto|]. intros i j _ _. unfold under.
    rewrite (cell_put_at _ _ _ _ _ _ i j Hb Hi Hj). unfold ix in *.
    case_decide as Hd; split_and!; intros; try reflexivity; try assumption.
    + exfalso. lia.
    + exfalso. apply Hd. lia.
  - exists b. split; [reflexivity|]. split; [assumption|]. intros i j Hi Hj. unfold under.
    split_and!; auto. intros (Hne & Hy & Hx). exfalso.
    rewrite !andb_false_iff, negb_false_iff, !Z.leb_gt, !Z.ltb_ge, Z.eqb_eq in E. lia.
Qed.

Lemma lock_run g :
  board_ok (board g) -> grid_ok 4 4 (current_piece g) ->
  exists b, lock_piece g = Done tt (set_board b g) /\ stamped (under_piece g) (board g) b.
Proof.
  intros Hb Hp. unfold lock_piece. rewrite (bind_run _ _ _ g g) by reflexivity.
  destruct (fold_stamps (fun b r => fold_m (fun b c => lock_cell g b r c) four b)
              (fun r i j => exists c, c ∈ four /\ under g r c i j) four g) with (b := board g)
    as (b & Hrun & Hst); [|assumption|].
  - intros b r Hr Hb'. apply fold_stamps; [|assumption]. intros b1 c Hc Hb1.
    apply lock_cell_run; auto using four_lt.
  - exists b. rewrite (bind_run _ _ _ b g Hrun). split; [reflexivity|exact Hst].
Qed.

(** ** Full rows *)

Definition is_full (row : bytes) : bool := forallb (fun v => negb (v =? 0)) row.
Definition zeros : bytes := replicate BOARD_WIDTH 0.

(** What [clear_lines] keeps, from the bottom: the row above a cleared row
    takes its place and is not looked at. *)
Fixpoint kept (rows : grid) : grid :=
  match rows with
  | [] => []
  | row :: rest => if is_full row then match rest with [] => [] | x :: rest' => x :: kept rest' end
                   else row :: kept rest
  end.

Lemma is_full_run b r row g :
  board_ok b -> b !! r = Some row -> is_full_row b r g = Done (is_full row) g.
Proof.
  intros Hb Hrow. pose proof (lookup_lt_Some _ _ _ Hrow) as Hr. pose proof Hb as [Hh HF].
  rewrite Forall_lookup in HF. destruct (HF r row Hrow) as [Hw _]. rewrite Hh in Hr.
  unfold is_full_row. erewrite bind_run.
  2:{ apply (for_ret_run (fun c => if at_cell b r c =? 0 then Some tt else None)).
      intros c Hc%elem_of_seq. unfold BOARD_WIDTH in Hc.
      rewrite (bind_run _ _ _ _ g (cell_run _ _ b r c g Hb Hr ltac:(unfold BOARD_WIDTH; lia))).
      reflexivity. }
  unfold ret. f_equal. apply eq_bool_prop_intro. rewrite bool_decide_spec.
  assert (head (omap (fun c => if at_cell b r c =? 0 then Some tt else None) (seq 0 BOARD_WIDTH)) = None
          <-> ~ exists c, c ∈ seq 0 BOARD_WIDTH /\ (if at_cell b r c =? 0 then Some tt else None) = Some tt) as ->.
  { rewrite <- head_omap_unit. destruct (head _) as [[]|]; split; intros; try congruence; auto. }
  unfold is_full. rewrite Is_true_true, forallb_forall. split.
  - intros Hn v Hv. apply list_elem_of_In, list_elem_of_lookup in Hv as [c Hc].
    destruct (Z.eqb_spec v 0) as [->|]; [|reflexivity]. exfalso. apply Hn. exists c.
    apply lookup_lt_Some in Hc as Hlt. split; [apply elem_of_seq; unfold BOARD_WIDTH in *; lia|].
    unfold at_cell. rewrite Hrow. cbn. now rewrite Hc.
  - intros Hall (c & Hc%elem_of_seq & Hz). destruct (lookup_lt_is_Some_2 row c) as [v Hv]; [lia|].
    unfold at_cell in Hz. rewrite Hrow in Hz. cbn in Hz. rewrite Hv in Hz. cbn in Hz.
    specialize (Hall v (proj1 (list_elem_of_In _ _) (list_elem_of_lookup_2 _ _ _ Hv))).
    destruct (v =? 0); [discriminate|]. discriminate.
Qed.

Lemma shift_run r : forall b g,
  (r < length b)%nat ->
  shift_rows b r g = Done (take 1 b ++ take r b ++ drop (S r) b) g.
Proof.
  unfold shift_rows. induction r as [|r IH]; intros b g Hr.
  - cbn. rewrite take_0. cbn. now rewrite take_drop.
  - rewrite seq_S, rev_unit. cbn [fold_m]. replace (1 + r)%nat with (S r) by lia.
    destruct (lookup_lt_is_Some_2 b r) as [above Ha]; [lia|].
    rewrite (bind_run _ _ _ (<[S r := above]> b) g).
    2:{ unfold at_index. rewrite Nat.sub_succ, Nat.sub_0_r, Ha.
        rewrite (bind_run _ _ _ above g) by reflexivity. unfold put.
        now rewrite (proj2 (Nat.ltb_lt (S r) (length b))) by lia. }
    rewrite IH by (rewrite length_insert; lia). f_equal.
    rewrite !take_insert_ge by lia.
    rewrite (drop_S (<[S r:=above]> b) above (S r)) by (apply list_lookup_insert_eq; lia).
    rewrite drop_insert_lt by lia. rewrite (take_S_r _ _ _ Ha).
    now rewrite <- (assoc_L (++)).
Qed.

Lemma kept_zeros l : kept (l ++ [zeros]) = kept l ++ [zeros].
Proof.
  remember (length l) as n eqn:Hn. revert l Hn.
  induction (lt_wf n) as [n _ IH]. intros [|row [|x l]] ->; [reflexivity| |].
  - cbn. now destruct (is_full row).
  - cbn [app kept]. destruct (is_full row); cbn [app]; f_equal.
    + apply (IH (length l)); [cbn; lia|reflexivity].
    + apply (IH (length (x :: l)) ltac:(cbn; lia) (x :: l) eq_refl).
Qed.

Lemma kept_length l : (length (kept l) <= length l)%nat.
Proof.
  remember (length l) as n eqn:Hn. revert l Hn.
  induction (lt_wf n) as [n _ IH]. intros [|row l] ->; [reflexivity|].
  cbn [kept]. destruct (is_full row); [destruct l as [|x l]; cbn [length]; [lia|]|].
  - specialize (IH (length l) ltac:(cbn; lia) l eq_refl). lia.
  - specialize (IH (length l) ltac:(cbn; lia) l eq_refl). cbn [length]. lia.
Qed.

Lemma zeros_row : length zeros = BOARD_WIDTH /\ Forall (fun v => v = 0 \/ v = 1) zeros.
Proof. split; [reflexivity|]. now apply Forall_replicate; left. Qed.

Lemma clear_row_run r row b n g :
  board_ok b -> b !! r = Some row ->
  clear_row (b, n) r g
  = Done (if is_full row then (zeros :: take r b ++ drop (S r) b, n + 1) else (b, n)) g.
Proof.
  intros Hb Hrow. pose proof (lookup_lt_Some _ _ _ Hrow) as Hr. unfold clear_row. cbn [fst snd].
  rewrite (bind_run _ _ _ _ g (is_full_run b r row g Hb Hrow)).
  destruct (is_full row); [|reflexivity].
  rewrite (bind_run _ _ _ _ g (shift_run r b g Hr)).
  destruct b as [|b0 b]; [cbn in Hr; lia|]. reflexivity.
Qed.

Lemma cleared_board_ok r b : (r < 20)%nat -> board_ok b -> board_ok (zeros :: take r b ++ drop (S r) b).
Proof.
  intros Hr [Hh HF]. unfold BOARD_HEIGHT in Hh. split.
  - cbn [length]. rewrite length_app, length_take, length_drop. unfold BOARD_HEIGHT. lia.
  - constructor; [apply zeros_row|]. apply Forall_app. split; [now apply Forall_take|now apply Forall_drop].
Qed.

Lemma clear_fold n : forall b cnt g,
  (n <= 20)%nat -> board_ok b ->
  let k := kept (rev (take n b)) in
  fold_m clear_row (rev (seq 0 n)) (b, cnt) g
  = Done (replicate (n - length k) zeros ++ rev k ++ drop n b, cnt + Z.of_nat (n - length k)) g.
Proof.
  induction n as [|n IH]; intros b cnt g Hn Hb k.
  - subst k. cbn. rewrite take_0. cbn. now rewrite Z.add_0_r.
  - pose proof Hb as [Hh _]. unfold BOARD_HEIGHT in Hh.
    destruct (lookup_lt_is_Some_2 b n) as [row Hrow]; [lia|].
    assert (rev (take (S n) b) = row :: rev (take n b)) as E
      by (rewrite (take_S_r _ _ _ Hrow); apply rev_unit).
    subst k. rewrite E. rewrite seq_S, rev_unit. cbn [fold_m]. rewrite Nat.add_0_l.
    rewrite (bind_run _ _ _ _ g (clear_row_run n row b cnt g Hb Hrow)). cbn [kept].
    destruct (is_full row) eqn:Hfull.
    + rewrite IH by (lia || (apply cleared_board_ok; [lia|assumption])).
      destruct n as [|n].
      { rewrite !take_0. cbn. do 2 f_equal. lia. }
      destruct (lookup_lt_is_Some_2 b n) as [x Hx]; [lia|].
      rewrite (take_S_r _ _ _ Hx), rev_unit.
      cbn [take drop firstn skipn].
      assert (length (take n b) = n) as Hl by (rewrite length_take; lia).
      rewrite <- !(assoc_L (++)), take_app_ge by lia. rewrite Hl, Nat.sub_diag, take_0, app_nil_r.
      rewrite drop_app_ge by lia. rewrite Hl, Nat.sub_diag, drop_0. cbn [app rev].
      rewrite kept_zeros. set (k := kept (rev (take n b))).
      assert (length k <= n)%nat as Hk.
      { pose proof (kept_length (rev (take n b))) as Hk. now rewrite length_rev, Hl in Hk. }
      rewrite rev_unit, length_app. cbn [length app].
      replace (S (S n) - S (length k))%nat with (S (S n - (length k + 1))) by lia.
      rewrite replicate_S_end. cbn [rev]. rewrite <- !(assoc_L (++)). cbn [app].
      do 2 f_equal. lia.
    + rewrite IH by (lia || assumption). rewrite (drop_S _ _ _ Hrow). cbn [length rev].
      rewrite Nat.sub_succ, <- !(assoc_L (++)). reflexivity.
Qed.

(** The program's one panic: the score does not fit a [usize]. *)
Definition OVERFLOW : string := "attempt to add with overflow".

Lemma clear_run g :
  board_ok (board g) ->
  let k := kept (rev (board g)) in
  let n := (20 - length k)%nat in
  clear_lines g =
    if (0 <? n)%nat && (U64 <=? score g + Z.of_nat n * 100) then Panic OVERFLOW
    else Done tt (set_score (score g + Z.of_nat n * 100) (set_board (replicate n zeros ++ rev k) g)).
Proof.
  intros Hb k n. unfold clear_lines. rewrite (bind_run _ _ _ g g) by reflexivity.
  pose proof (clear_fold 20 (board g) 0 g (le_n 20) Hb) as H. cbv zeta in H.
  pose proof Hb as [Hh _]. unfold BOARD_HEIGHT in Hh.
  rewrite take_ge, drop_ge, app_nil_r in H by lia. fold k in H. fold n in H. rewrite Z.add_0_l in H.
  rewrite (bind_run _ _ _ _ g H). cbn [fst snd]. set (g1 := set_board (replicate n zeros ++ rev k) g).
  rewrite (bind_run _ _ _ tt g1) by reflexivity. unfold checked_add64.
  destruct (Nat.ltb_spec 0 n), (Z.ltb_spec 0 (Z.of_nat n)); try lia; cbn [andb].
  - destruct (Z.leb_spec U64 (score g + Z.of_nat n * 100)).
    + now rewrite (proj2 (Z.ltb_ge _ _)) by assumption.
    + now rewrite (proj2 (Z.ltb_lt _ _)) by assumption.
  - assert (n = O) as -> by lia. rewrite Z.add_0_r. reflexivity.
Qed.

Lemma kept_rows P l : Forall P l -> Forall P (kept l).
Proof.
  remember (length l) as n eqn:Hn. revert l Hn.
  induction (lt_wf n) as [n _ IH]. intros [|row l] -> H; [constructor|].
  apply Forall_cons in H as [Hr H]. cbn [kept].
  destruct (is_full row); [destruct l as [|x l]; [constructor|apply Forall_cons in H as [Hx H]]|];
    constructor; try assumption; eapply IH; try reflexivity; try assumption; cbn; lia.
Qed.

Lemma cleared_ok b :
  board_ok b -> board_ok (replicate (20 - length (kept (rev b))) zeros ++ rev (kept (rev b))).
Proof.
  intros [Hh HF]. unfold BOARD_HEIGHT in Hh. split.
  - rewrite length_app, length_replicate, length_rev. pose proof (kept_length (rev b)) as H.
    rewrite length_rev in H. unfold BOARD_HEIGHT. lia.
  - apply Forall_app. split; [apply Forall_replicate, zeros_row|].
    apply Forall_rev, kept_rows, Forall_rev. assumption.
Qed.

(** ** The game *)

Record playing (g : GameState) : Prop := {
  pl_board : board_ok (board g);
  pl_piece : piece_ok (current_piece g);
  pl_y : 0 <= piece_y g;
  pl_free : game_over g = false -> ~ hits (board g) (piece_x g) (piece_y g) (current_piece g)
}.

(** [g'] is [g] after its piece has landed. *)
Record landed (g g' : GameState) : Prop := {
  la_rows : exists b, stamped (under_piece g) (board g) b
    /\ board g' = replicate (20 - length (kept (rev b))) zeros ++ rev (kept (rev b))
    /\ score g' = score g + Z.of_nat (20 - length (kept (rev b))) * 100;
  la_shape : current_piece g' ∈ SHAPES;
  la_x : piece_x g' = 3;
  la_y : piece_y g' = 0;
  la_over : game_over g' = true <-> hits (board g') 3 0 (current_piece g')
}.

(** [o] is a legal game after [g], with at most [n] points more, or the score
    does not fit. *)
Definition plays_on (g : GameState) (n : Z) (o : outcome GameState unit) : Prop :=
  (exists g', o = Done tt g' /\ playing g' /\ score g' <= score g + n) \/ (o = Panic OVERFLOW /\ U64 <= score g + n).

Lemma landed_score g g' : landed g g' -> score g' <= score g + 2000.
Proof. intros [(b & _ & _ & ->) _ _ _ _]. lia. Qed.

Lemma landed_playing g g' : landed g g' -> playing g'.
Proof.
  intros [(b & [Hb _] & Hbd & _) Hs Hx Hy Ho]. split.
  - rewrite Hbd. now apply cleared_ok.
  - now apply shapes_ok.
  - lia.
  - intros Hf Hh. rewrite Hx, Hy in Hh. apply Ho in Hh. congruence.
Qed.

Lemma tick_falls g :
  playing g -> game_over g = false ->
  ~ hits (board g) (piece_x g) (piece_y g + 1) (current_piece g) ->
  tick g = Done tt (set_y (piece_y g + 1) g).
Proof.
  intros [Hb [Hp _] _ _] Hover Hn. unfold tick. rewrite (bind_run _ _ _ g g) by reflexivity.
  rewrite Hover.
  destruct (check_collision_run (piece_x g) (piece_y g + 1) _ g Hb Hp) as (hit & Hrun & Hspec).
  rewrite (bind_run _ _ _ hit g Hrun). destruct hit; [exfalso; now apply Hn, Hspec|reflexivity].
Qed.

(** The next tick: the piece lands, or the points for the rows are too many. *)
Definition lands (g : GameState) : Prop :=
  (exists g', tick g = Done tt g' /\ landed g g' /\ (score g' = score g \/ score g' < U64)) \/
  (exists b, stamped (under_piece g) (board g) b /\ tick g = Panic OVERFLOW /\
     (length (kept (rev b)) < 20)%nat /\ U64 <= score g + Z.of_nat (20 - length (kept (rev b))) * 100).

Lemma tick_lands g :
  playing g -> game_over g = false ->
  hits (board g) (piece_x g) (piece_y g + 1) (current_piece g) -> lands g.
Proof.
  intros [Hb [Hp _] _ _] Hover Hh.
  destruct (lock_run g Hb Hp) as (b & Hlock & Hst).
  assert (Htick : tick g = (clear_lines;; spawn_piece) (set_board b g)).
  { unfold tick. rewrite (bind_run _ _ _ g g) by reflexivity. rewrite Hover.
    destruct (check_collision_run (piece_x g) (piece_y g + 1) _ g Hb Hp) as (hit & Hrun & Hspec).
    rewrite (bind_run _ _ _ hit g Hrun). destruct hit; [|now apply Hspec in Hh].
    now rewrite (bind_run _ _ _ tt _ Hlock). }
  unfold lands. rewrite Htick.
  pose proof (clear_run (set_board b g) (proj1 Hst)) as Hclear. cbv zeta in Hclear.
  destruct (_ && _) eqn:Eov.
  { right. exists b. split; [exact Hst|]. split; [now apply bind_panic|].
    apply andb_prop in Eov as [H1%Nat.ltb_lt H2%Z.leb_le]. cbn [board set_board score] in *. split; [lia|exact H2]. }
  left. rewrite (bind_run _ _ _ tt _ Hclear).
  set (g1 := set_score _ _). destruct (spawn_run g1) as (g' & Hspawn & Hsp).
  { apply cleared_ok, Hst. }
  exists g'. split; [exact Hspawn|]. destruct Hsp. split; [split; try assumption|].
  - exists b. split; [assumption|]. split; [now rewrite sp_board0|now rewrite sp_score0].
  - rewrite sp_over0, sp_board0. cbn. rewrite Hover. split; [intros [?|?]; [discriminate|assumption]|auto].
  - rewrite sp_score0. cbn [g1 board set_board score set_score] in *.
    apply andb_false_iff in Eov as [E%Nat.ltb_ge|E%Z.leb_gt]; [left|right]; lia.
Qed.

(** While the piece is free it is above the floor. *)
Lemma playing_height g : playing g -> game_over g = false -> piece_y g <= 19.
Proof.
  intros [Hb [Hp (r & c & Hr & Hc & Hne)] Hy Hf] Ho.
  destruct (Z.leb_spec (piece_y g) 19); [assumption|]. exfalso. apply (Hf Ho).
  exists r, c. repeat split; auto. right. right. left. lia.
Qed.

Inductive action := Left | Right | Rotate | Tick.
Definition do_action (a : action) : M GameState unit :=
  match a with
  | Left => move_horizontal (-1)
  | Right => move_horizontal 1
  | Rotate => rotate_piece
  | Tick => tick
  end.

Lemma move_ok dir g :
  playing g -> exists g', move_horizontal dir g = Done tt g' /\ playing g' /\ score g' = score g.
Proof.
  intros [Hb Hp Hy Hf]. unfold move_horizontal. rewrite (bind_run _ _ _ g g) by reflexivity.
  destruct (check_collision_run (piece_x g + dir) (piece_y g) _ g Hb (proj1 Hp)) as (hit & Hrun & Hspec).
  rewrite (bind_run _ _ _ hit g Hrun). destruct hit; (eexists; split; [reflexivity|]); (split; [split; auto|reflexivity]).
  intros _ Hh. apply Hspec in Hh. discriminate.
Qed.

Lemma rotate_ok g : playing g -> exists g', rotate_piece g = Done tt g' /\ playing g' /\ score g' = score g.
Proof.
  intros [Hb Hp Hy Hf]. unfold rotate_piece. rewrite (bind_run _ _ _ g g) by reflexivity.
  rewrite (bind_run _ _ _ _ g (rotate_run _ g (proj1 Hp))).
  pose proof (turned_ok _ Hp) as Ht.
  destruct (check_collision_run (piece_x g) (piece_y g) _ g Hb (proj1 Ht)) as (hit & Hrun & Hspec).
  rewrite (bind_run _ _ _ hit g Hrun). destruct hit; (eexists; split; [reflexivity|]); (split; [split; auto|reflexivity]).
  intros _ Hh. apply Hspec in Hh. discriminate.
Qed.

Lemma tick_ok g : playing g -> plays_on g 2000 (tick g).
Proof.
  intros Hpl. destruct (game_over g) eqn:Ho.
  { left. exists g. split; [|split; [assumption|lia]].
    unfold tick. rewrite (bind_run _ _ _ g g) by reflexivity. now rewrite Ho. }
  destruct (check_collision_run (piece_x g) (piece_y g + 1) _ g (pl_board g Hpl) (proj1 (pl_piece g Hpl)))
    as ([] & _ & Hspec).
  - destruct (tick_lands g Hpl Ho (proj1 Hspec eq_refl)) as [(g' & Hrun & Hl & _)|(b & _ & Hrun & _ & Hov)]; [left|right].
    + exists g'. split; [assumption|]. split; [now apply (landed_playing g)|now apply landed_score].
    + split; [assumption|lia].
  - assert (~ hits (board g) (piece_x g) (piece_y g + 1) (current_piece g)) as Hn
      by (intros H; apply Hspec in H; discriminate).
    left. exists (set_y (piece_y g + 1) g). split; [now apply tick_falls|]. split; [|cbn; lia].
    destruct Hpl. split; auto. cbn. lia.
Qed.

Lemma plays_still g (o : outcome GameState unit) :
  (exists g', o = Done tt g' /\ playing g' /\ score g' = score g) -> plays_on g 2000 o.
Proof. intros (g' & H1 & H2 & H3). left. exists g'. split; [exact H1|]. split; [exact H2|lia]. Qed.

Lemma action_ok a g : playing g -> plays_on g 2000 (do_action a g).
Proof.
  intros Hg. destruct a; [now apply plays_still, move_ok..|now apply plays_still, rotate_ok|now apply tick_ok].
Qed.

Lemma new_game_ok any : exists g, new_game any = Done tt g /\ playing g /\ score g = 0.
Proof.
  unfold new_game.
  set (g0 := mk_game _ _ 0 0 0 false 0x5EED). rewrite (bind_run _ _ _ tt g0) by reflexivity.
  destruct (spawn_run g0) as (g & Hrun & Hsp).
  { split; [reflexivity|]. apply Forall_replicate. exact zeros_row. }
  exists g. split; [assumption|]. destruct Hsp. split; [|now rewrite sp_score0]. split.
  - rewrite sp_board0. split; [reflexivity|]. apply Forall_replicate. exact zeros_row.
  - now apply shapes_ok.
  - lia.
  - intros Ho Hh. rewrite sp_x0, sp_y0, sp_board0 in Hh. rewrite (proj2 sp_over0) in Ho; [discriminate|auto].
Qed.

Lemma actions_ok acts : forall g,
  playing g -> plays_on g (2000 * Z.of_nat (length acts)) (for_in acts do_action g).
Proof.
  induction acts as [|a acts IH]; intros g Hg; [left; exists g; split; [reflexivity|split; [exact Hg|lia]]|].
  cbn [for_in length]. destruct (action_ok a g Hg) as [(g1 & Hrun & Hg1 & Hs1)|[Hrun Hov]].
  - rewrite (bind_run _ _ _ tt g1 Hrun). destruct (IH g1 Hg1) as [(g2 & H & Hg2 & Hs2)|[H Hov]]; [left|right].
    + exists g2. split; [exact H|]. split; [exact Hg2|lia].
    + split; [exact H|lia].
  - right. split; [now apply bind_panic|lia].
Qed.

(** ** The program *)

(** From no state does [m] panic, other than with a message of which [P]. *)
Definition calm (P : string -> Prop) {S A} (m : M S A) : Prop := forall s e, m s = Panic e -> P e.

Lemma calm_settles P {S A} (m : M S A) : settles m -> calm P m.
Proof. intros H s e E. specialize (H s). now rewrite E in H. Qed.
Lemma calm_bind P {S A B} (m : M S A) (f : A -> M S B) :
  calm P m -> (forall a, calm P (f a)) -> calm P (bind m f).
Proof.
  intros Hm Hf s e. unfold bind. specialize (Hm s). destruct (m s); [apply Hf| |discriminate..].
  intros [= ->]. now apply (Hm e).
Qed.
Lemma calm_for_in P {S A} (l : list A) (f : A -> M S unit) :
  (forall x, x ∈ l -> calm P (f x)) -> calm P (for_in l f).
Proof.
  induction l as [|x l IH]; intros H; [now intros s e|]. cbn. apply calm_bind; [apply H; left|].
  intros _. apply IH. intros y Hy. apply H. now right.
Qed.

Section Program.
  Context {W : Type} (svc : request -> M W reply) (Hsvc : kernel_serves svc) (P : string -> Prop).

Lemma calm_print l : calm P (print svc l).
Proof using Hsvc. now apply calm_settles, settles_print. Qed.
Lemma calm_farewell g : calm P (farewell svc g).
Proof using Hsvc.
  unfold farewell. repeat (apply calm_bind; [apply calm_print|intros _]).
  now apply calm_settles, settles_exit.
Qed.
Lemma calm_on_game {A B} (m : M GameState A) g a g' (k : A * GameState -> M W B) :
  m g = Done a g' -> calm P (k (a, g')) -> calm P (bind (on_game m g) k).
Proof using. intros Hm Hk s e. unfold bind, on_game. rewrite Hm. apply Hk. Qed.
Lemma calm_on_panic {A B} (m : M GameState A) g e (k : A * GameState -> M W B) :
  m g = Panic e -> P e -> calm P (bind (on_game m g) k).
Proof using. intros Hm HP s e'. unfold bind, on_game. rewrite Hm. now intros [= <-]. Qed.

Lemma draw_cell_calm g r c :
  playing g -> (r < 20)%nat -> (c < 10)%nat -> calm P (draw_cell svc g r c).
Proof using Hsvc.
  intros [Hb [Hp _] _ _] Hr Hc. unfold draw_cell. apply calm_bind.
  - intros s e. unfold is_piece_block. destruct (_ && _) eqn:E; [|discriminate].
    rewrite (bind_run _ _ _ _ s (cell_run 4 4 (current_piece g) (ix (Z.of_nat r - piece_y g))
               (ix (Z.of_nat c - piece_x g)) s Hp ltac:(unfold ix; lia) ltac:(unfold ix; lia))).
    discriminate.
  - intros b. apply calm_bind.
    + intros s e. now rewrite (cell_run _ _ _ r c s Hb Hr Hc).
    + intros v. destruct (_ || _); apply calm_print.
Qed.

Lemma render_calm g : playing g -> calm P (render svc g).
Proof using Hsvc.
  intros Hg. unfold render. do 4 (apply calm_bind; [apply calm_print|intros _]).
  apply calm_bind; [|intros _; apply calm_bind; [|intros _]; apply calm_print].
  apply calm_for_in. intros r Hr%elem_of_seq. unfold BOARD_HEIGHT in Hr.
  apply calm_bind; [apply calm_print|intros _]. apply calm_bind; [|intros _; apply calm_print].
  apply calm_for_in. intros c Hc%elem_of_seq. unfold BOARD_WIDTH in Hc.
  apply draw_cell_calm; [assumption|lia|lia].
Qed.

Lemma key_ok input m g : key_action input = Some m -> playing g -> plays_on g 2000 (m g).
Proof using.
  unfold key_action. intros Hk Hg.
  repeat case_bool_decide; injection Hk as <- || discriminate Hk;
    [now apply plays_still, move_ok..|now apply plays_still, rotate_ok|now apply tick_ok|].
  apply plays_still. now exists g.
Qed.

Lemma game_loop_calm frames : forall g t i,
  playing g -> (U64 <= score g + 4000 * Z.of_nat frames -> P OVERFLOW) -> calm P (game_loop svc frames g t i).
Proof using Hsvc.
  induction frames as [|frames IH]; intros g t i Hg HP; cbn [game_loop];
    (destruct (game_over g); [apply calm_farewell|]); [now intros s e|].
  apply calm_bind; [now apply render_calm|intros _].
  assert (calm_sleep : forall k : M W unit, calm P k -> calm P (sleep svc 50 ;; k)).
  { intros k Hk. apply calm_bind; [|now intros _]. unfold sleep. apply calm_bind; [|now intros ? ? ?].
    apply calm_settles, Hsvc. }
  apply calm_bind.
  { unfold poll_char. apply calm_bind; [apply calm_settles, Hsvc|now intros ? ? ?]. }
  intros input. destruct (if input =? 0 then Some skip else key_action input) as [m|] eqn:Hk;
    [|apply calm_farewell].
  assert (plays_on g 2000 (m g)) as [(g1 & Hrun & Hg1 & Hs1)|[Hrun Hov]].
  { destruct (input =? 0); [injection Hk as <-; apply plays_still; now exists g|now apply (key_ok input)]. }
  2:{ apply (calm_on_panic _ _ _ _ Hrun). apply HP. lia. }
  apply (calm_on_game _ _ _ _ _ Hrun). cbn [snd].
  destruct (i <=? t + 1); [|apply calm_sleep, IH; [exact Hg1|intros; apply HP; lia]].
  destruct (tick_ok g1 Hg1) as [(g2 & Hrun2 & Hg2 & Hs2)|[Hrun2 Hov]].
  - apply (calm_on_game _ _ _ _ _ Hrun2). apply calm_sleep, IH; [exact Hg2|intros; apply HP; cbn [snd] in *; lia].
  - apply (calm_on_panic _ _ _ _ Hrun2). apply HP. lia.
Qed.
End Program.

(** ** Properties *)

(** C30. The game keeps its rules.  From a new game, any sequence of moves,
    rotations and ticks returns, unless the score overflows, which takes more
    than 2^64 / 2000 of them: no index is out of bounds, the board stays 20
    rows of 10 cells of 0 or 1, the piece stays a 4 by 4 grid with a block, no
    action is worth more than 2000 points, and until the game is over no block
    of the piece is outside the board or on an occupied cell. *)
Theorem game_stays_legal (any : GameState) (acts : list action) :
  let points := 2000 * Z.of_nat (length acts) in
  (exists g, (new_game ;; for_in acts do_action) any = Done tt g /\ playing g /\ score g <= points) \/
  ((new_game ;; for_in acts do_action) any = Panic OVERFLOW /\ U64 <= points).
Proof.
  intros points. destruct (new_game_ok any) as (g & Hrun & Hg & Hs). rewrite (bind_run _ _ _ tt g Hrun).
  destruct (actions_ok acts g Hg) as [(g' & H & Hg' & Hs')|[H Hov]]; rewrite Hs in *; [left|right]; eauto.
Qed.

(** C31. Every piece lands.  A free piece that is left alone goes down one row
    a tick, to row 19 at most, and then its blocks and nothing else are added
    to the board, the rows [kept] are kept, the score grows by 100 for each
    row that is gone, and the next piece enters at the top, which ends the
    game exactly when it does not fit.  Only a score that no longer fits 64
    bits, when rows are gone, is a panic instead. *)
Theorem piece_lands (g : GameState) :
  playing g -> game_over g = false ->
  exists n, piece_y g + Z.of_nat n <= 19
    /\ for_in (seq 0 n) (fun _ => tick) g = Done tt (set_y (piece_y g + Z.of_nat n) g)
    /\ lands (set_y (piece_y g + Z.of_nat n) g).
Proof.
  intros Hg Ho. remember (Z.to_nat (19 - piece_y g)) as m eqn:Hm.
  revert g Hg Ho Hm. induction m as [|m IH]; intros g Hg Ho Hm;
    pose proof (playing_height g Hg Ho) as Hh; pose proof (pl_y g Hg) as Hy;
    (destruct (check_collision_run (piece_x g) (piece_y g + 1) _ g (pl_board g Hg) (proj1 (pl_piece g Hg)))
       as ([] & _ & Hspec);
     [pose proof (tick_lands g Hg Ho (proj1 Hspec eq_refl)) as Hl;
      exists O; replace (set_y (piece_y g + Z.of_nat 0) g) with g
        by (rewrite Z.add_0_r; now destruct g); now (split; [lia|])|]);
    assert (~ hits (board g) (piece_x g) (piece_y g + 1) (current_piece g)) as Hn
      by (intros H; apply Hspec in H; discriminate).
  - exfalso. destruct (pl_piece g Hg) as [_ (r & c & Hr & Hc & Hne)].
    apply Hn. exists r, c. repeat split; auto. lia.
  - assert (Hg1 : playing (set_y (piece_y g + 1) g)) by (destruct Hg; split; auto; cbn; lia).
    destruct (IH _ Hg1 Ho) as (n & Hle & Hfall & Hl); [cbn; lia|]. cbn [piece_y set_y] in *.
    assert (set_y (piece_y g + 1 + Z.of_nat n) (set_y (piece_y g + 1) g)
            = set_y (piece_y g + Z.of_nat (S n)) g) as E
      by (unfold set_y; cbn; f_equal; lia).
    rewrite E in *. exists (S n). split; [|split; [|exact Hl]].
    + lia.
    + cbn [seq for_in]. rewrite (bind_run _ _ _ tt _ (tick_falls g Hg Ho Hn)).
      rewrite <- Hfall. rewrite <- seq_shift. apply (runs_as (for_in_map S (seq 0 n) (fun _ => tick))).
Qed.

(** A row is full next to no other full row. *)
Definition no_two_full (b : grid) : Prop :=
  forall r row row', b !! r = Some row -> b !! S r = Some row' -> is_full row && is_full row' = false.

Lemma kept_filter l :
  no_two_full l -> kept l = filter (fun row => is_full row = false) l.
Proof.
  remember (length l) as n eqn:Hn. revert l Hn.
  induction (lt_wf n) as [n _ IH]. intros [|row l] -> H; [reflexivity|].
  assert (Hl : forall k, no_two_full (drop k (row :: l))).
  { intros k r x y Hx Hy. rewrite lookup_drop in Hx, Hy. apply (H (k + r)%nat); [assumption|].
    rewrite <- Hy. f_equal. lia. }
  cbn [kept]. rewrite filter_cons. destruct (is_full row) eqn:E; case_decide; try congruence.
  - destruct l as [|x l]; [reflexivity|]. specialize (H O row x eq_refl eq_refl).
    rewrite E in H. rewrite filter_cons, decide_True by exact H. f_equal.
    apply (IH (length l)); [cbn; lia|reflexivity|exact (Hl 2%nat)].
  - f_equal. apply (IH (length l)); [cbn; lia|reflexivity|exact (Hl 1%nat)].
Qed.

Lemma no_two_full_rev l : no_two_full l -> no_two_full (rev l).
Proof.
  intros H r x y Hx Hy. rewrite rev_alt in Hx, Hy.
  apply (reverse_lookup_Some l) in Hx as [Hx Hr], Hy as [Hy Hr']. rewrite andb_comm.
  apply (H (length l - S (S r))%nat); [assumption|]. rewrite <- Hx. f_equal. lia.
Qed.

Lemma kept_isolated b :
  no_two_full b -> kept (rev b) = rev (filter (fun row => is_full row = false) b).
Proof.
  intros H. rewrite kept_filter by now apply no_two_full_rev.
  clear H. induction b as [|row b IH]; [reflexivity|]. cbn [rev]. rewrite filter_app, IH, filter_cons.
  unfold filter at 2. cbn. case_decide; cbn; [reflexivity|apply app_nil_r].
Qed.

(** C38. Clearing lines.  When no two full rows touch, [clear_lines] removes
    exactly the full rows, keeps the others in order below as many empty rows,
    and adds 100 points for each; it panics exactly when rows are full and the
    points do not fit a [usize]. *)
Theorem clear_lines_spec (g : GameState) :
  board_ok (board g) -> no_two_full (board g) ->
  let rows := filter (fun row => is_full row = false) (board g) in
  let n := (20 - length rows)%nat in
  if (0 <? n)%nat && (U64 <=? score g + Z.of_nat n * 100) then clear_lines g = Panic OVERFLOW
  else exists g', clear_lines g = Done tt g'
    /\ board g' = replicate n zeros ++ rows
    /\ score g' = score g + Z.of_nat n * 100.
Proof.
  intros Hb Hno rows n. pose proof (clear_run g Hb) as H. cbv zeta in H.
  rewrite kept_isolated, length_rev, rev_involutive in H by assumption. fold rows n in H.
  destruct (_ && _); [exact H|]. eexists. split; [exact H|]. split; reflexivity.
Qed.

(** C39. Two full rows together are not cleared together.  Whenever the two
    bottom rows are full and it does not panic, [clear_lines] leaves the bottom
    row full; it panics only within 2000 points of the largest score. *)
Theorem clear_lines_misses (g : GameState) (r18 r19 : bytes) :
  board_ok (board g) -> board g !! 18%nat = Some r18 -> board g !! 19%nat = Some r19 ->
  is_full r18 = true -> is_full r19 = true ->
  (exists g', clear_lines g = Done tt g' /\ board g' !! 19%nat = Some r18) \/
  (clear_lines g = Panic OVERFLOW /\ U64 <= score g + 2000).
Proof.
  intros Hb H18 H19 Hf18 Hf19. pose proof (clear_run g Hb) as H. cbv zeta in H.
  destruct (_ && _) eqn:Eov.
  { right. split; [exact H|]. apply andb_prop in Eov as [_ Hov%Z.leb_le]. lia. }
  left. eexists. split; [exact H|]. cbn [board set_score set_board].
  pose proof (cleared_ok _ Hb) as [Hlen _]. revert Hlen. unfold BOARD_HEIGHT.
  assert (exists l, kept (rev (board g)) = r18 :: l) as [l ->].
  { pose proof Hb as [Hh _]. unfold BOARD_HEIGHT in Hh. rewrite <- (take_drop 18 (board g)).
    rewrite (drop_S _ _ _ H18), (drop_S _ _ _ H19), drop_ge by lia.
    rewrite rev_app_distr. cbn [rev app kept]. rewrite Hf19. eauto. }
  cbn [rev]. rewrite (assoc_L (++)), length_app. cbn [length]. intros Hlen.
  apply list_lookup_middle. lia.
Qed.

(** Four quarter turns are none. *)
Theorem rotate_four (p : grid) (g : GameState) :
  grid_ok 4 4 p ->
  (let* p := rotate p in let* p := rotate p in let* p := rotate p in rotate p) g = Done p g.
Proof.
  intros (a & b & c & d & e & f & i & h & j & k & l & m & n & o & q & t & -> & _)%grid4_shape.
  reflexivity.
Qed.

(** C40. The game does not panic.  Over a kernel whose calls return or end the
    process, whatever keys are pressed, no index is out of bounds in the
    moves, the drawing or the scoring.  The one panic there is is the overflow
    of the score, and it takes more than 2^64 / 4000 frames of play. *)
Theorem tetris_never_panics {W} (svc : request -> M W reply) (frames : nat) (any : GameState) (w : W) :
  kernel_serves svc ->
  match main svc frames any w with
  | Panic e => e = OVERFLOW /\ U64 <= 4000 * Z.of_nat frames
  | _ => True
  end.
Proof.
  intros Hsvc. destruct (main svc frames any w) as [| e| |] eqn:Hmain; [exact I| |exact I..].
  unfold main in Hmain. revert Hmain. destruct (new_game_ok any) as (g & Hrun & Hg & Hs).
  set (P e := e = OVERFLOW /\ U64 <= 4000 * Z.of_nat frames). change (?a -> _) with (a -> P e).
  eapply calm_on_game; [exact Hrun|]. cbn [snd]. apply game_loop_calm; [exact Hsvc|exact Hg|].
  rewrite Hs. now split.
Qed.

(** ** Witnesses *)

Definition demo_board : grid :=
  replicate 18 zeros ++ [replicate 10 1; replicate 10 1].
Definition demo_game (b : grid) : GameState :=
  mk_game b [[0;1;1;0]; [0;1;1;0]; [0;0;0;0]; [0;0;0;0]] 3 0 0 false 0x5EED.

Lemma demo_board_ok n (rows : grid) :
  (n + length rows = 20)%nat -> Forall (fun r => r = replicate 10 1) rows ->
  board_ok (replicate n zeros ++ rows).
Proof.
  intros Hn Hr. split; [rewrite length_app, length_replicate; exact Hn|].
  apply Forall_app. split; [apply Forall_replicate, zeros_row|].
  eapply Forall_impl; [exact Hr|]. intros row ->. split; [reflexivity|]. apply Forall_replicate. now right.
Qed.

Lemma demo_playing : playing (demo_game demo_board).
Proof.
  assert (Hb : board_ok demo_board) by (apply demo_board_ok; [reflexivity|repeat constructor]).
  split; [exact Hb|apply shapes_ok; right; right; right; left|cbn; lia|].
  intros _ Hh.
  destruct (check_collision_run 3 0 (current_piece (demo_game demo_board)) (demo_game demo_board) Hb)
    as (hit & Hrun & Hspec); [apply shapes_ok; right; right; right; left|].
  apply Hspec in Hh. subst hit. vm_compute in Hrun. discriminate.
Qed.

Lemma piece_lands_witness :
  exists n, 0 + Z.of_nat n <= 19
    /\ for_in (seq 0 n) (fun _ => tick) (demo_game demo_board)
       = Done tt (set_y (0 + Z.of_nat n) (demo_game demo_board))
    /\ lands (set_y (0 + Z.of_nat n) (demo_game demo_board)).
Proof. exact (piece_lands (demo_game demo_board) demo_playing eq_refl). Defined.

Lemma clear_lines_spec_witness :
  exists g', clear_lines (demo_game (replicate 19 zeros ++ [replicate 10 1])) = Done tt g'
    /\ board g' = replicate 20 zeros /\ score g' = 100.
Proof.
  apply (clear_lines_spec (demo_game (replicate 19 zeros ++ [replicate 10 1]))).
  - apply demo_board_ok; [reflexivity|repeat constructor].
  - intros r row row' H1 H2. do 19 (destruct r as [|r]; [now injection H1 as <-|]).
    discriminate H2.
Defined.

Lemma clear_lines_misses_witness :
  exists g', clear_lines (demo_game demo_board) = Done tt g' /\ board g' !! 19%nat = Some (replicate 10 1).
Proof.
  destruct (clear_lines_misses (demo_game demo_board) (replicate 10 1) (replicate 10 1)) as [H|[_ H]]; try reflexivity.
  - apply demo_board_ok; [reflexivity|repeat constructor].
  - exact H.
  - exfalso. apply H. reflexivity.
Defined.

Lemma rotate_four_witness :
  (let* p := rotate [[1;0;0;0]; [1;1;1;0]; [0;0;0;0]; [0;0;0;0]] in
   let* p := rotate p in let* p := rotate p in rotate p) (demo_game demo_board)
  = Done [[1;0;0;0]; [1;1;1;0]; [0;0;0;0]; [0;0;0;0]] (demo_game demo_board).
Proof. apply rotate_four, shapes_ok. right. left. Defined.

Lemma tetris_never_panics_witness :
  match main demo_svc 3 (demo_game demo_board) [] with Panic _ => False | _ => True end.
Proof.
  pose proof (tetris_never_panics demo_svc 3 (demo_game demo_board) [] demo_serves) as H.
  destruct (main _ _ _ _); [exact I| |exact I..]. destruct H as [_ H]. exact (H eq_refl).
Defined.
