(* ===== verification/Programs.v ===== *)
(** The small programs of src/src/user/src/bin: init, wc and echo. *)

From Stdlib Require Import ZArith Lia.
From stdpp Require Import base strings numbers list pretty.
From S2P Require Import Prelude.
From S2P Require Import UserLib Shell ShellSpec.

Local Open Scope Z_scope.

(** ** wc *)

Record wc_state := mk_wc { lines : Z; words : Z; in_word : bool }.

(** One turn of the loop over the bytes; the counters are [i32], which 1024
    bytes cannot overflow. *)
Definition wc_byte (st : wc_state) (c : Z) : wc_state :=
  let lines := if c =? 10 then lines st + 1 else lines st in
  if is_ascii_whitespace c then mk_wc lines (words st) false
  else if negb (in_word st) then mk_wc lines (words st + 1) true
  else mk_wc lines (words st) (in_word st).

Definition wc_count (bs : bytes) : wc_state := fold_left wc_byte bs (mk_wc 0 0 false).

Section Programs.
  Context {W : Type} (svc : request -> M W reply).

Definition wc_main : M W unit :=
  let* r := sys_readline svc (replicate 1024 0) in
  let '(n, buf) := r in
  (if (length buf <? n)%nat then panic "range end index out of range" else skip) ;;
  let st := wc_count (take n buf) in
  print svc [dec (lines st); str " "; dec (words st); str " "; dec (Z.of_nat n); [10]].

(** ** echo *)

Definition echo_main (args : list bytes) : M W unit :=
  for_in (drop 1 (imap pair args)) (fun a : nat * bytes =>
    (if (1 <? a.1)%nat then print svc [str " "] else skip) ;; print svc [a.2]) ;;
  print svc [[10]].

(** ** init *)

(** The loop that reaps; [fuel] bounds the children it waits for. *)
Fixpoint init_reap (fuel : nat) : M W unit :=
  match fuel with
  | O => diverge
  | S fuel' =>
      let* r := wait svc None in
      match r with ROk _ => init_reap fuel' | RErr _ => exit svc 0 end
  end.

Definition init_main (fuel : nat) : M W unit :=
  let* r := get_p_info svc in
  match r with
  | ROk (pid, _) =>
      if pid =? 1 then skip
      else
        print svc [str "spawning 'init' program from user space is not permitted! 'init' program is quitting..."; [10]] ;;
        exit svc 1
  | RErr _ => skip
  end ;;
  let* r := spawn svc (str "shell") [] in
  unwrap r ;;
  init_reap fuel.
End Programs.

(** ** What they compute *)

(** The number of words: a byte that is not white space starts a word when it
    is the first or follows white space. *)
Definition starts_word (bs : bytes) (i : nat) : bool :=
  match bs !! i with
  | Some c => negb (is_ascii_whitespace c)
              && match i with
                 | O => true
                 | S j => match bs !! j with Some d => is_ascii_whitespace d | None => true end
                 end
  | None => false
  end.

Definition count_if (p : nat -> bool) (n : nat) : Z := Z.of_nat (length (List.filter p (seq 0 n))).

Lemma count_if_S p n : count_if p (S n) = count_if p n + (if p n then 1 else 0).
Proof.
  unfold count_if. rewrite seq_S, List.filter_app, length_app. cbn.
  destruct (p n); cbn; lia.
Qed.

Lemma count_if_ext p q n : (forall i, (i < n)%nat -> p i = q i) -> count_if p n = count_if q n.
Proof.
  intros H. unfold count_if. f_equal. f_equal. apply filter_ext_in.
  intros i Hi%in_seq. apply H. lia.
Qed.

(** [wc] counts the line feeds and the words. *)
Lemma wc_counts bs :
  let st := wc_count bs in
  lines st = count_if (fun i => bool_decide (bs !! i = Some 10)) (length bs)
  /\ words st = count_if (starts_word bs) (length bs)
  /\ in_word st = match last bs with Some c => negb (is_ascii_whitespace c) | None => false end.
Proof.
  unfold wc_count. induction bs as [|c bs IH] using rev_ind; [now vm_compute|].
  cbv zeta in *. rewrite fold_left_app, last_snoc, length_app, Nat.add_1_r. cbn [fold_left].
  rewrite !count_if_S. destruct IH as (H1 & H2 & H3).
  assert (Hpre : forall i, (i < length bs)%nat -> (bs ++ [c]) !! i = bs !! i)
    by (intros; now rewrite lookup_app_l).
  assert ((bs ++ [c]) !! length bs = Some c) as Hc by now rewrite lookup_app_r, Nat.sub_diag.
  rewrite (count_if_ext _ (fun i => bool_decide (bs !! i = Some 10)))
    by (intros i Hi; now rewrite Hpre).
  rewrite (count_if_ext (starts_word (bs ++ [c])) (starts_word bs)).
  2:{ intros [|i] Hi; unfold starts_word; rewrite !Hpre by lia; reflexivity. }
  rewrite <- H1, <- H2, Hc.
  assert (starts_word (bs ++ [c]) (length bs)
          = negb (is_ascii_whitespace c) && negb (in_word (fold_left wc_byte bs (mk_wc 0 0 false)))) as ->.
  { unfold starts_word. rewrite Hc, H3. f_equal. destruct bs as [|b bs _] using rev_ind; [reflexivity|].
    rewrite last_snoc, length_app, Nat.add_1_r, Hpre by (rewrite length_app; cbn; lia).
    rewrite lookup_app_r, Nat.sub_diag by lia. cbn. now rewrite negb_involutive. }
  unfold wc_byte. rewrite (bool_decide_ext _ (c = 10)) by naive_solver.
  destruct (Z.eqb_spec c 10) as [->|Hne]; [rewrite bool_decide_true by done|rewrite bool_decide_false by done];
    destruct (is_ascii_whitespace _) eqn:Ew; try discriminate Ew;
    destruct (in_word _) eqn:Ei; cbn; split_and!; lia || reflexivity || assumption.
Qed.
