(* ===== verification/Tests.v ===== *)
(** The programs that try the system out, and those that only print, of
    src/src/user/src/bin: help, info, clear, ptest, waittest and exectest; and
    the runtime of src/src/user/src/lib.rs that starts a program and ends it.

    Quotation marks in the programs' texts are written as the byte 34. *)

From Stdlib Require Import ZArith Lia.
From stdpp Require Import base strings numbers list pretty.
From S2P Require Import Prelude LoadElf.
From S2P Require Import UserLib Shell ShellSpec Programs.

Local Open Scope Z_scope.

(** ** The runtime *)

Section Runtime.
  Context {W : Type} (svc : request -> M W reply).

Definition println (pieces : list bytes) : M W unit := print svc (pieces ++ [[10]]).

(** [runtime_entry!]: [_start] of a program without and with arguments. *)
Definition start_main (main : M W unit) : M W unit := main ;; exit svc 0.
Definition start_main_args (main : list bytes -> M W unit) (args : list bytes) : M W unit := main args ;; exit svc 0.

Definition INFO_PRINTS_ENABLED : bool := false.

(** [print_meta!], which [_start] has commented out. *)
Definition print_meta : M W unit :=
  if INFO_PRINTS_ENABLED then
    let* r := get_p_info svc in
    let* ids := unwrap r in
    println [str "new process spawned with PID: "; dec ids.1; str ", from parent PID: "; dec ids.2]
  else skip.

(** [runtime_panic_handler!]: the [#[panic_handler]], given the file, line and
    column of the panic and its message. *)
Definition panic_handler (location : option (bytes * Z * Z)) (message : list bytes) : M W unit :=
  println [str "-----------PANIC------------"] ;;
  match location with
  | Some (file, line, column) => println [str "Location: "; file; str ":"; dec line; str ":"; dec column]
  | None => println [str "Location: Unknown location"]
  end ;;
  println (str "Message:  " :: message) ;;
  println [str "----------------------------"] ;;
  exit svc 1.
End Runtime.

(** ** help *)

Definition quoted (s : bytes) : bytes := 34 :: s ++ [34].

Definition usage_lines : list bytes :=
  [ str "Usage: help <command or program name>";
    str "Available commands/programs:";
    str "  init - The initial program that starts the shell (executed by kernel)";
    str "  help - Display this help message";
    str "  info - Display information about the operating system";
    str "  echo - Display a line of text";
    str "  clear - Clear the terminal screen";
    str "  ptest - A test program for process management";
    str "  waittest - A test program for waiting on child processes";
    str "  exectest - A test program for executing other programs";
    str "  wc - Count lines, words, and bytes in input";
    str "  tetris - Play a game of Tetris on AtOS";
    str "  exit - Exit the shell (implemented in shell itself)";
    str "Filesystem related commands will be implemented later with filesystem itself.";
    10 :: str "Available syntax for commands/programs:";
    str " command [arguments] - Execute a command with optional arguments";
    str " command [arguments] & - Execute a command with optional arguments in";
    str "                         the background";
    str " command1 [arguments] & command2 [arguments] - Execute command1 in the ";
    str "                                               background and command2 in";
    str "                                               the foreground";
    str " command1 [arguments]; command2 [arguments] - Execute command1 and then";
    str "                                              command2 in sequence";
    str " command1 " ++ quoted (str "argument") ++ str " - Execute command1 with an argument that contains";
    str "                         spaces (enclosed in quotes)" ].

(** The arms of the [match], as the name and the lines under it. *)
Definition topics : list (bytes * list bytes) :=
  [ (str "init",
     [str "The initial program that is spawned by the kernel. It spawns the shell,";
      str "and any other programs needed. Orphan processes are reparented to this";
      str "program and it reaps them continuously."]);
    (str "help",
     [str "You are using this right now. It shows help information for commands and programs"]);
    (str "info",
     [str "Display information about the operating system. Inspired by Linux's `fastfetch`."]);
    (str "echo",
     [str "Display a line of text. Simply writes back arguments given to it."]);
    (str "clear",
     [str "Clear the terminal screen."]);
    (str "ptest",
     [str "A test program for process management. Tests forking, execution, waiting,";
      str "and termination. It spawns `waittest` and `exectest` programs as well."]);
    (str "waittest",
     [str "A test program for waiting on child processes. Tests the wait() syscall"]);
    (str "exectest",
     [str "A test program for executing other programs. Tests the exec() syscall"]);
    (str "wc",
     [str "Count lines, words, and bytes in input."]);
    (str "tetris",
     [str "Play a game of Tetris on AtOS!"]);
    (str "exit",
     [str "Exit the shell. This command is implemented in the shell itself, not as";
      str "a separate program."]) ].

(** The text of an arm: each line ends in a space. *)
Definition topic_text (t : bytes * list bytes) : bytes :=
  str "[" ++ t.1 ++ str "] " ++ (t.2 ≫= fun line => 10 :: str "| " ++ line ++ str " ").

Fixpoint find_topic (command : bytes) (ts : list (bytes * list bytes)) : option (bytes * list bytes) :=
  match ts with
  | [] => None
  | t :: ts' => if bool_decide (command = t.1) then Some t else find_topic command ts'
  end.

Section Help.
  Context {W : Type} (svc : request -> M W reply).

Definition help_main (args : list bytes) : M W unit :=
  match args with
  | _ :: command :: _ =>
      match find_topic command topics with
      | Some t => println svc [topic_text t]
      | None => println svc [str "Unknown command/program: "; command]
      end
  | _ => for_in usage_lines (fun line => println svc [line])
  end.

(** ** info and clear *)

Definition info_main : M W unit := show_os_info svc.

(** ESC [2J and ESC [1;1H *)
Definition clear_main : M W unit := print svc [27 :: str "[2J" ++ 27 :: str "[1;1H"].
End Help.

(** ** ptest, waittest and exectest *)

Section ProcessTests.
  (** [debug] is the text of a value under [{:?}], in the pieces [core::fmt]
      writes; [file] the path of waittest.rs the compiler saw. *)
  Context {W : Type} (svc : request -> M W reply) (debug : list bytes -> list bytes) (file : bytes).

(** [for i in 0..n { println!("<text> {}", i) }] *)
Definition iterations (n : nat) (text : bytes) : M W unit :=
  for_in (seq 0 n) (fun i => println svc [text ++ str " "; dec (Z.of_nat i)]).

(** [let mut x = 1; println!(..); x += 1; println!(..)] *)
Definition count_to_two : M W unit :=
  let x := 1 in
  println svc [str "x = "; dec x] ;;
  let x := x + 1 in
  println svc [str "x = "; dec x].

(** [match wait(None)] of ptest and waittest. *)
Definition report_child (waited failed : bytes) : M W unit :=
  let* r := wait svc None in
  match r with
  | ROk (pid, exit_code) =>
      println svc [waited; dec pid; str " to finish, it exited with code "; dec exit_code]
  | RErr e => println svc [failed; str e]
  end.

Definition ptest_main (args : list bytes) : M W unit :=
  println svc [str "hello this code is running in the 'ptest' program!"] ;;
  println svc (str "args passed to 'ptest' program: " :: debug args) ;;
  count_to_two ;;
  iterations 20 (str "'ptest' program is working, iteration") ;;
  println svc [str "'ptest' program will now fork and wait for the child to finish."] ;;
  let* f := fork svc in
  match f with
  | ROk fc =>
      if fc =? 0 then
        iterations 10 (str "child working") ;;
        println svc [str "child is done working, it will now exit."]
      else
        println svc [str "I'm parent, now waiting for child to finish"] ;;
        report_child (str "parent waited for child process with pid ")
          (str "parent program failed to wait for child process: ") ;;
        println svc [str "parent will now exit."] ;;
        println svc [str "before exiting, spawning process waittest for next test."] ;;
        let* r := spawn svc (str "waittest") [] in
        unwrap r
  | RErr _ => println svc [str "fork() failed!"]
  end.

Definition waittest_child : M W unit :=
  println svc [str "i'm waittest child! i finished early!"] ;;
  panic_handler svc (Some (file, 24, 17))
    [str "Hi im waittest child. I just paniced here to check if my parent receives my exit code 1."].

Definition waittest_parent : M W unit :=
  println svc [str "I'm waittest parent, now working"] ;;
  iterations 15 (str "waittest parent working") ;;
  report_child (str "waittest parent waited for child process with pid ")
    (str "waittest parent program failed to wait for child process: ") ;;
  println svc [str "waittest parent will now exit."].

Definition waittest_main : M W unit :=
  println svc [str "hello this code is running in the waittest program!"] ;;
  count_to_two ;;
  iterations 20 (str "waittest program is working, iteration") ;;
  println svc [str "waittest program will now fork and wait for the child to finish."] ;;
  let* f := fork svc in
  match f with
  | ROk fc => if fc =? 0 then waittest_child else waittest_parent
  | RErr _ => println svc [str "fork() failed!"]
  end.

Definition parent_do : M W unit :=
  println svc [str "This is the parent process doing work!"] ;;
  iterations 20 (str "parent process is working, iteration") ;;
  println svc [str "parent process is done working, it will now exit."].

Definition child_do : M W unit :=
  println svc [str "This is the child process doing work!"] ;;
  iterations 10 (str "child process is working, iteration") ;;
  println svc [str "child process is done working, it will now attempt exec(" ++ quoted (str "init") ++ str ")"] ;;
  let* r := exec svc (str "init") [] in
  unwrap r.

Definition exectest_main : M W unit :=
  println svc [str "hello this code is running in process B!"] ;;
  println svc [str "Trying to fork in B!"] ;;
  let* f := fork svc in
  match f with
  | ROk fc => if fc =? 0 then child_do else parent_do
  | RErr _ => println svc [str "fork() failed!"]
  end.
End ProcessTests.

(** ** A world that answers and remembers *)

(** The kernel answers each call knowing the calls before it. *)
Definition answering (ask : list request -> request -> reply) (r : request) : M (list request) reply :=
  fun log => Done (ask log r) (log ++ [r]).

Section Answering.
  Context (ask : list request -> request -> reply).
  Local Abbreviation svc := (answering ask).

Lemma print_logs pieces log : print svc pieces log = Done tt (log ++ (Write <$> pieces)).
Proof.
  revert log. induction pieces as [|s pieces IH]; intros log; [now rewrite app_nil_r|].
  change (print svc (s :: pieces) log) with (print svc pieces (log ++ [Write s])). rewrite IH, <- app_assoc. reflexivity.
Qed.

Lemma println_logs pieces log : println svc pieces log = Done tt (log ++ (Write <$> pieces ++ [[10]])).
Proof. apply print_logs. Qed.

Lemma iterations_logs n text log :
  iterations svc n text log =
    Done tt (log ++ (seq 0 n ≫= fun i => Write <$> [text ++ str " "; dec (Z.of_nat i); [10]])).
Proof.
  unfold iterations. generalize (seq 0 n) as l. intros l. revert log. induction l as [|i l IH]; intros log.
  { now rewrite app_nil_r. }
  cbn [for_in]. rewrite (bind_run _ _ _ _ _ (println_logs _ log)), IH. cbn [mbind list_bind]. now rewrite <- app_assoc.
Qed.

Lemma count_to_two_logs log :
  count_to_two svc log = Done tt (log ++ (Write <$> [str "x = "; dec 1; [10]; str "x = "; dec 2; [10]])).
Proof.
  unfold count_to_two. cbv zeta. rewrite (bind_run _ _ _ _ _ (println_logs _ log)), println_logs.
  now rewrite <- app_assoc.
Qed.
End Answering.

(** The lines of waittest: before the fork, the child's with those of its
    panic, the parent's until it waits, and its report. *)
Definition said (pieces : list bytes) : list request := Write <$> pieces ++ [[10]].
Definition iterated (n : nat) (text : bytes) : list request :=
  seq 0 n ≫= fun i => Write <$> [text ++ str " "; dec (Z.of_nat i); [10]].
Definition waittest_intro : list request :=
  said [str "hello this code is running in the waittest program!"] ++
  (Write <$> [str "x = "; dec 1; [10]; str "x = "; dec 2; [10]]) ++
  iterated 20 (str "waittest program is working, iteration") ++
  said [str "waittest program will now fork and wait for the child to finish."].
Definition waittest_panic (file : bytes) : list request :=
  said [str "i'm waittest child! i finished early!"] ++
  said [str "-----------PANIC------------"] ++
  said [str "Location: "; file; str ":"; dec 24; str ":"; dec 17] ++
  said [str "Message:  ";
        str "Hi im waittest child. I just paniced here to check if my parent receives my exit code 1."] ++
  said [str "----------------------------"].
Definition waittest_work : list request :=
  said [str "I'm waittest parent, now working"] ++ iterated 15 (str "waittest parent working").
Definition waittest_report (r : reply) : list request :=
  said (if as_i64 (r0 r) =? -1
        then [str "waittest parent program failed to wait for child process: "; str "wait failed"]
        else [str "waittest parent waited for child process with pid "; dec (r0 r);
              str " to finish, it exited with code "; dec (as_i64 (r1 r))]) ++
  said [str "waittest parent will now exit."].

(** [waittest], for every kernel.  When its fork returns 0 it is the child,
    which prints and panics, and the panic handler ends it with exit code 1;
    when it returns another pid it is the parent, which works, waits for
    any child and prints the pid and the exit code of the answer; when the
    fork or the wait fails it says so. *)
Theorem waittest_runs ask file log :
  let l := log ++ waittest_intro in
  let fc := r0 (ask l Fork) in
  waittest_main (answering ask) file log =
    if as_i64 fc =? -1 then Done tt (l ++ [Fork] ++ said [str "fork() failed!"])
    else if fc =? 0 then exit (answering ask) 1 (l ++ [Fork] ++ waittest_panic file)
    else let l := l ++ [Fork] ++ waittest_work in
         Done tt (l ++ [Wait 0] ++ waittest_report (ask l (Wait 0))).
Proof.
  cbv zeta. set (l := log ++ waittest_intro). set (fc := r0 (ask l Fork)). unfold waittest_main.
  rewrite (bind_run _ _ _ _ _ (println_logs ask _ log)), (bind_run _ _ _ _ _ (count_to_two_logs ask _)),
    (bind_run _ _ _ _ _ (iterations_logs ask _ _ _)), (bind_run _ _ _ _ _ (println_logs ask _ _)), <- !app_assoc.
  fold (said [str "hello this code is running in the waittest program!"]).
  fold (iterated 20 (str "waittest program is working, iteration")).
  change (log ++ said _ ++ _) with l.
  assert (fork (answering ask) l = Done (if as_i64 fc =? -1 then RErr "fork failed" else ROk fc) (l ++ [Fork])) as Hf.
  { unfold fork, answering, bind. fold fc. now destruct (as_i64 fc =? -1). }
  rewrite (bind_run _ _ _ _ _ Hf). destruct (as_i64 fc =? -1); [rewrite println_logs, <- app_assoc; reflexivity|].
  destruct (fc =? 0).
  - unfold waittest_child, panic_handler. rewrite !(bind_run _ _ _ _ _ (println_logs ask _ _)), <- !app_assoc. reflexivity.
  - unfold waittest_parent. rewrite (bind_run _ _ _ _ _ (println_logs ask _ _)), (bind_run _ _ _ _ _ (iterations_logs ask _ _ _)), <- !app_assoc.
    change (l ++ [Fork] ++ (Write <$> _) ++ _) with (l ++ [Fork] ++ waittest_work). set (l2 := l ++ [Fork] ++ waittest_work).
    set (r := ask l2 (Wait 0)).
    assert (report_child (answering ask) (str "waittest parent waited for child process with pid ")
      (str "waittest parent program failed to wait for child process: ") l2 =
      Done tt ((l2 ++ [Wait 0]) ++ said (if as_i64 (r0 r) =? -1
        then [str "waittest parent program failed to wait for child process: "; str "wait failed"]
        else [str "waittest parent waited for child process with pid "; dec (r0 r);
              str " to finish, it exited with code "; dec (as_i64 (r1 r))]))) as Hr.
    { unfold report_child.
      assert (wait (answering ask) None l2 = Done (if as_i64 (r0 r) =? -1 then RErr "wait failed"
        else ROk (r0 r, as_i64 (r1 r))) (l2 ++ [Wait 0])) as Hw
        by (unfold wait, answering, bind; cbn [default]; fold r; now destruct (as_i64 (r0 r) =? -1)).
      rewrite (bind_run _ _ _ _ _ Hw). now destruct (as_i64 (r0 r) =? -1); rewrite println_logs. }
    rewrite (bind_run _ _ _ _ _ Hr), println_logs. unfold l2, waittest_report. rewrite <- !app_assoc. reflexivity.
Qed.

(** ** What help knows *)

(** help explains exactly the programs the kernel's file system has, but for
    the shell, and the shell's own [exit]: for these it prints the topic
    under its name, and for every other word it says that it knows none. *)
Theorem help_covers (images : bytes -> bytes) (command : bytes) :
  (find_topic command topics <> None <->
     command = str "exit" \/ (read_file images command <> None /\ command <> str "shell")) /\
  forall t, find_topic command topics = Some t -> exists rest, topic_text t = str "[" ++ command ++ str "] " ++ rest.
Proof.
  split.
  - assert (forall ts, find_topic command ts <> None <-> command ∈ ts.*1) as Hin.
    { induction ts as [|t ts IH]; [split; [easy|intros H; now apply not_elem_of_nil in H]|]. cbn [find_topic].
      rewrite fmap_cons, elem_of_cons, <- IH. destruct (bool_decide (command = t.1)) eqn:E.
      - apply bool_decide_eq_true in E. split; [auto|discriminate].
      - apply bool_decide_eq_false in E. tauto. }
    rewrite Hin. unfold read_file.
    transitivity (command ∈ str "exit" :: filter (.≠ str "shell") file_names).
    + assert (topics.*1 ≡ₚ str "exit" :: filter (.≠ str "shell") file_names) as -> by (apply (bool_decide_unpack _); vm_compute; exact I).
      reflexivity.
    + rewrite elem_of_cons, list_elem_of_filter. apply or_iff_compat_l.
      destruct (bool_decide_reflect (command ∈ file_names)); [|tauto].
      split; [intros [H _]; split; [discriminate|exact H]|intros [_ H]; auto].
  - intros t. generalize topics. intros ts. induction ts as [|u ts IH]; cbn [find_topic]; [discriminate|].
    destruct (bool_decide (command = u.1)) eqn:E; [|exact IH]. apply bool_decide_eq_true in E as ->.
    intros [= <-]. eexists. reflexivity.
Qed.
